(* ===== verification/_CoqProject ===== *)
-Q . S2P
Prelude.v
Sorting.v
Channel.v
Calendar.v
Bytes.v
Utf8.v
Radix.v
Programs.v
Errors.v
Env.v
Money.v
Quota.v
QuotaProps.v
Redis.v
RedisSeed.v
Counters.v
CounterProps.v
Flusher.v
FlusherProps.v
Records.v
Accounts.v
Sink.v
Enforcer.v
EnforcerProps.v
Config.v
Pricing.v
Routing.v
Dispatch.v
DispatchProps.v
Json.v
Sse.v
Provider.v
Extract.v
Respond.v
Handler.v
Password.v
Tokens.v
Email.v
Throttle.v
AdminDb.v
Users.v
UserWorld.v
UserProps.v
UserExamples.v
AccountStore.v
UsageCounters.v
JsonText.v
Service.v
ServiceWorld.v
ServiceProps.v
ServiceKeys.v
ServiceQuotas.v
TenantIds.v
Ledger.v
LedgerProps.v
LedgerExamples.v
Partitions.v
AuditPage.v
AuditPaging.v
UsageReport.v
UsageReportProps.v
AdminGate.v
AdminGateProps.v
AdminCredentials.v
AdminWire.v
AdminHandlers.v
AdminApi.v
Gateway.v
GatewayProps.v
GatewayExamples.v
Clitime.v
Display.v
AdminCodec.v
AdminServer.v
AdminServerProps.v
Csv.v
ProxyCmd.v
AdminCmd.v
ConfigLoad.v
Shutdown.v
