(* ===== verification/Prelude.v ===== *)
(** * go-route, verified

    go-route is a gateway between programs and the language models they call. A request names a
    model by an alias; the gateway authenticates its key, decides which upstream targets to try,
    holds its worst cost against the tenant's spend caps, relays the first target that answers,
    settles the reservation with what was used, and records the decision with its price. A second
    service administers tenants, keys, quotas, people and credentials, and reports what was spent.

    The library models both from the HTTP server down to the tables and scripts of the stores,
    and proves what they promise. Every definition that translates code names it in brackets above
    it: the file under [src/], its lines, and the symbol.

    ** The parts and how they meet

    A proxied request passes through these files, in this order:

    - [Gateway]: the server ([proxyapi/server.go]) and the wiring of [internal/bootstrap]; its
      state [gateway] is the enforcer, the sink and what is outside (network and clock);
    - [Respond]: bearer tokens, error bodies and the client's stream; [Extract] with [Json]: the
      facts read off the request;
    - [Handler]: [Completions], every gate in order, over the class [Handler] of what it is given;
    - [Routing] with [Config]: aliases to ladders to dialable targets; [ConfigLoad] reads the
      configuration and puts in the environment's values;
    - [Enforcer]: reservation and settlement, over the classes [QuotaCounters] (implemented by
      [Counters] on the scripts of [Redis] and [RedisSeed], with a Redis to run them on),
      [TenantReader], [QuotaReader] and [UsageCounterRepository]; [Quota] and [Calendar] are
      the windows it counts in, [Flusher] the background writer of the durable counters,
      [UsageCounters] the table they are kept in;
    - [Dispatch]: the ladder walk over the class [Environment] of providers, client and clock,
      which [Gateway] implements with [Provider] (the OpenAI-compatible client, on the event
      streams of [Sse]) and [Respond];
    - [Pricing], [Sink] and [Ledger] with [TenantIds]: the decision is priced, buffered, written
      in batches and can be read back; [AuditPage], [AuditPaging] and [UsageReport] are the other
      reads of those tables.

    The admin service, from the listener in: [AdminServer] is the root of the listener and the
    server generated from the contract, which [AdminGate]'s middleware stands in front of; it
    reads a body and writes an answer by [AdminCodec], the JSON of the types in [AdminWire] on the
    writer and scanner of [JsonText] and [Json]; [AdminHandlers] are the operations as programs of
    the calls they make, and [AdminApi] runs those on the store. Behind it, [Users] (with
    [Password], [Tokens], [Email] and [Throttle]) logs people in and keeps their sessions in
    [AdminDb], run by [UserWorld]; [Service] manages tenants, keys, quotas and credentials in
    [AccountStore], run by [ServiceWorld]. [Accounts] is the data the two share.

    The processes around them: [Shutdown] is the proxy's life from its listener to its end, with the
    handlers in flight and the sink, and the admin service's, with its pool of connections; [Partitions] keeps a monthly partition ahead of the clock for
    the records. The commands: [Clitime] reads lengths of time and dates, [Display] writes amounts,
    counts and shares, [ProxyCmd] is the spend report as a table and, over [Csv], as CSV, and one
    decision explained, and [AdminCmd] the settings of the admin service, its assembly and
    the credentials made from the command line.

    Shared underneath: this file (results, the [go_scope] notation, 64-bit wrap-around, tactics
    and hints), [Sorting], [Channel], [Bytes], [Utf8], [Radix], [Errors] (error chains
    with [errors.Is] and [errors.As]), [Env] (faults, ids, randomness), [Programs] (trees of
    actions, alone or interleaved), [Money] and [Records]. Files ending in [Props], [Examples],
    [Keys] or [Quotas] hold theorems, their instances and the defects found.

    ** How the code is modelled

    Go functions are Gallina functions that evaluate. A function that can fail returns [result];
    an error value keeps its chain and the format and arguments it was built from. A function that
    changes state takes it and gives it back. Integers are [Z]; sums and products wrap at 64 bits
    where the code's do. Text is [string] or [bytes]. Where goroutines share state, each goroutine's
    position is part of the state and the interleavings are a step relation ([Flusher], [Sink],
    [Shutdown], [Partitions]);
    where calls share a store, a call is a program of actions and any threads of them may
    interleave ([Programs], [UserWorld], [ServiceWorld]). A table is a map with its constraints; a
    statement is a function that fails when it would break one; a transaction is all or nothing,
    and its commit may succeed and lose its answer.

    ** What the theorems show

    - the proxy as a whole ([GatewayProps]): a configuration that passes validation boots, unless
      it names a provider by nothing or the database does not answer, and routes as it says; every
      request is answered; nothing leaves for a request that is not admitted; a request moves the
      live counters by what it used and nothing else; and the quota is charged what the ledger
      records;
    - spend caps ([CounterProps], [EnforcerProps], [QuotaProps], [RedisSeed]): a reservation is
      all or nothing on every counter, any number of replicas respect the cap, windows tile time,
      the estimate covers the use, and the outage policy holds on every path. What the scripts
      compute is exact for amounts and limits up to 2^53, the integers a Lua number holds, and for
      windows that have not ended ([reserve_ready]); past that a cap can be overrun
      ([cap_lost_past_2_53]);
    - the durable counters ([FlusherProps], [UsageCounters]): under every interleaving no send or
      close panics; the table and what waits come to what was added less what was dropped,
      which is counted and happens only for the reasons the code has for it;
    - dispatch and the wire ([DispatchProps], [Sse], [Provider], [Handler]): the order of effects,
      the attempts recorded, termination, failures sorted by kind, an event stream decodes to what
      was written however it is cut, and a request is settled however it ends;
    - people and sessions ([UserProps], [Tokens], [Password], [Throttle]): of any calls interleaved,
      a disabled person gets no tokens, a reused refresh token is refused and, when the store
      answers, ends its sessions, the store keeps its constraints; and a person that was created
      can log in: the login starts a session;
    - accounts ([ServiceProps], [ServiceKeys], [ServiceQuotas]): every change is audited, an issued
      key authenticates and a revoked one does not, replacing quotas is exact, and asking for what
      is so already writes nothing;
    - the admin API ([AdminGateProps], [AdminCredentials], [AdminApi], [AdminServerProps]): who gets
      through the gate; and of the server as a whole, whatever bytes it is sent: every request is
      answered and no success is cut short for want of an encoding, only admins write, the allowlist
      a body says is the one answered and enforced, and a quota set put as text is the one kept in
      the table, told in the answer and the one an enforcer reading that table
      ([UsageCounters.held_to]) lets requests through by;
    - text ([JsonText], [AdminCodec]): JSON that is written is read back, value for value, and a
      time in any zone to the nanosecond;
    - records and reports ([LedgerProps], [Partitions], [AuditPage], [AuditPaging],
      [UsageReportProps]): a batch is written whole or not at all and reads back as the tables tell
      it ([LedgerProps.told]), there
      is a partition for it, paging lists every event once, and a report's rows add up to its total;
    - processes and commands ([Shutdown], [ProxyCmd], [AdminCmd], [Clitime]): a drained shutdown
      panics nowhere and hands every decision to the writer, the CSV report reads back cell for
      cell, a date read back is the day written, and a token lives the days it was asked for, as
      far as a duration holds them.

    Where the code does not do what it means to, a lemma exhibits it on a concrete run: see the
    files ending in [Examples], and [EnforcerProps], [FlusherProps], [Sink], [Pricing], [Extract],
    [UsageCounters], [AuditPage], [Throttle], [Tokens], [Sse], [Provider], [Shutdown], [ProxyCmd]
    and [AdminCmd].

    ** Fuel and bounds

    [relay] takes fuel, one unit for each event: [Gateway] gives one more than the bytes the
    upstreams have left, and [gateway_Run_returns] shows that suffices, because an event takes a
    line and a line a byte. The decoder's loops and [parse_terms] take the bytes left to read as fuel, for the same
    reason ([Decoder_Next_spec], [readLine_loop_spec]). [reserve_rounds] counts the code's own
    bound on seeding rounds. The JSON scanner takes twice the
    length of its text; [scan_print] shows it is enough for every text that is written.

    ** What is given from outside

    The network, the clock, the uuid package, SHA-256, argon2, the JWT library, [sjson], the driver,
    the parameter binders and e-mail type of [oapi-codegen]'s runtime, the time zone and what
    [jsonb] makes of a text are parameters or classes ([Outside], [Jwt], [Runtime], [Environment] and
    section variables) with what the code relies on as hypotheses or laws ([FiniteOutside],
    [JwtLaws], [RedisLaws]); each theorem that takes one has an instance in a witness.

    ** Not modelled

    - the contract's document itself: the check of a request against it is a parameter of
      [Validate], and its embedded copy is data; of JSON the texts of the decoder's errors, and of
      [net/http] the paths it redirects. Of the code generated from the SQL, the statements are
      functions of the tables; scanning a row and the nullable enums are not, nor the statements
      nothing calls;
    - of the commands: parsing flags, aligning the columns of a table, the JSON they print and reading the
      environment; connecting to PostgreSQL and Redis; log lines; HTTP timeouts;
    - decoding YAML; latency percentiles. *)
From Stdlib Require Export ZArith Lia.
From stdpp Require Export base gmap strings list fin_maps sorting pretty.

#[global] Open Scope Z_scope.

(** ** Results

    A Go function returning [(T, error)] is modelled by [result E T]: the code
    never uses the value of a call that returned a non-nil error. *)
Inductive result (E A : Type) : Type :=
| Ok (a : A)
| Err (e : E).
Arguments Ok {E A} a.
Arguments Err {E A} e.

Definition result_bind {E A B} (m : result E A) (f : A → result E B) : result E B :=
  match m with Ok a => f a | Err e => Err e end.

Declare Scope go_scope.
Delimit Scope go_scope with go.
Notation "'let!' x ':=' m 'in' k" := (result_bind m (fun x => k))
  (at level 10, x pattern, m at level 100, k at level 200) : go_scope.
#[global] Open Scope go_scope.

Definition is_ok {E A} (m : result E A) : bool :=
  match m with Ok _ => true | Err _ => false end.

Lemma result_bind_ok {E A B} (m : result E A) (f : A → result E B) b :
  result_bind m f = Ok b → ∃ a, m = Ok a ∧ f a = Ok b.
Proof. destruct m; simpl; [eauto | discriminate]. Qed.

(** ** Machine integers

    Go's [int] and [int64] are 64-bit two's complement; [wrap64] is the value an
    arithmetic result takes when it is stored back. *)
Definition wrap64 (z : Z) : Z := (z + 2 ^ 63) mod 2 ^ 64 - 2 ^ 63.

Definition int64_range (z : Z) : Prop := - 2 ^ 63 ≤ z < 2 ^ 63.

#[export] Instance int64_range_dec z : Decision (int64_range z).
Proof. unfold int64_range. apply _. Defined.

Definition max_int64 : Z := 2 ^ 63 - 1.
Definition min_int64 : Z := - 2 ^ 63.

Lemma wrap64_range z : int64_range (wrap64 z).
Proof.
  unfold wrap64, int64_range.
  pose proof (Z.mod_pos_bound (z + 2 ^ 63) (2 ^ 64) ltac:(lia)). lia.
Qed.

Lemma wrap64_id z : int64_range z → wrap64 z = z.
Proof.
  unfold wrap64, int64_range. intros Hz. rewrite Z.mod_small; lia.
Qed.

(** Wrapping is a ring morphism onto the integers modulo 2^64, which is all the
    conservation arguments need. *)
Lemma wrap64_eq_mod a b : a mod 2 ^ 64 = b mod 2 ^ 64 ↔ wrap64 a = wrap64 b.
Proof.
  unfold wrap64. split; intros H.
  - rewrite (Z.add_mod a), (Z.add_mod b), H; lia.
  - assert (Hs : (a + 2 ^ 63) mod 2 ^ 64 = (b + 2 ^ 63) mod 2 ^ 64) by lia.
    replace a with ((a + 2 ^ 63) - 2 ^ 63) by lia.
    replace b with ((b + 2 ^ 63) - 2 ^ 63) by lia.
    rewrite (Zminus_mod (a + 2 ^ 63)), (Zminus_mod (b + 2 ^ 63)), Hs. done.
Qed.

Lemma wrap64_mod z : wrap64 z mod 2 ^ 64 = z mod 2 ^ 64.
Proof.
  unfold wrap64. rewrite Zminus_mod, Zmod_mod, <- Zminus_mod. f_equal. lia.
Qed.

Lemma wrap64_idem z : wrap64 (wrap64 z) = wrap64 z.
Proof. apply wrap64_eq_mod, wrap64_mod. Qed.

Lemma wrap64_add_l a b : wrap64 (wrap64 a + b) = wrap64 (a + b).
Proof. apply wrap64_eq_mod. rewrite Z.add_mod, wrap64_mod, <- Z.add_mod; lia. Qed.

Lemma wrap64_add_r a b : wrap64 (a + wrap64 b) = wrap64 (a + b).
Proof. rewrite Z.add_comm, wrap64_add_l. f_equal. lia. Qed.

Lemma wrap64_sub_l a b : wrap64 (wrap64 a - b) = wrap64 (a - b).
Proof. apply wrap64_eq_mod. rewrite Zminus_mod, wrap64_mod, <- Zminus_mod. done. Qed.

Lemma wrap64_sub_r a b : wrap64 (a - wrap64 b) = wrap64 (a - b).
Proof. apply wrap64_eq_mod. rewrite Zminus_mod, wrap64_mod, <- Zminus_mod. done. Qed.

Create HintDb go.
Create Rewrite HintDb wrap.
#[export] Hint Resolve wrap64_range : go.
#[export] Hint Rewrite wrap64_idem wrap64_add_l wrap64_add_r wrap64_sub_l wrap64_sub_r : wrap.

(** ** Time

    A [time.Time] is its instant, in nanoseconds since the Unix epoch; the
    location only matters to formatting and every window is cut in UTC. A
    [time.Duration] is an int64 of nanoseconds. *)
Definition time := Z.
Definition duration := Z.

Definition Nanosecond : duration := 1.
Definition Microsecond : duration := 1000.
Definition Millisecond : duration := 1000000.
Definition Second : duration := 1000000000.
Definition Minute : duration := 60 * Second.
Definition Hour : duration := 60 * Minute.

(** The zero [time.Time], 0001-01-01T00:00:00Z. *)
Definition zero_time : time := - 62135596800 * Second.
Definition IsZero (t : time) : bool := t =? zero_time.

Definition Before (t u : time) : bool := t <? u.
Definition After (t u : time) : bool := u <? t.
Definition Add (t : time) (d : duration) : time := t + d.

(** [t.Sub(u)] saturates at the ends of the Duration range. *)
Definition Sub (t u : time) : duration := Z.max min_int64 (Z.min max_int64 (t - u)).

(** [t.Truncate(d)] rounds down to a multiple of [d] since the zero time. *)
Definition Truncate (t : time) (d : duration) : time :=
  if d <=? 0 then t else t - (t - zero_time) mod d.

(** [t.Unix()]: whole seconds since the epoch. *)
Definition Unix (t : time) : Z := t / Second.

(** [d.Milliseconds()] truncates towards zero. *)
Definition Milliseconds (d : duration) : Z := Z.quot d Millisecond.

Lemma Truncate_bounds t d : 0 < d → Truncate t d ≤ t < Truncate t d + d.
Proof.
  intros Hd. unfold Truncate. rewrite (proj2 (Z.leb_gt d 0)) by lia.
  pose proof (Z.mod_pos_bound (t - zero_time) d Hd). lia.
Qed.

Lemma Truncate_unique t u d :
  0 < d → Truncate t d ≤ u < Truncate t d + d → Truncate u d = Truncate t d.
Proof.
  intros Hd. unfold Truncate. rewrite (proj2 (Z.leb_gt d 0)) by lia. intros Hu.
  pose proof (Z.div_mod (t - zero_time) d ltac:(lia)).
  assert (Hr : (u - zero_time) mod d = u - zero_time - d * ((t - zero_time) / d)).
  { symmetry. apply (Z.mod_unique_pos _ _ ((t - zero_time) / d)); lia. }
  lia.
Qed.

(** ** Strings *)

(** [strings.HasPrefix], [strings.TrimPrefix] *)
Definition HasPrefix (s p : string) : bool := String.prefix p s.
Definition TrimPrefix (s p : string) : string :=
  if String.prefix p s then String.substring (String.length p) (String.length s - String.length p) s
  else s.

Definition str_len (s : string) : Z := Z.of_nat (String.length s).

(** ** Lists *)

Lemma elem_of_filter_bool {A} (f : A → bool) (l : list A) x :
  x ∈ List.filter f l ↔ f x = true ∧ x ∈ l.
Proof. rewrite !list_elem_of_In, List.filter_In. tauto. Qed.

(** Sum of a list of integers. *)
Definition zsum (l : list Z) : Z := foldr Z.add 0 l.

Lemma zsum_app l k : zsum (l ++ k) = zsum l + zsum k.
Proof. induction l as [|x l IH]; simpl; [done | rewrite IH; lia]. Qed.

Lemma zsum_permutation l k : l ≡ₚ k → zsum l = zsum k.
Proof. induction 1; simpl; lia. Qed.

#[export] Instance zsum_proper : Proper ((≡ₚ) ==> (=)) zsum.
Proof. intros l k. apply zsum_permutation. Qed.

(** ** Automation *)

(** [lia] sees quotients and remainders. *)
Ltac Zify.zify_post_hook ::= Z.to_euclidean_division_equations.

(** Split a boolean test of the code into the proposition it decides. *)
Ltac bool_prop :=
  repeat match goal with
  | H : (_ && _)%bool = true |- _ => apply andb_true_iff in H as [? ?]
  | H : (_ || _)%bool = false |- _ => apply orb_false_iff in H as [? ?]
  | H : negb _ = true |- _ => apply negb_true_iff in H
  | H : negb _ = false |- _ => apply negb_false_iff in H
  | H : (_ <? _) = true |- _ => apply Z.ltb_lt in H
  | H : (_ <? _) = false |- _ => apply Z.ltb_ge in H
  | H : (_ <=? _) = true |- _ => apply Z.leb_le in H
  | H : (_ <=? _) = false |- _ => apply Z.leb_gt in H
  | H : (_ =? _) = true |- _ => apply Z.eqb_eq in H
  | H : (_ =? _) = false |- _ => apply Z.eqb_neq in H
  | H : String.eqb _ _ = true |- _ => apply String.eqb_eq in H
  | H : String.eqb _ _ = false |- _ => apply String.eqb_neq in H
  | H : bool_decide _ = true |- _ => apply bool_decide_eq_true in H
  | H : bool_decide _ = false |- _ => apply bool_decide_eq_false in H
  end.

(** Follow the code's next branch. *)
Ltac branch :=
  match goal with
  | |- context [if ?b then _ else _] => let E := fresh "E" in destruct b eqn:E
  | |- context [match ?x with _ => _ end] => let E := fresh "E" in destruct x eqn:E
  end.

Ltac branches := repeat (branch; simplify_eq/=; try done).
