(* ===== verification/Sorting.v ===== *)
(** [sort.Slice], [sort.Strings] and [slices.SortFunc]: sorting a slice with a
    [less] function that is a strict weak order. *)
From S2P Require Import Prelude.

(** Go's [a < b] on strings compares bytes. *)
Definition string_lt (a b : string) : bool := negb (String.leb b a).

Section Sort.
Context {A : Type} (less : A → A → bool).

Definition not_after (x y : A) : Prop := less y x = false.

#[export] Instance not_after_dec : RelDecision not_after.
Proof. intros x y. unfold not_after. apply _. Defined.

Definition sort_slice (l : list A) : list A := merge_sort not_after l.

(** A comparison function a sort may be given. *)
Class LessOrder := {
  less_asym : Total not_after;
  less_trans : Transitive not_after;
}.
End Sort.
#[export] Existing Instances less_asym less_trans.

Section Sort_facts.
Context {A : Type} (less : A → A → bool).

Lemma sort_slice_perm l : sort_slice less l ≡ₚ l.
Proof. apply merge_sort_Permutation. Qed.

Lemma sort_slice_elem l x : x ∈ sort_slice less l ↔ x ∈ l.
Proof. by rewrite sort_slice_perm. Qed.

Lemma sort_slice_sorted `{!LessOrder less} l : StronglySorted (not_after less) (sort_slice less l).
Proof. apply StronglySorted_merge_sort; apply _. Qed.

(** Where no two elements tie, the result does not depend on the order the
    elements came in. *)
Lemma sort_slice_unique `{!LessOrder less} l l' :
  (∀ x y, x ∈ l → y ∈ l → less x y = false → less y x = false → x = y) →
  l ≡ₚ l' → sort_slice less l = sort_slice less l'.
Proof.
  intros Hu Hp. apply (StronglySorted_unique_strong (not_after less)).
  - intros x y Hx Hy Hxy Hyx. rewrite sort_slice_elem in Hx, Hy.
    rewrite <- Hp in Hy. by apply Hu.
  - apply sort_slice_sorted.
  - apply sort_slice_sorted.
  - by rewrite !sort_slice_perm.
Qed.
End Sort_facts.

Lemma string_lt_asym a b : string_lt a b = false → string_lt b a = false → a = b.
Proof.
  unfold string_lt. intros Ha%negb_false_iff Hb%negb_false_iff. by apply String.leb_antisym.
Qed.

Lemma string_lt_irrefl a : string_lt a a = false.
Proof. unfold string_lt. by destruct (String.leb_total a a) as [-> | ->]. Qed.

#[export] Instance string_lt_order : LessOrder string_lt.
Proof.
  split; unfold not_after, string_lt.
  - intros a b. rewrite !negb_false_iff. destruct (String.leb_total b a); auto.
  - intros a b c Ha%negb_false_iff Hb%negb_false_iff. apply negb_false_iff.
    assert (H : String.le a c).
    { transitivity b; unfold String.le; [by rewrite Ha|by rewrite Hb]. }
    unfold String.le in H. by apply Is_true_true.
Qed.

(** [sort.Strings] *)
Definition sort_strings : list string → list string := sort_slice string_lt.

Lemma sort_strings_unique l l' : l ≡ₚ l' → sort_strings l = sort_strings l'.
Proof.
  intros Hp. apply sort_slice_unique; [apply _| |done]. intros x y _ _. apply string_lt_asym.
Qed.

(** Comparing on a key, then on another: the shape of every [less] in the code. *)
Definition lex_less {A} (eq lt rest : A → A → bool) (x y : A) : bool :=
  if eq x y then rest x y else lt x y.

Lemma lex_less_order {A K} `{EqDecision K} (key : A → K) (lt : K → K → bool)
    (rest : A → A → bool) :
  LessOrder lt → (∀ a b, lt a b = false → lt b a = false → a = b) → LessOrder rest →
  LessOrder (lex_less (λ x y, bool_decide (key x = key y)) (λ x y, lt (key x) (key y)) rest).
Proof.
  intros [Hlt Hltt] Hanti [Hr Hrt]. unfold not_after in *.
  split; unfold not_after, lex_less.
  - intros x y. destruct (decide (key x = key y)) as [E|E].
    + rewrite !bool_decide_true by done. apply Hr.
    + rewrite !bool_decide_false by done. apply Hlt.
  - intros x y z Hxy Hyz. specialize (Hltt (key x) (key y) (key z)).
    specialize (Hrt x y z).
    destruct (decide (key x = key y)) as [E1|E1], (decide (key y = key z)) as [E2|E2].
    + rewrite bool_decide_true in Hxy, Hyz |- * by congruence. auto.
    + rewrite bool_decide_true in Hxy by done. rewrite bool_decide_false in Hyz |- * by congruence.
      by rewrite E1.
    + rewrite bool_decide_true in Hyz by done. rewrite bool_decide_false in Hxy |- * by congruence.
      by rewrite <- E2.
    + rewrite bool_decide_false in Hxy, Hyz by congruence.
      destruct (decide (key z = key x)) as [E3|E3].
      * exfalso. apply E2. rewrite E3 in Hyz. apply Hanti; [by rewrite E3|]. 
        by rewrite E3.
      * rewrite bool_decide_false by done. auto.
Qed.
