(* ===== verification/Channel.v ===== *)
(** Go's buffered channels, as the two background writers use them: a
    non-blocking send in a [select] with a [default], a receive, and [close].

    Sending on a closed channel and closing one twice panic. *)
From S2P Require Import Prelude.

Record chan (A : Type) := mkChan {
  ch_buf : list A;
  ch_cap : Z;
  ch_closed : bool;
}.
Arguments mkChan {A} _ _ _.
Arguments ch_buf {A} _.
Arguments ch_cap {A} _.
Arguments ch_closed {A} _.

Definition make_chan {A} (cap : Z) : chan A := mkChan [] cap false.

Inductive sent (A : Type) := Sent (c : chan A) | SendDefault | SendPanic.
Arguments Sent {A} c.
Arguments SendDefault {A}.
Arguments SendPanic {A}.

(** [select { case c <- x: default: }] *)
Definition try_send {A} (c : chan A) (x : A) : sent A :=
  if ch_closed c then SendPanic
  else if Z.of_nat (length (ch_buf c)) <? ch_cap c
  then Sent (mkChan (ch_buf c ++ [x]) (ch_cap c) false)
  else SendDefault.

Inductive received (A : Type) := Received (x : A) (c : chan A) | RecvClosed | RecvBlocked.
Arguments Received {A} x c.
Arguments RecvClosed {A}.
Arguments RecvBlocked {A}.

(** [x, ok := <-c]: a closed channel yields what it holds before it reports closed. *)
Definition receive {A} (c : chan A) : received A :=
  match ch_buf c with
  | x :: buf => Received x (mkChan buf (ch_cap c) (ch_closed c))
  | [] => if ch_closed c then RecvClosed else RecvBlocked
  end.

(** [close(c)]; [None] is the panic. *)
Definition close_chan {A} (c : chan A) : option (chan A) :=
  if ch_closed c then None else Some (mkChan (ch_buf c) (ch_cap c) true).

Definition chan_bounded {A} (c : chan A) : Prop := Z.of_nat (length (ch_buf c)) ≤ ch_cap c.

Lemma try_send_bounded {A} (c c' : chan A) x :
  try_send c x = Sent c' → chan_bounded c' ∧ ch_cap c' = ch_cap c ∧ ch_closed c' = false.
Proof.
  unfold try_send, chan_bounded. intros H. repeat case_match; simplify_eq/=. bool_prop.
  rewrite length_app. simpl. by split_and!; [lia|..].
Qed.

Lemma try_send_panic {A} (c : chan A) x : try_send c x = SendPanic ↔ ch_closed c = true.
Proof. unfold try_send. repeat case_match; naive_solver. Qed.

Lemma receive_fifo {A} (c c' : chan A) x :
  receive c = Received x c' → ch_buf c = x :: ch_buf c' ∧ ch_cap c' = ch_cap c ∧ ch_closed c' = ch_closed c.
Proof. unfold receive. destruct (ch_buf c) eqn:E; [by case_match|]. by intros [= <- <-]. Qed.

Lemma receive_closed {A} (c : chan A) :
  receive c = RecvClosed ↔ ch_buf c = [] ∧ ch_closed c = true.
Proof. unfold receive. destruct (ch_buf c); [case_match|]; naive_solver. Qed.
