(* ===== verification/Calendar.v ===== *)
(** The proleptic Gregorian calendar of Go's [time] package, in UTC: [Year],
    [Month], [Day], [time.Date] and [AddDate], as the quota windows use them.

    Days are numbered from 0001-01-01, the date of the zero [time.Time]. *)
From S2P Require Import Prelude.

Definition DayLen : duration := 24 * Hour.

(** The number of the day [t] falls on. *)
Definition abs_day (t : time) : Z := (t - zero_time) / DayLen.

(** Midnight at the start of day [d]. *)
Definition day_time (d : Z) : time := zero_time + d * DayLen.

Definition is_leap (y : Z) : bool :=
  (y mod 4 =? 0) && (negb (y mod 100 =? 0) || (y mod 400 =? 0)).

Definition leap_day (y : Z) : Z := if is_leap y then 1 else 0.

(** The first day of year [y]. *)
Definition year_start (y : Z) : Z :=
  365 * (y - 1) + (y - 1) / 4 - (y - 1) / 100 + (y - 1) / 400.

(** The year containing day [d]: cut off 400-, 100-, 4- and 1-year cycles. *)
Definition year_of_day (d : Z) : Z :=
  let n400 := d / 146097 in
  let d := d mod 146097 in
  let n100 := Z.min 3 (d / 36524) in
  let d := d - 36524 * n100 in
  let n4 := d / 1461 in
  let d := d mod 1461 in
  let n1 := Z.min 3 (d / 365) in
  400 * n400 + 100 * n100 + 4 * n4 + n1 + 1.

(** Days before the first of month [m] (1-based; 13 is the length of the year). *)
Definition days_before (y m : Z) : Z :=
  nth (Z.to_nat (m - 1)) [0; 31; 59; 90; 120; 151; 181; 212; 243; 273; 304; 334; 365] 0
  + (if 2 <? m then leap_day y else 0).

Definition month_of_yday (y yday : Z) : Z :=
  let m := yday / 31 + 1 in
  if days_before y (m + 1) <=? yday then m + 1 else m.

(** The first day of month [k], months being numbered [12 * year + month - 1]. *)
Definition month_start (k : Z) : Z :=
  year_start (k / 12) + days_before (k / 12) (k mod 12 + 1).

Definition Year (t : time) : Z := year_of_day (abs_day t).
Definition Month (t : time) : Z :=
  month_of_yday (Year t) (abs_day t - year_start (Year t)).
Definition Day (t : time) : Z :=
  abs_day t - month_start (12 * Year t + Month t - 1) + 1.

(** [time.Date(y, m, d, 0, 0, 0, 0, time.UTC)], months and days out of range
    carrying over. *)
Definition Date (y m d : Z) : time := day_time (month_start (12 * y + m - 1) + d - 1).

(** [t.AddDate(years, months, days)] *)
Definition AddDate (t : time) (years months days : Z) : time :=
  Date (Year t + years) (Month t + months) (Day t + days)
  + (t - zero_time) mod DayLen.

(** ** Years *)

Lemma year_step y : year_start (y + 1) = year_start y + 365 + leap_day y.
Proof.
  unfold year_start, leap_day, is_leap.
  replace (y + 1 - 1) with y by lia.
  destruct (Z.eqb_spec (y mod 4) 0), (Z.eqb_spec (y mod 100) 0), (Z.eqb_spec (y mod 400) 0);
    simpl; lia.
Qed.

Lemma year_of_day_spec d :
  year_start (year_of_day d) ≤ d < year_start (year_of_day d + 1).
Proof.
  unfold year_of_day, year_start. cbv zeta.
  set (a := d / 146097). set (r := d mod 146097).
  set (b := Z.min 3 (r / 36524)). set (r2 := r - 36524 * b).
  set (c := r2 / 1461). set (r3 := r2 mod 1461). set (e := Z.min 3 (r3 / 365)).
  assert (Hd : d = 146097 * a + 36524 * b + 1461 * c + r3) by (subst a r b r2 c r3; lia).
  assert (0 ≤ b ≤ 3 ∧ 0 ≤ r2 ≤ 36524 ∧ (b = 3 ∨ r2 < 36524)) as (? & ? & ?)
    by (subst b r2 r; lia).
  assert (0 ≤ c ≤ 24 ∧ 0 ≤ r3 < 1461 ∧ (c < 24 ∨ r3 < 1460 ∨ b = 3)) as (? & ? & ?)
    by (subst c r3; lia).
  assert (0 ≤ e ≤ 3 ∧ 365 * e ≤ r3 ∧ (r3 < 365 * e + 365 ∨ (e = 3 ∧ r3 = 1460)))
    as (? & ? & ?) by (subst e; lia).
  clearbody a b r2 c r3 e.
  set (y := 400 * a + 100 * b + 4 * c + e).
  replace (y + 1 - 1) with y by lia. replace (y + 1 + 1 - 1) with (y + 1) by lia.
  assert (y / 4 = 100 * a + 25 * b + c) as -> by (subst y; lia).
  assert (y / 100 = 4 * a + b) as -> by (subst y; lia).
  assert (y / 400 = a) as -> by (subst y; lia).
  split; [subst y; lia|].
  assert ((y + 1) / 4 = 100 * a + 25 * b + c + (if decide (e = 3) then 1 else 0)) as ->
    by (subst y; case_decide; lia).
  assert ((y + 1) / 100 = 4 * a + b + (if decide (e = 3 ∧ c = 24) then 1 else 0)) as ->
    by (subst y; case_decide; lia).
  assert ((y + 1) / 400 = a + (if decide (e = 3 ∧ c = 24 ∧ b = 3) then 1 else 0)) as ->
    by (subst y; case_decide; lia).
  subst y. repeat case_decide; lia.
Qed.

(** ** Months *)

Lemma days_before_step y m :
  1 ≤ m ≤ 12 → days_before y m + 28 ≤ days_before y (m + 1) ≤ days_before y m + 31.
Proof.
  intros Hm. unfold days_before, leap_day.
  assert (m = 1 ∨ m = 2 ∨ m = 3 ∨ m = 4 ∨ m = 5 ∨ m = 6 ∨ m = 7 ∨ m = 8 ∨ m = 9 ∨ m = 10
    ∨ m = 11 ∨ m = 12) as Hc by lia.
  destruct (is_leap y); repeat destruct Hc as [->|Hc]; try subst m; vm_compute; split; discriminate.
Qed.

Lemma days_before_1 y : days_before y 1 = 0.
Proof. done. Qed.

Lemma days_before_13 y : days_before y 13 = 365 + leap_day y.
Proof. done. Qed.

Lemma leap_day_range y : 0 ≤ leap_day y ≤ 1.
Proof. unfold leap_day. destruct (is_leap y); lia. Qed.

Lemma month_of_yday_spec y yday :
  0 ≤ yday < 365 + leap_day y →
  1 ≤ month_of_yday y yday ≤ 12 ∧
  days_before y (month_of_yday y yday) ≤ yday < days_before y (month_of_yday y yday + 1).
Proof.
  intros Hd. pose proof (leap_day_range y) as Hl.
  unfold month_of_yday. cbv zeta.
  assert (Hq : 0 ≤ yday / 31 ≤ 11) by lia.
  assert (Hr : 31 * (yday / 31) ≤ yday < 31 * (yday / 31) + 31) by lia.
  generalize dependent (yday / 31). intros q Hq Hr.
  assert (q = 0 ∨ q = 1 ∨ q = 2 ∨ q = 3 ∨ q = 4 ∨ q = 5 ∨ q = 6 ∨ q = 7 ∨ q = 8 ∨ q = 9
    ∨ q = 10 ∨ q = 11) as Hc by lia.
  unfold days_before.
  repeat destruct Hc as [->|Hc]; try subst q; simpl;
    match goal with |- context [if ?b then _ else _] => destruct b eqn:E end;
    simpl; bool_prop; lia.
Qed.

Lemma month_start_step k : month_start k + 28 ≤ month_start (k + 1) ≤ month_start k + 31.
Proof.
  unfold month_start.
  destruct (decide (k mod 12 = 11)) as [H|H].
  - assert ((k + 1) / 12 = k / 12 + 1) as -> by lia.
    assert ((k + 1) mod 12 = 0) as -> by lia. rewrite H.
    rewrite year_step, Z.add_0_l, days_before_1.
    pose proof (days_before_step (k / 12) 12 ltac:(lia)) as Hs.
    change (12 + 1) with 13 in Hs. rewrite days_before_13 in Hs.
    change (11 + 1) with 12. lia.
  - assert ((k + 1) / 12 = k / 12) as -> by lia.
    assert ((k + 1) mod 12 = k mod 12 + 1) as -> by lia.
    pose proof (days_before_step (k / 12) (k mod 12 + 1) ltac:(lia)). lia.
Qed.

Lemma month_start_mono j k : j < k → month_start j < month_start k.
Proof.
  intros H. replace k with (j + 1 + Z.of_nat (Z.to_nat (k - j - 1))) by lia.
  induction (Z.to_nat (k - j - 1)) as [|n IH].
  - rewrite Z.add_0_r. pose proof (month_start_step j). lia.
  - replace (j + 1 + Z.of_nat (S n)) with (j + 1 + Z.of_nat n + 1) by lia.
    pose proof (month_start_step (j + 1 + Z.of_nat n)). lia.
Qed.

(** The month index of an instant. *)
Definition month_index (t : time) : Z := 12 * Year t + Month t - 1.

Lemma Month_range t : 1 ≤ Month t ≤ 12.
Proof.
  apply month_of_yday_spec. pose proof (year_of_day_spec (abs_day t)) as H.
  fold (Year t) in H. rewrite year_step in H. lia.
Qed.

Lemma month_index_spec t :
  month_start (month_index t) ≤ abs_day t < month_start (month_index t + 1).
Proof.
  pose proof (Month_range t) as Hm.
  pose proof (year_of_day_spec (abs_day t)) as Hy. fold (Year t) in Hy.
  rewrite year_step in Hy.
  destruct (month_of_yday_spec (Year t) (abs_day t - year_start (Year t)) ltac:(lia))
    as [_ Hb]. fold (Month t) in Hb.
  assert (Hk : month_start (month_index t) = year_start (Year t) + days_before (Year t) (Month t)).
  { unfold month_start, month_index.
    replace ((12 * Year t + Month t - 1) / 12) with (Year t) by lia.
    by replace ((12 * Year t + Month t - 1) mod 12 + 1) with (Month t) by lia. }
  rewrite Hk. split; [lia|]. unfold month_index.
  destruct (decide (Month t = 12)) as [E|E].
  - unfold month_start. rewrite E in *.
    replace ((12 * Year t + 12 - 1 + 1) / 12) with (Year t + 1) by lia.
    replace ((12 * Year t + 12 - 1 + 1) mod 12) with 0 by lia.
    rewrite year_step, Z.add_0_l, days_before_1.
    change (12 + 1) with 13 in Hb. rewrite days_before_13 in Hb. lia.
  - unfold month_start.
    replace ((12 * Year t + Month t - 1 + 1) / 12) with (Year t) by lia.
    replace ((12 * Year t + Month t - 1 + 1) mod 12 + 1) with (Month t + 1) by lia. lia.
Qed.

(** An instant's month is the only one whose days contain it. *)
Lemma month_index_unique t k :
  month_start k ≤ abs_day t < month_start (k + 1) → month_index t = k.
Proof.
  intros Hk. pose proof (month_index_spec t) as Ht.
  destruct (Z.lt_trichotomy (month_index t) k) as [H|[H|H]]; [|done|].
  - destruct (decide (month_index t + 1 = k)) as [<-|]; [lia|].
    pose proof (month_start_mono (month_index t + 1) k ltac:(lia)). lia.
  - destruct (decide (k + 1 = month_index t)) as [E|]; [rewrite <- E in Ht; lia|].
    pose proof (month_start_mono (k + 1) (month_index t) ltac:(lia)). lia.
Qed.

(** ** Instants and days *)

Lemma abs_day_bounds t : day_time (abs_day t) ≤ t < day_time (abs_day t + 1).
Proof. unfold abs_day, day_time, DayLen, Hour, Minute, Second. lia. Qed.

Lemma abs_day_day_time d : abs_day (day_time d) = d.
Proof. unfold abs_day, day_time, DayLen, Hour, Minute, Second. lia. Qed.

Lemma day_time_le d e : day_time d ≤ day_time e ↔ d ≤ e.
Proof. unfold day_time, DayLen, Hour, Minute, Second. lia. Qed.

Lemma abs_day_between t d e : day_time d ≤ t < day_time e → d ≤ abs_day t < e.
Proof. unfold abs_day, day_time, DayLen, Hour, Minute, Second. lia. Qed.

(** [time.Date] undoes [Year], [Month] and [Day]. *)
Lemma Date_civil t : Date (Year t) (Month t) (Day t) = day_time (abs_day t).
Proof. unfold Date, Day. f_equal. lia. Qed.

Lemma Date_first t : Date (Year t) (Month t) 1 = day_time (month_start (month_index t)).
Proof. unfold Date, month_index. f_equal. lia. Qed.

Lemma midnight_of_day d : (day_time d - zero_time) mod DayLen = 0.
Proof. unfold day_time, DayLen, Hour, Minute, Second. lia. Qed.

Lemma AddDate_day d : AddDate (day_time d) 0 0 1 = day_time (d + 1).
Proof.
  unfold AddDate. rewrite midnight_of_day, !Z.add_0_r. unfold Date.
  f_equal. unfold Day. rewrite abs_day_day_time. lia.
Qed.

Lemma AddDate_month k : AddDate (day_time (month_start k)) 0 1 0 = day_time (month_start (k + 1)).
Proof.
  set (t := day_time (month_start k)).
  assert (Hk : month_index t = k).
  { apply month_index_unique. unfold t. rewrite abs_day_day_time.
    pose proof (month_start_step k). lia. }
  assert (HD : Day t = 1).
  { unfold Day. change (12 * Year t + Month t - 1) with (month_index t). rewrite Hk.
    unfold t. rewrite abs_day_day_time. lia. }
  unfold AddDate. rewrite HD. unfold t at 3. rewrite midnight_of_day.
  unfold Date. rewrite Z.add_0_r. f_equal.
  replace (12 * (Year t + 0) + (Month t + 1) - 1) with (month_index t + 1)
    by (unfold month_index; lia).
  rewrite Hk. lia.
Qed.
