(* ===== verification/Bytes.v ===== *)
(** Byte strings and the functions of Go's [bytes] package the wire formats use. *)
From Stdlib Require Import Ascii.
From S2P Require Import Prelude.

Definition bytes := list ascii.

Definition LF : ascii := "010"%char.
Definition CR : ascii := "013"%char.
Definition blen (b : bytes) : Z := Z.of_nat (length b).
Definition lit (s : string) : bytes := String.list_ascii_of_string s.

(** Everything before the first [c], and everything after it. *)
Fixpoint cut (c : ascii) (b : bytes) : option (bytes * bytes) :=
  match b with
  | [] => None
  | x :: b =>
      if decide (x = c) then Some ([], b)
      else match cut c b with Some (l, r) => Some (x :: l, r) | None => None end
  end.

(** [bytes.Split(b, []byte{c})]: never empty. *)
Fixpoint split_on (c : ascii) (b : bytes) : list bytes :=
  match b with
  | [] => [[]]
  | x :: b =>
      if decide (x = c) then [] :: split_on c b
      else match split_on c b with
           | [] => [[x]]
           | seg :: segs => (x :: seg) :: segs
           end
  end.

(** [bytes.TrimSuffix(b, []byte{c})] *)
Definition trim_last (c : ascii) (b : bytes) : bytes :=
  match last b with
  | Some x => if decide (x = c) then take (pred (length b)) b else b
  | None => b
  end.

(** ** Characters

    Letters are those of ASCII: the case tables and the white space of the rest of Unicode
    are not modelled. *)
Definition code (c : ascii) : Z := Z.of_N (N_of_ascii c).
Definition byte (z : Z) : ascii := ascii_of_N (Z.to_N z).
Definition between (lo hi : Z) (c : ascii) : bool := (lo <=? code c) && (code c <=? hi).
Definition upper (c : ascii) : ascii := if between 97 122 c then byte (code c - 32) else c.
Definition lower (c : ascii) : ascii := if between 65 90 c then byte (code c + 32) else c.

Definition str (b : bytes) : string := String.string_of_list_ascii b.

Lemma str_lit s : str (lit s) = s.
Proof. apply String.string_of_list_ascii_of_string. Qed.

Lemma lit_str b : lit (str b) = b.
Proof. apply String.list_ascii_of_string_of_list_ascii. Qed.

Lemma str_nonempty b : b ≠ [] → str b ≠ "".
Proof. by destruct b. Qed.

(** [strings.ToLower] *)
Definition ToLower (s : string) : string := str (map lower (lit s)).

(** [strings.TrimSpace] and [strings.EqualFold]. *)
Definition trim_space_char (c : ascii) : bool := bool_decide (code c ∈ [9; 10; 11; 12; 13; 32]).
Fixpoint trim_left (b : bytes) : bytes :=
  match b with c :: r => if trim_space_char c then trim_left r else b | [] => [] end.
Definition TrimSpace (b : bytes) : bytes := reverse (trim_left (reverse (trim_left b))).
Definition EqualFold (a b : bytes) : bool := bool_decide (map upper a = map upper b).

(** Decimal digits, the longest run of them and its value. *)
Definition is_digit (c : ascii) : bool := (48 <=? code c) && (code c <=? 57).
Fixpoint digits (b : bytes) : bytes * bytes :=
  match b with
  | c :: b' => if is_digit c then let '(ds, r) := digits b' in (c :: ds, r) else ([], b)
  | [] => ([], [])
  end.
Definition decimal (ds : bytes) : Z := fold_left (λ acc c, 10 * acc + (code c - 48)) ds 0.

(** [bytes.HasPrefix], [strings.CutPrefix] and [strings.Contains]. *)
Fixpoint CutPrefix (p b : bytes) : option bytes :=
  match p, b with
  | [], _ => Some b
  | x :: p, y :: b => if decide (x = y) then CutPrefix p b else None
  | _, _ => None
  end.
Fixpoint Contains (b p : bytes) : bool :=
  match CutPrefix p b with
  | Some _ => true
  | None => match b with [] => false | _ :: b => Contains b p end
  end.

(** ** Cutting and joining *)

Lemma cut_Some c b l r : cut c b = Some (l, r) → b = l ++ c :: r ∧ c ∉ l.
Proof.
  revert l r. induction b as [|x b IH]; intros l r Hc; simpl in Hc; [done|].
  destruct (decide (x = c)) as [->|Hne]; [by simplify_eq; split; [|apply not_elem_of_nil]|].
  destruct (cut c b) as [[l' r']|]; [|done]. simplify_eq/=.
  destruct (IH l' r eq_refl) as [-> ?]. split; [done|]. by apply not_elem_of_cons.
Qed.

Lemma cut_app c l r : c ∉ l → cut c (l ++ c :: r) = Some (l, r).
Proof.
  induction l as [|x l IH]; simpl; intros Hl; [by rewrite decide_True|].
  apply not_elem_of_cons in Hl as [? ?]. by rewrite decide_False, IH.
Qed.

Lemma cut_None c b : cut c b = None ↔ c ∉ b.
Proof.
  split.
  - intros Hc Hin. apply list_elem_of_split in Hin as (l & r & ->).
    induction l as [|x l IH]; simpl in Hc; [by rewrite decide_True in Hc|].
    destruct (decide (x = c)); [done|]. destruct (cut c (l ++ c :: r)) as [[]|]; [done|]. by apply IH.
  - intros Hn. destruct (cut c b) as [[l r]|] eqn:E; [|done].
    apply cut_Some in E as [-> _]. set_solver.
Qed.

Lemma trim_last_app c b x : trim_last c (b ++ [x]) = if decide (x = c) then b else b ++ [x].
Proof.
  unfold trim_last. rewrite last_snoc, length_app. simpl.
  rewrite Nat.add_comm. simpl. by rewrite take_app_length.
Qed.

Lemma trim_last_id c b : last b ≠ Some c → trim_last c b = b.
Proof. unfold trim_last. destruct (last b) as [x|]; [|done]. intros. rewrite decide_False; congruence. Qed.

Lemma cut_app_notin c a b :
  c ∉ a → cut c (a ++ b) = match cut c b with Some (l, r) => Some (a ++ l, r) | None => None end.
Proof.
  intros Ha. induction a as [|x a IH]; simpl; [by destruct (cut c b) as [[]|]|].
  apply not_elem_of_cons in Ha as [? ?]. rewrite decide_False, IH by done.
  by destruct (cut c b) as [[]|].
Qed.

Lemma blen_app a b : blen (a ++ b) = blen a + blen b.
Proof. unfold blen. rewrite length_app. lia. Qed.

Lemma blen_nil_iff a : blen a = 0 ↔ a = [].
Proof. unfold blen. destruct a; simpl; split; intros; done || lia. Qed.

Lemma split_on_nonempty c b : split_on c b ≠ [].
Proof. destruct b as [|x b]; simpl; [done|]. case_decide; [done|]. by destruct (split_on c b). Qed.

Lemma split_on_cut c b :
  split_on c b = match cut c b with Some (l, r) => l :: split_on c r | None => [b] end.
Proof.
  induction b as [|x b IH]; [done|]. simpl. case_decide; [done|]. rewrite IH.
  by destruct (cut c b) as [[]|].
Qed.

Lemma split_on_notin c b : Forall (λ seg, c ∉ seg) (split_on c b).
Proof.
  induction b as [|x b IH]; simpl; [repeat constructor; set_solver|].
  case_decide; [constructor; [set_solver|done]|].
  destruct (split_on c b) as [|s segs]; [repeat constructor; set_solver|].
  inversion IH; subst. constructor; [|done]. by apply not_elem_of_cons.
Qed.

Lemma split_on_app c l r : c ∉ l → split_on c (l ++ c :: r) = l :: split_on c r.
Proof. intros. by rewrite split_on_cut, cut_app. Qed.
Lemma split_on_last c l : c ∉ l → split_on c l = [l].
Proof. intros. by rewrite split_on_cut, (proj2 (cut_None c l)). Qed.

Lemma split_on_join b s segs :
  split_on LF b = s :: segs → b = s ++ concat (map (cons LF) segs).
Proof.
  revert s segs. induction b as [|x b IH]; intros s segs; simpl; [by intros [= <- <-]|].
  case_decide as E; [subst x|].
  - intros [= <- <-]. destruct (split_on LF b) as [|s' segs'] eqn:Es;
      [by apply split_on_nonempty in Es|]. simpl. f_equal. by apply IH.
  - destruct (split_on LF b) as [|s' segs'] eqn:Es; [by apply split_on_nonempty in Es|].
    intros [= <- <-]. simpl. f_equal. by apply IH.
Qed.

Lemma split_on_lines ls r :
  Forall (λ l, LF ∉ l) ls →
  split_on LF (concat (map (λ l, l ++ [LF]) ls) ++ r) = ls ++ split_on LF r.
Proof.
  induction 1 as [|l ls Hl _ IH]; [done|]. simpl. rewrite split_on_cut, <- !app_assoc. simpl.
  rewrite cut_app by done. by rewrite IH.
Qed.


(** ** Prefixes and occurrences *)

Lemma CutPrefix_Some p b r : CutPrefix p b = Some r ↔ b = p ++ r.
Proof.
  revert b. induction p as [|x p IH]; intros [|y b]; simpl; [naive_solver..|].
  case_decide as E; [subst; rewrite IH|]; naive_solver.
Qed.

Lemma CutPrefix_app p r : CutPrefix p (p ++ r) = Some r.
Proof. by apply CutPrefix_Some. Qed.

Lemma Contains_spec b p : Contains b p = true ↔ ∃ l r, b = l ++ p ++ r.
Proof.
  induction b as [|x b IH]; cbn [Contains].
  - destruct (CutPrefix p []) as [r|] eqn:E.
    + apply CutPrefix_Some in E. split; [by exists [], r|done].
    + split; [done|]. intros (l & r & Hl). symmetry in Hl. apply app_nil in Hl as [_ Hl].
      apply app_nil in Hl as [-> ->]. done.
  - destruct (CutPrefix p (x :: b)) as [r|] eqn:E.
    + apply CutPrefix_Some in E. split; [by exists [], r|done].
    + rewrite IH. split; [intros (l & r & ->); by exists (x :: l), r|].
      intros ([|y l] & r & Hl); simplify_eq/=; [|by exists l, r].
      assert (CutPrefix p (p ++ r) = Some r) by apply CutPrefix_app. congruence.
Qed.

(** ** Decimal text

    Integers as decimal text: [strconv.FormatInt] and [strconv.ParseInt] in base 10. *)

Definition FormatInt (z : Z) : bytes := lit (pretty z).

(** A sign, digits, and a value of 64 bits. *)
Definition ParseInt (b : bytes) : option Z :=
  let '(neg, ds) := match b with
                    | "+"%char :: r => (false, r)
                    | "-"%char :: r => (true, r)
                    | _ => (false, b)
                    end in
  if bool_decide (ds = []) || negb (forallb is_digit ds) then None
  else let z := if neg : bool then - decimal ds else decimal ds in
       if bool_decide (int64_range z) then Some z else None.

(** ** What is written is read *)

Lemma lit_cons c s : lit (String c s) = c :: lit s.
Proof. done. Qed.

Lemma decimal_app ds c : decimal (ds ++ [c]) = 10 * decimal ds + (code c - 48).
Proof. unfold decimal. by rewrite fold_left_app. Qed.

Lemma pretty_digit x :
  (x < 10)%N → is_digit (pretty_N_char x) = true ∧ code (pretty_N_char x) - 48 = Z.of_N x.
Proof.
  intros Hx. assert (Hc : (x = 0 ∨ x = 1 ∨ x = 2 ∨ x = 3 ∨ x = 4 ∨ x = 5 ∨ x = 6 ∨ x = 7 ∨ x = 8 ∨ x = 9)%N).
  { lia. }
  do 9 (destruct Hc as [->|Hc]; [done|]). by subst.
Qed.

Lemma pretty_N_go_digits x s :
  ∃ ds, lit (pretty_N_go x s) = ds ++ lit s ∧ forallb is_digit ds = true ∧ decimal ds = Z.of_N x ∧
        ((0 < x)%N → ds ≠ []).
Proof.
  revert s. induction (N.lt_wf_0 x) as [x _ IH]. intros s.
  destruct (decide (x = 0)%N) as [->|Hx]; [by exists []|].
  rewrite pretty_N_go_step by lia.
  destruct (IH (x / 10)%N ltac:(by apply N.div_lt; lia) (String (pretty_N_char (x `mod` 10)%N) s))
    as (ds & -> & Hd & Hv & _).
  destruct (pretty_digit (x `mod` 10)%N ltac:(by apply N.mod_lt)) as [Hc Hcv].
  exists (ds ++ [pretty_N_char (x `mod` 10)%N]). rewrite lit_cons. split_and!.
  - by rewrite <- app_assoc.
  - by rewrite forallb_app, Hd; simpl; rewrite Hc.
  - rewrite decimal_app, Hv, Hcv. pose proof (N.div_mod' x 10). lia.
  - by destruct ds.
Qed.

Lemma pretty_N_digits (x : N) :
  forallb is_digit (lit (pretty x)) = true ∧ decimal (lit (pretty x)) = Z.of_N x ∧ lit (pretty x) ≠ [].
Proof.
  unfold pretty, pretty_N. case_decide as Hx; [by subst|].
  destruct (pretty_N_go_digits x "") as (ds & -> & Hd & Hv & Hne). rewrite app_nil_r. split_and!; [done..|].
  apply Hne. lia.
Qed.

Lemma FormatInt_neg p : FormatInt (Z.neg p) = "-"%char :: lit (pretty (N.pos p)).
Proof. done. Qed.
Lemma FormatInt_nonneg x : FormatInt (Z.of_N x) = lit (pretty x).
Proof. by destruct x. Qed.

Lemma ParseInt_unsigned ds :
  forallb is_digit ds = true → ds ≠ [] → int64_range (decimal ds) → ParseInt ds = Some (decimal ds).
Proof.
  intros Hd Hne Hr. destruct ds as [|c ds]; [done|].
  assert (Hs : ParseInt (c :: ds) = if bool_decide (c :: ds = []) || negb (forallb is_digit (c :: ds)) then None
                 else if bool_decide (int64_range (decimal (c :: ds))) then Some (decimal (c :: ds)) else None).
  { simpl in Hd. apply andb_true_iff in Hd as [Hc _].
    by destruct c as [[] [] [] [] [] [] [] []]. }
  rewrite Hs, bool_decide_eq_false_2, Hd by done. simpl. by rewrite bool_decide_eq_true_2.
Qed.

Lemma ParseInt_FormatInt z : int64_range z → ParseInt (FormatInt z) = Some z.
Proof.
  intros Hz. destruct (decide (0 ≤ z)) as [Hn|Hn].
  - rewrite <- (Z2N.id z Hn), FormatInt_nonneg. destruct (pretty_N_digits (Z.to_N z)) as (Hd & Hv & Hne).
    rewrite ParseInt_unsigned; rewrite ?Hv; try done. by rewrite Z2N.id.
  - destruct z as [|p|p]; try lia. rewrite FormatInt_neg. destruct (pretty_N_digits (N.pos p)) as (Hd & Hv & Hne).
    unfold ParseInt. rewrite bool_decide_eq_false_2, Hd, Hv by done. simpl. by rewrite bool_decide_eq_true_2.
Qed.

Lemma FormatInt_chars z c : c ∈ FormatInt z → is_digit c = true ∨ c = "-"%char.
Proof.
  assert (Hd : ∀ x : N, c ∈ lit (pretty x) → is_digit c = true).
  { intros x Hc. destruct (pretty_N_digits x) as (Hd & _). rewrite forallb_forall in Hd.
    by apply Hd, list_elem_of_In. }
  destruct z as [|p|p]; intros Hc; [left; by apply (Hd 0%N)|left; by apply (Hd (N.pos p))|].
  rewrite FormatInt_neg in Hc. apply elem_of_cons in Hc as [->|Hc]; [by right|left; by apply (Hd (N.pos p))].
Qed.
