(* ===== verification/Utf8.v ===== *)
(** UTF-8 as Go's [unicode/utf8] reads it. *)
From Stdlib Require Import Ascii.
From S2P Require Import Prelude Bytes.

(** UTF-8 of a code point. *)
Definition utf8 (z : Z) : bytes :=
  if z <? 128 then [byte z]
  else if z <? 2048 then [byte (192 + z / 64); byte (128 + z mod 64)]
  else if z <? 65536
  then [byte (224 + z / 4096); byte (128 + z / 64 mod 64); byte (128 + z mod 64)]
  else [byte (240 + z / 262144); byte (128 + z / 4096 mod 64); byte (128 + z / 64 mod 64);
        byte (128 + z mod 64)].
Definition replacement : bytes := utf8 65533.

Definition continuation (c : ascii) : bool := (128 <=? code c) && (code c <=? 191).

(** A well-formed multi-byte sequence, by its first bytes. *)
Definition valid2 (c c1 : ascii) : bool := between 194 223 c && continuation c1.
Definition valid3 (c c1 c2 : ascii) : bool :=
  between 224 239 c && continuation c1 && continuation c2 &&
  (if code c =? 224 then 160 <=? code c1 else if code c =? 237 then code c1 <=? 159 else true).
Definition valid4 (c c1 c2 c3 : ascii) : bool :=
  between 240 244 c && continuation c1 && continuation c2 && continuation c3 &&
  (if code c =? 240 then 144 <=? code c1 else if code c =? 244 then code c1 <=? 143 else true).

(** The first rune of a non-empty string: the bytes it takes, or [None] for an invalid byte,
    which counts as a rune of one byte. *)
Definition rune_width (b : bytes) : option nat :=
  match b with
  | [] => None
  | c :: r =>
      if code c <? 128 then Some 1%nat
      else match r with
           | c1 :: r1 =>
               if valid2 c c1 then Some 2%nat
               else match r1 with
                    | c2 :: r2 =>
                        if valid3 c c1 c2 then Some 3%nat
                        else match r2 with
                             | c3 :: _ => if valid4 c c1 c2 c3 then Some 4%nat else None
                             | [] => None
                             end
                    | [] => None
                    end
           | [] => None
           end
  end.

Fixpoint runes (fuel : nat) (b : bytes) : list bool :=
  match fuel, b with
  | S fuel, _ :: _ =>
      match rune_width b with
      | Some n => true :: runes fuel (drop n b)
      | None => false :: runes fuel (drop 1 b)
      end
  | _, _ => []
  end.

(** [utf8.RuneCountInString] and [utf8.ValidString]. *)
Definition RuneCount (b : bytes) : Z := Z.of_nat (length (runes (length b) b)).
Definition ValidString (b : bytes) : bool := forallb id (runes (length b) b).

(** ** White space *)

(** The bytes of a leading rune [unicode.IsSpace] accepts. *)
Definition space_width (b : bytes) : option nat :=
  match map code b with
  | c :: r =>
      if bool_decide (c ∈ [9; 10; 11; 12; 13; 32]) then Some 1%nat
      else match r with
           | c1 :: r =>
               if (c =? 194) && bool_decide (c1 ∈ [133; 160]) then Some 2%nat
               else match r with
                    | c2 :: _ =>
                        if bool_decide ((c, c1, c2) ∈ [(225, 154, 128); (226, 129, 159); (227, 128, 128)])
                           || (c =? 226) && (c1 =? 128) &&
                              ((128 <=? c2) && (c2 <=? 138) || bool_decide (c2 ∈ [168; 169; 175]))
                        then Some 3%nat else None
                    | [] => None
                    end
           | [] => None
           end
  | [] => None
  end.

(** [strings.TrimSpace] leaves nothing: every rune is white space. *)
Fixpoint blank_runes (fuel : nat) (b : bytes) : bool :=
  match b with
  | [] => true
  | _ :: _ =>
      match fuel, space_width b with
      | S fuel, Some n => blank_runes fuel (drop n b)
      | _, _ => false
      end
  end.
Definition blank (b : bytes) : bool := blank_runes (length b) b.

Lemma runes_length fuel b : (length (runes fuel b) ≤ length b)%nat.
Proof.
  revert b. induction fuel as [|fuel IH]; intros [|c b]; cbn [runes length]; try lia.
  destruct (rune_width (c :: b)) as [n|] eqn:E; cbn [length].
  - assert (Hn : (1 ≤ n)%nat) by (unfold rune_width in E; repeat case_match; simplify_eq; lia).
    etrans; [apply le_n_S, IH|]. rewrite length_drop. cbn [length]. lia.
  - etrans; [apply le_n_S, IH|]. done.
Qed.

Lemma RuneCount_le b : RuneCount b ≤ blen b.
Proof. unfold RuneCount, blen. pose proof (runes_length (length b) b). lia. Qed.

(** ASCII text has a rune per byte. *)
Lemma rune_width_ascii c b : code c < 128 → rune_width (c :: b) = Some 1%nat.
Proof. intros. unfold rune_width. by rewrite (proj2 (Z.ltb_lt (code c) 128)). Qed.

Lemma runes_ascii fuel b :
  Forall (λ c, code c < 128) b → (length b ≤ fuel)%nat → length (runes fuel b) = length b.
Proof.
  intros Hb. revert fuel. induction Hb as [|c b Hc _ IH]; intros [|fuel] Hf; simpl in Hf; [done..|lia|].
  cbn [runes]. rewrite rune_width_ascii by done. cbn [length drop]. rewrite IH; lia.
Qed.

Lemma RuneCount_ascii b : Forall (λ c, code c < 128) b → RuneCount b = blen b.
Proof. intros. unfold RuneCount, blen. by rewrite runes_ascii. Qed.
