(* ===== verification/Radix.v ===== *)
(** Byte strings written in a power-of-two alphabet without padding, as
    [encoding/base32] and [encoding/base64] do: bits in groups, most significant first. *)
From Stdlib Require Import Ascii.
From S2P Require Import Prelude Bytes.

Definition bits_of (c : ascii) : list bool :=
  match c with Ascii b0 b1 b2 b3 b4 b5 b6 b7 => [b7; b6; b5; b4; b3; b2; b1; b0] end.
Definition bits (b : bytes) : list bool := concat (map bits_of b).

(** Bytes of eight bits each; what is left over is dropped. *)
Fixpoint of_bits (l : list bool) : bytes :=
  match l with
  | b7 :: b6 :: b5 :: b4 :: b3 :: b2 :: b1 :: b0 :: l => Ascii b0 b1 b2 b3 b4 b5 b6 b7 :: of_bits l
  | _ => []
  end.

(** Groups of [n] bits, the last one filled with zeros. *)
Definition fill_up (n : nat) (l : list bool) : list bool := l ++ replicate (n - length l) false.
Fixpoint groups (n fuel : nat) (l : list bool) : list (list bool) :=
  match fuel, l with
  | S fuel, _ :: _ => fill_up n (take n l) :: groups n fuel (drop n l)
  | _, _ => []
  end.

Definition value (g : list bool) : nat := fold_left (λ v (b : bool), (2 * v + if b then 1 else 0)%nat) g 0%nat.

Fixpoint all_groups (n : nat) : list (list bool) :=
  match n with
  | O => [[]]
  | S n => map (cons false) (all_groups n) ++ map (cons true) (all_groups n)
  end.

Record alphabet := mkAlphabet { al_width : nat; al_chars : bytes }.

Definition encode_group (al : alphabet) (g : list bool) : ascii := nth (value g) (al_chars al) "="%char.
Definition decode_char (al : alphabet) (c : ascii) : option (list bool) :=
  List.find (λ g, Ascii.eqb (encode_group al g) c) (all_groups (al_width al)).

Definition radix_encode (al : alphabet) (b : bytes) : bytes :=
  map (encode_group al) (groups (al_width al) (length (bits b)) (bits b)).
Fixpoint decode_chars (al : alphabet) (cs : bytes) : option (list bool) :=
  match cs with
  | [] => Some []
  | c :: cs =>
      match decode_char al c, decode_chars al cs with
      | Some g, Some l => Some (g ++ l)
      | _, _ => None
      end
  end.
Definition radix_decode (al : alphabet) (cs : bytes) : option bytes := of_bits <$> decode_chars al cs.

(** Every group has its own character. *)
Definition faithful (al : alphabet) : bool :=
  forallb (λ g, bool_decide (decode_char al (encode_group al g) = Some g)) (all_groups (al_width al)).

Lemma all_groups_length n g : length g = n → g ∈ all_groups n.
Proof.
  revert g. induction n as [|n IH]; intros [|b g] Hl; simplify_eq/=; [by left|].
  apply elem_of_app. destruct b; [right|left]; apply list_elem_of_fmap; exists g; (split; [done|by apply IH]).
Qed.

Lemma decode_encode_group al g :
  faithful al = true → length g = al_width al → decode_char al (encode_group al g) = Some g.
Proof.
  unfold faithful. intros Hf Hl. rewrite forallb_forall in Hf.
  apply all_groups_length, list_elem_of_In in Hl. apply Hf in Hl. by apply bool_decide_eq_true in Hl.
Qed.

Lemma groups_spec n fuel l :
  (0 < n)%nat → (length l ≤ fuel)%nat →
  Forall (λ g, length g = n) (groups n fuel l) ∧
  ∃ pad, (pad < n)%nat ∧ concat (groups n fuel l) = l ++ replicate pad false.
Proof.
  intros Hn. revert l. induction fuel as [|fuel IH]; intros [|b l] Hl; simpl in Hl; try lia.
  1,2: split; [constructor|]; exists 0%nat; split; [lia|done].
  cbn [groups]. destruct (IH (drop n (b :: l))) as [Hf (pad & Hp & Hc)].
  { rewrite length_drop. simpl. lia. }
  assert (Hlen : length (take n (b :: l)) = (n `min` S (length l))%nat) by by rewrite length_take.
  split.
  - constructor; [|done]. unfold fill_up. rewrite length_app, length_replicate, Hlen. lia.
  - cbn [concat]. rewrite Hc. unfold fill_up. destruct (decide (n ≤ S (length l))%nat) as [Hle|Hgt].
    + exists pad. split; [done|]. rewrite Hlen.
      replace (n - n `min` S (length l))%nat with 0%nat by lia. simpl (replicate 0 false).
      by rewrite app_nil_r, app_assoc, take_drop.
    + rewrite drop_ge in * by (simpl; lia).
      assert (groups n fuel [] = []) as E by by destruct fuel.
      rewrite E in Hc. destruct pad; [|done].
      exists (n - S (length l))%nat. split; [lia|]. rewrite take_ge by (simpl; lia).
      simpl. by rewrite app_nil_r.
Qed.

Lemma of_bits_short pad : (pad < 8)%nat → of_bits (replicate pad false) = [].
Proof. intros. do 8 (destruct pad as [|pad]; [done|]). lia. Qed.

Lemma of_bits_bits b pad : (pad < 8)%nat → of_bits (bits b ++ replicate pad false) = b.
Proof.
  intros Hp. induction b as [|[b0 b1 b2 b3 b4 b5 b6 b7] b IH]; [by apply of_bits_short|].
  cbn. f_equal. exact IH.
Qed.

Lemma decode_chars_groups al gs :
  faithful al = true → Forall (λ g, length g = al_width al) gs →
  decode_chars al (map (encode_group al) gs) = Some (concat gs).
Proof.
  intros Hf. induction 1 as [|g gs Hg _ IH]; [done|]. cbn [map decode_chars concat].
  by rewrite decode_encode_group, IH.
Qed.

(** What is encoded is decoded. *)
Lemma radix_roundtrip al b :
  faithful al = true → (0 < al_width al < 8)%nat → radix_decode al (radix_encode al b) = Some b.
Proof.
  intros Hf Hw. unfold radix_decode, radix_encode.
  destruct (groups_spec (al_width al) (length (bits b)) (bits b)) as [Hg (pad & Hp & Hc)]; [lia|done|].
  rewrite decode_chars_groups, Hc by done. simpl. f_equal. apply of_bits_bits. lia.
Qed.

Lemma groups_length n fuel l :
  (0 < n)%nat → (length l ≤ fuel)%nat →
  length (groups n fuel l) = ((length l + n - 1) / n)%nat.
Proof.
  intros Hn. revert l. induction fuel as [|fuel IH]; intros [|b l] Hl; simpl in Hl; try lia.
  1,2: cbn [groups length]; rewrite Nat.div_small by lia; done.
  cbn [groups length]. rewrite IH by (rewrite length_drop; simpl; lia). rewrite length_drop.
  cbn [length]. destruct (decide (n ≤ S (length l))%nat) as [Hle|Hgt].
  - replace (S (length l) + n - 1)%nat with ((S (length l) - n + n - 1) + 1 * n)%nat by lia.
    rewrite Nat.div_add by lia. lia.
  - replace (S (length l) - n + n - 1)%nat with (n - 1)%nat by lia. rewrite Nat.div_small by lia.
    replace (S (length l) + n - 1)%nat with (length l + 1 * n)%nat by lia.
    rewrite Nat.div_add, Nat.div_small by lia. lia.
Qed.

Lemma bits_length b : length (bits b) = (8 * length b)%nat.
Proof.
  unfold bits. induction b as [|[] b IH]; [done|]. cbn [map concat]. rewrite length_app, IH. simpl. lia.
Qed.

Lemma radix_encode_length al b :
  (0 < al_width al)%nat →
  length (radix_encode al b) = ((8 * length b + al_width al - 1) / al_width al)%nat.
Proof.
  intros Hw. unfold radix_encode. rewrite length_map, groups_length, bits_length; done.
Qed.

Lemma radix_encode_chars al b c :
  (∀ g, length g = al_width al → (value g < length (al_chars al))%nat) → (0 < al_width al)%nat →
  c ∈ radix_encode al b → c ∈ al_chars al.
Proof.
  intros Hv Hw Hc. unfold radix_encode in Hc. apply list_elem_of_fmap in Hc as (g & -> & Hg).
  destruct (groups_spec (al_width al) (length (bits b)) (bits b)) as [Hf _]; [lia|done|].
  rewrite Forall_forall in Hf. apply list_elem_of_In, nth_In. apply Hv. by apply Hf.
Qed.

(** ** Base 64

    An alphabet of six bits as [encoding/base64] decodes it: line breaks are skipped, and a
    last group of one character is none. *)
Definition base64_Decode (al : alphabet) (b : bytes) : option bytes :=
  let b := List.filter (λ c, negb (bool_decide (c = CR ∨ c = LF))) b in
  if Nat.eqb (length b mod 4) 1 then None else radix_decode al b.

Section Base64.
Context (al : alphabet) (Hwidth : al_width al = 6%nat) (Hsize : length (al_chars al) = 64%nat).

Lemma base64_char b c : c ∈ radix_encode al b → c ∈ al_chars al.
Proof.
  apply radix_encode_chars; [|lia]. rewrite Hwidth, Hsize. intros g Hg.
  destruct g as [|b0 [|b1 [|b2 [|b3 [|b4 [|b5 [|]]]]]]]; try discriminate Hg.
  apply Nat.ltb_lt. by destruct b0, b1, b2, b3, b4, b5.
Qed.

Lemma base64_lacks x b : bool_decide (x ∈ al_chars al) = false → x ∉ radix_encode al b.
Proof. intros Hx Hin. apply base64_char in Hin. by apply bool_decide_eq_false in Hx. Qed.

Lemma base64_roundtrip b :
  faithful al = true → bool_decide (CR ∈ al_chars al) = false → bool_decide (LF ∈ al_chars al) = false →
  base64_Decode al (radix_encode al b) = Some b.
Proof.
  intros Hf Hcr Hlf. unfold base64_Decode.
  assert (E : List.filter (λ c, negb (bool_decide (c = CR ∨ c = LF))) (radix_encode al b) = radix_encode al b).
  { assert (Hb : CR ∉ radix_encode al b ∧ LF ∉ radix_encode al b) by (split; by apply base64_lacks).
    induction (radix_encode al b) as [|c l IH]; [done|]. cbn [List.filter].
    destruct Hb as [[? ?]%not_elem_of_cons [? ?]%not_elem_of_cons].
    rewrite bool_decide_eq_false_2 by naive_solver. cbn [negb]. by rewrite IH. }
  rewrite E, radix_encode_length by lia.
  replace (Nat.eqb _ 1) with false; [apply radix_roundtrip; [done|lia]|].
  symmetry. apply Nat.eqb_neq. rewrite Hwidth.
  generalize (length b). clear. intros n Hn.
  pose proof (Nat.div_mod_eq (8 * n + 6 - 1) 6). pose proof (Nat.mod_upper_bound (8 * n + 6 - 1) 6 ltac:(done)).
  pose proof (Nat.div_mod_eq ((8 * n + 6 - 1) / 6) 4). lia.
Qed.
End Base64.
