(* ===== verification/Programs.v ===== *)
(** Programs that talk to a shared world through named actions, run alone or as threads
    whose actions interleave.

    A program is a tree of actions; an action is answered from the world, which it may
    change, and from a choice that stands for everything the program does not control:
    faults, clocks, random bytes, fresh ids. *)
From S2P Require Import Prelude.

(** What a kind of world offers. *)
Class Interface (action : Type) := { answer : action → Type }.

Inductive prog (action : Type) `{Interface action} (A : Type) :=
| Ret (x : A)
| Act (a : action) (k : answer a → prog action A).
Arguments Ret {action _ A} _.
Arguments Act {action _ A} _ _.

Section Programs.
Context {action : Type} `{Interface action}.

Fixpoint bind {A B} (p : prog action A) (f : A → prog action B) : prog action B :=
  match p with
  | Ret x => f x
  | Act a k => Act a (λ r, bind (k r) f)
  end.

Definition call (a : action) : prog action (answer a) := Act a Ret.

(** Go on with the value of a call, or give its error up. *)
Definition and_then {E A B} (p : prog action (result E A)) (f : A → prog action (result E B))
    : prog action (result E B) :=
  bind p (λ r, match r with Ok a => f a | Err e => Ret (Err e) end).
Definition wrap_error {E A} (f : E → E) (p : prog action (result E A)) : prog action (result E A) :=
  bind p (λ r, Ret (match r with Ok a => Ok a | Err e => Err (f e) end)).

(** What every result of a program satisfies, whatever it is answered. *)
Fixpoint returns {A} (Q : A → Prop) (p : prog action A) : Prop :=
  match p with
  | Ret x => Q x
  | Act a k => ∀ r, returns Q (k r)
  end.

Lemma returns_bind {A B} (Q : A → Prop) (Q' : B → Prop) (p : prog action A) (f : A → prog action B) :
  returns Q p → (∀ x, Q x → returns Q' (f x)) → returns Q' (bind p f).
Proof. intros Hp Hf. induction p as [x|a k IH]; simpl in *; eauto. Qed.

Lemma returns_mono {A} (Q Q' : A → Prop) (p : prog action A) : (∀ x, Q x → Q' x) → returns Q p → returns Q' p.
Proof. intros HQ. induction p; simpl; eauto. Qed.

Lemma returns_any {A} (Q : A → Prop) (p : prog action A) : (∀ x, Q x) → returns Q p.
Proof. intros HQ. induction p; simpl; eauto. Qed.

Lemma returns_call {A} (Q : A → Prop) a (f : answer a → prog action A) :
  (∀ r, returns Q (f r)) → returns Q (bind (call a) f).
Proof. done. Qed.

Lemma returns_bind_any {A B} (Q : B → Prop) (p : prog action A) (f : A → prog action B) :
  (∀ x, returns Q (f x)) → returns Q (bind p f).
Proof. intros Hf. apply (returns_bind (λ _, True)); [by apply returns_any|auto]. Qed.

Lemma and_then_returns {E A B} (Q : result E B → Prop) (p : prog action (result E A)) f :
  (∀ e, Q (Err e)) → (∀ a, returns Q (f a)) → returns Q (and_then p f).
Proof. intros He Hf. apply returns_bind_any. intros [a|e]; simpl; auto. Qed.

Lemma returns_and_then {E A B} (P : A → Prop) (Q : result E B → Prop) (p : prog action (result E A)) f :
  returns (λ r, ∀ a, r = Ok a → P a) p → (∀ e, Q (Err e)) → (∀ a, P a → returns Q (f a)) →
  returns Q (and_then p f).
Proof.
  intros Hp He Hf. eapply returns_bind; [exact Hp|]. intros [a|e] Ha; [by apply Hf, Ha|by apply He].
Qed.

(** Every action of a program is of a kind. *)
Fixpoint only {A} (kind : action → Prop) (p : prog action A) : Prop :=
  match p with
  | Ret _ => True
  | Act a k => kind a ∧ ∀ r, only kind (k r)
  end.

Lemma only_bind {A B} kind (p : prog action A) (f : A → prog action B) :
  only kind p → (∀ x, only kind (f x)) → only kind (bind p f).
Proof. intros Hp Hf. induction p as [x|a k IH]; simpl in *; [auto|]. destruct Hp. auto. Qed.

Lemma only_and_then {E A B} kind (p : prog action (result E A)) (f : A → prog action (result E B)) :
  only kind p → (∀ x, only kind (f x)) → only kind (and_then p f).
Proof. intros Hp Hf. apply only_bind; [done|]. intros [x|e]; [auto|done]. Qed.

Lemma only_mono {A} (kind kind' : action → Prop) (p : prog action A) :
  (∀ a, kind a → kind' a) → only kind p → only kind' p.
Proof. intros Hk. induction p as [x|a k IH]; simpl; [done|]. intros [Ha Hp]. split; eauto. Qed.

Lemma only_call kind a : kind a → only kind (call a).
Proof. done. Qed.

(** What the world does with an action. *)
Context {world choice : Type} (perform : choice → ∀ a : action, world → world * answer a).

(** One thread alone, with a choice for each action; [None] when they run out. *)
Fixpoint run {A} (chs : list choice) (p : prog action A) (w : world) {struct p} : option (world * A * list action) :=
  match p with
  | Ret x => Some (w, x, [])
  | Act a k =>
      match chs with
      | [] => None
      | ch :: chs =>
          let '(w, r) := perform ch a w in
          match run chs (k r) w with
          | Some (w, x, tr) => Some (w, x, a :: tr)
          | None => None
          end
      end
  end.

Lemma run_returns {A} (Q : A → Prop) chs (p : prog action A) : ∀ w w' x tr,
  returns Q p → run chs p w = Some (w', x, tr) → Q x.
Proof.
  revert chs. induction p as [x|a k IH]; intros chs w w' y tr Hp; cbn [run].
  - by intros [= <- <- <-].
  - destruct chs as [|ch chs]; [done|]. destruct (perform ch a w) as [w1 r].
    destruct (run chs (k r) w1) as [[[w2 y2] tr2]|] eqn:E; [|done]. intros [= <- <- <-]. by apply (IH r _ _ _ _ _ (Hp r) E).
Qed.

Lemma run_and_return {A B} chs (p : prog action A) (f : A → B) : ∀ w w' y tr,
  run chs (bind p (λ x, Ret (f x))) w = Some (w', y, tr) → ∃ x, run chs p w = Some (w', x, tr) ∧ y = f x.
Proof.
  revert chs. induction p as [x|a k IH]; intros chs w w' y tr; cbn [bind run].
  - intros [= <- <- <-]. eauto.
  - destruct chs as [|ch chs]; [done|]. destruct (perform ch a w) as [w1 r].
    destruct (run chs (bind (k r) _) w1) as [[[w2 y2] tr2]|] eqn:E; [|done]. intros [= <- <- <-].
    destruct (IH r chs _ _ _ _ E) as (x & Hx & ->). exists x. by rewrite Hx.
Qed.

(** Threads over one world. *)
Record pool (A : Type) := mkPool { p_world : world; p_threads : list (prog action A) }.
Arguments mkPool {A} _ _.
Arguments p_world {A} _.
Arguments p_threads {A} _.

(** A step of the pool: some thread performs its next action, or a thread is started.
    [started] says which programs may be. *)
Inductive pool_step {A} (started : prog action A → Prop) (s : pool A) : pool A → Prop :=
| step_act i a k ch :
    p_threads s !! i = Some (Act a k) →
    pool_step started s
      (mkPool (perform ch a (p_world s)).1
              (<[i := k (perform ch a (p_world s)).2]> (p_threads s)))
| step_start p :
    started p → pool_step started s (mkPool (p_world s) (p_threads s ++ [p])).

(** The threads of a list of indices act in turn: an executable schedule. *)
Fixpoint schedule {A} (sched : list (nat * choice)) (s : pool A) : pool A :=
  match sched with
  | [] => s
  | (i, ch) :: sched =>
      match p_threads s !! i with
      | Some (Act a k) =>
          let '(w, r) := perform ch a (p_world s) in
          schedule sched (mkPool w (<[i := k r]> (p_threads s)))
      | _ => schedule sched s
      end
  end.

Lemma schedule_steps {A} (started : prog action A → Prop) sched s :
  rtc (pool_step started) s (schedule sched s).
Proof.
  revert s. induction sched as [|[i ch] sched IH]; intros s; simpl; [constructor|].
  destruct (p_threads s !! i) as [[x|a k]|] eqn:E; [apply IH| |apply IH].
  destruct (perform ch a (p_world s)) as [w r] eqn:Ep.
  eapply rtc_l; [|apply IH]. pose proof (step_act started s i a k ch E) as Hs.
  by rewrite Ep in Hs.
Qed.

(** ** One thread alone

    What every run ends with, for the choices of one kind. *)
Section Alone.
Context (ok : choice → Prop).

Fixpoint wp {A} (p : prog action A) (Q : A → world → list action → Prop) (w : world) : Prop :=
  match p with
  | Ret x => Q x w []
  | Act a k =>
      ∀ ch, ok ch → wp (k (perform ch a w).2) (λ x w tr, Q x w (a :: tr)) (perform ch a w).1
  end.

Lemma wp_run {A} chs (p : prog action A) Q w w' x tr :
  Forall ok chs → wp p Q w → run chs p w = Some (w', x, tr) → Q x w' tr.
Proof.
  revert chs Q w w' x tr. induction p as [x|a k IH]; intros chs Q w w' y tr Hok Hwp Hrun; simpl in *.
  { by simplify_eq. }
  destruct Hok as [|ch chs Hch Hok]; [done|]. specialize (Hwp ch Hch).
  destruct (perform ch a w) as [w1 r]. simpl in *.
  destruct (run chs (k r) w1) as [[[w2 z] tr2]|] eqn:E; [|done]. simplify_eq.
  by apply (IH _ _ _ _ _ _ _ Hok Hwp E).
Qed.

Lemma wp_run_call {A} ch chs a (f : answer a → prog action A) Q w w' x tr :
  Forall ok chs →
  wp (f (perform ch a w).2) (λ x w tr, Q x w (a :: tr)) (perform ch a w).1 →
  run (ch :: chs) (bind (call a) f) w = Some (w', x, tr) → Q x w' tr.
Proof.
  intros Hok Hwp. cbn [bind call run]. destruct (perform ch a w) as [w1 r]. cbn [fst snd] in Hwp.
  destruct (run chs (f r) w1) as [[[w2 y] tr']|] eqn:E; [|done]. intros ?. simplify_eq.
  apply (wp_run _ _ _ _ _ _ _ Hok Hwp E).
Qed.

Lemma wp_mono {A} (p : prog action A) (Q Q' : A → world → list action → Prop) w :
  wp p Q w → (∀ x w tr, Q x w tr → Q' x w tr) → wp p Q' w.
Proof.
  revert Q Q' w. induction p as [x|a k IH]; simpl; intros Q Q' w Hp HQ; [by apply HQ|].
  intros ch Hch. eapply IH; [by apply Hp|]. simpl. intros. by apply HQ.
Qed.

Lemma wp_bind {A B} (p : prog action A) (f : A → prog action B) Q w :
  wp p (λ x w tr, wp (f x) (λ y w tr', Q y w (tr ++ tr')) w) w → wp (bind p f) Q w.
Proof.
  revert Q w. induction p as [x|a k IH]; simpl; intros Q w Hp; [done|].
  intros ch Hch. apply IH. by apply Hp.
Qed.

Lemma wp_and_then {E A B} (p : prog action (result E A)) (f : A → prog action (result E B)) Q w :
  wp p (λ r w tr, match r with
                  | Ok a => wp (f a) (λ y w tr', Q y w (tr ++ tr')) w
                  | Err e => Q (Err e) w tr
                  end) w →
  wp (and_then p f) Q w.
Proof.
  intros Hp. apply wp_bind. eapply wp_mono; [exact Hp|]. intros [a|e] w' tr; simpl; [done|].
  by rewrite app_nil_r.
Qed.

Lemma wp_call {A} a (f : answer a → prog action A) Q w :
  (∀ ch, ok ch → wp (f (perform ch a w).2) (λ x w tr, Q x w (a :: tr)) (perform ch a w).1) →
  wp (bind (call a) f) Q w.
Proof. done. Qed.

(** A program whose actions keep a relation ends in a related world. *)
Lemma wp_only {A} kind (R : relation world) `{!PreOrder R} (P : A → Prop) (p : prog action A) Q w :
  (∀ ch a w, kind a → R w (perform ch a w).1) →
  only kind p → returns P p → (∀ x w' tr, R w w' → P x → Q x w' tr) → wp p Q w.
Proof.
  intros HR. revert Q w. induction p as [x|a k IH]; simpl; intros Q w Ho Hp HQ; [by apply HQ|].
  destruct Ho as [Ha Ho]. intros ch _. apply IH; [done|done|]. intros x w' tr Hw Hx.
  apply HQ; [|done]. trans (perform ch a w).1; [by apply HR|done].
Qed.

(** A program with at most [n] actions on every path ends whatever it is answered. *)
Inductive bounded {A} : nat → prog action A → Prop :=
| bounded_ret n x : bounded n (Ret x)
| bounded_act n a k : (∀ r, bounded n (k r)) → bounded (S n) (Act a k).

Lemma bounded_run {A} n (p : prog action A) chs w :
  bounded n p → (n ≤ length chs)%nat → is_Some (run chs p w).
Proof.
  intros Hb. revert chs w. induction Hb as [n x|n a k _ IH]; intros chs w Hl; [by eexists|].
  destruct chs as [|ch chs]; simpl in Hl; [lia|]. simpl. destruct (perform ch a w) as [w1 r].
  destruct (IH r chs w1 ltac:(lia)) as [[[w2 x] tr] ->]. by eexists.
Qed.

Lemma bounded_mono {A} n m (p : prog action A) : bounded n p → (n ≤ m)%nat → bounded m p.
Proof.
  intros Hb. revert m. induction Hb as [n x|n a k _ IH]; intros m Hm; [constructor|].
  destruct m as [|m]; [lia|]. constructor. intros r. apply IH. lia.
Qed.

Lemma bounded_bind {A B} n m (p : prog action A) (f : A → prog action B) :
  bounded n p → (∀ x, bounded m (f x)) → bounded (n + m) (bind p f).
Proof.
  intros Hp Hf. induction Hp as [n x|n a k _ IH]; simpl.
  - eapply bounded_mono; [apply Hf|lia].
  - constructor. apply IH.
Qed.
End Alone.

(** What holds for more choices holds for fewer. *)
Lemma wp_weaken {A} (ok ok' : choice → Prop) (p : prog action A) Q w :
  (∀ ch, ok' ch → ok ch) → wp ok p Q w → wp ok' p Q w.
Proof.
  intros Hok. revert Q w. induction p as [x|a k IH]; simpl; [done|]. intros Q w Hp ch Hch. apply IH, Hp, Hok, Hch.
Qed.

(** ** Reasoning about one thread among others

    [rely] is what the others may do to the world while the thread waits, [pre] what each
    action needs of the world it is performed in. *)
Section Safety.
Context (rely : relation world) `{!PreOrder rely}.

(** The thread's result satisfies [post] whatever the others do in between. *)
Fixpoint safe {A} (post : A → Prop) (p : prog action A) (w : world) : Prop :=
  match p with
  | Ret x => post x
  | Act a k => ∀ w', rely w w' → ∀ ch, safe post (k (perform ch a w').2) (perform ch a w').1
  end.

Lemma safe_rely {A} (post : A → Prop) p w w' : rely w w' → safe post p w → safe post p w'.
Proof.
  destruct p as [x|a k]; simpl; [done|]. intros Hr Hs w'' Hr'. apply Hs. by trans w'.
Qed.

Lemma safe_bind {A B} (post : A → Prop) (post' : B → Prop) (p : prog action A) (f : A → prog action B) w :
  safe post p w → (∀ x w', rely w w' → post x → safe post' (f x) w') →
  (∀ ch a w, rely w (perform ch a w).1) → safe post' (bind p f) w.
Proof.
  intros Hp Hf Hg. revert w Hp Hf. induction p as [x|a k IH]; simpl; intros w Hp Hf.
  - by apply Hf.
  - intros w' Hr ch. apply IH; [by apply Hp|]. intros x w'' Hr' Hx. apply Hf; [|done].
    trans w'; [done|]. trans (perform ch a w').1; [apply Hg|done].
Qed.

Lemma safe_call {A} (post : A → Prop) a (f : answer a → prog action A) w :
  (∀ w', rely w w' → ∀ ch, safe post (f (perform ch a w').2) (perform ch a w').1) →
  safe post (bind (call a) f) w.
Proof. done. Qed.

Lemma safe_returns {A} (post : A → Prop) (p : prog action A) w : returns post p → safe post p w.
Proof. revert w. induction p as [x|a k IH]; simpl; auto. Qed.

Lemma pool_step_length {A} (started : prog action A → Prop) s s' :
  pool_step started s s' → (length (p_threads s) ≤ length (p_threads s'))%nat.
Proof. destruct 1; simpl; rewrite ?length_insert, ?length_app; lia. Qed.

(** If every action stays within [rely], a safe thread stays safe in any pool. *)
Lemma pool_safe {A} (post : A → Prop) (started : prog action A → Prop) s s' i p :
  (∀ ch a w, rely w (perform ch a w).1) →
  p_threads s !! i = Some p → safe post p (p_world s) →
  rtc (pool_step started) s s' →
  ∃ p', p_threads s' !! i = Some p' ∧ safe post p' (p_world s').
Proof.
  intros Hguar Hi Hs Hsteps. revert p Hi Hs.
  induction Hsteps as [s|s1 s2 s3 Hstep _ IH]; intros p Hi Hs; [by exists p|].
  destruct Hstep as [j a k ch Hj|q Hq]; simpl in IH.
  - destruct (decide (i = j)) as [<-|Hne].
    + simplify_eq. eapply IH.
      * apply list_lookup_insert_eq. by eapply lookup_lt_Some.
      * by apply Hs.
    + eapply IH; [by rewrite list_lookup_insert_ne|]. eapply safe_rely; [apply Hguar|done].
  - eapply IH; [|done]. apply lookup_app_l_Some. done.
Qed.

End Safety.
End Programs.
Arguments mkPool {action _ world A} _ _.
Arguments p_world {action _ world A} _.
Arguments p_threads {action _ world A} _.
Arguments pool action {_} world A.

Notation "'do' x '<-' p ; q" := (bind p (λ x, q))
  (at level 60, x pattern, p at level 59, right associativity) : go_scope.
Notation "'try' x '<-' p ; q" := (and_then p (λ x, q))
  (at level 60, x pattern, p at level 59, right associativity) : go_scope.
