(* ===== verification/Errors.v ===== *)
(** Error values: the sentinels and error types of [internal/ports], the error
    chains [fmt.Errorf] builds, and [errors.Is] / [errors.As] over them.

    Text produced by [fmt] is kept as its format and arguments, so two errors are
    equal exactly when the code formats the same values the same way. *)
From S2P Require Import Prelude.

(** An account id: the 16 bytes of a [uuid.UUID] as one big-endian number, so
    [bytes.Compare] on the arrays is the order of the numbers. [uuid.Nil] is 0. *)
Definition uuid := N.
Definition uuid_Nil : uuid := 0%N.

(** [src/internal/core/domains/admin.go:129-141] WindowKind *)
Definition WindowKind := string.
Definition WindowMinute : WindowKind := "minute".
Definition WindowHour : WindowKind := "hour".
Definition WindowDay : WindowKind := "day".
Definition WindowMonth : WindowKind := "month".
Definition WindowPeriod : WindowKind := "period".

(** [src/internal/core/domains/money.go:8-9] USD *)
Definition USD := Z.

(** [src/internal/core/domains/quota.go:10-15] Window *)
Record Window := mkWindow {
  Window_Kind : WindowKind;
  Window_Start : time;
  Window_End : time;
}.

#[export] Instance Window_eq_dec : EqDecision Window.
Proof. solve_decision. Defined.

(** [src/internal/core/domains/quota.go:117-125] QuotaBreach *)
Record QuotaBreach := mkQuotaBreach {
  Breach_Window : Window;
  Breach_Used : USD;
  Breach_Requested : USD;
  Breach_Limit : USD;
}.

#[export] Instance QuotaBreach_eq_dec : EqDecision QuotaBreach.
Proof. solve_decision. Defined.

(** [src/internal/ports/provider_errors.go:3-14] FailureKind *)
Inductive FailureKind :=
| FailureUnknown | FailureConnect | FailureAuth | FailureRateLimit
| FailureUpstream | FailureBadRequest | FailureTimeout | FailureTruncated.

#[export] Instance FailureKind_eq_dec : EqDecision FailureKind.
Proof. solve_decision. Defined.

(** [src/internal/ports/provider_errors.go:16-35] FailureKind.String *)
Definition FailureKind_String (k : FailureKind) : string :=
  match k with
  | FailureConnect => "connect"
  | FailureAuth => "auth"
  | FailureRateLimit => "rate limit"
  | FailureUpstream => "upstream"
  | FailureBadRequest => "bad request"
  | FailureTimeout => "timeout"
  | FailureTruncated => "died mid-stream"
  | FailureUnknown => "unknown"
  end.

(** An error value. [Sentinel] is a package-level [errors.New], told apart by its
    message; [Errorf] is what [fmt.Errorf] returns. *)
Inductive error :=
| Sentinel (msg : string)
| Errorf (format : string) (args : list arg)
| ProviderError (Kind : FailureKind) (Provider : string) (StatusCode : Z)
    (Message : text) (Retryable : bool) (Inner : option error)
| QuotaExceededError (Breach : QuotaBreach)
(** A formatting argument; [AWrap] is one for [%w]. *)
with arg :=
| AStr (s : string)
| AInt (z : Z)
| ATime (t : time)
| AErr (e : error)
| AWrap (e : error)
(** A Go string: literal bytes, formatted text or the [Error()] of an error. *)
with text :=
| TLit (s : string)
| TErr (e : error)
| TCat (s : string) (t : text).

(** Errors of the Go standard library the code tests for. *)
Definition io_EOF : error := Sentinel "EOF".
Definition io_ErrUnexpectedEOF : error := Sentinel "unexpected EOF".
Definition context_Canceled : error := Sentinel "context canceled".
Definition context_DeadlineExceeded : error := Sentinel "context deadline exceeded".

(** [src/internal/ports/admin.go:20-28] ErrNotFound, ErrConflict, ErrInvalid, ErrUnauthenticated *)
Definition ErrNotFound : error := Sentinel "admin: not found".
Definition ErrConflict : error := Sentinel "admin: conflict".
Definition ErrInvalid : error := Sentinel "admin: invalid request".
Definition ErrUnauthenticated : error := Sentinel "admin: unauthenticated".

(** [src/internal/ports/auth.go:13-19] ErrNoCredentials, ErrUnknownKey, ErrKeyRevoked, ErrTenantDisabled, ErrModelNotAllowed *)
Definition ErrNoCredentials : error := Sentinel "auth: no credentials presented".
Definition ErrUnknownKey : error := Sentinel "auth: unrecognised api key".
Definition ErrKeyRevoked : error := Sentinel "auth: api key revoked".
Definition ErrTenantDisabled : error := Sentinel "auth: tenant disabled".
Definition ErrModelNotAllowed : error := Sentinel "auth: model not allowed for this key".

(** [src/internal/ports/quota.go:14-17] ErrQuotaExceeded, ErrQuotaUnavailable *)
Definition ErrQuotaExceeded : error := Sentinel "quota: limit exceeded".
Definition ErrQuotaUnavailable : error := Sentinel "quota: enforcement unavailable".

(** [src/internal/ports/pricing.go:10-10] ErrNoPricing *)
Definition ErrNoPricing : error := Sentinel "pricing: no rates available".

(** [errors.Is] for a sentinel target: a depth-first search through what each
    error unwraps to. [QuotaExceededError] unwraps to [ErrQuotaExceeded]
    ([src/internal/ports/quota.go:28-28]). *)
Fixpoint err_is (e : error) (target : string) {struct e} : bool :=
  match e with
  | Sentinel m => String.eqb m target
  | Errorf _ args =>
      (fix go (l : list arg) : bool :=
        match l with
        | [] => false
        | AWrap e' :: l' => err_is e' target || go l'
        | _ :: l' => go l'
        end) args
  | ProviderError _ _ _ _ _ (Some e') => err_is e' target
  | ProviderError _ _ _ _ _ None => false
  | QuotaExceededError _ => String.eqb "quota: limit exceeded" target
  end.

Definition Is (e target : error) : bool :=
  match target with Sentinel m => err_is e m | _ => false end.

(** [errors.Unwrap]: what the only [%w] of an [fmt.Errorf] wrapped. *)
Definition Unwrap (e : error) : option error :=
  match e with
  | Errorf _ args =>
      match omap (λ a, match a with AWrap e => Some e | _ => None end) args with
      | [e] => Some e
      | _ => None
      end
  | ProviderError _ _ _ _ _ inner => inner
  | QuotaExceededError _ => Some (Sentinel "quota: limit exceeded")
  | Sentinel _ => None
  end.

(** The [*ports.ProviderError] fields the code reads. *)
Record provider_error := mkProviderError {
  pe_Kind : FailureKind;
  pe_StatusCode : Z;
  pe_Message : text;
  pe_Retryable : bool;
}.

(** [errors.As] with a [*ports.ProviderError] target. *)
Fixpoint as_provider (e : error) {struct e} : option provider_error :=
  match e with
  | ProviderError k _ c m r _ => Some (mkProviderError k c m r)
  | Errorf _ args =>
      (fix go (l : list arg) : option provider_error :=
        match l with
        | [] => None
        | AWrap e' :: l' => match as_provider e' with Some p => Some p | None => go l' end
        | _ :: l' => go l'
        end) args
  | _ => None
  end.

(** [errors.As] with a [*ports.QuotaExceededError] target. *)
Fixpoint as_quota_exceeded (e : error) {struct e} : option QuotaBreach :=
  match e with
  | QuotaExceededError b => Some b
  | Errorf _ args =>
      (fix go (l : list arg) : option QuotaBreach :=
        match l with
        | [] => None
        | AWrap e' :: l' =>
            match as_quota_exceeded e' with Some b => Some b | None => go l' end
        | _ :: l' => go l'
        end) args
  | ProviderError _ _ _ _ _ (Some e') => as_quota_exceeded e'
  | _ => None
  end.

(** [fmt.Errorf("%w: ...")]: wrapping with one error adds nothing [Is] can see. *)
Lemma Is_wrap1 f e args target :
  forallb (λ a, match a with AWrap _ => false | _ => true end) args = true →
  Is (Errorf f (AWrap e :: args)) target = Is e target.
Proof.
  intros H. destruct target; try done. simpl. rewrite <- (orb_false_r (err_is e msg)) at 2.
  f_equal. induction args as [|a args IH]; [done|]. simpl in *. bool_prop.
  destruct a; try discriminate; by apply IH.
Qed.

(** [src/internal/usecases/admin/service.go:86-88] invalid *)
Definition invalid (format : string) (args : list arg) : error :=
  Errorf "%w: %s" [AWrap ErrInvalid; AErr (Errorf format args)].
