(* ===== verification/Env.v ===== *)
(** What no program controls: the clock, randomness, ids, and whether a call of the store
    gets through. *)
From Stdlib Require Import Ascii.
From stdpp Require Import gmap infinite.
From S2P Require Import Prelude Errors Bytes.

(** What becomes of a call of the store: done, not done, or done with its answer lost. *)
Inductive db_fault := Fine | Refused | Lost.
#[export] Instance db_fault_eq_dec : EqDecision db_fault.
Proof. solve_decision. Defined.

(** What the program does not control. *)
Record moment := mkMoment {
  mo_fault : db_fault;
  mo_now : time;
  mo_id : result error uuid;
  mo_random : result error bytes;
}.

Definition ErrDatabase : error := Errorf "postgres: %w" [AWrap (Sentinel "connection closed")].

(** Exactly [n] bytes. *)
Definition read_full (n : nat) (r : result error bytes) : result error bytes :=
  match r with Ok b => Ok (resize n "000"%char b) | Err e => Err e end.

(** An id no one was given before: [uuid.NewV7]. *)
Definition hand_out (ids : gset uuid) (r : result error uuid) : gset uuid * result error uuid :=
  match r with
  | Err e => (ids, Err e)
  | Ok id => let id := if decide (id ∈ ids) then fresh ids else id in ({[id]} ∪ ids, Ok id)
  end.

Lemma hand_out_Ok ids r ids' id : hand_out ids r = (ids', Ok id) → id ∉ ids ∧ ids' = {[id]} ∪ ids.
Proof.
  unfold hand_out. destruct r as [i|e]; [|done]. intros [= <- <-]. split; [|done].
  case_decide; [apply is_fresh|done].
Qed.

(** Nothing fails. *)
Definition fine (ch : moment) : Prop :=
  mo_fault ch = Fine ∧ is_Some (match mo_id ch with Ok i => Some i | _ => None end) ∧
  is_Some (match mo_random ch with Ok b => Some b | _ => None end).
