(* ===== verification/Money.v ===== *)
(** Nanodollar arithmetic, token counts, price rates and the estimate a quota
    reservation is sized from: [internal/core/domains] money.go, usage.go,
    pricing.go, estimate.go and the arithmetic of report.go.

    Amounts and token counts are 64-bit; every sum and product is wrapped where the
    code would wrap it. *)
From Stdlib Require Import SpecFloat.
From S2P Require Import Prelude Errors.

(** ** Dollars *)

(** [float64], as IEEE binary64 data. *)
Definition float64 := spec_float.
Definition f64_mul := SFmul 53 1024.
Definition f64_add := SFadd 53 1024.
Definition f64_of_Z (z : Z) : float64 := binary_normalize 53 1024 z 0 false.
Definition f64_half : float64 := binary_normalize 53 1024 1 (-1) false.

(** The integer part of a float, towards zero. *)
Definition f64_trunc (f : float64) : option Z :=
  match f with
  | S754_zero _ => Some 0
  | S754_finite s m e =>
      let a := if 0 <=? e then Zpos m * 2 ^ e else Zpos m / 2 ^ (- e) in
      Some (if s then - a else a)
  | _ => None
  end.

(** Conversion to a 64-bit integer; a value out of range gives the smallest
    integer, as the amd64 instruction does. *)
Definition int64_of_f64 (f : float64) : Z :=
  match f64_trunc f with
  | Some z => if bool_decide (int64_range z) then z else min_int64
  | None => min_int64
  end.

(** [src/internal/core/domains/money.go:11-11] nanosPerDollar *)
Definition nanosPerDollar : Z := 1000000000.

(** [src/internal/core/domains/money.go:13-17] FromDollars *)
Definition FromDollars (d : float64) : USD :=
  int64_of_f64 (f64_add (f64_mul d (f64_of_Z nanosPerDollar)) f64_half).

(** [src/internal/core/domains/money.go:37-39] PerMillionTokens *)
Definition PerMillionTokens := USD.

(** [src/internal/core/domains/money.go:41-44] PerMillionTokens.Cost *)
Definition PerMillionTokens_Cost (p : PerMillionTokens) (n : Z) : USD :=
  Z.quot (wrap64 (p * n)) 1000000.

(** ** Token counts *)

(** [src/internal/core/domains/usage.go:3-9] TokenUsage *)
Record TokenUsage := mkTokenUsage {
  Input : Z;
  Output : Z;
  CacheWrite : Z;
  CacheRead : Z;
  Reasoning : Z;
}.

#[export] Instance TokenUsage_eq_dec : EqDecision TokenUsage.
Proof. solve_decision. Defined.

Definition zero_TokenUsage : TokenUsage := mkTokenUsage 0 0 0 0 0.

(** [src/internal/core/domains/estimate.go:53-57] TokenUsage.Total *)
Definition Total (u : TokenUsage) : Z :=
  wrap64 (wrap64 (wrap64 (Input u + Output u) + CacheRead u) + CacheWrite u).

(** [src/internal/core/domains/estimate.go:3-18] PromptSize *)
Record PromptSize := mkPromptSize {
  TextBytes : Z;
  Messages : Z;
  MediaParts : Z;
}.

(** [src/internal/core/domains/estimate.go:20-34] bytesPerToken, messageOverheadTokens, mediaPartTokens *)
Definition bytesPerToken : Z := 4.
Definition messageOverheadTokens : Z := 4.
Definition mediaPartTokens : Z := 1000.

(** [src/internal/core/domains/estimate.go:36-51] EstimateTokens *)
Definition EstimateTokens (p : PromptSize) (maxOutput choices defaultMaxOutput : Z) : TokenUsage :=
  let input :=
    wrap64 (wrap64 (Z.quot (wrap64 (TextBytes p + bytesPerToken - 1)) bytesPerToken
                    + wrap64 (Messages p * messageOverheadTokens))
            + wrap64 (MediaParts p * mediaPartTokens)) in
  let maxOutput := if maxOutput <=? 0 then defaultMaxOutput else maxOutput in
  let choices := if choices <? 1 then 1 else choices in
  mkTokenUsage input (wrap64 (maxOutput * choices)) 0 0 0.

(** ** Rates *)

(** [src/internal/core/domains/pricing.go:5-10] Rates *)
Record Rates := mkRates {
  Rate_Input : PerMillionTokens;
  Rate_Output : PerMillionTokens;
  Rate_CacheRead : PerMillionTokens;
  Rate_CacheWrite : PerMillionTokens;
}.

#[export] Instance Rates_eq_dec : EqDecision Rates.
Proof. solve_decision. Defined.

(** [src/internal/core/domains/pricing.go:12-17] Rates.Cost *)
Definition Rates_Cost (r : Rates) (u : TokenUsage) : USD :=
  wrap64 (wrap64 (wrap64 (PerMillionTokens_Cost (Rate_Input r) (Input u)
    + PerMillionTokens_Cost (Rate_Output r) (Output u))
    + PerMillionTokens_Cost (Rate_CacheRead r) (CacheRead u))
    + PerMillionTokens_Cost (Rate_CacheWrite r) (CacheWrite u)).

(** [src/internal/core/domains/pricing.go:19-21] Rates.IsFree *)
Definition IsFree (r : Rates) : bool := bool_decide (r = mkRates 0 0 0 0).

(** The entries of the map literal [Validate] ranges over. *)
Definition rate_entries (r : Rates) : list (string * PerMillionTokens) :=
  [("input", Rate_Input r); ("output", Rate_Output r);
   ("cache_read", Rate_CacheRead r); ("cache_write", Rate_CacheWrite r)].

(** [src/internal/core/domains/pricing.go:23-39] Rates.Validate

    [entries] is the order in which the runtime iterates over the map. *)
Definition Rates_Validate (entries : list (string * PerMillionTokens)) (r : Rates)
  : option error :=
  match list_find (λ e, e.2 < 0) entries with
  | Some (_, (name, v)) => Some (Errorf "%s rate is negative: %d" [AStr name; AInt v])
  | None =>
      if (Rate_Input r <? Rate_CacheRead r) && (0 <? Rate_Input r)
      then Some (Errorf "cache_read rate (%v) exceeds input rate (%v); likely transposed"
                   [AInt (Rate_CacheRead r); AInt (Rate_Input r)])
      else None
  end.

(** [src/internal/core/domains/pricing.go:48-51] Counterfactual *)
Record Counterfactual := mkCounterfactual { cf_Target : string; cf_Cost : USD }.

(** [src/internal/core/domains/pricing.go:41-46] CostBreakdown *)
Record CostBreakdown := mkCostBreakdown {
  Actual : USD;
  PriceTableVersion : string;
  Counterfactuals : list Counterfactual;
  UnpricedComparisons : list string;
}.

(** [src/internal/core/domains/pricing.go:53-60] CostBreakdown.Delta *)
Definition Delta (c : CostBreakdown) (target : string) : option USD :=
  match list_find (λ cf, cf_Target cf = target) (Counterfactuals c) with
  | Some (_, cf) => Some (wrap64 (Actual c - cf_Cost cf))
  | None => None
  end.

(** [src/internal/core/domains/report.go:40-43] Comparison *)
Record Comparison := mkComparison { cmp_Cost : USD; cmp_Requests : Z }.

(** [src/internal/core/domains/report.go:45-49] Comparison.IsPartial *)
Definition IsPartial (c : Comparison) (groupRequests : Z) : bool :=
  cmp_Requests c <? groupRequests.

(** [src/internal/core/domains/report.go:18-38] ReportRow *)
Record ReportRow := mkReportRow {
  row_Key : string;
  row_Requests : Z;
  row_Cost : USD;
  row_Unpriced : Z;
  row_Usage : TokenUsage;
  row_Comparisons : gmap string Comparison;
  row_OK : Z;
  row_Failed : Z;
  row_Truncated : Z;
  row_Disconnected : Z;
  row_P50TTFTMs : Z;
  row_P95TTFTMs : Z;
  row_P95TotalMs : Z;
}.

(** [src/internal/core/domains/report.go:51-59] ReportRow.Savings *)
Definition Savings (r : ReportRow) (vs : string) : option USD :=
  match row_Comparisons r !! vs with
  | None => None
  | Some cf => Some (wrap64 (row_Cost r - cmp_Cost cf))
  end.

(** ** Lemmas *)

(** What a token price may be for its cost to be exact. *)
Definition cost_fits (p n : Z) : Prop := 0 ≤ p ∧ 0 ≤ n ∧ p * n < 2 ^ 63.

Lemma Cost_exact p n : cost_fits p n → PerMillionTokens_Cost p n = p * n / 1000000.
Proof.
  intros (? & ? & ?). unfold PerMillionTokens_Cost.
  rewrite wrap64_id by (unfold int64_range; nia).
  apply Z.quot_div_nonneg; nia.
Qed.

Lemma Cost_range p n : int64_range (PerMillionTokens_Cost p n).
Proof.
  pose proof (wrap64_range (p * n)) as H. unfold PerMillionTokens_Cost, int64_range in *. lia.
Qed.

Lemma Cost_nonneg p n : cost_fits p n → 0 ≤ PerMillionTokens_Cost p n.
Proof. intros H. rewrite Cost_exact by done. destruct H. apply Z.div_pos; nia. Qed.

Lemma cost_fits_mono p n m : cost_fits p m → 0 ≤ n ≤ m → cost_fits p n.
Proof. unfold cost_fits. intros (? & ? & ?) ?. repeat split; nia. Qed.

Lemma Cost_mono p n m :
  cost_fits p m → 0 ≤ n ≤ m → PerMillionTokens_Cost p n ≤ PerMillionTokens_Cost p m.
Proof.
  intros Hm Hn. rewrite !Cost_exact by eauto using cost_fits_mono.
  apply Z.div_le_mono; [lia|]. destruct Hm. nia.
Qed.

(** Splitting tokens between two prices, neither above the dearer one. *)
Lemma Cost_split p q n m :
  cost_fits p (n + m) → 0 ≤ q ≤ p → 0 ≤ n → 0 ≤ m →
  PerMillionTokens_Cost p n + PerMillionTokens_Cost q m ≤ PerMillionTokens_Cost p (n + m).
Proof.
  intros Hf Hq Hn Hm. destruct Hf as (Hp & _ & Hb).
  rewrite !Cost_exact by (unfold cost_fits; repeat split; nia).
  assert (q * m / 1000000 ≤ p * m / 1000000) by (apply Z.div_le_mono; nia).
  assert (p * (n + m) = p * n + p * m) as -> by lia. lia.
Qed.

Lemma Rates_Cost_range r u : int64_range (Rates_Cost r u).
Proof. apply wrap64_range. Qed.
