(* ===== verification/Quota.v ===== *)
(** Spend caps and the windows they are counted in: [internal/core/domains]
    quota.go and the quota half of admin.go. *)
From S2P Require Import Prelude Calendar Errors Money.

(** ** Windows *)

(** [src/internal/core/domains/quota.go:17-40] ClockWindow *)
Definition ClockWindow (kind : WindowKind) (at_ : time) : result error Window :=
  if String.eqb kind WindowMinute then
    let start := Truncate at_ Minute in Ok (mkWindow kind start (Add start Minute))
  else if String.eqb kind WindowHour then
    let start := Truncate at_ Hour in Ok (mkWindow kind start (Add start Hour))
  else if String.eqb kind WindowDay then
    let start := Date (Year at_) (Month at_) (Day at_) in
    Ok (mkWindow kind start (AddDate start 0 0 1))
  else if String.eqb kind WindowMonth then
    let start := Date (Year at_) (Month at_) 1 in
    Ok (mkWindow kind start (AddDate start 0 1 0))
  else Err (Errorf "domains: %q is not a clock window" [AStr kind]).

(** [src/internal/core/domains/admin.go:143-145] WindowKinds *)
Definition WindowKinds : list WindowKind :=
  [WindowMinute; WindowHour; WindowDay; WindowMonth; WindowPeriod].

(** [src/internal/core/domains/admin.go:147-154] WindowKind.Valid *)
Definition WindowKind_Valid (k : WindowKind) : bool :=
  existsb (String.eqb k) WindowKinds.

(** [src/internal/core/domains/admin.go:156-164] WindowKind.Rank *)
Definition WindowKind_Rank (k : WindowKind) : Z :=
  match list_find (λ known, k = known) WindowKinds with
  | Some (i, _) => Z.of_nat i
  | None => Z.of_nat (length WindowKinds)
  end.

(** [src/internal/core/domains/admin.go:166-175] QuotaAction *)
Definition QuotaAction := string.
Definition QuotaBlock : QuotaAction := "block".
Definition QuotaAllow : QuotaAction := "allow".

(** [src/internal/core/domains/admin.go:177-191] Quota *)
Record Quota := mkQuota {
  q_WindowKind : WindowKind;
  q_PeriodStart : option time;
  q_PeriodEnd : option time;
  q_MaxCost : USD;
  q_OnExceed : QuotaAction;
  q_UpdatedAt : time;
}.

#[export] Instance Quota_eq_dec : EqDecision Quota.
Proof. solve_decision. Defined.

(** [src/internal/core/domains/admin.go:193-193] ErrInvalidQuota *)
Definition ErrInvalidQuota : error := Sentinel "quota: invalid".

(** [src/internal/core/domains/admin.go:195-226] Quota.Validate *)
Definition Quota_Validate (q : Quota) : option error :=
  if negb (WindowKind_Valid (q_WindowKind q)) then
    Some (Errorf "%w: unknown window_kind %q (want minute, hour, day, month or period)"
            [AWrap ErrInvalidQuota; AStr (q_WindowKind q)])
  else
    let hasStart := bool_decide (is_Some (q_PeriodStart q)) in
    let hasEnd := bool_decide (is_Some (q_PeriodEnd q)) in
    let period_error :=
      if String.eqb (q_WindowKind q) WindowPeriod then
        match q_PeriodStart q, q_PeriodEnd q with
        | Some s, Some e =>
            if negb (Before s e)
            then Some (Errorf "%w: period_start must be before period_end" [AWrap ErrInvalidQuota])
            else None
        | _, _ =>
            Some (Errorf "%w: a period quota needs both period_start and period_end"
                    [AWrap ErrInvalidQuota])
        end
      else if hasStart || hasEnd then
        Some (Errorf "%w: period_start and period_end are only valid for window_kind period, not %q"
                [AWrap ErrInvalidQuota; AStr (q_WindowKind q)])
      else None in
    match period_error with
    | Some e => Some e
    | None =>
        if q_MaxCost q <? 0 then
          Some (Errorf "%w: %s quota max_cost_nanos must not be negative"
                  [AWrap ErrInvalidQuota; AStr (q_WindowKind q)])
        else if String.eqb (q_OnExceed q) QuotaBlock || String.eqb (q_OnExceed q) QuotaAllow then
          None
        else Some (Errorf "%w: unknown on_exceed %q (want block or allow)"
                     [AWrap ErrInvalidQuota; AStr (q_OnExceed q)])
    end.

(** [src/internal/core/domains/admin.go:238-243] sameTime *)
Definition sameTime (a b : option time) : bool :=
  match a, b with
  | Some a, Some b => a =? b
  | None, None => true
  | _, _ => false
  end.

(** [src/internal/core/domains/admin.go:228-236] Quota.SameLimits *)
Definition SameLimits (q o : Quota) : bool :=
  String.eqb (q_WindowKind q) (q_WindowKind o) &&
  String.eqb (q_OnExceed q) (q_OnExceed o) &&
  sameTime (q_PeriodStart q) (q_PeriodStart o) &&
  sameTime (q_PeriodEnd q) (q_PeriodEnd o) &&
  (q_MaxCost q =? q_MaxCost o).

(** [src/internal/core/domains/quota.go:42-62] Quota.WindowAt *)
Definition WindowAt (q : Quota) (at_ : time) : option Window :=
  if String.eqb (q_WindowKind q) WindowPeriod then
    match q_PeriodStart q, q_PeriodEnd q with
    | Some s, Some e =>
        if Before at_ s || negb (Before at_ e) then None
        else Some (mkWindow WindowPeriod s e)
    | _, _ => None
    end
  else
    match ClockWindow (q_WindowKind q) at_ with
    | Err _ => None
    | Ok w => Some w
    end.

(** [src/internal/core/domains/quota.go:64-68] Quota.Blocks *)
Definition Blocks (q : Quota) : bool := negb (String.eqb (q_OnExceed q) QuotaAllow).

(** [src/internal/core/domains/quota.go:70-76] WindowLimit *)
Record WindowLimit := mkWindowLimit {
  wl_Window : Window;
  wl_MaxCost : USD;
  wl_Block : bool;
}.

#[export] Instance WindowLimit_eq_dec : EqDecision WindowLimit.
Proof. solve_decision. Defined.

(** [src/internal/core/domains/quota.go:78-88] ApplicableLimits *)
Fixpoint ApplicableLimits (quotas : list Quota) (at_ : time) : list WindowLimit :=
  match quotas with
  | [] => []
  | q :: quotas =>
      match WindowAt q at_ with
      | Some w => mkWindowLimit w (q_MaxCost q) (Blocks q) :: ApplicableLimits quotas at_
      | None => ApplicableLimits quotas at_
      end
  end.

(** [src/internal/core/domains/quota.go:127-130] QuotaBreach.ResetAt *)
Definition ResetAt (b : QuotaBreach) : time := Window_End (Breach_Window b).

(** ** Usage *)

(** [src/internal/core/domains/quota.go:90-95] QuotaUsage *)
Record QuotaUsage := mkQuotaUsage {
  Requests : Z;
  Tokens : Z;
  Cost : USD;
}.

#[export] Instance QuotaUsage_eq_dec : EqDecision QuotaUsage.
Proof. solve_decision. Defined.

Definition zero_QuotaUsage : QuotaUsage := mkQuotaUsage 0 0 0.

(** [src/internal/core/domains/quota.go:97-103] QuotaUsage.Sub *)
Definition QuotaUsage_Sub (u o : QuotaUsage) : QuotaUsage :=
  mkQuotaUsage (wrap64 (Requests u - Requests o)) (wrap64 (Tokens u - Tokens o))
    (wrap64 (Cost u - Cost o)).

(** [src/internal/core/domains/quota.go:105-111] QuotaUsage.Add *)
Definition QuotaUsage_Add (u o : QuotaUsage) : QuotaUsage :=
  mkQuotaUsage (wrap64 (Requests u + Requests o)) (wrap64 (Tokens u + Tokens o))
    (wrap64 (Cost u + Cost o)).

(** [src/internal/core/domains/quota.go:113-115] QuotaUsage.IsZero *)
Definition QuotaUsage_IsZero (u : QuotaUsage) : bool := bool_decide (u = zero_QuotaUsage).

(** [src/internal/core/domains/quota.go:138-146] WindowUsage *)
Record WindowUsage := mkWindowUsage {
  wu_TenantID : uuid;
  wu_Window : Window;
  wu_Usage : QuotaUsage;
}.

#[export] Instance WindowUsage_eq_dec : EqDecision WindowUsage.
Proof. solve_decision. Defined.

(** A usage whose fields are 64-bit values, as every Go value of the type is. *)
Definition usage_wf (u : QuotaUsage) : Prop :=
  int64_range (Requests u) ∧ int64_range (Tokens u) ∧ int64_range (Cost u).

Lemma usage_wf_Add u o : usage_wf (QuotaUsage_Add u o).
Proof. repeat split; apply wrap64_range. Qed.

Lemma usage_wf_Sub u o : usage_wf (QuotaUsage_Sub u o).
Proof. repeat split; apply wrap64_range. Qed.

#[export] Hint Resolve usage_wf_Add usage_wf_Sub : go.

Lemma Usage_Add_Sub u o : usage_wf u → QuotaUsage_Add o (QuotaUsage_Sub u o) = u.
Proof.
  destruct u as [r t c], o as [r' t' c']. intros (? & ? & ?).
  unfold QuotaUsage_Add, QuotaUsage_Sub; simpl in *. autorewrite with wrap.
  f_equal; rewrite <- wrap64_id by done; f_equal; lia.
Qed.

Lemma Usage_Add_comm u o : QuotaUsage_Add u o = QuotaUsage_Add o u.
Proof. unfold QuotaUsage_Add. f_equal; f_equal; lia. Qed.

Lemma Usage_Add_assoc u v w :
  QuotaUsage_Add u (QuotaUsage_Add v w) = QuotaUsage_Add (QuotaUsage_Add u v) w.
Proof. unfold QuotaUsage_Add; simpl. autorewrite with wrap. f_equal; f_equal; lia. Qed.

Lemma Usage_Add_zero u : usage_wf u → QuotaUsage_Add zero_QuotaUsage u = u.
Proof.
  destruct u. intros (? & ? & ?). unfold QuotaUsage_Add; simpl in *. by rewrite !wrap64_id.
Qed.

Lemma Usage_Add_zero_r u : usage_wf u → QuotaUsage_Add u zero_QuotaUsage = u.
Proof. intros. by rewrite Usage_Add_comm, Usage_Add_zero. Qed.

Lemma IsZero_spec u : QuotaUsage_IsZero u = true ↔ u = zero_QuotaUsage.
Proof. apply bool_decide_eq_true. Qed.

(** ** Windows contain their instant, and only one window does *)

Definition in_window (w : Window) (t : time) : Prop := Window_Start w ≤ t < Window_End w.

Lemma ClockWindow_kind kind t w : ClockWindow kind t = Ok w → Window_Kind w = kind.
Proof. unfold ClockWindow. intros H. repeat case_match; by simplify_eq. Qed.

Lemma ClockWindow_known kind t :
  is_ok (ClockWindow kind t) = true ↔
  kind ∈ [WindowMinute; WindowHour; WindowDay; WindowMonth].
Proof.
  unfold ClockWindow. split.
  - repeat case_match; intros; bool_prop; subst; set_solver.
  - intros Hk. rewrite !elem_of_cons, elem_of_nil in Hk.
    destruct Hk as [->|[->|[->|[->|[]]]]]; done.
Qed.

(** A calendar window's bounds in days, when it is cut on days. *)
Lemma ClockWindow_cases kind t w :
  ClockWindow kind t = Ok w →
  (kind = WindowMinute ∧ w = mkWindow kind (Truncate t Minute) (Truncate t Minute + Minute)) ∨
  (kind = WindowHour ∧ w = mkWindow kind (Truncate t Hour) (Truncate t Hour + Hour)) ∨
  (kind = WindowDay ∧ w = mkWindow kind (day_time (abs_day t)) (day_time (abs_day t + 1))) ∨
  (kind = WindowMonth ∧ w = mkWindow kind (day_time (month_start (month_index t)))
     (day_time (month_start (month_index t + 1)))).
Proof.
  unfold ClockWindow.
  rewrite Date_civil, Date_first, AddDate_day, AddDate_month. unfold Add.
  intros H. repeat case_match; simplify_eq; bool_prop; auto.
Qed.

Lemma ClockWindow_in kind t w : ClockWindow kind t = Ok w → in_window w t.
Proof.
  unfold in_window. intros [[-> ->]|[[-> ->]|[[-> ->]|[-> ->]]]]%ClockWindow_cases;
    cbn [Window_Start Window_End].
  - by apply Truncate_bounds.
  - by apply Truncate_bounds.
  - apply abs_day_bounds.
  - pose proof (abs_day_bounds t) as Hd. pose proof (month_index_spec t) as Hm.
    assert (day_time (month_start (month_index t)) ≤ day_time (abs_day t))
      by (apply day_time_le; lia).
    assert (day_time (abs_day t + 1) ≤ day_time (month_start (month_index t + 1)))
      by (apply day_time_le; lia). lia.
Qed.

Lemma ClockWindow_stable kind t u w :
  ClockWindow kind t = Ok w → in_window w u → ClockWindow kind u = Ok w.
Proof.
  unfold in_window. intros Hw Hu.
  assert (Hk : is_ok (ClockWindow kind u) = true).
  { apply ClockWindow_known. apply (ClockWindow_known kind t). by rewrite Hw. }
  destruct (ClockWindow kind u) as [w'|] eqn:Hw'; [f_equal|done].
  apply ClockWindow_cases in Hw, Hw'.
  destruct Hw as [[-> ->]|[[-> ->]|[[-> ->]|[-> ->]]]];
    destruct Hw' as [[? ->]|[[? ->]|[[? ->]|[? ->]]]]; try discriminate;
    cbn [Window_Start Window_End] in Hu.
  - by rewrite (Truncate_unique t u Minute).
  - by rewrite (Truncate_unique t u Hour).
  - assert (abs_day u = abs_day t) as -> by (apply abs_day_between in Hu; lia). done.
  - apply abs_day_between in Hu. by rewrite (month_index_unique u _ Hu).
Qed.

(** The window after a calendar window starts where it ends. *)
Lemma ClockWindow_next kind t w :
  ClockWindow kind t = Ok w →
  ∃ w', ClockWindow kind (Window_End w) = Ok w' ∧ Window_Start w' = Window_End w.
Proof.
  intros Hw.
  assert (Hk : is_ok (ClockWindow kind (Window_End w)) = true).
  { apply ClockWindow_known. apply (ClockWindow_known kind t). by rewrite Hw. }
  destruct (ClockWindow kind (Window_End w)) as [w'|] eqn:Hw'; [|done].
  exists w'. split; [done|].
  apply ClockWindow_cases in Hw, Hw'.
  destruct Hw as [[-> ->]|[[-> ->]|[[-> ->]|[-> ->]]]];
    destruct Hw' as [[? ->]|[[? ->]|[[? ->]|[? ->]]]]; try discriminate;
    cbn [Window_Start Window_End].
  - unfold Truncate, Minute, Second; simpl; lia.
  - unfold Truncate, Hour, Minute, Second; simpl; lia.
  - by rewrite abs_day_day_time.
  - do 2 f_equal. apply month_index_unique. rewrite abs_day_day_time.
    pose proof (month_start_step (month_index t + 1)). lia.
Qed.
