(* ===== verification/QuotaProps.v ===== *)
(** Quota windows tile time, validation accepts exactly the well-formed quotas, and the
    limits that apply at an instant are those whose window holds it. *)
From S2P Require Import Prelude Calendar Errors Money Quota.

(** What the quotas table accepts: the bounds belong to period quotas alone, and are in
    order. *)
Definition quota_wf (q : Quota) : Prop :=
  q_WindowKind q ∈ WindowKinds ∧
  (q_WindowKind q = WindowPeriod →
     ∃ s e, q_PeriodStart q = Some s ∧ q_PeriodEnd q = Some e ∧ s < e) ∧
  (q_WindowKind q ≠ WindowPeriod → q_PeriodStart q = None ∧ q_PeriodEnd q = None) ∧
  0 ≤ q_MaxCost q ∧ (q_OnExceed q = QuotaBlock ∨ q_OnExceed q = QuotaAllow).

Lemma WindowKind_Valid_spec k : WindowKind_Valid k = true ↔ k ∈ WindowKinds.
Proof.
  unfold WindowKind_Valid. rewrite existsb_exists. split.
  - intros (x & Hx%list_elem_of_In & ->%String.eqb_eq). done.
  - intros Hk. exists k. split; [by apply list_elem_of_In|apply String.eqb_refl].
Qed.

(** When a quota governs an instant. *)
Definition governs (q : Quota) (t : time) : Prop :=
  q_WindowKind q = WindowPeriod →
  ∃ s e, q_PeriodStart q = Some s ∧ q_PeriodEnd q = Some e ∧ s ≤ t < e.

Lemma WindowAt_some q t w :
  WindowAt q t = Some w → Window_Kind w = q_WindowKind q ∧ in_window w t.
Proof.
  unfold WindowAt, Before. destruct (String.eqb_spec (q_WindowKind q) WindowPeriod) as [E|E].
  - destruct (q_PeriodStart q) as [s|]; [|done]. destruct (q_PeriodEnd q) as [e|]; [|done].
    destruct (Z.ltb_spec t s); [done|]. destruct (Z.ltb_spec t e); [|done].
    simpl. intros [= <-]. split; [done|]. unfold in_window. simpl. lia.
  - destruct (ClockWindow _ _) as [w'|] eqn:Ew; [|done]. intros [= <-].
    split; [by apply (ClockWindow_kind _ t)|by apply (ClockWindow_in (q_WindowKind q))].
Qed.

Lemma WindowAt_governs q t : quota_wf q → is_Some (WindowAt q t) ↔ governs q t.
Proof.
  intros (Hk & Hp & Hnp & _). unfold WindowAt, governs, Before.
  destruct (String.eqb_spec (q_WindowKind q) WindowPeriod) as [E|E].
  - destruct (Hp E) as (s & e & -> & -> & Hse).
    destruct (Z.ltb_spec t s), (Z.ltb_spec t e); simpl; split; try (intros [? ?]; done);
      intros; try (eexists; split; done).
    all: try (specialize (H1 E) as (s' & e' & [= <-] & [= <-] & ?); lia).
    all: try (exists s, e; split_and!; lia || done).
    all: eauto.
  - split; [done|]. intros _.
    assert (Hok : is_ok (ClockWindow (q_WindowKind q) t) = true).
    { apply ClockWindow_known. unfold WindowKinds in Hk. set_solver. }
    destruct (ClockWindow _ _); [eauto|done].
Qed.

Lemma ApplicableLimits_elem quotas t l :
  l ∈ ApplicableLimits quotas t ↔
  ∃ q w, q ∈ quotas ∧ WindowAt q t = Some w ∧ l = mkWindowLimit w (q_MaxCost q) (Blocks q).
Proof.
  induction quotas as [|q quotas IH]; simpl.
  { split; [intros []%elem_of_nil|intros (q & w & []%elem_of_nil & _)]. }
  destruct (WindowAt q t) as [w|] eqn:Ew; rewrite ?elem_of_cons, IH; split.
  - intros [->|(q' & w' & Hq & Hw & ->)]; [exists q, w|exists q', w']; rewrite elem_of_cons; auto.
  - intros (q' & w' & [->|Hq]%elem_of_cons & Hw & ->); [left; congruence|right; eauto].
  - intros (q' & w' & Hq & Hw & ->). exists q', w'. rewrite elem_of_cons. auto.
  - intros (q' & w' & [->|Hq]%elem_of_cons & Hw & ->); [congruence|eauto].
Qed.

(** C14. Calendar windows tile time: for each clock kind every instant lies in the window
    computed for it, every instant of that window gets the same window, and the next one
    starts exactly where it ends. *)
Theorem clock_windows_tile kind t :
  kind ∈ [WindowMinute; WindowHour; WindowDay; WindowMonth] →
  ∃ w, ClockWindow kind t = Ok w ∧ in_window w t ∧
    (∀ u, ClockWindow kind u = Ok w ↔ in_window w u) ∧
    ∃ w', ClockWindow kind (Window_End w) = Ok w' ∧ Window_Start w' = Window_End w.
Proof.
  intros Hk. apply (ClockWindow_known kind t) in Hk.
  destruct (ClockWindow kind t) as [w|] eqn:Ew; [|done].
  exists w. split_and!; [done|by eapply ClockWindow_in| |by eapply ClockWindow_next].
  intros u. split; [apply ClockWindow_in|by eapply ClockWindow_stable].
Qed.

(** [Validate] accepts a quota exactly when it is well formed: a known window, bounds
    present and in order for a period and absent otherwise, a cap that is not negative and
    a known action. *)
Theorem Quota_Validate_iff q : Quota_Validate q = None ↔ quota_wf q.
Proof.
  unfold Quota_Validate, quota_wf. rewrite <- WindowKind_Valid_spec.
  destruct (WindowKind_Valid (q_WindowKind q)); simpl; [|split; [done|by intros [? _]]].
  destruct (String.eqb_spec (q_WindowKind q) WindowPeriod) as [E|E].
  - destruct (q_PeriodStart q) as [s|], (q_PeriodEnd q) as [e|];
      try (split; [done|intros (_ & Hp & _); by destruct (Hp E) as (? & ? & ? & ? & _)]).
    unfold Before. destruct (Z.ltb_spec s e) as [Hse|Hse]; simpl.
    2:{ split; [done|]. intros (_ & Hp & _). destruct (Hp E) as (? & ? & [= <-] & [= <-] & ?). lia. }
    destruct (Z.ltb_spec (q_MaxCost q) 0); [split; [done|naive_solver lia]|].
    destruct (String.eqb_spec (q_OnExceed q) QuotaBlock), (String.eqb_spec (q_OnExceed q) QuotaAllow);
      simpl; split; try done; naive_solver lia.
  - destruct (q_PeriodStart q) as [s|], (q_PeriodEnd q) as [e|]; simpl;
      try (split; [done|intros (_ & _ & Hn & _); by destruct (Hn E)]).
    destruct (Z.ltb_spec (q_MaxCost q) 0); [split; [done|naive_solver lia]|].
    destruct (String.eqb_spec (q_OnExceed q) QuotaBlock), (String.eqb_spec (q_OnExceed q) QuotaAllow);
      simpl; split; try done; naive_solver lia.
Qed.

(** Enforcement sees exactly the limits in force: a well-formed quota gives one limit at
    [t], with its cap, its action and a window of its kind holding [t], precisely when it
    is a clock quota or a period that has begun and not ended. *)
Theorem ApplicableLimits_in_force quotas t :
  Forall quota_wf quotas →
  (∀ l, l ∈ ApplicableLimits quotas t → in_window (wl_Window l) t) ∧
  (∀ q, q ∈ quotas →
     governs q t ↔ ∃ l, l ∈ ApplicableLimits quotas t ∧ WindowAt q t = Some (wl_Window l) ∧
       Window_Kind (wl_Window l) = q_WindowKind q ∧ wl_MaxCost l = q_MaxCost q ∧
       wl_Block l = bool_decide (q_OnExceed q = QuotaBlock)).
Proof.
  intros Hwf. split.
  - intros l (q & w & _ & Hw & ->)%ApplicableLimits_elem. by apply WindowAt_some in Hw as [_ ?].
  - intros q Hq. rewrite Forall_forall in Hwf. specialize (Hwf q Hq).
    rewrite <- WindowAt_governs by done. split; [|intros (l & _ & -> & _); eauto].
    intros [w Hw]. exists (mkWindowLimit w (q_MaxCost q) (Blocks q)). split_and!; try done.
    + apply ApplicableLimits_elem. eauto.
    + by destruct (WindowAt_some _ _ _ Hw).
    + simpl. unfold Blocks. destruct Hwf as (_ & _ & _ & _ & [-> | ->]); reflexivity.
Qed.

(** ** Witnesses *)

(** 29 February 2024, 12:30 UTC. *)
Definition ex_leap : time := 1709209800 * Second.

Lemma clock_windows_tile_witness :
  ClockWindow WindowMonth ex_leap =
    Ok (mkWindow WindowMonth (1706745600 * Second) (1709251200 * Second)) ∧
  in_window (mkWindow WindowMonth (1706745600 * Second) (1709251200 * Second)) ex_leap.
Proof.
  destruct (clock_windows_tile WindowMonth ex_leap) as (w & Hw & Hin & _).
  - apply (bool_decide_unpack _). vm_compute. exact I.
  - assert (E : ClockWindow WindowMonth ex_leap =
      Ok (mkWindow WindowMonth (1706745600 * Second) (1709251200 * Second)))
      by (vm_compute; reflexivity).
    rewrite E in Hw. injection Hw as <-. split; [exact E|exact Hin].
Defined.

Definition ex_period : Quota :=
  mkQuota WindowPeriod (Some 0) (Some (10 * Hour)) 500 QuotaAllow 0.

Lemma ApplicableLimits_in_force_witness :
  ∃ l, l ∈ ApplicableLimits [ex_period] Hour ∧ wl_MaxCost l = 500 ∧ wl_Block l = false.
Proof.
  destruct (ApplicableLimits_in_force [ex_period] Hour) as [_ Hq].
  - apply Forall_cons; split; [|by apply Forall_nil]. apply Quota_Validate_iff. reflexivity.
  - destruct (Hq ex_period) as [Hg _]; [by left|].
    destruct Hg as (l & Hl & _ & _ & Hm & Hb).
    + intros _. exists 0, (10 * Hour). unfold Hour, Minute, Second. split_and!; try done; lia.
    + exists l. split; [exact Hl|]. split; [exact Hm|]. rewrite Hb. reflexivity.
Defined.
