(* ===== verification/Redis.v ===== *)
(** Live quota counters in Redis: the three Lua scripts of
    [internal/adapters/repositories/redisquota] and the Go adapter around them
    (counters.go).

    Redis itself is an interface: [RedisStore] is the commands the scripts call and
    [RedisLaws] their documented effect. Redis runs a script to completion before
    any other command, so a script is one function of the store. *)
From Stdlib Require Import Ascii.
From S2P Require Import Prelude Errors Money Quota.

(** ** The store *)

(** Hash fields are integers: every value is written by HINCRBY or as the decimal
    text of an int64. *)
Class RedisStore (S : Type) := {
  TIME : S → Z;
  EXISTS : S → string → bool;
  HGET : S → string → string → option Z;
  HSET : S → string → string → Z → S;
  HINCRBY : S → string → string → Z → result error S;
  EXPIREAT : S → string → Z → S;
}.

Class RedisLaws (S : Type) `{RedisStore S} := {
  hget_missing s k f : EXISTS s k = false → HGET s k f = None;
  hset_get s k f v k' f' :
    HGET (HSET s k f v) k' f' = if decide (k = k' ∧ f = f') then Some v else HGET s k' f';
  hset_exists s k f v k' : EXISTS (HSET s k f v) k' = bool_decide (k = k') || EXISTS s k';
  hset_time s k f v : TIME (HSET s k f v) = TIME s;
  (** HINCRBY is an HSET of the sum, refused when it leaves the int64 range. *)
  hincrby_set s k f d :
    let v := default 0 (HGET s k f) + d in
    int64_range v → ∃ s', HINCRBY s k f d = Ok s' ∧ TIME s' = TIME s ∧
      (∀ k' f', HGET s' k' f' = HGET (HSET s k f v) k' f') ∧
      (∀ k', EXISTS s' k' = EXISTS (HSET s k f v) k');
  (** A deadline that is still ahead changes no value. *)
  expireat_get s k t k' f : TIME s < t → HGET (EXPIREAT s k t) k' f = HGET s k' f;
  expireat_exists s k t k' : TIME s < t → EXISTS (EXPIREAT s k t) k' = EXISTS s k';
  expireat_time s k t : TIME (EXPIREAT s k t) = TIME s;
}.

(** ** Lua numbers

    Lua's numbers are binary64; [tonumber] of a decimal integer rounds it to
    nearest, ties to even. *)
Definition lua_num (z : Z) : Z :=
  let a := Z.abs z in
  if a <=? 2 ^ 53 then z
  else
    let u := 2 ^ (Z.log2 a - 52) in
    let q := a / u in
    let r := a mod u in
    let q := if (u <? 2 * r) || ((2 * r =? u) && Z.odd q) then q + 1 else q in
    Z.sgn z * (q * u).

Definition lua_add (a b : Z) : Z := lua_num (a + b).

Definition lua_exact (z : Z) : Prop := Z.abs z ≤ 2 ^ 53.

Lemma lua_num_exact z : lua_exact z → lua_num z = z.
Proof. unfold lua_num, lua_exact. intros H. by rewrite (proj2 (Z.leb_le _ _) H). Qed.

(** ** Scripts *)

(** An element of a script's reply. *)
Inductive reply := RStr (s : string) | RInt (z : Z).

Definition f_requests : string := "requests".
Definition f_tokens : string := "tokens".
Definition f_cost : string := "cost_nanos".

Section Scripts.
Context {S : Type} `{RedisStore S}.

(** [ARGV[n]], arguments being the decimal text of integers. *)
Definition ARGV (argv : list Z) (n : nat) : Z := nth (n - 1) argv 0.

(** [src/internal/adapters/repositories/redisquota/reserve.lua:26-34] the missing counters *)
Fixpoint missing_from (s : S) (i : nat) (keys : list string) : list Z :=
  match keys with
  | [] => []
  | k :: keys =>
      (if EXISTS s k then [] else [Z.of_nat i]) ++ missing_from s (i + 1) keys
  end.

(** [src/internal/adapters/repositories/redisquota/reserve.lua:36-39] spent *)
Definition spent_of (s : S) (k : string) : Z :=
  match HGET s k f_cost with Some v => lua_num v | None => 0 end.

Definition argv_base (i : nat) : nat := 3 + (i - 1) * 3.

(** [src/internal/adapters/repositories/redisquota/reserve.lua:41-49] the check before any write *)
Fixpoint first_blocked (argv : list Z) (i : nat) (spent : list Z) : option (list reply) :=
  match spent with
  | [] => None
  | sp :: spent =>
      let limit := lua_num (ARGV argv (argv_base i + 3)) in
      if (ARGV argv (argv_base i + 2) =? 1) &&
         (limit <? lua_add sp (lua_num (ARGV argv 3)))
      then Some [RStr "blocked"; RInt (Z.of_nat i); RInt sp; RInt limit]
      else first_blocked argv (i + 1) spent
  end.

(** [src/internal/adapters/repositories/redisquota/reserve.lua:54-61] the increments of one window *)
Fixpoint hincr_all (s : S) (k : string) (dims : list (string * Z)) : S * option error :=
  match dims with
  | [] => (s, None)
  | (f, d) :: dims =>
      if lua_num d =? 0 then hincr_all s k dims
      else match HINCRBY s k f d with
           | Ok s' => hincr_all s' k dims
           | Err e => (s, Some e)
           end
  end.

Definition amounts (argv : list Z) : list (string * Z) :=
  [(f_requests, ARGV argv 1); (f_tokens, ARGV argv 2); (f_cost, ARGV argv 3)].

(** [src/internal/adapters/repositories/redisquota/reserve.lua:51-71] the writes *)
Fixpoint reserve_writes (argv : list Z) (i : nat) (keys : list string) (spent : list Z)
    (s : S) (soft : list reply) : S * result error (list reply) :=
  match keys, spent with
  | k :: keys, sp :: spent =>
      match hincr_all s k (amounts argv) with
      | (s, Some e) => (s, Err e)
      | (s, None) =>
          let s := EXPIREAT s k (ARGV argv (argv_base i + 1)) in
          let limit := lua_num (ARGV argv (argv_base i + 3)) in
          let soft :=
            if negb (ARGV argv (argv_base i + 2) =? 1) &&
               (limit <? lua_add sp (lua_num (ARGV argv 3)))
            then soft ++ [RInt (Z.of_nat i); RInt sp; RInt limit]
            else soft in
          reserve_writes argv (i + 1) keys spent s soft
      end
  | _, _ => (s, Ok soft)
  end.

(** [src/internal/adapters/repositories/redisquota/reserve.lua:20-71] reserve.lua *)
Definition reserve_lua (s : S) (keys : list string) (argv : list Z)
    : S * result error (list reply) :=
  match missing_from s 1 keys with
  | (_ :: _) as missing => (s, Ok (RStr "missing" :: map RInt missing))
  | [] =>
      let spent := map (spent_of s) keys in
      match first_blocked argv 1 spent with
      | Some r => (s, Ok r)
      | None => reserve_writes argv 1 keys spent s [RStr "ok"]
      end
  end.

(** [src/internal/adapters/repositories/redisquota/seed.lua:15-23] one field of one counter *)
Definition seed_field (s : S) (k f : string) (snapshot : Z) (cur : option Z) : S :=
  match cur with
  | None => HSET s k f snapshot
  | Some c => if lua_num c <? lua_num snapshot then HSET s k f snapshot else s
  end.

(** [src/internal/adapters/repositories/redisquota/seed.lua:13-26] seed.lua *)
Fixpoint seed_lua (s : S) (i : nat) (keys : list string) (argv : list Z) : S :=
  match keys with
  | [] => s
  | k :: keys =>
      let base := ((i - 1) * 4)%nat in
      let c1 := HGET s k f_requests in
      let c2 := HGET s k f_tokens in
      let c3 := HGET s k f_cost in
      let s := seed_field s k f_requests (ARGV argv (base + 1)) c1 in
      let s := seed_field s k f_tokens (ARGV argv (base + 2)) c2 in
      let s := seed_field s k f_cost (ARGV argv (base + 3)) c3 in
      let s := EXPIREAT s k (ARGV argv (base + 4)) in
      seed_lua s (i + 1) keys argv
  end.

(** [src/internal/adapters/repositories/redisquota/adjust.lua:12-16] the deltas of one counter *)
Fixpoint adjust_dims (s : S) (k : string) (dims : list (string * Z)) : S * option error :=
  match dims with
  | [] => (s, None)
  | (f, d) :: dims =>
      if d =? 0 then adjust_dims s k dims
      else match HINCRBY s k f d with
           | Ok s' => adjust_dims s' k dims
           | Err e => (s, Some e)
           end
  end.

(** [src/internal/adapters/repositories/redisquota/adjust.lua:9-19] adjust.lua *)
Fixpoint adjust_lua (s : S) (keys : list string) (argv : list Z) : S * option error :=
  match keys with
  | [] => (s, None)
  | k :: keys =>
      if EXISTS s k then
        match adjust_dims s k (amounts argv) with
        | (s, None) => adjust_lua s keys argv
        | r => r
        end
      else adjust_lua s keys argv
  end.
End Scripts.

(** ** The Go adapter *)

(** [src/internal/ports/quota.go:94-108] CounterReservation *)
Record CounterReservation := mkCounterReservation {
  Missing : list Window;
  Blocked : option QuotaBreach;
  Soft : list QuotaBreach;
}.

#[export] Instance CounterReservation_eq_dec : EqDecision CounterReservation.
Proof. solve_decision. Defined.

(** [src/internal/adapters/repositories/redisquota/counters.go:28-32] expiryGrace *)
Definition expiryGrace : duration := Hour.

(** [src/internal/adapters/repositories/redisquota/counters.go:51-53] ErrUnexpectedReply *)
Definition ErrUnexpectedReply : error := Sentinel "redisquota: unexpected script reply".

(** [src/internal/adapters/repositories/redisquota/counters.go:77-79] expireAt *)
Definition expireAt (w : Window) : Z := Unix (Add (Window_End w) expiryGrace).

(** [src/internal/adapters/repositories/redisquota/counters.go:125-131] the window a reply index names *)
Definition reply_window (limits : list WindowLimit) (v : reply) : result error Window :=
  match v with
  | RInt i =>
      if (i <? 1) || (Z.of_nat (length limits) <? i)
      then Err (Errorf "%w: window index %v" [AWrap ErrUnexpectedReply; AInt i])
      else match limits !! Z.to_nat (i - 1) with
           | Some l => Ok (wl_Window l)
           | None => Err ErrUnexpectedReply
           end
  | RStr s => Err (Errorf "%w: window index %v" [AWrap ErrUnexpectedReply; AStr s])
  end.

(** [used, _ := v.(int64)] *)
Definition reply_int (v : reply) : Z := match v with RInt z => z | RStr _ => 0 end.

(** [src/internal/adapters/repositories/redisquota/counters.go:137-149] the loop of breaches *)
Fixpoint breaches_loop (limits : list WindowLimit) (amount : QuotaUsage) (vals : list reply)
    : result error (list QuotaBreach) :=
  match vals with
  | i :: used :: limit :: vals =>
      let! w := reply_window limits i in
      let! out := breaches_loop limits amount vals in
      Ok (mkQuotaBreach w (reply_int used) (Cost amount) (reply_int limit) :: out)
  | _ => Ok []
  end.

(** [src/internal/adapters/repositories/redisquota/counters.go:133-150] breaches *)
Definition reply_breaches (limits : list WindowLimit) (amount : QuotaUsage) (vals : list reply)
    : result error (list QuotaBreach) :=
  if negb (Z.of_nat (length vals) mod 3 =? 0)
  then Err (Errorf "%w: %d breach fields" [AWrap ErrUnexpectedReply; AInt (Z.of_nat (length vals))])
  else breaches_loop limits amount vals.

Fixpoint reply_windows (limits : list WindowLimit) (vals : list reply)
    : result error (list Window) :=
  match vals with
  | [] => Ok []
  | v :: vals =>
      let! w := reply_window limits v in
      let! out := reply_windows limits vals in
      Ok (w :: out)
  end.

(** [src/internal/adapters/repositories/redisquota/counters.go:111-181] parseReserve *)
Definition parseReserve (r : list reply) (limits : list WindowLimit) (amount : QuotaUsage)
    : result error CounterReservation :=
  match r with
  | [] => Err ErrUnexpectedReply
  | RInt _ :: _ => Err (Errorf "%w: status %q" [AWrap ErrUnexpectedReply; AStr ""])
  | RStr status :: rest =>
      if String.eqb status "missing" then
        let! missing := reply_windows limits rest in
        Ok (mkCounterReservation missing None [])
      else if String.eqb status "blocked" then
        match reply_breaches limits amount rest with
        | Ok [b] => Ok (mkCounterReservation [] (Some b) [])
        | _ => Err (Errorf "%w: blocked reply %v" [AWrap ErrUnexpectedReply])
        end
      else if String.eqb status "ok" then
        let! soft := reply_breaches limits amount rest in
        Ok (mkCounterReservation [] None soft)
      else Err (Errorf "%w: status %q" [AWrap ErrUnexpectedReply; AStr status])
  end.

(** How one script call goes: the reply arrives, it is lost after the script ran,
    or the call never reaches the server. *)
Inductive fate := Replied | ReplyLost (e : error) | NotSent (e : error).

Section Adapter.
Context {S : Type} `{RedisStore S}.
(** [uuid.UUID.String] of the uuid package. *)
Context (uuid_string : uuid → string).

(** [src/internal/adapters/repositories/redisquota/counters.go:72-75] Key *)
Definition Key (tenantID : uuid) (w : Window) : string :=
  "q:{" +:+ uuid_string tenantID +:+ "}:" +:+ Window_Kind w +:+ ":" +:+
  pretty (Unix (Window_Start w)).

Definition limit_args (l : WindowLimit) : list Z :=
  [expireAt (wl_Window l); if wl_Block l then 1 else 0; wl_MaxCost l].

(** [src/internal/adapters/repositories/redisquota/counters.go:81-109] Counters.Reserve *)
Definition Counters_Reserve (s : S) (f : fate) (tenantID : uuid)
    (limits : list WindowLimit) (amount : QuotaUsage)
    : S * result error CounterReservation :=
  let keys := map (λ l, Key tenantID (wl_Window l)) limits in
  let args := [Requests amount; Tokens amount; Cost amount] ++ concat (map limit_args limits) in
  match f with
  | NotSent e => (s, Err (Errorf "redisquota: reserve: %w" [AWrap e]))
  | ReplyLost e => ((reserve_lua s keys args).1, Err (Errorf "redisquota: reserve: %w" [AWrap e]))
  | Replied =>
      match reserve_lua s keys args with
      | (s, Err e) => (s, Err (Errorf "redisquota: reserve: %w" [AWrap e]))
      | (s, Ok r) => (s, parseReserve r limits amount)
      end
  end.

Definition seed_args (u : WindowUsage) : list Z :=
  [Requests (wu_Usage u); Tokens (wu_Usage u); Cost (wu_Usage u); expireAt (wu_Window u)].

(** [src/internal/adapters/repositories/redisquota/counters.go:199-214] Counters.seedTenant *)
Definition seedTenant (s : S) (f : fate) (tenantID : uuid) (seeds : list WindowUsage)
    : S * option error :=
  let keys := map (λ u, Key tenantID (wu_Window u)) seeds in
  let args := concat (map seed_args seeds) in
  match f with
  | NotSent e => (s, Some (Errorf "redisquota: seed: %w" [AWrap e]))
  | ReplyLost e => (seed_lua s 1 keys args, Some (Errorf "redisquota: seed: %w" [AWrap e]))
  | Replied => (seed_lua s 1 keys args, None)
  end.

(** [src/internal/adapters/repositories/redisquota/counters.go:185-197] Counters.Seed

    [order] is the order in which the runtime iterates over the tenants, with the
    fate of each call. *)
Fixpoint Counters_Seed (s : S) (order : list (uuid * fate)) (seeds : list WindowUsage)
    : S * option error :=
  match order with
  | [] => (s, None)
  | (t, f) :: order =>
      match seedTenant s f t (List.filter (λ u, bool_decide (wu_TenantID u = t)) seeds) with
      | (s, None) => Counters_Seed s order seeds
      | r => r
      end
  end.

(** [src/internal/adapters/repositories/redisquota/counters.go:216-237] Counters.Adjust *)
Definition Counters_Adjust (s : S) (f : fate) (tenantID : uuid) (windows : list Window)
    (delta : QuotaUsage) : S * option error :=
  if bool_decide (windows = []) || QuotaUsage_IsZero delta then (s, None)
  else
    let keys := map (Key tenantID) windows in
    let args := [Requests delta; Tokens delta; Cost delta] in
    match f with
    | NotSent e => (s, Some (Errorf "redisquota: adjust: %w" [AWrap e]))
    | ReplyLost e =>
        ((adjust_lua s keys args).1, Some (Errorf "redisquota: adjust: %w" [AWrap e]))
    | Replied =>
        match adjust_lua s keys args with
        | (s, None) => (s, None)
        | (s, Some e) => (s, Some (Errorf "redisquota: adjust: %w" [AWrap e]))
        end
    end.
End Adapter.

(** ** What the scripts do to the counters *)

(** A field's value, an absent one being zero. *)
Definition val {S} `{RedisStore S} (s : S) (k f : string) : Z := default 0 (HGET s k f).

(** A counter as the enforcer sees it: absent, or the usage in its three fields. *)
Definition counter {S} `{RedisStore S} (s : S) (k : string) : option QuotaUsage :=
  if EXISTS s k then Some (mkQuotaUsage (val s k f_requests) (val s k f_tokens) (val s k f_cost))
  else None.

Lemma counter_none {S} `{RedisStore S} (s : S) k : counter s k = None ↔ EXISTS s k = false.
Proof. unfold counter. by destruct (EXISTS s k). Qed.

Definition usage_field (u : QuotaUsage) (f : string) : Z :=
  if String.eqb f f_requests then Requests u
  else if String.eqb f f_tokens then Tokens u
  else if String.eqb f f_cost then Cost u else 0.

Definition field_names : list string := [f_requests; f_tokens; f_cost].

Lemma lua_num_zero d : lua_num d = 0 ↔ d = 0.
Proof.
  split; [|by intros ->]. unfold lua_num.
  destruct (Z.leb_spec (Z.abs d) (2 ^ 53)) as [|Hd]; [done|]. cbv zeta.
  set (a := Z.abs d) in *.
  assert (Hl : 53 ≤ Z.log2 a).
  { apply Z.log2_le_pow2; lia. }
  assert (Hu : 0 < 2 ^ (Z.log2 a - 52)) by (apply Z.pow_pos_nonneg; lia).
  assert (Hq : 1 ≤ a / 2 ^ (Z.log2 a - 52)).
  { apply Z.div_le_lower_bound; [done|]. rewrite Z.mul_1_r.
    transitivity (2 ^ Z.log2 a); [apply Z.pow_le_mono_r; lia|].
    apply Z.log2_spec. lia. }
  intros H. apply Z.eq_mul_0 in H as [H|H]; [lia|].
  case_match; nia.
Qed.

Section Scripts_facts.
Context {S : Type} `{RedisLaws S}.
Implicit Types (s : S) (k f : string).

Lemma expireat_val s k t k' f : TIME s < t → val (EXPIREAT s k t) k' f = val s k' f.
Proof. intros Ht. unfold val. by rewrite expireat_get. Qed.

Lemma hset_val s k f v k' f' :
  val (HSET s k f v) k' f' = if decide (k = k' ∧ f = f') then v else val s k' f'.
Proof. unfold val. rewrite hset_get. by case_decide. Qed.

Lemma hincrby_val s k f d :
  EXISTS s k = true → int64_range (val s k f + d) →
  ∃ s', HINCRBY s k f d = Ok s' ∧ TIME s' = TIME s ∧
    (∀ k', EXISTS s' k' = EXISTS s k') ∧
    (∀ k' f', val s' k' f' = val s k' f' + if decide (k = k' ∧ f = f') then d else 0).
Proof.
  intros Hk Hr. destruct (hincrby_set s k f d Hr) as (s' & -> & Ht & Hg & He).
  exists s'. split_and!; [done..| |].
  - intros k'. rewrite He, hset_exists. case_bool_decide; subst; [by rewrite Hk|done].
  - intros k' f'. unfold val at 1. rewrite Hg, hset_get.
    case_decide as Hd; [destruct Hd; subst; simpl|]; unfold val; lia.
Qed.

(** The three HINCRBYs of one counter, zero amounts skipped. *)
Lemma adjust_dims_val s k dims :
  EXISTS s k = true → NoDup dims.*1 →
  (∀ f d, (f, d) ∈ dims → int64_range (val s k f + d)) →
  ∃ s', adjust_dims s k dims = (s', None) ∧ TIME s' = TIME s ∧
    (∀ k', EXISTS s' k' = EXISTS s k') ∧
    (∀ k' f', val s' k' f' = val s k' f' +
      if decide (k = k') then zsum (map snd (List.filter (λ p, String.eqb p.1 f') dims)) else 0).
Proof.
  revert s. induction dims as [|[f d] dims IH]; intros s Hk Hnd Hr.
  { exists s. split_and!; try done. intros. case_decide; simpl; lia. }
  apply NoDup_cons in Hnd as [Hf Hnd]. simpl.
  assert (Hkeep : ∀ f' d', (f', d') ∈ dims → f ≠ f').
  { intros f' d' Hin ->. apply Hf. apply list_elem_of_fmap. by exists (f', d'). }
  destruct (Z.eqb_spec d 0) as [->|Hd].
  - destruct (IH s Hk Hnd) as (s' & -> & Ht & He & Hv).
    { intros. apply Hr. by right. }
    exists s'. split_and!; try done. intros k' f'. rewrite Hv.
    case_decide; [|done]. by destruct (String.eqb f f').
  - destruct (hincrby_val s k f d Hk) as (s1 & -> & Ht1 & He1 & Hv1).
    { apply Hr. by left. }
    destruct (IH s1) as (s' & -> & Ht & He & Hv).
    { by rewrite He1. } { done. }
    { intros f' d' Hin. rewrite Hv1.
      rewrite decide_False by (intros [_ ->]; by eapply Hkeep).
      rewrite Z.add_0_r. apply Hr. by right. }
    exists s'. split_and!; [done|congruence|congruence|].
    intros k' f'. rewrite Hv, Hv1. destruct (String.eqb_spec f f') as [->|Hne]; simpl.
    + destruct (decide (k = k')) as [<-|E]; [rewrite decide_True by done; lia|].
      rewrite decide_False by (intros [? _]; done). lia.
    + rewrite decide_False by (intros [_ ?]; done). lia.
Qed.

(** reserve.lua's loop differs only in testing the Lua number. *)
Lemma hincr_all_adjust s k dims : hincr_all s k dims = adjust_dims s k dims.
Proof.
  revert s. induction dims as [|[f d] dims IH]; intros s; simpl; [done|].
  assert ((lua_num d =? 0) = (d =? 0)) as ->.
  { apply eq_bool_prop_intro. rewrite !Is_true_true, !Z.eqb_eq. apply lua_num_zero. }
  destruct (d =? 0); [done|]. by destruct (HINCRBY s k f d).
Qed.

(** The amounts as one usage. *)
Definition argv_usage (argv : list Z) : QuotaUsage :=
  mkQuotaUsage (ARGV argv 1) (ARGV argv 2) (ARGV argv 3).

Lemma amounts_NoDup argv : NoDup (amounts argv).*1.
Proof.
  change (NoDup [f_requests; f_tokens; f_cost]). apply (bool_decide_unpack _). by vm_compute.
Qed.

Lemma amounts_sum argv f :
  zsum (map snd (List.filter (λ p, String.eqb p.1 f) (amounts argv))) =
  usage_field (argv_usage argv) f.
Proof.
  unfold amounts, usage_field. cbn [List.filter fst].
  rewrite !(String.eqb_sym f).
  destruct (String.eqb_spec f_requests f) as [<-|]; [simpl; lia|].
  destruct (String.eqb_spec f_tokens f) as [<-|]; [simpl; lia|].
  destruct (String.eqb_spec f_cost f) as [<-|]; simpl; lia.
Qed.

(** Every field of a counter has room for an amount. *)
Definition has_room s k (u : QuotaUsage) : Prop :=
  ∀ f, f ∈ field_names → int64_range (val s k f + usage_field u f).

Lemma has_room_amounts s k argv f d :
  has_room s k (argv_usage argv) → (f, d) ∈ amounts argv → int64_range (val s k f + d).
Proof.
  intros Hr Hin. unfold amounts in Hin.
  rewrite !elem_of_cons, elem_of_nil in Hin.
  destruct Hin as [E|[E|[E|[]]]]; simplify_eq;
    match goal with |- int64_range (val _ _ ?f + _) => apply (Hr f) end; set_solver.
Qed.

Lemma hincr_all_val s k argv :
  EXISTS s k = true → has_room s k (argv_usage argv) →
  ∃ s', hincr_all s k (amounts argv) = (s', None) ∧ TIME s' = TIME s ∧
    (∀ k', EXISTS s' k' = EXISTS s k') ∧
    (∀ k' f', val s' k' f' = val s k' f' +
      if decide (k = k') then usage_field (argv_usage argv) f' else 0).
Proof.
  intros Hk Hr. rewrite hincr_all_adjust.
  destruct (adjust_dims_val s k (amounts argv)) as (s' & -> & ? & ? & Hv);
    eauto using amounts_NoDup, has_room_amounts.
  exists s'. split_and!; try done. intros. rewrite Hv. by rewrite amounts_sum.
Qed.
End Scripts_facts.

(** ** What one reservation promises

    The contract of [ports.QuotaCounters.Reserve], over the counters as a map. *)

(** A counter that a limit governs, and what an amount does to it. *)
Definition crosses (used : WindowLimit → USD) (amount : QuotaUsage) (l : WindowLimit) : Prop :=
  wl_MaxCost l < used l + Cost amount.
Definition blocking (used : WindowLimit → USD) (amount : QuotaUsage) (l : WindowLimit) : Prop :=
  wl_Block l = true ∧ crosses used amount l.
Definition soft_crossing (used : WindowLimit → USD) (amount : QuotaUsage) (l : WindowLimit)
    : Prop :=
  wl_Block l = false ∧ crosses used amount l.

#[export] Instance blocking_dec used amount l : Decision (blocking used amount l).
Proof. unfold blocking, crosses. apply _. Defined.
#[export] Instance soft_crossing_dec used amount l : Decision (soft_crossing used amount l).
Proof. unfold soft_crossing, crosses. apply _. Defined.

Definition breach_of (used : WindowLimit → USD) (amount : QuotaUsage) (l : WindowLimit)
    : QuotaBreach :=
  mkQuotaBreach (wl_Window l) (used l) (Cost amount) (wl_MaxCost l).

(** With every counter live: refused at the first blocking limit it would cross,
    taken otherwise, with the allowing limits it crossed. *)
Definition reserve_check (used : WindowLimit → USD) (limits : list WindowLimit)
    (amount : QuotaUsage) : CounterReservation :=
  match list_find (blocking used amount) limits with
  | Some (_, l) => mkCounterReservation [] (Some (breach_of used amount l)) []
  | None =>
      mkCounterReservation [] None
        (map (breach_of used amount) (filter (soft_crossing used amount) limits))
  end.

Definition reserve_spec (live : Window → option QuotaUsage) (limits : list WindowLimit)
    (amount : QuotaUsage) : CounterReservation :=
  match filter (λ w, live w = None) (map wl_Window limits) with
  | (_ :: _) as missing => mkCounterReservation missing None []
  | [] => reserve_check (λ l, default 0 (Cost <$> live (wl_Window l))) limits amount
  end.

Lemma reserve_check_ext used used' limits amount :
  (∀ l, used l = used' l) → reserve_check used limits amount = reserve_check used' limits amount.
Proof.
  intros Hu. unfold reserve_check.
  rewrite (list_find_ext _ (blocking used' amount))
    by (intros l; unfold blocking, crosses; by rewrite Hu).
  rewrite (list_filter_iff _ (soft_crossing used' amount))
    by (intros l; unfold soft_crossing, crosses; by rewrite Hu).
  assert (Hb : ∀ l, breach_of used amount l = breach_of used' amount l)
    by (intros l; unfold breach_of; by rewrite Hu).
  destruct (list_find _ _) as [[n l]|]; [by rewrite Hb|].
  f_equal. by apply List.map_ext.
Qed.

(** A reservation was taken: nothing missing, nothing blocked. *)
Definition taken (r : CounterReservation) : bool :=
  bool_decide (Missing r = []) && bool_decide (Blocked r = None).

(** *** Arguments *)

Definition reserve_args (limits : list WindowLimit) (amount : QuotaUsage) : list Z :=
  [Requests amount; Tokens amount; Cost amount] ++ concat (map limit_args limits).

Lemma concat_limit_args_nth pre l suf j :
  (j < 3)%nat →
  nth (3 * length pre + j) (concat (map limit_args (pre ++ l :: suf))) 0 = nth j (limit_args l) 0.
Proof.
  intros Hj. induction pre as [|p pre IH].
  - simpl. destruct j as [|[|[|]]]; [done..|lia].
  - replace (3 * length (p :: pre) + j)%nat with (3 + (3 * length pre + j))%nat by (simpl; lia).
    simpl app. simpl map. simpl concat. simpl Nat.add at 1. simpl nth at 1.
    rewrite <- IH. done.
Qed.

Lemma reserve_ARGV pre l suf amount j :
  (1 ≤ j ≤ 3)%nat →
  ARGV (reserve_args (pre ++ l :: suf) amount) (argv_base (length pre + 1) + j) =
  nth (j - 1) (limit_args l) 0.
Proof.
  intros Hj. unfold ARGV, argv_base, reserve_args.
  replace (3 + (length pre + 1 - 1) * 3 + j - 1)%nat
    with (3 + (3 * length pre + (j - 1)))%nat by lia.
  rewrite <- (concat_limit_args_nth pre l suf) by lia. done.
Qed.

Lemma reserve_argv_usage limits amount : argv_usage (reserve_args limits amount) = amount.
Proof. by destruct amount. Qed.

Section Reserve_facts.
Context {S : Type} `{RedisLaws S}.
Context (key : Window → string).
Implicit Types (s : S) (limits : list WindowLimit).

Definition lkey (l : WindowLimit) : string := key (wl_Window l).
Definition used_of s (l : WindowLimit) : USD := val s (lkey l) f_cost.

(** Every amount the check compares is a Lua integer. *)
Definition lua_exact_limits s limits (amount : QuotaUsage) : Prop :=
  lua_exact (Cost amount) ∧
  Forall (λ l, lua_exact (used_of s l) ∧ lua_exact (wl_MaxCost l) ∧
               lua_exact (used_of s l + Cost amount)) limits.

Lemma missing_from_spec s limits n :
  missing_from s n (map lkey limits) =
  concat (imap (λ i l, if EXISTS s (lkey l) then [] else [Z.of_nat (n + i)]) limits).
Proof.
  revert n. induction limits as [|l limits IH]; intros n; simpl; [done|].
  rewrite Nat.add_0_r. f_equal. rewrite IH. f_equal. apply imap_ext.
  intros i l' _. simpl. by replace (n + 1 + i)%nat with (n + Datatypes.S i)%nat by lia.
Qed.

Lemma spent_of_used s l : lua_exact (used_of s l) → spent_of s (lkey l) = used_of s l.
Proof.
  unfold spent_of, used_of, val. destruct (HGET s (lkey l) f_cost); simpl; [|done].
  apply lua_num_exact.
Qed.

Lemma reply_window_nth pre l suf :
  reply_window (pre ++ l :: suf) (RInt (Z.of_nat (length pre + 1))) = Ok (wl_Window l).
Proof.
  unfold reply_window. rewrite length_app. simpl length.
  rewrite (proj2 (Z.ltb_ge _ _)) by lia. rewrite (proj2 (Z.ltb_ge _ _)) by lia. simpl.
  replace (Z.to_nat (Z.of_nat (length pre + 1) - 1)) with (length pre) by lia.
  by rewrite list_lookup_middle.
Qed.

(** *** The check *)

Lemma first_blocked_spec s amount pre suf :
  lua_exact_limits s suf amount →
  first_blocked (reserve_args (pre ++ suf) amount) (length pre + 1)
    (map (λ l, spent_of s (lkey l)) suf) =
  (λ '(n, l), [RStr "blocked"; RInt (Z.of_nat (length pre + n + 1)); RInt (used_of s l);
               RInt (wl_MaxCost l)]) <$> list_find (blocking (used_of s) amount) suf.
Proof.
  intros [Ha Hl]. revert pre. induction suf as [|l suf IH]; intros pre; [done|].
  apply Forall_cons in Hl as [(Hu & Hm & Hs) Hl].
  cbn [map first_blocked]. rewrite !reserve_ARGV by lia. cbn [limit_args nth Nat.sub].
  change (ARGV (reserve_args (pre ++ l :: suf) amount) 3) with (Cost amount).
  rewrite spent_of_used, !lua_num_exact by done.
  unfold lua_add. rewrite lua_num_exact by done.
  specialize (IH Hl (pre ++ [l])).
  rewrite <- app_assoc, length_app in IH. simpl in IH.
  simpl list_find. case_decide as Hb.
  - destruct Hb as [-> Hc]. unfold crosses in Hc.
    rewrite (proj2 (Z.ltb_lt _ _)) by done. simpl. by rewrite Nat.add_0_r.
  - replace (((if wl_Block l then 1 else 0) =? 1) &&
             (wl_MaxCost l <? used_of s l + Cost amount)) with false.
    + rewrite IH. destruct (list_find _ suf) as [[n l']|]; simpl; [|done].
      do 4 f_equal. lia.
    + unfold blocking, crosses in Hb. destruct (wl_Block l); simpl; [|done].
      symmetry. apply Z.ltb_ge. lia.
Qed.

(** *** The writes *)

Fixpoint soft_reply s amount (n : nat) limits : list reply :=
  match limits with
  | [] => []
  | l :: limits =>
      (if decide (soft_crossing (used_of s) amount l)
       then [RInt (Z.of_nat (n + 1)); RInt (used_of s l); RInt (wl_MaxCost l)] else [])
      ++ soft_reply s amount (n + 1) limits
  end.

Lemma reserve_writes_spec s0 amount pre suf s soft :
  lua_exact_limits s0 suf amount →
  Forall (λ l, EXISTS s (lkey l) = true ∧ has_room s (lkey l) amount ∧
               TIME s < expireAt (wl_Window l)) suf →
  NoDup (map lkey suf) →
  ∃ s', reserve_writes (reserve_args (pre ++ suf) amount) (length pre + 1) (map lkey suf)
          (map (λ l, spent_of s0 (lkey l)) suf) s soft =
        (s', Ok (soft ++ soft_reply s0 amount (length pre) suf)) ∧
    TIME s' = TIME s ∧ (∀ k, EXISTS s' k = EXISTS s k) ∧
    (∀ k f, val s' k f = val s k f +
      if decide (k ∈ map lkey suf) then usage_field amount f else 0).
Proof.
  intros [Ha Hl]. revert pre s soft.
  induction suf as [|l suf IH]; intros pre s soft Hs Hnd.
  { exists s. simpl. rewrite app_nil_r. split_and!; try done. intros. lia. }
  apply Forall_cons in Hl as [(Hu & Hm & Hsum) Hl].
  apply Forall_cons in Hs as [(He & Hr & Ht) Hs].
  apply NoDup_cons in Hnd as [Hnin Hnd].
  cbn [map reserve_writes]. rewrite !reserve_ARGV by lia. cbn [limit_args nth Nat.sub].
  set (argv := reserve_args (pre ++ l :: suf) amount).
  assert (Hu' : argv_usage argv = amount) by apply reserve_argv_usage.
  change (ARGV argv 3) with (Cost amount).
  destruct (hincr_all_val s (lkey l) argv) as (s1 & -> & Ht1 & He1 & Hv1); [done|by rewrite Hu'|].
  rewrite Hu' in Hv1.
  rewrite spent_of_used, !lua_num_exact by done.
  unfold lua_add. rewrite lua_num_exact by done.
  set (s2 := EXPIREAT s1 (lkey l) (expireAt (wl_Window l))).
  assert (Hv2 : ∀ k f, val s2 k f = val s1 k f) by (intros; apply expireat_val; lia).
  assert (He2 : ∀ k, EXISTS s2 k = EXISTS s k).
  { intros k. unfold s2. rewrite expireat_exists by lia. apply He1. }
  assert (Ht2 : TIME s2 = TIME s) by (unfold s2; by rewrite expireat_time).
  match goal with |- context [reserve_writes argv _ _ _ s2 ?x] => set (soft2 := x) end.
  assert (Hsoft : soft2 = soft ++
    if decide (soft_crossing (used_of s0) amount l)
    then [RInt (Z.of_nat (length pre + 1)); RInt (used_of s0 l); RInt (wl_MaxCost l)] else []).
  { unfold soft2, soft_crossing, crosses. case_decide as Hd.
    - destruct Hd as [-> Hd]. by rewrite (proj2 (Z.ltb_lt _ _) Hd).
    - destruct (wl_Block l); simpl; [by rewrite app_nil_r|].
      rewrite (proj2 (Z.ltb_ge _ _)) by lia. by rewrite app_nil_r. }
  destruct (IH Hl (pre ++ [l]) s2 soft2) as (s' & Hw & Ht' & He' & Hv'); [|done|].
  { rewrite Forall_forall in Hs |- *. intros l' Hl'.
    destruct (Hs l' Hl') as (? & Hr' & ?).
    rewrite He2, Ht2. split_and!; [done| |done].
    intros f Hf. rewrite Hv2, Hv1, decide_False, Z.add_0_r; [by apply Hr'|].
    intros E. apply Hnin. rewrite E. by apply list_elem_of_fmap_2. }
  rewrite <- app_assoc, length_app in Hw. simpl in Hw. fold argv in Hw.
  exists s'. rewrite Hw, Hsoft. split_and!.
  - by rewrite <- app_assoc.
  - congruence.
  - intros k. by rewrite He', He2.
  - intros k f. rewrite Hv', Hv2, Hv1.
    destruct (decide (lkey l = k)) as [<-|Hne].
    + rewrite (decide_False (P := lkey l ∈ _)) by done.
      rewrite decide_True by set_solver. lia.
    + rewrite (decide_ext (k ∈ lkey l :: map lkey suf) (k ∈ map lkey suf)); [lia|].
      set_solver.
Qed.

(** *** The reply read back *)

Lemma breaches_loop_soft s amount pre suf :
  breaches_loop (pre ++ suf) amount (soft_reply s amount (length pre) suf) =
  Ok (map (breach_of (used_of s) amount) (filter (soft_crossing (used_of s) amount) suf)).
Proof.
  revert pre. induction suf as [|l suf IH]; intros pre; [done|].
  specialize (IH (pre ++ [l])). rewrite <- app_assoc, length_app in IH. simpl in IH.
  cbn [soft_reply]. rewrite filter_cons. case_decide; [|exact IH].
  cbn [app breaches_loop]. rewrite reply_window_nth. simpl. by rewrite IH.
Qed.

Lemma soft_reply_length s amount n limits :
  Z.of_nat (length (soft_reply s amount n limits)) mod 3 = 0.
Proof.
  revert n. induction limits as [|l limits IH]; intros n; [done|].
  cbn [soft_reply]. specialize (IH (n + 1)%nat). rewrite length_app.
  case_decide; simpl length; lia.
Qed.

Lemma parse_ok s limits amount :
  parseReserve (RStr "ok" :: soft_reply s amount 0 limits) limits amount =
  Ok (mkCounterReservation [] None
        (map (breach_of (used_of s) amount) (filter (soft_crossing (used_of s) amount) limits))).
Proof.
  unfold parseReserve. simpl. unfold reply_breaches.
  rewrite soft_reply_length. simpl.
  pose proof (breaches_loop_soft s amount [] limits) as Hl. simpl in Hl. by rewrite Hl.
Qed.

Lemma parse_blocked (used limit : USD) amount pre l suf :
  parseReserve [RStr "blocked"; RInt (Z.of_nat (length pre + 1)); RInt used; RInt limit]
    (pre ++ l :: suf) amount =
  Ok (mkCounterReservation [] (Some (mkQuotaBreach (wl_Window l) used (Cost amount) limit)) []).
Proof.
  unfold parseReserve. simpl. unfold reply_breaches.
  cbn [length Z.of_nat breaches_loop].
  change (negb (_ mod 3 =? 0)) with false. cbn [negb].
  by rewrite reply_window_nth.
Qed.

Lemma reply_windows_missing s pre suf :
  reply_windows (pre ++ suf) (map RInt (missing_from s (length pre + 1) (map lkey suf))) =
  Ok (filter (λ w, counter s (key w) = None) (map wl_Window suf)).
Proof.
  revert pre. induction suf as [|l suf IH]; intros pre; [done|].
  specialize (IH (pre ++ [l])). rewrite <- app_assoc, length_app in IH. simpl in IH.
  cbn [map missing_from]. rewrite filter_cons. unfold lkey at 1.
  destruct (EXISTS s (key (wl_Window l))) eqn:E; cbn [app map].
  - rewrite decide_False by (rewrite counter_none; congruence). exact IH.
  - rewrite decide_True by (by apply counter_none). cbn [reply_windows].
    rewrite reply_window_nth. simpl. by rewrite IH.
Qed.

Lemma missing_from_nil s n limits :
  missing_from s n (map lkey limits) = [] ↔
  filter (λ w, counter s (key w) = None) (map wl_Window limits) = [].
Proof.
  revert n. induction limits as [|l limits IH]; intros n; [done|].
  cbn [map missing_from]. rewrite filter_cons. unfold lkey at 1.
  destruct (EXISTS s (key (wl_Window l))) eqn:E; cbn [app].
  - rewrite decide_False by (rewrite counter_none; congruence). apply IH.
  - by rewrite decide_True by (by apply counter_none).
Qed.

Lemma missing_nil_exists s limits :
  filter (λ w, counter s (key w) = None) (map wl_Window limits) = [] →
  Forall (λ l, EXISTS s (lkey l) = true) limits.
Proof.
  intros Hf. apply Forall_forall. intros l Hl.
  destruct (EXISTS s (lkey l)) eqn:E; [done|]. exfalso.
  assert (Hin : wl_Window l ∈ filter (λ w, counter s (key w) = None) (map wl_Window limits)).
  { apply list_elem_of_filter. split; [|by apply list_elem_of_fmap_2].
    by apply counter_none. }
  rewrite Hf in Hin. set_solver.
Qed.

Lemma used_of_counter s l : default 0 (Cost <$> counter s (lkey l)) = used_of s l.
Proof.
  unfold counter, used_of. destruct (EXISTS s (lkey l)) eqn:E; simpl; [done|].
  unfold val. by rewrite hget_missing.
Qed.

(** A counter after its three fields were incremented. *)
Lemma counter_bump s s' k amount (b : bool) :
  (∀ k, EXISTS s' k = EXISTS s k) →
  (∀ f, val s' k f = val s k f + if b then usage_field amount f else 0) →
  (b = true → has_room s k amount) →
  counter s' k = (λ u, if b then QuotaUsage_Add u amount else u) <$> counter s k.
Proof.
  intros He Hv Hr. unfold counter. rewrite He.
  destruct (EXISTS s k); simpl; [f_equal|done]. rewrite !Hv. destruct b.
  - specialize (Hr eq_refl). unfold QuotaUsage_Add; simpl.
    unfold usage_field in *; simpl in *.
    rewrite !wrap64_id; [done|..].
    + exact (Hr f_cost ltac:(set_solver)).
    + exact (Hr f_tokens ltac:(set_solver)).
    + exact (Hr f_requests ltac:(set_solver)).
  - by rewrite !Z.add_0_r.
Qed.

(** When a reservation's arithmetic is exact and its keys are its own. *)
Definition reserve_ready s limits amount : Prop :=
  lua_exact_limits s limits amount ∧
  Forall (λ l, has_room s (lkey l) amount ∧ TIME s < expireAt (wl_Window l)) limits ∧
  NoDup (map lkey limits).

Lemma reserve_lua_spec s limits amount :
  reserve_ready s limits amount →
  ∃ s' r, reserve_lua s (map lkey limits) (reserve_args limits amount) = (s', Ok r) ∧
    parseReserve r limits amount =
      Ok (reserve_spec (λ w, counter s (key w)) limits amount) ∧
    if taken (reserve_spec (λ w, counter s (key w)) limits amount)
    then (∀ k, EXISTS s' k = EXISTS s k) ∧ TIME s' = TIME s ∧
         (∀ k f, val s' k f = val s k f +
            if decide (k ∈ map lkey limits) then usage_field amount f else 0)
    else s' = s.
Proof.
  intros (Hx & Hroom & Hnd). unfold reserve_lua, reserve_spec.
  pose proof (reply_windows_missing s [] limits) as Hrw. simpl in Hrw.
  pose proof (missing_from_nil s 1 limits) as Hnil.
  destruct (missing_from s 1 (map lkey limits)) as [|m ms] eqn:Em.
  2:{ assert (Hne : filter (λ w, counter s (key w) = None) (map wl_Window limits) ≠ [])
        by (intros E; by apply Hnil in E).
      destruct (filter _ _) as [|w ws] eqn:Ew; [done|].
      eexists _, _. split; [done|]. split; [|done].
      unfold parseReserve. simpl in Hrw |- *. by rewrite Hrw. }
  rewrite (proj1 Hnil eq_refl).
  pose proof (missing_nil_exists s limits (proj1 Hnil eq_refl)) as Hex.
  rewrite (reserve_check_ext _ (used_of s))
    by (intros l; apply (used_of_counter s l)).
  pose proof (first_blocked_spec s amount [] limits Hx) as Hb. simpl in Hb.
  rewrite List.map_map, Hb. unfold reserve_check.
  destruct (list_find (blocking (used_of s) amount) limits) as [[n l]|] eqn:Ef; simpl.
  - apply list_find_Some in Ef as (Hl & _ & _).
    apply list_elem_of_split_length in Hl as (pre & suf & -> & ->).
    eexists _, _. split; [done|]. split; [|done].
    apply parse_blocked.
  - destruct (reserve_writes_spec s amount [] limits s [RStr "ok"])
      as (s' & Hw & Ht & He & Hv); [done| |done|].
    { rewrite Forall_forall in Hroom, Hex |- *. intros l Hl.
      destruct (Hroom l Hl). by split_and!; [apply Hex|..]. }
    simpl in Hw. rewrite Hw. eexists _, _. split; [done|].
    split; [apply parse_ok|]. done.
Qed.
End Reserve_facts.

(** ** Keys *)

Lemma app_cons x (a b : string) : String x a +:+ b = String x (a +:+ b).
Proof. done. Qed.
Lemma app_empty (b : string) : "" +:+ b = b.
Proof. done. Qed.

Lemma string_app_inj_len (a b c d : string) :
  String.length a = String.length b → a +:+ c = b +:+ d → a = b ∧ c = d.
Proof.
  revert b. induction a as [|x a IH]; intros [|y b] Hl Ha; try discriminate; [done|].
  simpl in Hl. injection Hl as Hl. rewrite !app_cons in Ha. injection Ha as -> Ha.
  destruct (IH b Hl Ha) as [-> ->]. done.
Qed.

(** Characters of a string. *)
Fixpoint str_elem (c : Ascii.ascii) (s : string) : bool :=
  match s with
  | EmptyString => false
  | String x s => bool_decide (x = c) || str_elem c s
  end.

Lemma str_elem_app c a b : str_elem c (a +:+ b) = str_elem c a || str_elem c b.
Proof.
  induction a as [|x a IH]; [done|].
  rewrite app_cons. cbn [str_elem]. by rewrite IH, orb_assoc.
Qed.

(** A separator that occurs in neither tail splits two strings alike. *)
Lemma split_last_inj c a b x y :
  str_elem c x = false → str_elem c y = false →
  a +:+ String c x = b +:+ String c y → a = b ∧ x = y.
Proof.
  intros Hx Hy. revert b. induction a as [|u a IH]; intros [|v b] He;
    rewrite ?app_cons, ?app_empty in He.
  - by injection He.
  - injection He as -> ->. rewrite str_elem_app in Hx. cbn in Hx.
    by rewrite bool_decide_true, orb_true_r in Hx by done.
  - injection He as -> <-. rewrite str_elem_app in Hy. cbn in Hy.
    by rewrite bool_decide_true, orb_true_r in Hy by done.
  - injection He as -> He. by destruct (IH b He) as [-> ->].
Qed.

(** A separator that occurs in neither head splits two strings alike. *)
Lemma split_first_inj c a b x y :
  str_elem c a = false → str_elem c b = false →
  a +:+ String c x = b +:+ String c y → a = b ∧ x = y.
Proof.
  revert b. induction a as [|u a IH]; intros [|v b] Ha Hb He;
    rewrite ?app_cons, ?app_empty in He; cbn in Ha, Hb.
  - by injection He as ->.
  - injection He as <- _. by rewrite bool_decide_true in Hb by done.
  - injection He as -> _. by rewrite bool_decide_true in Ha by done.
  - injection He as <- He. bool_prop. by destruct (IH b) as [-> ->].
Qed.

Definition digit_chars : list ascii :=
  ["0"; "1"; "2"; "3"; "4"; "5"; "6"; "7"; "8"; "9"]%char.

Lemma pretty_N_char_digit n : pretty_N_char n ∈ digit_chars.
Proof. unfold pretty_N_char, digit_chars. repeat case_match; set_solver. Qed.

(** Decimal text has no other characters than digits. *)
Lemma pretty_N_go_no_char c n s :
  c ∉ digit_chars → str_elem c s = false → str_elem c (pretty_N_go n s) = false.
Proof.
  intros Hc. revert s. induction (N.lt_wf_0 n) as [n _ IH]; intros s Hs.
  destruct (decide (n = 0%N)) as [->|Hn]; [done|].
  rewrite pretty_N_go_step by lia. apply IH.
  - apply N.div_lt; lia.
  - cbn. rewrite Hs, orb_false_r. apply bool_decide_eq_false_2.
    intros <-. apply Hc, pretty_N_char_digit.
Qed.

Lemma pretty_N_no_char c (n : N) : c ∉ digit_chars → str_elem c (pretty n) = false.
Proof.
  intros Hc. unfold pretty, pretty_N. destruct (decide _); [|by apply pretty_N_go_no_char].
  cbn. rewrite orb_false_r. apply bool_decide_eq_false_2. intros <-. apply Hc. set_solver.
Qed.

Lemma colon_not_digit : ":"%char ∉ digit_chars.
Proof. apply (bool_decide_unpack _). by vm_compute. Qed.

Lemma pretty_no_colon (z : Z) : str_elem ":"%char (pretty z) = false.
Proof.
  destruct z as [|p|p]; [done| |].
  - apply (pretty_N_no_char _ (N.pos p)), colon_not_digit.
  - change (pretty (Z.neg p)) with ("-" +:+ pretty (N.pos p)).
    rewrite str_elem_app. apply (pretty_N_no_char _ (N.pos p)), colon_not_digit.
Qed.

Section Keys.
Context (uuid_string : uuid → string).
(** A UUID prints as hexadecimal digits and dashes, different ones differently. *)
Hypothesis uuid_string_hex : ∀ u, str_elem "}"%char (uuid_string u) = false.
Hypothesis uuid_string_inj : ∀ u v, uuid_string u = uuid_string v → u = v.

Lemma Key_inj t w t' w' :
  Key uuid_string t w = Key uuid_string t' w' →
  t = t' ∧ Window_Kind w = Window_Kind w' ∧ Unix (Window_Start w) = Unix (Window_Start w').
Proof.
  unfold Key. intros He.
  apply string_app_inj_len in He as [_ He]; [|done].
  rewrite !app_cons, !app_empty in He.
  apply split_first_inj in He as [Ht He]; [|apply uuid_string_hex..].
  injection He as He. apply split_last_inj in He as [Hk Hs]; [|apply pretty_no_colon..].
  apply uuid_string_inj in Ht. apply (inj pretty) in Hs. done.
Qed.
End Keys.
