(* ===== verification/RedisSeed.v ===== *)
(** seed.lua and adjust.lua on the counters, and a concrete in-memory Redis that
    satisfies the store's laws. *)
From S2P Require Import Prelude Errors Money Quota Redis.

(** ** Seeding *)

Section Seed_facts.
Context {S : Type} `{RedisLaws S}.
(** The counter a snapshot belongs to. *)
Context (skey : WindowUsage → string).
Implicit Types (s : S) (k f : string).

Definition raised (cur : option Z) (snapshot : Z) : Z :=
  match cur with None => snapshot | Some c => Z.max c snapshot end.

(** Stores that answer every read alike. *)
Definition store_eq s t : Prop :=
  TIME s = TIME t ∧ (∀ k, EXISTS s k = EXISTS t k) ∧ (∀ k f, HGET s k f = HGET t k f).

#[export] Instance store_eq_equiv : Equivalence store_eq.
Proof.
  split.
  - by intros s.
  - intros s t (? & ? & ?). by split_and!.
  - intros s t u (? & He & Hg) (? & He' & Hg'). split_and!; [congruence|..].
    + intros k. by rewrite He, He'.
    + intros k f. by rewrite Hg, Hg'.
Qed.

#[export] Instance counter_proper : Proper (store_eq ==> (=) ==> (=)) counter.
Proof.
  intros s t (_ & He & Hg) k ? <-. unfold counter, val. by rewrite He, !Hg.
Qed.

Lemma seed_field_spec s k f v :
  let s' := seed_field s k f v (HGET s k f) in
  lua_exact v → (∀ c, HGET s k f = Some c → lua_exact c) →
  TIME s' = TIME s ∧ (∀ k', EXISTS s' k' = bool_decide (k = k') || EXISTS s k') ∧
  (∀ k' f', HGET s' k' f' =
     if decide (k = k' ∧ f = f') then Some (raised (HGET s k f) v) else HGET s k' f').
Proof.
  intros s' Hv Hc. unfold s', seed_field, raised.
  destruct (HGET s k f) as [c|] eqn:Eg.
  - assert (Hex : EXISTS s k = true).
    { destruct (EXISTS s k) eqn:E; [done|]. by rewrite (hget_missing s k f E) in Eg. }
    rewrite !lua_num_exact by auto. destruct (Z.ltb_spec c v).
    + split_and!; [apply hset_time|intros; apply hset_exists|].
      intros. rewrite hset_get. case_decide; [f_equal; lia|done].
    + split_and!; [done| |].
      * intros k'. case_bool_decide; subst; by rewrite ?Hex.
      * intros k' f'. case_decide as E; [|done]. destruct E as [<- <-].
        rewrite Eg. f_equal. lia.
  - split_and!; [apply hset_time|intros; apply hset_exists|intros; apply hset_get].
Qed.

(** A counter and a snapshot whose fields Lua compares exactly. *)
Definition seed_exact s (u : WindowUsage) : Prop :=
  (∀ f, lua_exact (usage_field (wu_Usage u) f)) ∧
  (∀ f c, HGET s (skey u) f = Some c → lua_exact c) ∧
  TIME s < expireAt (wu_Window u).

(** What one loop turn of seed.lua leaves: every field at the larger value. *)
Definition seed_one s (u : WindowUsage) : S :=
  let k := skey u in
  let c1 := HGET s k f_requests in
  let c2 := HGET s k f_tokens in
  let c3 := HGET s k f_cost in
  let s := seed_field s k f_requests (Requests (wu_Usage u)) c1 in
  let s := seed_field s k f_tokens (Tokens (wu_Usage u)) c2 in
  let s := seed_field s k f_cost (Cost (wu_Usage u)) c3 in
  EXPIREAT s k (expireAt (wu_Window u)).

Lemma concat_seed_args_nth pre u suf j :
  (j < 4)%nat →
  nth (4 * length pre + j) (concat (map seed_args (pre ++ u :: suf))) 0 = nth j (seed_args u) 0.
Proof.
  intros Hj. induction pre as [|p pre IH].
  - simpl. destruct j as [|[|[|[|]]]]; [done..|lia].
  - replace (4 * length (p :: pre) + j)%nat with (4 + (4 * length pre + j))%nat by (simpl; lia).
    simpl app. simpl map. simpl concat. simpl Nat.add at 1. simpl nth at 1.
    rewrite <- IH. done.
Qed.

Lemma seed_ARGV pre u suf j :
  (1 ≤ j ≤ 4)%nat →
  ARGV (concat (map seed_args (pre ++ u :: suf))) ((length pre + 1 - 1) * 4 + j) =
  nth (j - 1) (seed_args u) 0.
Proof.
  intros Hj. unfold ARGV.
  replace ((length pre + 1 - 1) * 4 + j - 1)%nat with (4 * length pre + (j - 1))%nat by lia.
  apply concat_seed_args_nth. lia.
Qed.

(** seed.lua runs [seed_one] for each window in turn. *)
Lemma seed_lua_foldl s pre suf :
  seed_lua s (length pre + 1) (map skey suf) (concat (map seed_args (pre ++ suf))) =
  foldl seed_one s suf.
Proof.
  revert s pre. induction suf as [|u suf IH]; intros s pre; [done|].
  specialize (λ s, IH s (pre ++ [u])).
  setoid_rewrite <- app_assoc in IH. setoid_rewrite length_app in IH. simpl in IH.
  cbn [map seed_lua]. rewrite !seed_ARGV by lia. cbn [seed_args nth Nat.sub].
  by rewrite IH.
Qed.

Lemma seed_one_spec s u :
  seed_exact s u →
  TIME (seed_one s u) = TIME s ∧
  (∀ k, EXISTS (seed_one s u) k = bool_decide (skey u = k) || EXISTS s k) ∧
  (∀ k f, HGET (seed_one s u) k f =
     if decide (skey u = k ∧ f ∈ field_names)
     then Some (raised (HGET s k f) (usage_field (wu_Usage u) f)) else HGET s k f).
Proof.
  intros (Hu & Hc & Ht). unfold seed_one. cbv zeta. set (k0 := skey u) in *.
  destruct (seed_field_spec s k0 f_requests (Requests (wu_Usage u)))
    as (Ht1 & He1 & Hg1); [apply (Hu f_requests)|apply Hc|].
  set (s1 := seed_field s k0 f_requests _ _) in *.
  assert (E2 : HGET s k0 f_tokens = HGET s1 k0 f_tokens)
    by (rewrite Hg1, decide_False; [done|by intros [_ ?]]).
  assert (E3 : HGET s k0 f_cost = HGET s1 k0 f_cost)
    by (rewrite Hg1, decide_False; [done|by intros [_ ?]]).
  rewrite E2, E3.
  destruct (seed_field_spec s1 k0 f_tokens (Tokens (wu_Usage u)))
    as (Ht2 & He2 & Hg2); [apply (Hu f_tokens)|rewrite <- E2; apply Hc|].
  set (s2 := seed_field s1 k0 f_tokens _ _) in *.
  assert (E3' : HGET s1 k0 f_cost = HGET s2 k0 f_cost)
    by (rewrite Hg2, decide_False; [done|by intros [_ ?]]).
  rewrite E3'.
  destruct (seed_field_spec s2 k0 f_cost (Cost (wu_Usage u)))
    as (Ht3 & He3 & Hg3); [apply (Hu f_cost)|rewrite <- E3', <- E3; apply Hc|].
  set (s3 := seed_field s2 k0 f_cost _ _) in *.
  assert (TIME s3 < expireAt (wu_Window u)) by lia.
  split_and!.
  - rewrite expireat_time. lia.
  - intros k. rewrite expireat_exists, He3, He2, He1 by done. by case_bool_decide.
  - rewrite <- E3', <- E3 in Hg3. rewrite <- E2 in Hg2. clearbody s1 s2 s3.
    intros k f. rewrite expireat_get by done. rewrite Hg3.
    destruct (decide (k0 = k ∧ f_cost = f)) as [[<- <-]|H3].
    { by rewrite decide_True by (split; [done|set_solver]). }
    rewrite Hg2. destruct (decide (k0 = k ∧ f_tokens = f)) as [[<- <-]|H2].
    { by rewrite decide_True by (split; [done|set_solver]). }
    rewrite Hg1. destruct (decide (k0 = k ∧ f_requests = f)) as [[<- <-]|H1'].
    { by rewrite decide_True by (split; [done|set_solver]). }
    rewrite decide_False; [done|]. unfold field_names. set_solver.
Qed.

(** *** Many snapshots *)

Definition raise_all (cur : option Z) (vs : list Z) : option Z :=
  foldl (λ c v, Some (raised c v)) cur vs.

Definition snapshots (us : list WindowUsage) k f : list Z :=
  map (λ u, usage_field (wu_Usage u) f) (filter (λ u, skey u = k) us).

Lemma raised_exact cur v :
  lua_exact v → (∀ c, cur = Some c → lua_exact c) → lua_exact (raised cur v).
Proof.
  intros Hv Hc. destruct cur as [c|]; simpl; [|done]. specialize (Hc c eq_refl).
  unfold lua_exact in *. lia.
Qed.

Lemma seed_exact_seed_one s u v : seed_exact s u → seed_exact s v → seed_exact (seed_one s u) v.
Proof.
  intros Hu (Hv & Hc & Ht). destruct (seed_one_spec s u Hu) as (HT & _ & Hg).
  split_and!; [done| |lia].
  intros f c. rewrite Hg. case_decide as E; [|apply Hc].
  destruct E as [E _]. intros [= <-]. apply raised_exact; [apply Hu|].
  intros c. rewrite <- E. apply Hu.
Qed.

Lemma seed_all_spec s us :
  Forall (seed_exact s) us →
  TIME (foldl seed_one s us) = TIME s ∧
  (∀ k, EXISTS (foldl seed_one s us) k = existsb (λ u, bool_decide (skey u = k)) us || EXISTS s k) ∧
  (∀ k f, HGET (foldl seed_one s us) k f =
     if decide (f ∈ field_names) then raise_all (HGET s k f) (snapshots us k f) else HGET s k f).
Proof.
  revert s. induction us as [|u us IH]; intros s Hus.
  { split_and!; try done. intros. by case_decide. }
  apply Forall_cons in Hus as [Hu Hus]. simpl.
  destruct (seed_one_spec s u Hu) as (HT & HE & HG).
  destruct (IH (seed_one s u)) as (HT' & HE' & HG').
  { eapply Forall_impl; [exact Hus|]. intros v. by apply seed_exact_seed_one. }
  split_and!; [congruence| |].
  - intros k. rewrite HE', HE. by destruct (existsb _ us), (bool_decide _).
  - intros k f. rewrite HG'. unfold snapshots. rewrite filter_cons.
    destruct (decide (f ∈ field_names)) as [Hf|Hf].
    + rewrite HG. destruct (decide (skey u = k)) as [<-|Hk].
      * by rewrite decide_True.
      * by rewrite decide_False by naive_solver.
    + rewrite HG. by rewrite decide_False by naive_solver.
Qed.

Lemma raise_all_cons c v vs : raise_all c (v :: vs) = raise_all (Some (raised c v)) vs.
Proof. done. Qed.

Lemma raise_all_perm c vs vs' : vs ≡ₚ vs' → raise_all c vs = raise_all c vs'.
Proof.
  intros Hp. revert c. induction Hp as [|v vs vs' _ IH|v w vs|? ? ? _ IH1 _ IH2]; intros c.
  - done.
  - apply IH.
  - rewrite !raise_all_cons. do 2 f_equal. destruct c; simpl; lia.
  - by rewrite IH1.
Qed.

Lemma raise_all_absorb m vs : (∀ v, v ∈ vs → v ≤ m) → raise_all (Some m) vs = Some m.
Proof.
  induction vs as [|v vs IH]; intros Hv; [done|].
  rewrite raise_all_cons. simpl. rewrite Z.max_l by (apply Hv; by left).
  apply IH. intros w Hw. apply Hv. by right.
Qed.

Lemma raise_all_bound c vs :
  (vs = [] ∧ raise_all c vs = c) ∨
  ∃ m, raise_all c vs = Some m ∧ (∀ v, v ∈ vs → v ≤ m) ∧ (∀ x, c = Some x → x ≤ m).
Proof.
  revert c. induction vs as [|v vs IH]; intros c; [by left|]. right.
  rewrite raise_all_cons.
  destruct (IH (Some (raised c v))) as [[-> ->]|(m & -> & Hv & Hc)].
  - eexists. split; [done|]. split.
    + intros w. rewrite list_elem_of_singleton. intros ->. destruct c; simpl; lia.
    + intros x ->. simpl. lia.
  - exists m. split; [done|]. specialize (Hc _ eq_refl). split.
    + intros w [->|Hw]%elem_of_cons; [destruct c; simpl in Hc; lia|by apply Hv].
    + intros x ->. simpl in Hc. lia.
Qed.

Lemma raise_all_idem c vs : raise_all (raise_all c vs) vs = raise_all c vs.
Proof.
  destruct (raise_all_bound c vs) as [[-> _]|(m & -> & Hv & _)]; [done|].
  by apply raise_all_absorb.
Qed.

Lemma snapshots_perm us us' k f : us ≡ₚ us' → snapshots us k f ≡ₚ snapshots us' k f.
Proof. intros Hp. unfold snapshots. by rewrite Hp. Qed.

Lemma existsb_perm (P : WindowUsage → bool) us us' :
  us ≡ₚ us' → existsb P us = existsb P us'.
Proof.
  induction 1 as [|u us us' _ IH|u v us|? ? ? _ IH1 _ IH2]; simpl; [done|by rewrite IH| |congruence].
  by rewrite !orb_assoc, (orb_comm (P v)).
Qed.

Lemma seed_all_perm s us us' :
  Forall (seed_exact s) us → us ≡ₚ us' →
  store_eq (foldl seed_one s us) (foldl seed_one s us').
Proof.
  intros Hx Hp. pose proof Hx as Hx'. rewrite Hp in Hx'.
  destruct (seed_all_spec s us Hx) as (HT & HE & HG).
  destruct (seed_all_spec s us' Hx') as (HT' & HE' & HG').
  split_and!; [congruence| |].
  - intros k. rewrite HE, HE'. f_equal. by apply existsb_perm.
  - intros k f. rewrite HG, HG'. case_decide; [|done].
    by apply raise_all_perm, snapshots_perm.
Qed.

Lemma seed_exact_all s us v :
  Forall (seed_exact s) us → seed_exact s v → seed_exact (foldl seed_one s us) v.
Proof.
  revert s. induction us as [|u us IH]; intros s Hus Hv; [done|].
  apply Forall_cons in Hus as [Hu Hus]. simpl. apply IH; [|by apply seed_exact_seed_one].
  eapply Forall_impl; [exact Hus|]. intros w. by apply seed_exact_seed_one.
Qed.

Lemma seed_all_idem s us :
  Forall (seed_exact s) us →
  store_eq (foldl seed_one (foldl seed_one s us) us) (foldl seed_one s us).
Proof.
  intros Hx. destruct (seed_all_spec s us Hx) as (HT & HE & HG).
  destruct (seed_all_spec (foldl seed_one s us) us) as (HT' & HE' & HG').
  { apply Forall_forall. intros u Hu. apply seed_exact_all; [done|].
    rewrite Forall_forall in Hx. by apply Hx. }
  split_and!; [congruence| |].
  - intros k. rewrite HE', HE. by rewrite orb_assoc, orb_diag.
  - intros k f. rewrite HG', HG. case_decide; [|done]. apply raise_all_idem.
Qed.
End Seed_facts.

(** ** Adjusting *)

Section Adjust_facts.
Context {S : Type} `{RedisLaws S}.
Implicit Types (s : S) (k f : string).

(** Every live counter moves by the delta; one that is gone stays gone. *)
Lemma adjust_lua_spec s keys argv :
  NoDup keys →
  (∀ k, k ∈ keys → EXISTS s k = true → has_room s k (argv_usage argv)) →
  ∃ s', adjust_lua s keys argv = (s', None) ∧ TIME s' = TIME s ∧
    (∀ k, EXISTS s' k = EXISTS s k) ∧
    (∀ k, counter s' k =
       (λ u, if decide (k ∈ keys) then QuotaUsage_Add u (argv_usage argv) else u)
       <$> counter s k).
Proof.
  intros Hnd Hr.
  assert (Hloop : ∃ s', adjust_lua s keys argv = (s', None) ∧ TIME s' = TIME s ∧
    (∀ k, EXISTS s' k = EXISTS s k) ∧
    (∀ k f, EXISTS s k = true → val s' k f = val s k f +
       if decide (k ∈ keys) then usage_field (argv_usage argv) f else 0)).
  { revert s Hr. induction keys as [|k0 keys IH]; intros s Hr.
    { exists s. split_and!; try done. intros. simpl. lia. }
    apply NoDup_cons in Hnd as [Hnin Hnd]. cbn [adjust_lua].
    destruct (EXISTS s k0) eqn:E0.
    - destruct (hincr_all_val s k0 argv E0) as (s1 & Hh & Ht1 & He1 & Hv1).
      { apply Hr; [by left|done]. }
      rewrite hincr_all_adjust in Hh. rewrite Hh.
      destruct (IH Hnd s1) as (s' & -> & Ht & He & Hv).
      { intros k Hk Hex f Hf. rewrite Hv1, decide_False, Z.add_0_r by set_solver.
        rewrite He1 in Hex. apply Hr; [by right|done|done]. }
      exists s'. split_and!; [done|congruence|congruence|].
      intros k f Hex. rewrite Hv, Hv1 by congruence.
      destruct (decide (k0 = k)) as [<-|Hne].
      + rewrite (decide_False (P := k0 ∈ keys)), decide_True by set_solver. lia.
      + rewrite (decide_ext (k ∈ k0 :: keys) (k ∈ keys)) by set_solver. lia.
    - destruct (IH Hnd s) as (s' & -> & Ht & He & Hv).
      { intros k Hk. apply Hr. by right. }
      exists s'. split_and!; try done. intros k f Hex. rewrite Hv by done.
      rewrite (decide_ext (k ∈ k0 :: keys) (k ∈ keys)); [done|].
      assert (k ≠ k0) by congruence. set_solver. }
  destruct Hloop as (s' & -> & Ht & He & Hv). exists s'. split_and!; [done..|].
  intros k. destruct (EXISTS s k) eqn:Ek.
  - pose proof (counter_bump s s' k (argv_usage argv) (bool_decide (k ∈ keys)) He) as Hb.
    rewrite Hb.
    + destruct (counter s k); simpl; [|done]. f_equal.
      destruct (decide (k ∈ keys)); [by rewrite bool_decide_true|by rewrite bool_decide_false].
    + intros f. rewrite Hv by done. f_equal.
      destruct (decide (k ∈ keys)); [by rewrite bool_decide_true|by rewrite bool_decide_false].
    + intros Hb'%bool_decide_eq_true. by apply Hr.
  - assert (counter s k = None) as -> by by apply counter_none.
    apply counter_none. by rewrite He.
Qed.
End Adjust_facts.
