(* ===== verification/Counters.v ===== *)
(** The live-counter interface the enforcer is written against
    ([ports.QuotaCounters]), its contract, the Redis adapter as an instance of it,
    and an in-memory Redis on which both run. *)
From Stdlib Require Import Ascii.
From S2P Require Import Prelude Errors Money Quota Redis RedisSeed.

(** ** The interface *)

(** What makes two windows one counter: their kind and start second. *)
Definition window_id (w : Window) : WindowKind * Z := (Window_Kind w, Unix (Window_Start w)).

(** [src/internal/ports/quota.go:110-126] QuotaCounters *)
Class QuotaCounters (C : Type) := {
  qc_Reserve : C → uuid → list WindowLimit → QuotaUsage → C * result error CounterReservation;
  qc_Seed : C → list WindowUsage → C * option error;
  qc_Adjust : C → uuid → list Window → QuotaUsage → C * option error;
}.

(** A snapshot's effect on a counter, per field. *)
Definition usage_max (u v : QuotaUsage) : QuotaUsage :=
  mkQuotaUsage (Z.max (Requests u) (Requests v)) (Z.max (Tokens u) (Tokens v))
    (Z.max (Cost u) (Cost v)).

(** What the enforcer relies on when a call succeeds: [live] is the counter of a
    tenant's window, and the [_pre] predicates say when the arithmetic of the call
    is exact. *)
Class QuotaCountersSpec (C : Type) `{QuotaCounters C} := {
  live : C → uuid → Window → option QuotaUsage;
  reserve_pre : C → uuid → list WindowLimit → QuotaUsage → Prop;
  seed_pre : C → list WindowUsage → Prop;
  adjust_pre : C → uuid → list Window → QuotaUsage → Prop;
  live_id c t w w' : window_id w = window_id w' → live c t w = live c t w';
  reserve_ok c t limits amount c' r :
    reserve_pre c t limits amount → qc_Reserve c t limits amount = (c', Ok r) →
    r = reserve_spec (live c t) limits amount ∧
    ∀ t' w, live c' t' w =
      (λ u, if decide (taken r = true ∧ t' = t ∧
                       window_id w ∈ map (window_id ∘ wl_Window) limits)
            then QuotaUsage_Add u amount else u) <$> live c t' w;
  (** One snapshot per counter: missing counters appear, others only rise. *)
  seed_ok c seeds c' :
    seed_pre c seeds → qc_Seed c seeds = (c', None) →
    (∀ u, u ∈ seeds → is_Some (live c' (wu_TenantID u) (wu_Window u))) ∧
    (∀ t w, (∀ u, u ∈ seeds → (wu_TenantID u, window_id (wu_Window u)) ≠ (t, window_id w)) →
       live c' t w = live c t w);
  adjust_ok c t windows delta c' :
    adjust_pre c t windows delta → qc_Adjust c t windows delta = (c', None) →
    ∀ t' w, live c' t' w =
      (λ u, if decide (t' = t ∧ window_id w ∈ map window_id windows)
            then QuotaUsage_Add u delta else u) <$> live c t' w;
}.

(** ** The Redis adapter as an instance *)

(** A client: the server's store and the fate of each of its next calls, a call
    past the end of the list being answered. *)
Record redis_client (S : Type) := mkClient { rc_store : S; rc_fates : list fate }.
Arguments mkClient {S} _ _.
Arguments rc_store {S} _.
Arguments rc_fates {S} _.

Section Client.
Context {S : Type} `{RedisStore S}.
Context (uuid_string : uuid → string).

Definition next_fate (c : redis_client S) : fate :=
  match rc_fates c with [] => Replied | f :: _ => f end.

(** The fates of a Seed: one per tenant, in an order the runtime chooses. *)
Definition seed_order (c : redis_client S) (seeds : list WindowUsage) : list (uuid * fate) :=
  imap (λ i t, (t, default Replied (rc_fates c !! i)))
    (remove_dups (map wu_TenantID seeds)).

#[export] Instance redis_counters : QuotaCounters (redis_client S) := {
  qc_Reserve c t limits amount :=
    let '(s, r) := Counters_Reserve uuid_string (rc_store c) (next_fate c) t limits amount in
    (mkClient s (tail (rc_fates c)), r);
  qc_Seed c seeds :=
    let order := seed_order c seeds in
    let '(s, r) := Counters_Seed uuid_string (rc_store c) order seeds in
    (mkClient s (drop (length order) (rc_fates c)), r);
  qc_Adjust c t windows delta :=
    let '(s, r) := Counters_Adjust uuid_string (rc_store c) (next_fate c) t windows delta in
    (mkClient s (tail (rc_fates c)), r);
}.
End Client.

Section Client_facts.
Context {S : Type} `{RedisLaws S}.
Context (uuid_string : uuid → string).
Hypothesis uuid_string_hex : ∀ u, str_elem "}"%char (uuid_string u) = false.
Hypothesis uuid_string_inj : ∀ u v, uuid_string u = uuid_string v → u = v.

Abbreviation key := (Key uuid_string).

Lemma Key_window_id t w w' : window_id w = window_id w' → key t w = key t w'.
Proof. unfold window_id, Key. by intros [= -> ->]. Qed.

Lemma Key_eq t w t' w' : key t w = key t' w' ↔ t = t' ∧ window_id w = window_id w'.
Proof.
  split.
  - intros (-> & Hk & Hs)%Key_inj; [|done..]. split; [done|]. unfold window_id. congruence.
  - intros [-> Hw]. by apply Key_window_id.
Qed.

Lemma Key_in t t' w ws : key t' w ∈ map (key t) ws ↔ t' = t ∧ window_id w ∈ map window_id ws.
Proof.
  rewrite !list_elem_of_fmap. split.
  - intros (w' & [-> Hw]%Key_eq & Hin). eauto.
  - intros [-> (w' & Hw & Hin)]. exists w'. by rewrite Key_eq.
Qed.

Definition client_live (c : redis_client S) (t : uuid) (w : Window) : option QuotaUsage :=
  counter (rc_store c) (key t w).

Lemma Counters_Reserve_ok s f t limits amount s' r :
  reserve_ready (key t) s limits amount →
  Counters_Reserve uuid_string s f t limits amount = (s', Ok r) →
  r = reserve_spec (λ w, counter s (key t w)) limits amount ∧
  ∀ k, counter s' k =
    (λ u, if decide (taken r = true ∧ k ∈ map (lkey (key t)) limits)
          then QuotaUsage_Add u amount else u) <$> counter s k.
Proof.
  intros Hpre. unfold Counters_Reserve.
  destruct (reserve_lua_spec (key t) s limits amount Hpre) as (s1 & rep & Hl & Hp & Hs).
  change ([Requests amount; Tokens amount; Cost amount] ++ concat (map limit_args limits))
    with (reserve_args limits amount).
  change (map (λ l, key t (wl_Window l)) limits) with (map (lkey (key t)) limits).
  rewrite Hl. destruct f; intros E; try discriminate.
  injection E as <- Hr. rewrite Hp in Hr. injection Hr as <-.
  split; [done|]. intros k.
  destruct (taken _) eqn:Et.
  - destruct Hs as (He & _ & Hv).
    rewrite (counter_bump s s1 k amount (bool_decide (k ∈ map (lkey (key t)) limits)) He).
    + destruct (counter s k); simpl; [|done]. f_equal.
      destruct (decide (k ∈ map (lkey (key t)) limits)).
      * by rewrite bool_decide_true, decide_True.
      * by rewrite bool_decide_false, decide_False by naive_solver.
    + intros f. rewrite Hv. f_equal.
      destruct (decide (k ∈ map (lkey (key t)) limits));
        [by rewrite bool_decide_true|by rewrite bool_decide_false].
    + rewrite bool_decide_eq_true. intros (l & -> & Hin)%list_elem_of_fmap.
      destruct Hpre as (_ & Hroom & _). rewrite Forall_forall in Hroom. by apply Hroom.
  - rewrite Hs. by destruct (counter s k).
Qed.

(** Whatever order the tenants are taken in, seeding is [seed_one] of every
    snapshot, tenant by tenant. *)
Definition client_skey (u : WindowUsage) : string := key (wu_TenantID u) (wu_Window u).

Lemma seedTenant_foldl s t seeds :
  (∀ u, u ∈ seeds → wu_TenantID u = t) →
  (seedTenant uuid_string s Replied t seeds).1 = foldl (seed_one client_skey) s seeds.
Proof.
  intros Ht. simpl.
  rewrite <- (seed_lua_foldl client_skey s [] seeds). simpl. f_equal.
  apply map_ext_in. intros u Hu. unfold client_skey.
  rewrite (Ht u); [done|]. by apply list_elem_of_In.
Qed.

Lemma Counters_Seed_foldl s order seeds s' :
  Counters_Seed uuid_string s order seeds = (s', None) →
  s' = foldl (seed_one client_skey) s
         (concat (map (λ p, List.filter (λ u, bool_decide (wu_TenantID u = p.1)) seeds) order)).
Proof.
  revert s. induction order as [|[t f] order IH]; intros s E; simpl in E.
  { by simplify_eq. }
  destruct f; try discriminate. simpl. rewrite foldl_app.
  assert (Ht : ∀ u, u ∈ List.filter (λ u, bool_decide (wu_TenantID u = t)) seeds → wu_TenantID u = t).
  { intros u [Hu _]%elem_of_filter_bool. by apply bool_decide_eq_true in Hu. }
  rewrite <- (seedTenant_foldl s t _ Ht). by apply IH.
Qed.

Lemma seed_order_elem (c : redis_client S) seeds u :
  u ∈ concat (map (λ p, List.filter (λ u, bool_decide (wu_TenantID u = p.1)) seeds)
                (seed_order c seeds)) ↔ u ∈ seeds.
Proof.
  rewrite list_elem_of_In, in_concat. split.
  - intros (l & Hl & Hu). apply in_map_iff in Hl as (p & <- & _).
    apply List.filter_In in Hu as [Hu _]. by apply list_elem_of_In.
  - intros Hu.
    assert (Hin : wu_TenantID u ∈ remove_dups (map wu_TenantID seeds))
      by (apply elem_of_remove_dups, list_elem_of_fmap; eauto).
    apply list_elem_of_lookup in Hin as [i Hi].
    exists (List.filter (λ v, bool_decide (wu_TenantID v = wu_TenantID u)) seeds). split.
    + apply in_map_iff. exists (wu_TenantID u, default Replied (rc_fates c !! i)).
      split; [done|]. apply list_elem_of_In. unfold seed_order.
      apply elem_of_lookup_imap. eauto.
    + apply List.filter_In. split; [by apply list_elem_of_In|by apply bool_decide_eq_true].
Qed.

Lemma client_seed_ok (c : redis_client S) seeds s' order :
  Forall (seed_exact client_skey (rc_store c)) seeds →
  order = seed_order c seeds →
  Counters_Seed uuid_string (rc_store c) order seeds = (s', None) →
  (∀ u, u ∈ seeds → is_Some (counter s' (client_skey u))) ∧
  (∀ k, (∀ u, u ∈ seeds → client_skey u ≠ k) → counter s' k = counter (rc_store c) k).
Proof.
  intros Hx -> Hs%Counters_Seed_foldl. set (us := concat _) in Hs.
  assert (Hus : ∀ u, u ∈ us ↔ u ∈ seeds) by (intros; apply seed_order_elem).
  destruct (seed_all_spec client_skey (rc_store c) us) as (_ & He & Hg).
  { apply Forall_forall. intros u Hu%Hus. rewrite Forall_forall in Hx. by apply Hx. }
  rewrite <- Hs in He, Hg. split.
  - intros u Hu. unfold counter. rewrite He.
    assert (existsb (λ v, bool_decide (client_skey v = client_skey u)) us = true) as ->.
    { apply existsb_exists. exists u. split; [|by apply bool_decide_eq_true].
      by apply list_elem_of_In, Hus. }
    done.
  - intros k Hk. unfold counter, val. rewrite He, !Hg.
    assert (existsb (λ v, bool_decide (client_skey v = k)) us = false) as ->.
    { apply not_true_iff_false. intros (v & Hv & Heq%bool_decide_eq_true)%existsb_exists.
      apply (Hk v); [|done]. by apply Hus, list_elem_of_In. }
    assert (∀ f, snapshots client_skey us k f = []) as Hn.
    { intros f. unfold snapshots. 
      rewrite (elem_of_nil_inv (filter _ us)); [done|].
      intros v [Hv Hin]%list_elem_of_filter. apply (Hk v); [by apply Hus|done]. }
    rewrite !Hn. by rewrite !decide_True by set_solver.
Qed.

Lemma NoDup_map_key t windows : NoDup (map window_id windows) → NoDup (map (key t) windows).
Proof.
  intros Hnd. induction windows as [|w windows IH]; [constructor|].
  apply NoDup_cons in Hnd as [Hn Hnd]. apply NoDup_cons. split; [|by apply IH].
  by intros [_ ?]%Key_in.
Qed.

(** A counter with room for any amount holds 64-bit fields when the amount is 0. *)
Lemma counter_room_wf s t w u windows :
  (∀ w, w ∈ windows → EXISTS s (key t w) = true → has_room s (key t w) zero_QuotaUsage) →
  window_id w ∈ map window_id windows → counter s (key t w) = Some u → usage_wf u.
Proof.
  intros Hr (w' & Hw & Hin)%list_elem_of_fmap. rewrite (Key_window_id t w w') by done.
  unfold counter. destruct (EXISTS s (key t w')) eqn:E; [|done]. intros [= <-].
  specialize (Hr w' Hin E). unfold has_room, usage_field in Hr.
  unfold usage_wf. split_and!; cbn [Requests Tokens Cost].
  - specialize (Hr f_requests ltac:(unfold field_names; set_solver)). simpl in Hr. by rewrite Z.add_0_r in Hr.
  - specialize (Hr f_tokens ltac:(unfold field_names; set_solver)). simpl in Hr. by rewrite Z.add_0_r in Hr.
  - specialize (Hr f_cost ltac:(unfold field_names; set_solver)). simpl in Hr. by rewrite Z.add_0_r in Hr.
Qed.

#[export] Instance redis_counters_spec :
  QuotaCountersSpec (redis_client S) (H := redis_counters uuid_string).
Proof.
  refine {|
    live := client_live;
    reserve_pre c t limits amount := reserve_ready (key t) (rc_store c) limits amount;
    seed_pre c seeds := Forall (seed_exact client_skey (rc_store c)) seeds;
    adjust_pre c t windows delta :=
      NoDup (map window_id windows) ∧
      ∀ w, w ∈ windows → EXISTS (rc_store c) (key t w) = true →
           has_room (rc_store c) (key t w) delta;
  |}.
  - intros c t w w' Hw. unfold client_live. by rewrite (Key_window_id t w w').
  - intros c t limits amount c' r Hpre. simpl.
    destruct (Counters_Reserve _ _ _ _ _ _) as [s1 r1] eqn:E. intros [= <- ->].
    apply Counters_Reserve_ok in E as [-> Hc]; [|done]. split; [done|].
    intros t' w. unfold client_live. simpl. rewrite Hc.
    destruct (counter _ _); simpl; [|done]. f_equal.
    unfold lkey. rewrite <- (List.map_map wl_Window (key t)).
    rewrite <- (List.map_map wl_Window window_id).
    apply decide_ext. by rewrite Key_in.
  - intros c seeds c' Hpre. simpl.
    destruct (Counters_Seed _ _ _ _) as [s1 r1] eqn:E. intros [= <- ->].
    destruct (client_seed_ok c seeds s1 (seed_order c seeds)) as [Hs Ho]; [done..|].
    split.
    + intros u Hu. by apply Hs.
    + intros t w Hu. apply Ho. intros u Hin Heq. apply (Hu u Hin).
      apply Key_eq in Heq as [-> ->]. done.
  - intros c t windows delta c' [Hnd Hroom]. simpl.
    destruct (Counters_Adjust _ _ _ _ _ _) as [s1 r1] eqn:E. intros [= <- ->].
    unfold Counters_Adjust in E. intros t' w. unfold client_live. simpl.
    destruct (bool_decide (windows = []) || QuotaUsage_IsZero delta) eqn:Ez.
    + injection E as <-. destruct (counter _ _) as [u|] eqn:Eu; simpl; [|done]. f_equal.
      case_decide as Hd; [|done]. destruct Hd as [-> Hin].
      apply orb_true_iff in Ez as [Ew|Ez].
      * apply bool_decide_eq_true in Ew as ->. set_solver.
      * apply IsZero_spec in Ez as ->. symmetry. apply Usage_Add_zero_r.
        by eapply counter_room_wf.
    + destruct (next_fate c); try discriminate.
      change [Requests delta; Tokens delta; Cost delta]
        with (reserve_args [] delta) in E.
      destruct (adjust_lua_spec (rc_store c) (map (key t) windows) (reserve_args [] delta))
        as (s' & Hl & _ & _ & Hc).
      { apply NoDup_map_key. exact Hnd. }
      { intros k (w' & -> & Hin)%list_elem_of_fmap Hex. by apply Hroom. }
      rewrite Hl in E. injection E as <-.
      rewrite Hc, reserve_argv_usage. destruct (counter _ _); simpl; [|done]. f_equal.
      apply decide_ext. apply Key_in.
Defined.
End Client_facts.

(** ** A concrete Redis

    A Redis held in memory: hashes with an optional deadline. It satisfies the laws
    of [RedisStore], so the theorems about the counters have something to run on. *)

Record map_redis := mkMapRedis {
  mr_now : Z;
  mr_hashes : gmap string (gmap string Z * option Z);
}.

Definition mr_hash (s : map_redis) (k : string) : gmap string Z :=
  default ∅ (fst <$> mr_hashes s !! k).

Definition mr_deadline (s : map_redis) (k : string) : option Z :=
  mr_hashes s !! k ≫= snd.

Definition mr_set (s : map_redis) (k f : string) (v : Z) : map_redis :=
  mkMapRedis (mr_now s)
    (<[k := (<[f := v]> (mr_hash s k), mr_deadline s k)]> (mr_hashes s)).

#[export] Instance map_redis_store : RedisStore map_redis := {
  TIME := mr_now;
  EXISTS s k := bool_decide (is_Some (mr_hashes s !! k));
  HGET s k f := mr_hash s k !! f;
  HSET := mr_set;
  HINCRBY s k f d :=
    let v := default 0 (mr_hash s k !! f) + d in
    if bool_decide (int64_range v) then Ok (mr_set s k f v)
    else Err (Sentinel "ERR increment or decrement would overflow");
  EXPIREAT s k t :=
    mkMapRedis (mr_now s)
      (if t <=? mr_now s then delete k (mr_hashes s)
       else alter (λ h, (h.1, Some t)) k (mr_hashes s));
}.

Lemma mr_hash_set s k f v k' :
  mr_hash (mr_set s k f v) k' = if decide (k = k') then <[f := v]> (mr_hash s k) else mr_hash s k'.
Proof.
  unfold mr_hash at 1, mr_set. simpl. rewrite lookup_insert. by case_decide.
Qed.

#[export] Instance map_redis_laws : RedisLaws map_redis.
Proof.
  split.
  - intros s k f He%bool_decide_eq_false. simpl. unfold mr_hash.
    rewrite <- eq_None_not_Some in He. by rewrite He.
  - intros s k f v k' f'. simpl. rewrite mr_hash_set.
    destruct (decide (k = k')) as [<-|Hk].
    + rewrite lookup_insert. destruct (decide (f = f')) as [<-|].
      * by rewrite decide_True.
      * by rewrite decide_False by naive_solver.
    + rewrite decide_False by naive_solver. done.
  - intros s k f v k'. simpl. rewrite lookup_insert.
    destruct (decide (k = k')) as [<-|].
    + by rewrite !bool_decide_true by done.
    + by rewrite (bool_decide_false (k = k')).
  - done.
  - intros s k f d v Hv. exists (mr_set s k f v). simpl.
    rewrite bool_decide_true by exact Hv. done.
  - intros s k t k' f Ht. simpl in *. rewrite (proj2 (Z.leb_gt _ _)) by lia.
    unfold mr_hash. simpl. rewrite lookup_alter.
    destruct (decide (k = k')) as [<-|]; [|done]. by destruct (mr_hashes s !! k).
  - intros s k t k' Ht. simpl in *. rewrite (proj2 (Z.leb_gt _ _)) by lia.
    rewrite lookup_alter. destruct (decide (k = k')) as [<-|]; [|done].
    apply bool_decide_ext. by destruct (mr_hashes s !! k); split; intros [? ?].
  - done.
Qed.

(** UUID text for the examples: the id in decimal. *)
Definition example_uuid_string (u : uuid) : string := pretty u.

Lemma example_uuid_string_inj u v : example_uuid_string u = example_uuid_string v → u = v.
Proof. apply (inj pretty). Qed.

Lemma example_uuid_string_hex u : str_elem "}"%char (example_uuid_string u) = false.
Proof. apply pretty_N_no_char. apply (bool_decide_unpack _). by vm_compute. Qed.
