(* ===== verification/CounterProps.v ===== *)
(** What the live counters guarantee: a reservation is all or nothing, a cap holds
    against any number of replicas, seeding converges, corrections touch only
    counters that still exist, and two counters never share a key. *)
From Stdlib Require Import Ascii.
From S2P Require Import Prelude Calendar Errors Money Quota Redis RedisSeed Counters.

(** One request reaching the server: any tenant, any limits, whatever happens to the
    reply. Requests that touch counter [k0] carry a blocking cap of at most [cap] on it. *)
Inductive replica_step {S} `{RedisStore S} (us : uuid → string) (k0 : string) (cap : USD)
    : S → S → Prop :=
| replica_reserve s t limits amount f s' r :
    reserve_ready (Key us t) s limits amount →
    (∀ l, l ∈ limits → Key us t (wl_Window l) = k0 → wl_Block l = true ∧ wl_MaxCost l ≤ cap) →
    Counters_Reserve us s f t limits amount = (s', r) →
    replica_step us k0 cap s s'.

Definition spent_within {S} `{RedisStore S} (s : S) (k : string) (cap : USD) : Prop :=
  ∀ u, counter s k = Some u → Cost u ≤ cap.

Section Facts.
Context {S : Type} `{RedisLaws S}.
Context (us : uuid → string).

Lemma reserve_any_fate s f t limits amount :
  (Counters_Reserve us s f t limits amount).1 = s ∨
  (Counters_Reserve us s f t limits amount).1 =
    (reserve_lua s (map (lkey (Key us t)) limits) (reserve_args limits amount)).1.
Proof.
  unfold Counters_Reserve. destruct f; [|by right|by left]. right.
  change ([Requests amount; Tokens amount; Cost amount] ++ concat (map limit_args limits))
    with (reserve_args limits amount).
  change (map (λ l, Key us t (wl_Window l)) limits) with (map (lkey (Key us t)) limits).
  by destruct (reserve_lua _ _ _) as [s' [?|?]].
Qed.

(** A taken reservation leaves every blocking cap respected. *)
Lemma taken_within_cap s t limits amount l :
  reserve_ready (Key us t) s limits amount →
  taken (reserve_spec (λ w, counter s (Key us t w)) limits amount) = true →
  l ∈ limits → wl_Block l = true →
  val s (Key us t (wl_Window l)) f_cost + Cost amount ≤ wl_MaxCost l.
Proof.
  intros (_ & _ & _) Ht Hl Hb. unfold reserve_spec in Ht.
  destruct (filter _ _); [|unfold taken in Ht; by rewrite bool_decide_false in Ht by done].
  rewrite (reserve_check_ext _ (used_of (Key us t) s)) in Ht
    by (intros l'; apply (used_of_counter (Key us t) s l')).
  unfold reserve_check in Ht.
  destruct (list_find _ limits) as [[n l']|] eqn:Ef; [done|].
  apply list_find_None in Ef. rewrite Forall_forall in Ef. specialize (Ef l Hl).
  unfold blocking, crosses, used_of, lkey in Ef.
  destruct (decide (val s (Key us t (wl_Window l)) f_cost + Cost amount ≤ wl_MaxCost l));
    [done|]. exfalso. apply Ef. split; [done|lia].
Qed.

Lemma replica_step_cap k0 cap s s' :
  replica_step us k0 cap s s' → spent_within s k0 cap → spent_within s' k0 cap.
Proof.
  intros Hstep Hs. destruct Hstep as [s t limits amount f s' r Hready Hcap He].
  pose proof (reserve_any_fate s f t limits amount) as Hf. rewrite He in Hf. simpl in Hf.
  destruct Hf as [->| ->]; [done|].
  destruct (reserve_lua_spec (Key us t) s limits amount Hready) as (s1 & rep & Hl & _ & Heff).
  rewrite Hl. simpl. destruct (taken _) eqn:Et; [|by rewrite Heff].
  destruct Heff as (Hex & _ & Hval). intros u. unfold counter. rewrite Hex.
  destruct (EXISTS s k0) eqn:Ek; [|done]. intros [= <-]. simpl. rewrite Hval.
  case_decide as Hin.
  - apply list_elem_of_fmap in Hin as (l & -> & Hin).
    destruct (Hcap l Hin eq_refl) as [Hb Hle].
    pose proof (taken_within_cap s t limits amount l Hready Et Hin Hb). unfold lkey.
    unfold usage_field. simpl. lia.
  - rewrite Z.add_0_r.
    assert (Hc : counter s k0 =
      Some (mkQuotaUsage (val s k0 f_requests) (val s k0 f_tokens) (val s k0 f_cost)))
      by (unfold counter; by rewrite Ek).
    exact (Hs _ Hc).
Qed.

(** A counter seeded once: the larger of what it held and the snapshot. *)
Lemma seed_counter_max (skey : WindowUsage → string) s u seeds :
  Forall (seed_exact skey s) seeds → NoDup (map skey seeds) → u ∈ seeds →
  (∀ f, 0 ≤ usage_field (wu_Usage u) f) →
  counter (foldl (seed_one skey) s seeds) (skey u) =
    Some (default (wu_Usage u) ((λ c, usage_max c (wu_Usage u)) <$> counter s (skey u))).
Proof.
  intros Hx Hnd Hin Hpos. destruct (seed_all_spec skey s seeds Hx) as (_ & He & Hg).
  assert (Hsn : ∀ f, snapshots skey seeds (skey u) f = [usage_field (wu_Usage u) f]).
  { intros f. unfold snapshots. clear Hx He Hg.
    induction seeds as [|v seeds IH]; [set_solver|].
    apply NoDup_cons in Hnd as [Hn Hnd]. rewrite filter_cons.
    apply elem_of_cons in Hin as [<-|Hin].
    - rewrite decide_True by done. simpl.
      rewrite (elem_of_nil_inv (filter _ seeds)); [done|].
      intros w [Hw Hws]%list_elem_of_filter. apply Hn. rewrite <- Hw.
      by apply list_elem_of_fmap_2.
    - rewrite decide_False; [by apply IH|]. intros E. apply Hn. rewrite E.
      by apply list_elem_of_fmap_2. }
  assert (Hexb : existsb (λ v, bool_decide (skey v = skey u)) seeds = true).
  { apply existsb_exists. exists u. split; [by apply list_elem_of_In|].
    by apply bool_decide_eq_true. }
  assert (Hv : ∀ f, f ∈ field_names →
    val (foldl (seed_one skey) s seeds) (skey u) f =
    if EXISTS s (skey u) then Z.max (val s (skey u) f) (usage_field (wu_Usage u) f)
    else usage_field (wu_Usage u) f).
  { intros f Hf. unfold val. rewrite Hg, decide_True, Hsn by done. simpl.
    specialize (Hpos f).
    destruct (EXISTS s (skey u)) eqn:E.
    - destruct (HGET s (skey u) f); simpl; lia.
    - by rewrite hget_missing. }
  unfold counter at 1. rewrite He, Hexb. cbn [orb]. f_equal.
  rewrite !Hv by (unfold field_names; set_solver). unfold counter, usage_max.
  destruct (wu_Usage u) as [r tk c]. destruct (EXISTS s (skey u)); done.
Qed.
End Facts.

(** ** Example data *)

Definition ex_minute : Window := mkWindow WindowMinute (1000 * Minute) (1001 * Minute).
Definition ex_day : Window := mkWindow WindowDay 0 DayLen.
Definition ex_tenant : uuid := 7%N.
Definition ex_limits : list WindowLimit :=
  [mkWindowLimit ex_minute 500 true; mkWindowLimit ex_day 900 false].
Definition ex_hash (r t c : Z) : gmap string Z :=
  {[f_requests := r; f_tokens := t; f_cost := c]}.
Definition ex_store : map_redis :=
  mkMapRedis 60000
    {[Key example_uuid_string ex_tenant ex_minute := (ex_hash 1 10 100, None);
      Key example_uuid_string ex_tenant ex_day := (ex_hash 5 50 800, None)]}.
Definition ex_amount : QuotaUsage := mkQuotaUsage 1 20 300.

(** Closed integer comparisons, evaluated. *)
Ltac eval_le := apply Z.leb_le; vm_compute; reflexivity.
Ltac eval_int64 := split; [eval_le | apply Z.ltb_lt; vm_compute; reflexivity].
Ltac eval_fields :=
  let f := fresh "f" in let Hf := fresh "Hf" in
  intros f Hf; unfold field_names in Hf;
  rewrite !elem_of_cons, elem_of_nil in Hf; destruct Hf as [->|[->|[->|[]]]]; eval_int64.

Lemma ex_ready : reserve_ready (Key example_uuid_string ex_tenant) ex_store ex_limits ex_amount.
Proof.
  split_and!.
  - split; [eval_le|]. repeat (apply Forall_cons; split); [split_and!; eval_le..|apply Forall_nil; done].
  - repeat (apply Forall_cons; split); [split..|apply Forall_nil; done];
      [eval_fields|done|eval_fields|done].
  - apply (bool_decide_unpack (NoDup _)). vm_compute. exact I.
Defined.

(** ** Properties *)

Section Properties.
Context {S : Type} `{RedisLaws S}.
Context (us : uuid → string).

(** C7. A reservation that is answered does what the counter port promises, as long as the script's
    arithmetic is exact ([reserve_ready]): its amount, the caps and what is spent, also in sum, are
    at most 2^53 nanodollars in size, which is all a Lua number holds (see [cap_lost_past_2_53]); no
    counter leaves 64 bits; no counter's deadline is past, since EXPIREAT would then delete it;
    and the limits govern distinct counters. It names the missing counters, or refuses at the
    first blocking limit the amount would cross, or is taken with the soft limits it crossed; and
    it changes every counter it governs by the amount when it is taken, and nothing at all
    otherwise. *)
Theorem Reserve_all_or_nothing s t limits amount :
  reserve_ready (Key us t) s limits amount →
  ∃ s', Counters_Reserve us s Replied t limits amount =
          (s', Ok (reserve_spec (λ w, counter s (Key us t w)) limits amount)) ∧
    ∀ k, counter s' k =
      (λ u, if decide (taken (reserve_spec (λ w, counter s (Key us t w)) limits amount) = true ∧
                       k ∈ map (lkey (Key us t)) limits)
            then QuotaUsage_Add u amount else u) <$> counter s k.
Proof.
  intros Hr. destruct (reserve_lua_spec (Key us t) s limits amount Hr) as (s' & r & Hl & Hp & _).
  assert (E : Counters_Reserve us s Replied t limits amount =
              (s', Ok (reserve_spec (λ w, counter s (Key us t w)) limits amount))).
  { unfold Counters_Reserve.
    change ([Requests amount; Tokens amount; Cost amount] ++ concat (map limit_args limits))
      with (reserve_args limits amount).
    change (map (λ l, Key us t (wl_Window l)) limits) with (map (lkey (Key us t)) limits).
    by rewrite Hl, Hp. }
  exists s'. split; [done|]. by destruct (Counters_Reserve_ok us s Replied t limits amount s' _ Hr E).
Qed.

(** C6. A blocking cap holds against any number of replicas: however many reservations reach the
    server, in whatever order, for whatever tenants, and whether or not their replies arrive, a
    counter that every reservation guards with a cap of at most [cap] never holds more than
    [cap]. Each reservation is one whose arithmetic is exact where it runs ([reserve_ready], as in
    [Reserve_all_or_nothing]: caps, amounts and what is spent of at most 2^53 nanodollars, some
    nine million dollars, and no counter past its deadline); past that a cap can be crossed, see
    [cap_lost_past_2_53]. *)
Theorem replicas_respect_cap k0 cap s s' :
  rtc (replica_step us k0 cap) s s' → spent_within s k0 cap → spent_within s' k0 cap.
Proof. induction 1; [done|]. intros Hs. eauto using replica_step_cap. Qed.

(** Seeding converges: several replicas that rehydrate the same counters from
    the same snapshots leave the same store, in whatever order the snapshots arrive
    and even when all of them are seeded twice. *)
Theorem seeding_converges skey s seeds seeds' :
  Forall (seed_exact skey s) seeds → seeds ≡ₚ seeds' →
  store_eq (foldl (seed_one skey) s seeds) (foldl (seed_one skey) s seeds') ∧
  store_eq (foldl (seed_one skey) (foldl (seed_one skey) s seeds) seeds)
           (foldl (seed_one skey) s seeds).
Proof. intros Hx Hp. split; [by apply seed_all_perm|by apply seed_all_idem]. Qed.

(** A seed never lowers a counter: one answered seed.lua call leaves each
    counter at the larger of what it held and its snapshot, field by field, and
    creates the ones that were missing. *)
Theorem seed_takes_maximum s t seeds u :
  let skey := λ u, Key us t (wu_Window u) in
  Forall (seed_exact skey s) seeds → NoDup (map skey seeds) → u ∈ seeds →
  (∀ f, 0 ≤ usage_field (wu_Usage u) f) →
  ∃ s', seedTenant us s Replied t seeds = (s', None) ∧
    counter s' (skey u) =
      Some (default (wu_Usage u) ((λ c, usage_max c (wu_Usage u)) <$> counter s (skey u))).
Proof.
  intros skey Hx Hnd Hu Hpos. eexists. split; [done|].
  etransitivity; [|by apply (seed_counter_max skey)].
  f_equal. exact (seed_lua_foldl skey s [] seeds).
Qed.

(** A correction moves every live counter it names by exactly the delta and
    recreates none that has expired. *)
Theorem adjust_only_live s t windows delta :
  windows ≠ [] → delta ≠ zero_QuotaUsage → NoDup (map (Key us t) windows) →
  (∀ w, w ∈ windows → EXISTS s (Key us t w) = true → has_room s (Key us t w) delta) →
  ∃ s', Counters_Adjust us s Replied t windows delta = (s', None) ∧
    ∀ k, counter s' k =
      (λ u, if decide (k ∈ map (Key us t) windows) then QuotaUsage_Add u delta else u)
      <$> counter s k.
Proof.
  intros Hw Hz Hnd Hroom. unfold Counters_Adjust.
  rewrite bool_decide_false by done.
  assert (QuotaUsage_IsZero delta = false) as ->
    by (apply not_true_iff_false; by rewrite IsZero_spec). simpl.
  change [Requests delta; Tokens delta; Cost delta] with (reserve_args [] delta).
  destruct (adjust_lua_spec s (map (Key us t) windows) (reserve_args [] delta))
    as (s' & Hl & _ & _ & Hc); [done| |].
  { intros k (w & -> & Hin)%list_elem_of_fmap Hex. rewrite reserve_argv_usage. by apply Hroom. }
  exists s'. rewrite Hl. split; [done|]. intros k. by rewrite Hc, reserve_argv_usage.
Qed.
End Properties.

(** Two counters share a Redis key only when they are the same counter: the
    same tenant, window kind and start second. *)
Theorem Key_injective (us : uuid → string) t w t' w' :
  (∀ u, str_elem "}"%char (us u) = false) → (∀ u v, us u = us v → u = v) →
  Key us t w = Key us t' w' ↔
  t = t' ∧ Window_Kind w = Window_Kind w' ∧ Unix (Window_Start w) = Unix (Window_Start w').
Proof.
  intros Hx Hi. split; [by apply Key_inj|]. intros (-> & Hk & Hs). unfold Key. congruence.
Qed.

(** Past 2^53 a Lua number no longer tells a sum from its neighbour: a counter that stands at a
    blocking cap of 2^53 nanodollars takes one more. *)
Theorem cap_lost_past_2_53 :
  let cap := 2 ^ 53 in
  let s := mkMapRedis 60000 {[Key example_uuid_string ex_tenant ex_minute := (ex_hash 1 10 cap, None)]} in
  let '(s', r) := Counters_Reserve example_uuid_string s Replied ex_tenant
                    [mkWindowLimit ex_minute cap true] (mkQuotaUsage 1 1 1) in
  r = Ok (mkCounterReservation [] None []) ∧
  counter s' (Key example_uuid_string ex_tenant ex_minute) = Some (mkQuotaUsage 2 11 (cap + 1)).
Proof. vm_compute. by split. Qed.

(** ** Witnesses *)

Lemma Reserve_all_or_nothing_witness :
  ∃ s', Counters_Reserve example_uuid_string ex_store Replied ex_tenant ex_limits ex_amount =
          (s', Ok (mkCounterReservation [] None [mkQuotaBreach ex_day 800 300 900])) ∧
    counter s' (Key example_uuid_string ex_tenant ex_day) = Some (mkQuotaUsage 6 70 1100).
Proof.
  destruct (Reserve_all_or_nothing example_uuid_string ex_store ex_tenant ex_limits ex_amount ex_ready)
    as (s' & E & Hc). exists s'. rewrite E, Hc. split; vm_compute; reflexivity.
Defined.

Lemma replicas_respect_cap_witness :
  spent_within (Counters_Reserve example_uuid_string ex_store Replied ex_tenant ex_limits ex_amount).1
    (Key example_uuid_string ex_tenant ex_minute) 500.
Proof.
  apply (replicas_respect_cap example_uuid_string (Key example_uuid_string ex_tenant ex_minute) 500
           ex_store).
  - eapply rtc_l; [|apply rtc_refl].
    apply (replica_reserve example_uuid_string _ _ ex_store ex_tenant ex_limits ex_amount Replied _
             (Counters_Reserve example_uuid_string ex_store Replied ex_tenant ex_limits ex_amount).2).
    + exact ex_ready.
    + intros l Hl Hk. unfold ex_limits in Hl.
      rewrite !elem_of_cons, elem_of_nil in Hl. destruct Hl as [->|[->|[]]].
      * split; [done|vm_compute; discriminate].
      * vm_compute in Hk. discriminate.
    + done.
  - intros u Hu. vm_compute in Hu. injection Hu as <-. vm_compute. discriminate.
Defined.

Definition ex_seeds : list WindowUsage :=
  [mkWindowUsage ex_tenant ex_minute (mkQuotaUsage 3 5 200);
   mkWindowUsage ex_tenant ex_day (mkQuotaUsage 4 60 700)].
Definition ex_skey (u : WindowUsage) : string := Key example_uuid_string ex_tenant (wu_Window u).

Lemma ex_hash_lookup r t c f v :
  ex_hash r t c !! f = Some v → v = r ∨ v = t ∨ v = c ∨ v = 0.
Proof.
  unfold ex_hash. intros [[_ <-]|[_ [[_ <-]|[_ [_ <-]%lookup_singleton_Some]]%lookup_insert_Some]]%lookup_insert_Some; auto.
Qed.

Lemma ex_seed_exact : Forall (seed_exact ex_skey ex_store) ex_seeds.
Proof.
  repeat (apply Forall_cons; split); [..|apply Forall_nil; done].
  all: split_and!; [intros f; unfold usage_field; repeat case_match; eval_le| |done].
  all: intros f c; change (HGET ex_store) with (λ k f, mr_hash ex_store k !! f); cbv beta.
  1: change (mr_hash ex_store _) with (ex_hash 1 10 100).
  2: change (mr_hash ex_store _) with (ex_hash 5 50 800).
  all: intros Hc; apply ex_hash_lookup in Hc as [->|[->|[->| ->]]]; eval_le.
Defined.

Lemma seeding_converges_witness :
  store_eq (foldl (seed_one ex_skey) ex_store ex_seeds)
           (foldl (seed_one ex_skey) ex_store (rev ex_seeds)).
Proof.
  assert (Hp : ex_seeds ≡ₚ rev ex_seeds) by apply Permutation_rev.
  exact (proj1 (seeding_converges ex_skey ex_store ex_seeds (rev ex_seeds) ex_seed_exact Hp)).
Defined.

Lemma seed_takes_maximum_witness :
  ∃ s', seedTenant example_uuid_string ex_store Replied ex_tenant ex_seeds = (s', None) ∧
    counter s' (Key example_uuid_string ex_tenant ex_minute) = Some (mkQuotaUsage 3 10 200).
Proof.
  destruct (seed_takes_maximum example_uuid_string ex_store ex_tenant ex_seeds
              (mkWindowUsage ex_tenant ex_minute (mkQuotaUsage 3 5 200))) as (s' & E & Hc).
  - apply ex_seed_exact.
  - apply (bool_decide_unpack (NoDup _)). vm_compute. exact I.
  - by left.
  - intros f. unfold usage_field. repeat case_match; eval_le.
  - exists s'. split; [done|]. simpl in Hc. rewrite Hc. by vm_compute.
Defined.

Lemma adjust_only_live_witness :
  ∃ s', Counters_Adjust example_uuid_string ex_store Replied ex_tenant
          [ex_minute; mkWindow WindowHour 0 Hour] (mkQuotaUsage 0 (-5) (-40)) = (s', None) ∧
    counter s' (Key example_uuid_string ex_tenant ex_minute) = Some (mkQuotaUsage 1 5 60) ∧
    counter s' (Key example_uuid_string ex_tenant (mkWindow WindowHour 0 Hour)) = None.
Proof.
  destruct (adjust_only_live example_uuid_string ex_store ex_tenant
              [ex_minute; mkWindow WindowHour 0 Hour] (mkQuotaUsage 0 (-5) (-40)))
    as (s' & E & Hc).
  - done.
  - done.
  - apply (bool_decide_unpack (NoDup _)). vm_compute. exact I.
  - intros w Hw Hex. rewrite !elem_of_cons, elem_of_nil in Hw. destruct Hw as [->|[->|[]]].
    + eval_fields.
    + vm_compute in Hex. discriminate.
  - exists s'. rewrite !Hc. split; [done|]. by vm_compute.
Defined.

Lemma Key_injective_witness :
  Key example_uuid_string ex_tenant ex_minute ≠ Key example_uuid_string ex_tenant ex_day.
Proof.
  intros H. apply (Key_injective example_uuid_string) in H as (_ & Hk & _); [discriminate|..].
  - apply example_uuid_string_hex.
  - apply example_uuid_string_inj.
Defined.
