(* ===== verification/Flusher.v ===== *)
(** The durable-delta writer of [internal/usecases/quota/flusher.go]: request
    goroutines add deltas to a bounded channel, one loop sums them per counter and
    writes them in batches, and [Close] drains it.

    The lock, the channel and each goroutine's position are part of the state, so the
    interleavings of concurrent [Add] and [Close] calls with the loop are the steps of
    one relation. *)
From S2P Require Import Prelude Sorting Channel Errors Quota.

(** ** The durable counters *)

(** [src/internal/ports/quota.go:83-92] UsageCounterRepository *)
Class UsageCounterRepository (W : Type) := {
  durable_Get : W → uuid → Window → W * result error QuotaUsage;
  AddDeltas : W → list WindowUsage → W * option error;
}.

(** ** State *)

(** [src/internal/usecases/quota/flusher.go:36-40] counterKey *)
Definition counterKey : Type := uuid * WindowKind * Z.

Definition key_of (d : WindowUsage) : counterKey :=
  (wu_TenantID d, Window_Kind (wu_Window d), Unix (Window_Start (wu_Window d))).

(** [src/internal/usecases/quota/flusher.go:21-34] Flusher

    [fl_pending] is the map local to the loop, [fl_readers] and [fl_writer] the state of
    [mu]. The last three fields are for the proofs only: every delta passed to [Add],
    every one dropped, every one in a batch the store accepted. *)
Record Flusher (W : Type) := mkFlusher {
  fl_store : W;
  fl_interval : duration;
  fl_ch : chan WindowUsage;
  fl_maxKeys : Z;
  fl_dropped : Z;
  fl_written : Z;
  fl_readers : Z;
  fl_writer : bool;
  fl_closed : bool;
  fl_done : bool;
  fl_pending : gmap counterKey WindowUsage;
  fl_added : list WindowUsage;
  fl_lost : list WindowUsage;
  fl_sent : list WindowUsage;
}.
Arguments mkFlusher {W} _ _ _ _ _ _ _ _ _ _ _ _ _ _.
Arguments fl_store {W} _.
Arguments fl_interval {W} _.
Arguments fl_ch {W} _.
Arguments fl_maxKeys {W} _.
Arguments fl_dropped {W} _.
Arguments fl_written {W} _.
Arguments fl_readers {W} _.
Arguments fl_writer {W} _.
Arguments fl_closed {W} _.
Arguments fl_done {W} _.
Arguments fl_pending {W} _.
Arguments fl_added {W} _.
Arguments fl_lost {W} _.
Arguments fl_sent {W} _.

(** [src/internal/usecases/quota/flusher.go:18-19] flushWriteTimeout *)
Definition flushWriteTimeout : duration := 10 * Second.

Section Flusher.
Context {W : Type} `{UsageCounterRepository W}.
Implicit Types (f : Flusher W) (d : WindowUsage).

(** [src/internal/usecases/quota/flusher.go:42-59] NewFlusher *)
Definition NewFlusher (store : W) (interval : duration) (buffer : Z) : Flusher W :=
  let interval := if interval <=? 0 then Second else interval in
  let buffer := if buffer <=? 0 then 8192 else buffer in
  mkFlusher store interval (make_chan buffer) buffer 0 0 0 false false false ∅ [] [] [].

(** Assignments to one field. *)
Definition set_ch f c : Flusher W :=
  mkFlusher (fl_store f) (fl_interval f) c (fl_maxKeys f) (fl_dropped f) (fl_written f)
    (fl_readers f) (fl_writer f) (fl_closed f) (fl_done f) (fl_pending f)
    (fl_added f) (fl_lost f) (fl_sent f).
Definition set_lock f (readers : Z) (writer : bool) : Flusher W :=
  mkFlusher (fl_store f) (fl_interval f) (fl_ch f) (fl_maxKeys f) (fl_dropped f) (fl_written f)
    readers writer (fl_closed f) (fl_done f) (fl_pending f)
    (fl_added f) (fl_lost f) (fl_sent f).
Definition set_closed f (closed : bool) : Flusher W :=
  mkFlusher (fl_store f) (fl_interval f) (fl_ch f) (fl_maxKeys f) (fl_dropped f) (fl_written f)
    (fl_readers f) (fl_writer f) closed (fl_done f) (fl_pending f)
    (fl_added f) (fl_lost f) (fl_sent f).
Definition set_done f : Flusher W :=
  mkFlusher (fl_store f) (fl_interval f) (fl_ch f) (fl_maxKeys f) (fl_dropped f) (fl_written f)
    (fl_readers f) (fl_writer f) (fl_closed f) true (fl_pending f)
    (fl_added f) (fl_lost f) (fl_sent f).
Definition set_pending f p : Flusher W :=
  mkFlusher (fl_store f) (fl_interval f) (fl_ch f) (fl_maxKeys f) (fl_dropped f) (fl_written f)
    (fl_readers f) (fl_writer f) (fl_closed f) (fl_done f) p
    (fl_added f) (fl_lost f) (fl_sent f).
Definition note_added f d : Flusher W :=
  mkFlusher (fl_store f) (fl_interval f) (fl_ch f) (fl_maxKeys f) (fl_dropped f) (fl_written f)
    (fl_readers f) (fl_writer f) (fl_closed f) (fl_done f) (fl_pending f)
    (fl_added f ++ [d]) (fl_lost f) (fl_sent f).

(** [src/internal/usecases/quota/flusher.go:154-160] Flusher.drop *)
Definition drop f (n : Z) (d : WindowUsage) : Flusher W :=
  mkFlusher (fl_store f) (fl_interval f) (fl_ch f) (fl_maxKeys f) (wrap64 (fl_dropped f + n))
    (fl_written f) (fl_readers f) (fl_writer f) (fl_closed f) (fl_done f) (fl_pending f)
    (fl_added f) (fl_lost f ++ [d]) (fl_sent f).

(** [src/internal/usecases/quota/flusher.go:100-112] Flusher.merge *)
Definition merge f d : Flusher W :=
  let k := key_of d in
  match fl_pending f !! k with
  | Some cur =>
      set_pending f
        (<[k := mkWindowUsage (wu_TenantID cur) (wu_Window cur)
                  (QuotaUsage_Add (wu_Usage cur) (wu_Usage d))]> (fl_pending f))
  | None =>
      if fl_maxKeys f <=? Z.of_nat (size (fl_pending f)) then drop f 1 d
      else set_pending f (<[k := d]> (fl_pending f))
  end.

(** [src/internal/usecases/quota/flusher.go:130-139] the order of a batch *)
Definition batch_less (a b : WindowUsage) : bool :=
  if negb (N.eqb (wu_TenantID a) (wu_TenantID b)) then N.ltb (wu_TenantID a) (wu_TenantID b)
  else if negb (String.eqb (Window_Kind (wu_Window a)) (Window_Kind (wu_Window b)))
  then string_lt (Window_Kind (wu_Window a)) (Window_Kind (wu_Window b))
  else Before (Window_Start (wu_Window a)) (Window_Start (wu_Window b)).

(** [src/internal/usecases/quota/flusher.go:118-152] Flusher.write

    [order] holds the values of the pending map in the order the runtime iterates
    over them. *)
Definition write f (order : list WindowUsage) : Flusher W :=
  if Nat.eqb (size (fl_pending f)) 0 then f
  else
    let batch := sort_slice batch_less order in
    match AddDeltas (fl_store f) batch with
    | (store, Some _) =>
        mkFlusher store (fl_interval f) (fl_ch f) (fl_maxKeys f) (fl_dropped f) (fl_written f)
          (fl_readers f) (fl_writer f) (fl_closed f) (fl_done f) (fl_pending f)
          (fl_added f) (fl_lost f) (fl_sent f)
    | (store, None) =>
        mkFlusher store (fl_interval f) (fl_ch f) (fl_maxKeys f) (fl_dropped f)
          (wrap64 (fl_written f + Z.of_nat (length batch)))
          (fl_readers f) (fl_writer f) (fl_closed f) (fl_done f) ∅
          (fl_added f) (fl_lost f) (fl_sent f ++ batch)
    end.

Definition pending_values f : list WindowUsage := (map_to_list (fl_pending f)).*2.

(** [src/internal/usecases/quota/flusher.go:76-98] Flusher.loop *)
Inductive loop_step f : Flusher W → Prop :=
| loop_merge d c :
    fl_done f = false → receive (fl_ch f) = Received d c → loop_step f (merge (set_ch f c) d)
| loop_exit order :
    fl_done f = false → receive (fl_ch f) = RecvClosed → order ≡ₚ pending_values f →
    loop_step f (set_done (write f order))
| loop_tick order :
    fl_done f = false → order ≡ₚ pending_values f →
    loop_step f (if Nat.ltb 0 (size (fl_pending f)) then write f order else f).

(** *** Callers *)

(** Where a goroutine is in [Add] or [Close]. *)
Inductive pc :=
| Add_lock (d : WindowUsage) | Add_check (d : WindowUsage) | Add_send (d : WindowUsage)
| Add_unlock
| Close_lock | Close_check | Close_chan | Close_unlock | Close_wait
| Returned (err : option error).

Inductive turn := Blocked_turn | Panics | Goes (f : Flusher W) (p : pc).

(** [src/internal/usecases/quota/flusher.go:61-74] Flusher.Add *)
Definition Add_step f (p : pc) : turn :=
  match p with
  | Add_lock d => if fl_writer f then Blocked_turn
                  else Goes (set_lock f (fl_readers f + 1) (fl_writer f)) (Add_check d)
  | Add_check d => if fl_closed f then Goes (drop (note_added f d) 1 d) Add_unlock
                   else Goes f (Add_send d)
  | Add_send d =>
      match try_send (fl_ch f) d with
      | Sent c => Goes (set_ch (note_added f d) c) Add_unlock
      | SendDefault => Goes (drop (note_added f d) 1 d) Add_unlock
      | SendPanic => Panics
      end
  | Add_unlock => Goes (set_lock f (fl_readers f - 1) (fl_writer f)) (Returned None)
  | _ => Blocked_turn
  end.

(** [src/internal/usecases/quota/flusher.go:162-177] Flusher.Close

    [ctx] is the context's error once it is done. *)
Definition Close_step f (ctx : option error) (p : pc) : turn :=
  match p with
  | Close_lock => if fl_writer f || negb (fl_readers f =? 0) then Blocked_turn
                  else Goes (set_lock f (fl_readers f) true) Close_check
  | Close_check => if negb (fl_closed f) then Goes (set_closed f true) Close_chan
                   else Goes f Close_unlock
  | Close_chan => match close_chan (fl_ch f) with
                  | Some c => Goes (set_ch f c) Close_unlock
                  | None => Panics
                  end
  | Close_unlock => Goes (set_lock f (fl_readers f) false) Close_wait
  | Close_wait =>
      match ctx with
      | Some e => Goes f (Returned (Some e))
      | None => if fl_done f then Goes f (Returned None) else Blocked_turn
      end
  | _ => Blocked_turn
  end.

Definition thread_step f (ctx : option error) (p : pc) : turn :=
  match p with
  | Add_lock _ | Add_check _ | Add_send _ | Add_unlock => Add_step f p
  | _ => Close_step f ctx p
  end.

(** The process: the flusher and the goroutines that called it. *)
Record system := mkSystem { sys_flusher : Flusher W; sys_threads : list pc }.

Inductive flusher_step : system → system → Prop :=
| step_call f ts p :
    p = Close_lock ∨ (∃ d, p = Add_lock d) →
    flusher_step (mkSystem f ts) (mkSystem f (ts ++ [p]))
| step_thread f ts i p ctx f' p' :
    ts !! i = Some p → thread_step f ctx p = Goes f' p' →
    flusher_step (mkSystem f ts) (mkSystem f' (<[i := p']> ts))
| step_loop f ts f' :
    loop_step f f' → flusher_step (mkSystem f ts) (mkSystem f' ts).

Definition can_panic (s : system) : Prop :=
  ∃ i p ctx, sys_threads s !! i = Some p ∧ thread_step (sys_flusher s) ctx p = Panics.

Definition initial_system store interval buffer : system :=
  mkSystem (NewFlusher store interval buffer) [].

(** [Add] when nothing else holds the lock. *)
Definition Flusher_Add f d : Flusher W :=
  if fl_closed f then drop (note_added f d) 1 d
  else match try_send (fl_ch f) d with
       | Sent c => set_ch (note_added f d) c
       | _ => drop (note_added f d) 1 d
       end.

(** [src/internal/usecases/quota/flusher.go:179-180] Flusher.Dropped *)
Definition Dropped f : Z := fl_dropped f.
End Flusher.
Arguments system W : clear implicits.
Arguments turn W : clear implicits.
