(* ===== verification/FlusherProps.v ===== *)
(** The flusher never panics, never holds more than its bound, loses nothing it does
    not count, and writes every batch in one fixed order. *)
From AAC_tactics Require Import AAC.
From S2P Require Import Prelude Sorting Channel Errors Quota Flusher.

(** ** Batches come out in one order *)

Lemma string_neq_order a b : String.eqb a b = bool_decide (a = b).
Proof. destruct (String.eqb_spec a b); [by rewrite bool_decide_true|by rewrite bool_decide_false]. Qed.

Definition start_less (a b : WindowUsage) : bool :=
  Before (Window_Start (wu_Window a)) (Window_Start (wu_Window b)).
Definition kind_less : WindowUsage → WindowUsage → bool :=
  lex_less (λ x y, bool_decide (Window_Kind (wu_Window x) = Window_Kind (wu_Window y)))
    (λ x y, string_lt (Window_Kind (wu_Window x)) (Window_Kind (wu_Window y))) start_less.

#[export] Instance start_less_order : LessOrder start_less.
Proof.
  split; unfold not_after, start_less, Before.
  - intros x y. rewrite !Z.ltb_ge. lia.
  - intros x y z. rewrite !Z.ltb_ge. lia.
Qed.

#[export] Instance kind_less_order : LessOrder kind_less.
Proof.
  apply (lex_less_order (λ x, Window_Kind (wu_Window x)) string_lt); [apply _| |apply _].
  apply string_lt_asym.
Qed.

Lemma batch_less_lex a b :
  batch_less a b =
  lex_less (λ x y, bool_decide (wu_TenantID x = wu_TenantID y))
    (λ x y, N.ltb (wu_TenantID x) (wu_TenantID y)) kind_less a b.
Proof.
  unfold batch_less, lex_less, kind_less, lex_less.
  destruct (N.eqb_spec (wu_TenantID a) (wu_TenantID b)) as [E|E].
  - rewrite bool_decide_true by done. simpl. rewrite string_neq_order. by destruct (bool_decide _).
  - by rewrite bool_decide_false.
Qed.

#[export] Instance batch_less_order : LessOrder batch_less.
Proof.
  assert (Ho : LessOrder (lex_less (λ x y : WindowUsage, bool_decide (wu_TenantID x = wu_TenantID y))
    (λ x y, N.ltb (wu_TenantID x) (wu_TenantID y)) kind_less)).
  { apply (lex_less_order wu_TenantID N.ltb); [|intros a b; rewrite !N.ltb_ge; lia|apply _].
    split; unfold not_after; [intros x y|intros x y z]; rewrite !N.ltb_ge; lia. }
  destruct Ho as [Ht Htr]. split; unfold not_after in *.
  - intros x y. rewrite !batch_less_lex. apply Ht.
  - intros x y z. rewrite !batch_less_lex. apply Htr.
Qed.

(** Two deltas tie only when they belong to one counter. *)
Lemma batch_less_tie a b :
  batch_less a b = false → batch_less b a = false → key_of a = key_of b.
Proof.
  unfold batch_less, key_of, Before. rewrite (N.eqb_sym (wu_TenantID b)), (String.eqb_sym (Window_Kind (wu_Window b))).
  destruct (N.eqb_spec (wu_TenantID a) (wu_TenantID b)) as [->|]; simpl;
    [|rewrite !N.ltb_ge; lia].
  destruct (String.eqb_spec (Window_Kind (wu_Window a)) (Window_Kind (wu_Window b))) as [->|E]; simpl.
  - rewrite !Z.ltb_ge. intros. f_equal. f_equal. lia.
  - intros H1 H2. exfalso. apply E. by apply string_lt_asym.
Qed.

(** ** Counting goroutines *)

Definition count (P : pc → bool) (ts : list pc) : Z := zsum (map (λ p, if P p then 1 else 0) ts).

Lemma count_app P ts p : count P (ts ++ [p]) = count P ts + if P p then 1 else 0.
Proof. unfold count. rewrite map_app, zsum_app. simpl. lia. Qed.

Lemma count_insert P ts i p p' :
  ts !! i = Some p →
  count P (<[i := p']> ts) = count P ts - (if P p then 1 else 0) + if P p' then 1 else 0.
Proof.
  revert i. induction ts as [|q ts IH]; intros [|i] Hi; simplify_eq/=.
  - unfold count. simpl. lia.
  - unfold count in *. simpl. rewrite IH by done. lia.
Qed.

Lemma count_nonneg P ts : 0 ≤ count P ts.
Proof. unfold count. induction ts as [|p ts IH]; simpl; [done|]. case_match; lia. Qed.

Lemma count_le P Q ts : (∀ p, P p = true → Q p = true) → count P ts ≤ count Q ts.
Proof.
  intros HPQ. unfold count. induction ts as [|p ts IH]; simpl; [done|].
  specialize (HPQ p). repeat case_match; naive_solver lia.
Qed.

Lemma count_pos P ts i p : ts !! i = Some p → P p = true → 1 ≤ count P ts.
Proof.
  revert i. induction ts as [|q ts IH]; intros [|i] Hi Hp; simplify_eq/=.
  - pose proof (count_nonneg P ts). unfold count in *. simpl. rewrite Hp. lia.
  - specialize (IH i Hi Hp). unfold count in *. simpl. case_match; lia.
Qed.

Definition reading (p : pc) : bool :=
  match p with Add_check _ | Add_send _ | Add_unlock => true | _ => false end.
Definition sending (p : pc) : bool := match p with Add_send _ => true | _ => false end.
Definition writing (p : pc) : bool :=
  match p with Close_check | Close_chan | Close_unlock => true | _ => false end.
Definition closing (p : pc) : bool := match p with Close_chan => true | _ => false end.

(** ** Sums of deltas, per counter *)

#[export] Instance Usage_Add_aac_assoc : Associative eq QuotaUsage_Add.
Proof. intros u v w. apply Usage_Add_assoc. Qed.
#[export] Instance Usage_Add_aac_comm : Commutative eq QuotaUsage_Add.
Proof. intros u v. apply Usage_Add_comm. Qed.
#[export] Instance Usage_Add_proper : Proper (eq ==> eq ==> eq) QuotaUsage_Add.
Proof. by intros ? ? -> ? ? ->. Qed.
#[export] Instance Usage_eq_lift : AAC_lift (@eq QuotaUsage) (@eq QuotaUsage).
Proof. split; [apply eq_equivalence|]. by intros ? ? -> ? ? ->. Qed.

Definition usage_sum (l : list WindowUsage) : QuotaUsage :=
  foldr (λ d, QuotaUsage_Add (wu_Usage d)) zero_QuotaUsage l.

(** What a list of deltas amounts to for one counter. *)
Definition total (k : counterKey) (l : list WindowUsage) : QuotaUsage :=
  usage_sum (filter (λ d, key_of d = k) l).

Definition only (k : counterKey) (d : WindowUsage) : QuotaUsage := total k [d].

Lemma usage_sum_wf l : usage_wf (usage_sum l).
Proof. destruct l; [by split_and!|apply usage_wf_Add]. Qed.

Lemma usage_sum_app l l' : usage_sum (l ++ l') = QuotaUsage_Add (usage_sum l) (usage_sum l').
Proof.
  induction l as [|d l IH]; simpl.
  - by rewrite Usage_Add_zero by apply usage_sum_wf.
  - by rewrite IH, Usage_Add_assoc.
Qed.

Lemma total_app k l l' : total k (l ++ l') = QuotaUsage_Add (total k l) (total k l').
Proof. unfold total. by rewrite filter_app, usage_sum_app. Qed.

Lemma total_cons k d l : total k (d :: l) = QuotaUsage_Add (only k d) (total k l).
Proof. apply (total_app k [d] l). Qed.

Lemma total_nil k : total k [] = zero_QuotaUsage.
Proof. done. Qed.

Lemma total_wf k l : usage_wf (total k l).
Proof. apply usage_sum_wf. Qed.

#[export] Instance total_perm k : Proper ((≡ₚ) ==> (=)) (total k).
Proof.
  intros l l' Hp. induction Hp as [|d l l' _ IH|d d' l|l1 l2 l3 _ IH1 _ IH2]; [done|..].
  - by rewrite !total_cons, IH.
  - rewrite !total_cons. aac_reflexivity.
  - congruence.
Qed.

(** Merging two deltas of one counter keeps its total. *)
Lemma only_merge k cur d :
  key_of d = key_of cur →
  only k (mkWindowUsage (wu_TenantID cur) (wu_Window cur) (QuotaUsage_Add (wu_Usage cur) (wu_Usage d)))
  = QuotaUsage_Add (only k cur) (only k d).
Proof.
  intros Hk. unfold only, total. rewrite !filter_cons, filter_nil.
  change (key_of (mkWindowUsage _ _ _)) with (key_of cur). rewrite Hk.
  case_decide; simpl; [|done].
  rewrite !(Usage_Add_comm _ zero_QuotaUsage), Usage_Add_zero by apply usage_wf_Add.
  unfold QuotaUsage_Add. simpl. by autorewrite with wrap.
Qed.

Ltac lock_finish :=
  simpl; rewrite ?Z.sub_0_r, ?Z.add_0_r; auto; try done; try lia;
  try (intros Hdone;
       repeat match goal with Hyp : ?P → _, Hp : ?P |- _ => specialize (Hyp Hp) end;
       repeat match goal with Hyp : ?x = ?x → _ |- _ => specialize (Hyp eq_refl) end;
       try lia; congruence).

Section Facts.
Context {W : Type} `{UsageCounterRepository W}.
Implicit Types (f : Flusher W).

(** ** The lock protocol *)

Record lock_inv (s : system W) : Prop := {
  li_readers : fl_readers (sys_flusher s) = count reading (sys_threads s);
  li_writer : (if fl_writer (sys_flusher s) then 1 else 0) = count writing (sys_threads s);
  li_excl : fl_writer (sys_flusher s) = true → fl_readers (sys_flusher s) = 0;
  li_chan : ch_closed (fl_ch (sys_flusher s)) = true → fl_closed (sys_flusher s) = true;
  li_closing : count closing (sys_threads s) =
    if fl_closed (sys_flusher s) && negb (ch_closed (fl_ch (sys_flusher s))) then 1 else 0;
  li_sending : fl_closed (sys_flusher s) = true → count sending (sys_threads s) = 0;
}.

Lemma sending_reading ts : count sending ts ≤ count reading ts.
Proof. apply count_le. by intros []. Qed.

Lemma closing_writing ts : count closing ts ≤ count writing ts.
Proof. apply count_le. by intros []. Qed.

(** What the loop leaves alone. *)
Lemma merge_frame f d :
  fl_readers (merge f d) = fl_readers f ∧ fl_writer (merge f d) = fl_writer f ∧
  fl_closed (merge f d) = fl_closed f ∧ fl_ch (merge f d) = fl_ch f ∧
  fl_maxKeys (merge f d) = fl_maxKeys f ∧ fl_added (merge f d) = fl_added f ∧
  fl_sent (merge f d) = fl_sent f ∧ fl_done (merge f d) = fl_done f.
Proof. unfold merge. by repeat case_match. Qed.

Lemma write_frame f order :
  fl_readers (write f order) = fl_readers f ∧ fl_writer (write f order) = fl_writer f ∧
  fl_closed (write f order) = fl_closed f ∧ fl_ch (write f order) = fl_ch f ∧
  fl_maxKeys (write f order) = fl_maxKeys f ∧ fl_added (write f order) = fl_added f ∧
  fl_lost (write f order) = fl_lost f ∧ fl_dropped (write f order) = fl_dropped f ∧
  fl_done (write f order) = fl_done f.
Proof. unfold write. by repeat case_match. Qed.

Lemma loop_frame f f' :
  loop_step f f' →
  fl_readers f' = fl_readers f ∧ fl_writer f' = fl_writer f ∧ fl_closed f' = fl_closed f ∧
  ch_closed (fl_ch f') = ch_closed (fl_ch f) ∧ fl_added f' = fl_added f.
Proof.
  intros [d c _ Hr|order _ _ _|order _ _].
  - destruct (merge_frame (set_ch f c) d) as (-> & -> & -> & -> & _ & -> & _).
    apply receive_fifo in Hr as (_ & _ & Hc). done.
  - destruct (write_frame f order) as (Hr & Hw & Hc & Hch & _ & Ha & _).
    unfold set_done. simpl. by rewrite Hr, Hw, Hc, Hch, Ha.
  - case_match; [|done].
    by destruct (write_frame f order) as (-> & -> & -> & -> & _ & -> & _).
Qed.

(** How the counts move when thread [i] goes from [p] to [p'], and what the counts were. *)
Ltac counts Hi p p' ts i :=
  pose proof (count_insert reading ts i p p' Hi) as C1; pose proof (count_insert writing ts i p p' Hi) as C2;
  pose proof (count_insert closing ts i p p' Hi) as C3; pose proof (count_insert sending ts i p p' Hi) as C4;
  pose proof (sending_reading ts); pose proof (closing_writing ts);
  pose proof (count_nonneg sending ts); pose proof (count_nonneg closing ts).

Lemma lock_inv_add f ts i p f' p' :
  ts !! i = Some p → Add_step f p = Goes f' p' → lock_inv (mkSystem f ts) → lock_inv (mkSystem f' (<[i := p']> ts)).
Proof.
  intros Hi Ht [Hr Hw Hx Hch Hcl Hse]. simpl in *. counts Hi p p' ts i.
  destruct p as [d|d|d| | | | | | |err]; cbn [Add_step] in Ht; try done.
  - (* Add_lock *) destruct (fl_writer f) eqn:Ew; [done|]. injection Ht as <- <-.
    simpl in *. split; simpl; rewrite ?C1, ?C2, ?C3, ?C4; lock_finish.
  - (* Add_check *) destruct (fl_closed f) eqn:Ec; injection Ht as <- <-; simpl in *;
      split; simpl; rewrite ?C1, ?C2, ?C3, ?C4, ?Ec; lock_finish.
  - (* Add_send *)
    assert (Hopen : fl_closed f = false).
    { destruct (fl_closed f); [|done]. specialize (Hse eq_refl).
      pose proof (count_pos sending ts i (Add_send d) Hi eq_refl). lia. }
    assert (Hchan : ch_closed (fl_ch f) = false).
    { destruct (ch_closed (fl_ch f)); [|done]. by rewrite Hch in Hopen. }
    rewrite Hopen in *.
    destruct (try_send (fl_ch f) d) as [c| |] eqn:Es; [..|done]; injection Ht as <- <-.
    + apply try_send_bounded in Es as (_ & _ & Es). simpl in *.
      split; simpl; rewrite ?C1, ?C2, ?C3, ?C4, ?Es, ?Hopen; lock_finish.
    + simpl in *. split; simpl; rewrite ?C1, ?C2, ?C3, ?C4, ?Hopen; lock_finish.
  - (* Add_unlock *) injection Ht as <- <-. simpl in *.
    pose proof (count_pos reading ts i Add_unlock Hi eq_refl) as Hpos.
    split; simpl; rewrite ?C1, ?C2, ?C3, ?C4; lock_finish.
Qed.

Lemma lock_inv_close f ts i ctx p f' p' :
  ts !! i = Some p → Close_step f ctx p = Goes f' p' → lock_inv (mkSystem f ts) → lock_inv (mkSystem f' (<[i := p']> ts)).
Proof.
  intros Hi Ht [Hr Hw Hx Hch Hcl Hse]. simpl in *. counts Hi p p' ts i.
  destruct p as [d|d|d| | | | | | |err]; cbn [Close_step] in Ht; try done.
  - (* Close_lock *) destruct (fl_writer f) eqn:Ew; [done|].
    destruct (fl_readers f =? 0) eqn:Er; [|done]. injection Ht as <- <-. bool_prop. simpl in *.
    split; simpl; rewrite ?C1, ?C2, ?C3, ?C4; lock_finish.
  - (* Close_check *)
    pose proof (count_pos writing ts i Close_check Hi eq_refl) as Hpos.
    destruct (fl_writer f) eqn:Ew; [|lia]. specialize (Hx eq_refl).
    destruct (fl_closed f) eqn:Ec; injection Ht as <- <-; simpl in *.
    + split; simpl; rewrite ?C1, ?C2, ?C3, ?C4, ?Ew, ?Ec; lock_finish.
    + assert (Hchan : ch_closed (fl_ch f) = false).
      { destruct (ch_closed (fl_ch f)); [|done]. by specialize (Hch eq_refl). }
      split; simpl; rewrite ?C1, ?C2, ?C3, ?C4, ?Ew, ?Hchan; lock_finish.
  - (* Close_chan *)
    pose proof (count_pos writing ts i Close_chan Hi eq_refl) as Hpos.
    pose proof (count_pos closing ts i Close_chan Hi eq_refl) as Hpos'.
    destruct (fl_writer f) eqn:Ew; [|lia]. specialize (Hx eq_refl).
    destruct (fl_closed f) eqn:Ec; [|simpl in Hcl; lia].
    unfold close_chan in Ht.
    destruct (ch_closed (fl_ch f)) eqn:Eh; [done|]. injection Ht as <- <-. simpl in *.
    split; simpl; rewrite ?C1, ?C2, ?C3, ?C4, ?Ew, ?Ec; lock_finish.
  - (* Close_unlock *) injection Ht as <- <-.
    pose proof (count_pos writing ts i Close_unlock Hi eq_refl) as Hpos.
    destruct (fl_writer f) eqn:Ew; [|lia]. simpl in *.
    split; simpl; rewrite ?C1, ?C2, ?C3, ?C4; lock_finish.
  - (* Close_wait *)
    assert (f' = f ∧ ∃ e, p' = Returned e) as [-> [e ->]].
    { destruct ctx; [|destruct (fl_done f)]; simplify_eq; eauto. }
    simpl in *. split; simpl; rewrite ?C1, ?C2, ?C3, ?C4; lock_finish.
Qed.

Lemma lock_inv_step s s' : flusher_step s s' → lock_inv s → lock_inv s'.
Proof.
  intros Hs Hinv. destruct Hs as [f ts p Hp|f ts i p ctx f' p' Hi Ht|f ts f' Hl].
  - destruct Hinv as [Hr Hw Hx Hch Hcl Hse].
    assert (Hn : reading p = false ∧ writing p = false ∧ closing p = false ∧ sending p = false)
      by (by destruct Hp as [->|[d ->]]).
    destruct Hn as (E1 & E2 & E3 & E4).
    split; simpl in *; rewrite ?count_app, ?E1, ?E2, ?E3, ?E4, ?Z.add_0_r; auto.
  - destruct p as [d|d|d| | | | | | |err];
      first [by apply (lock_inv_add f ts i _ f' p' Hi)|by apply (lock_inv_close f ts i ctx _ f' p' Hi)].
  - destruct Hinv as [Hr Hw Hx Hch Hcl Hse]. simpl in *. destruct (loop_frame f f' Hl) as (E1 & E2 & E3 & E4 & _).
    split; simpl; rewrite ?E1, ?E2, ?E3, ?E4; auto.
Qed.

Lemma lock_inv_no_panic s : lock_inv s → ¬ can_panic s.
Proof.
  intros [Hr Hw Hx Hch Hcl Hse] (i & p & ctx & Hi & Hp).
  destruct p as [d|d|d| | | | | | |err]; cbn [thread_step Add_step Close_step] in Hp;
    try (destruct (fl_writer _); simplify_eq; fail); try (destruct (fl_closed _); simplify_eq; fail);
    try done.
  - destruct (try_send _ d) eqn:Es; [done..|]. apply try_send_panic in Es.
    specialize (Hse (Hch Es)). pose proof (count_pos sending _ _ _ Hi eq_refl). lia.
  - by destruct (_ || _).
  - unfold close_chan in Hp. destruct (ch_closed (fl_ch (sys_flusher s))) eqn:Eh; [|done].
    rewrite andb_false_r in Hcl. pose proof (count_pos closing _ _ _ Hi eq_refl). lia.
  - destruct ctx; [done|]. by destruct (fl_done _).
Qed.

(** ** The books balance *)

Definition ledger f (k : counterKey) : QuotaUsage :=
  QuotaUsage_Add (total k (fl_sent f))
    (QuotaUsage_Add (total k (pending_values f))
       (QuotaUsage_Add (total k (ch_buf (fl_ch f))) (total k (fl_lost f)))).

Record data_inv f : Prop := {
  di_chan : chan_bounded (fl_ch f) ∧ ch_cap (fl_ch f) = fl_maxKeys f;
  di_size : Z.of_nat (size (fl_pending f)) ≤ fl_maxKeys f;
  di_keys : map_Forall (λ k d, key_of d = k) (fl_pending f);
  di_dropped : fl_dropped f = wrap64 (Z.of_nat (length (fl_lost f)));
  di_ledger : ∀ k, total k (fl_added f) = ledger f k;
}.

Lemma values_insert_new f k d :
  fl_pending f !! k = None →
  (map_to_list (<[k := d]> (fl_pending f))).*2 ≡ₚ d :: pending_values f.
Proof. intros Hk. unfold pending_values. by rewrite map_to_list_insert. Qed.

Lemma values_insert_old (m : gmap counterKey WindowUsage) k cur cur' :
  m !! k = Some cur →
  (map_to_list m).*2 ≡ₚ cur :: (map_to_list (delete k m)).*2 ∧
  (map_to_list (<[k := cur']> m)).*2 ≡ₚ cur' :: (map_to_list (delete k m)).*2.
Proof.
  intros Hk. split.
  - rewrite <- (insert_delete_id m k cur Hk) at 1.
    by rewrite map_to_list_insert by apply lookup_delete_eq.
  - rewrite <- insert_delete_eq.
    by rewrite map_to_list_insert by apply lookup_delete_eq.
Qed.

Lemma wrap_succ (n : nat) : wrap64 (wrap64 (Z.of_nat n) + 1) = wrap64 (Z.of_nat (n + 1)).
Proof. rewrite wrap64_add_l. f_equal. lia. Qed.

(** A dropped delta moves to the losses. *)
Lemma drop_lost f d :
  fl_dropped f = wrap64 (Z.of_nat (length (fl_lost f))) →
  fl_dropped (drop f 1 d) = wrap64 (Z.of_nat (length (fl_lost (drop f 1 d)))).
Proof. intros Hd. simpl. by rewrite Hd, wrap_succ, length_app. Qed.

Lemma merge_inv f d c :
  receive (fl_ch f) = Received d c → data_inv f → data_inv (merge (set_ch f c) d).
Proof.
  intros Hr [[Hb Hcap] Hsz Hk Hd Hl]. apply receive_fifo in Hr as (Hbuf & Hcc & _).
  assert (Hb' : chan_bounded c).
  { unfold chan_bounded in *. rewrite Hbuf in Hb. simpl in Hb. lia. }
  unfold merge. cbn [fl_pending fl_maxKeys set_ch].
  destruct (fl_pending f !! key_of d) as [cur|] eqn:Ep.
  - pose proof (Hk _ _ Ep) as Hcur. split; simpl.
    + split; [done|congruence].
    + rewrite map_size_insert_Some; eauto.
    + apply map_Forall_insert_2; [done|exact Hk].
    + done.
    + intros k. rewrite Hl. unfold ledger, pending_values. simpl.
      destruct (values_insert_old (fl_pending f) (key_of d) cur
        (mkWindowUsage (wu_TenantID cur) (wu_Window cur)
           (QuotaUsage_Add (wu_Usage cur) (wu_Usage d))) Ep) as [-> ->].
      rewrite Hbuf, !total_cons, (only_merge k cur d) by done. aac_reflexivity.
  - destruct (Z.leb_spec (fl_maxKeys f) (Z.of_nat (size (fl_pending f)))) as [Hfull|Hroom].
    + split; simpl; [by split; [|congruence]|done|done|by apply (drop_lost f d)|].
      intros k. rewrite Hl. unfold ledger. simpl.
      rewrite Hbuf, total_app, !total_cons, total_nil. unfold pending_values. simpl.
      rewrite (Usage_Add_zero_r (only k d)) by apply total_wf. aac_reflexivity.
    + split; simpl.
      * split; [done|congruence].
      * rewrite map_size_insert_None by done. lia.
      * apply map_Forall_insert_2; [done|exact Hk].
      * done.
      * intros k. rewrite Hl. unfold ledger. simpl.
        unfold pending_values at 2. simpl. rewrite values_insert_new by done.
        rewrite Hbuf, !total_cons. aac_reflexivity.
Qed.

Lemma write_inv f order :
  order ≡ₚ pending_values f → data_inv f → data_inv (write f order).
Proof.
  intros Ho [Hc Hsz Hk Hd Hl]. unfold write. destruct (Nat.eqb _ _); [done|].
  destruct (AddDeltas _ _) as [w [e|]]; [by split|].
  split; simpl; [done| |done|done|].
  - rewrite map_size_empty. lia.
  - intros k. rewrite Hl. unfold ledger. simpl. unfold pending_values at 2. simpl.
    rewrite map_to_list_empty, total_app, sort_slice_perm, Ho. simpl.
    rewrite total_nil, (Usage_Add_zero (QuotaUsage_Add _ _)) by apply usage_wf_Add.
    aac_reflexivity.
Qed.

Lemma data_inv_frame f f' :
  fl_ch f' = fl_ch f → fl_maxKeys f' = fl_maxKeys f → fl_pending f' = fl_pending f →
  fl_dropped f' = fl_dropped f → fl_lost f' = fl_lost f → fl_added f' = fl_added f →
  fl_sent f' = fl_sent f → data_inv f → data_inv f'.
Proof.
  intros E1 E2 E3 E4 E5 E6 E7 [Hc Hs Hk Hd Hl].
  split; rewrite ?E1, ?E2, ?E3, ?E4, ?E5, ?E6; try done.
  intros k. rewrite Hl. unfold ledger, pending_values. by rewrite E1, E3, E5, E7.
Qed.

Lemma add_drop_inv f d : data_inv f → data_inv (drop (note_added f d) 1 d).
Proof.
  intros [Hc Hs Hk Hd Hl]. split; simpl; [done..|by apply (drop_lost f d)|].
  intros k. unfold ledger, pending_values. simpl. rewrite !total_app, Hl.
  unfold ledger, pending_values. aac_reflexivity.
Qed.

Lemma add_send_inv f d c :
  try_send (fl_ch f) d = Sent c → data_inv f → data_inv (set_ch (note_added f d) c).
Proof.
  intros Hsend [[Hb Hcap] Hs Hk Hd Hl].
  pose proof (try_send_bounded _ _ _ Hsend) as (Hb' & Hcap' & _).
  assert (Hbuf : ch_buf c = ch_buf (fl_ch f) ++ [d]).
  { revert Hsend. unfold try_send. repeat case_match; intros; by simplify_eq/=. }
  split; simpl; [by split; [|congruence]|done..|].
  intros k. unfold ledger, pending_values. simpl. rewrite Hbuf, !total_app, Hl.
  unfold ledger, pending_values. aac_reflexivity.
Qed.

Lemma data_inv_step s s' :
  flusher_step s s' → data_inv (sys_flusher s) → data_inv (sys_flusher s').
Proof.
  intros [f ts p _|f ts i p ctx f' p' _ Ht|f ts f' Hl] Hi; simpl in *; [done| |].
  - destruct p as [d|d|d| | | | | | |err]; cbn [thread_step Add_step Close_step] in Ht.
    + destruct (fl_writer f); simplify_eq. by apply (data_inv_frame f).
    + destruct (fl_closed f); simplify_eq; [by apply add_drop_inv|done].
    + destruct (try_send _ _) eqn:Es; simplify_eq; [by eapply add_send_inv|by apply add_drop_inv].
    + simplify_eq. by apply (data_inv_frame f).
    + destruct (_ || _); simplify_eq. by apply (data_inv_frame f).
    + destruct (negb _); simplify_eq; [by apply (data_inv_frame f)|done].
    + unfold close_chan in Ht. destruct (ch_closed (fl_ch f)); simplify_eq.
      destruct Hi as [Hc Hs Hk Hd Hl].
      split; [exact Hc|exact Hs|exact Hk|exact Hd|exact Hl].
    + simplify_eq. by apply (data_inv_frame f).
    + destruct ctx; [|destruct (fl_done f)]; by simplify_eq.
    + done.
  - destruct Hl as [d c _ Hr|order _ _ Ho|order _ Ho].
    + by apply merge_inv.
    + eapply (data_inv_frame (write f order)); [done..|by apply write_inv].
    + case_match; [by apply write_inv|done].
Qed.

Lemma initial_inv store interval buffer :
  lock_inv (initial_system store interval buffer) ∧
  data_inv (sys_flusher (initial_system store interval buffer)).
Proof.
  split; [by split|]. split; simpl.
  - split; [|done]. unfold chan_bounded. simpl. case_match; bool_prop; lia.
  - rewrite map_size_empty. case_match; bool_prop; lia.
  - apply map_Forall_empty.
  - done.
  - intros k. unfold ledger, pending_values. simpl. rewrite map_to_list_empty. reflexivity.
Qed.

Lemma reachable_inv store interval buffer s :
  rtc flusher_step (initial_system store interval buffer) s →
  lock_inv s ∧ data_inv (sys_flusher s).
Proof.
  intros Hr. pose proof (initial_inv store interval buffer) as Hi.
  induction Hr as [|s1 s2 s3 Hs _ IH]; [done|].
  apply IH. destruct Hi as [Hlk Hda]. split; [by eapply lock_inv_step|by eapply data_inv_step].
Qed.
End Facts.

(** ** An in-memory store *)

(** The batches written so far, and whether the database is up. *)
Record log_store := mkLogStore { ls_batches : list (list WindowUsage); ls_up : bool }.

Definition db_down : error := Sentinel "postgres: begin: connection refused".

#[export] Instance log_store_repo : UsageCounterRepository log_store := {
  durable_Get w t win :=
    (w, if ls_up w then Ok (total (t, Window_Kind win, Unix (Window_Start win)) (concat (ls_batches w)))
        else Err db_down);
  AddDeltas w batch :=
    if ls_up w then (mkLogStore (ls_batches w ++ [batch]) true, None) else (w, Some db_down);
}.

Definition ex_window : Window := mkWindow WindowDay 0 (24 * Hour).
Definition ex_delta (t : uuid) (cost : USD) : WindowUsage :=
  mkWindowUsage t ex_window (mkQuotaUsage 1 10 cost).

(** ** Properties *)

Section Properties.
Context {W : Type} `{UsageCounterRepository W}.
Implicit Types (f : Flusher W).

(** C10. The flusher never sends on or closes a closed channel: whatever [Add] and
    [Close] calls are in flight and however they interleave with each other and the
    loop, no goroutine's next step panics. *)
Theorem flusher_never_panics store interval buffer s :
  rtc flusher_step (initial_system store interval buffer) s → ¬ can_panic s.
Proof. intros [Hl _]%reachable_inv. by apply lock_inv_no_panic. Qed.

(** Every delta is accounted for: at any moment, and for each counter, what was
    passed to [Add] is what was written plus what is pending, queued or dropped;
    [Dropped] counts the dropped ones, and the pending map stays within its bound. *)
Theorem flusher_conserves store interval buffer s k :
  rtc flusher_step (initial_system store interval buffer) s →
  total k (fl_added (sys_flusher s)) = ledger (sys_flusher s) k ∧
  Dropped (sys_flusher s) = wrap64 (Z.of_nat (length (fl_lost (sys_flusher s)))) ∧
  Z.of_nat (size (fl_pending (sys_flusher s))) ≤ fl_maxKeys (sys_flusher s).
Proof. by intros [_ [? ? ? ? ?]]%reachable_inv. Qed.

(** A batch is written in one order, whatever order the runtime iterates over
    the pending map in, so two replicas flushing the same counters lock their rows
    in the same order. *)
Theorem batch_order_fixed store interval buffer s order order' :
  rtc flusher_step (initial_system store interval buffer) s →
  order ≡ₚ pending_values (sys_flusher s) → order' ≡ₚ pending_values (sys_flusher s) →
  write (sys_flusher s) order = write (sys_flusher s) order' ∧
  StronglySorted (not_after batch_less) (sort_slice batch_less order).
Proof.
  intros [_ [_ _ Hk _ _]]%reachable_inv Ho Ho'. split; [|apply sort_slice_sorted; apply _].
  unfold write.
  assert (sort_slice batch_less order = sort_slice batch_less order') as ->; [|done].
  apply sort_slice_unique; [apply _| |by rewrite Ho, Ho'].
  intros x y Hx Hy Hxy Hyx. rewrite Ho in Hx, Hy.
  unfold pending_values in Hx, Hy.
  apply list_elem_of_fmap in Hx as ([k1 x'] & -> & Hx%elem_of_map_to_list).
  apply list_elem_of_fmap in Hy as ([k2 y'] & -> & Hy%elem_of_map_to_list). simpl in *.
  pose proof (batch_less_tie x' y' Hxy Hyx) as Hkey.
  rewrite (Hk _ _ Hx), (Hk _ _ Hy) in Hkey. congruence.
Qed.

(** Once the channel is closed the loop drains it and stops: one turn per queued
    delta and one more for the last write, after which [done] is closed and a
    waiting [Close] returns. *)
Theorem closed_loop_drains f :
  fl_done f = false → ch_closed (fl_ch f) = true →
  ∃ f', nsteps loop_step (S (length (ch_buf (fl_ch f)))) f f' ∧ fl_done f' = true ∧
    ch_buf (fl_ch f') = [] ∧ thread_step f' None Close_wait = Goes f' (Returned None) ∧
    ∀ f'', ¬ loop_step f' f''.
Proof.
  remember (ch_buf (fl_ch f)) as buf eqn:Eb. revert f Eb.
  induction buf as [|d buf IH]; intros f Eb Hd Hc.
  - exists (set_done (write f (pending_values f))). split_and!; simpl.
    + eapply nsteps_l; [|constructor]. apply loop_exit; [done| |done]. by apply receive_closed.
    + done.
    + destruct (write_frame f (pending_values f)) as (_ & _ & _ & -> & _). done.
    + done.
    + intros f'' Hl. by inversion Hl.
  - set (c := mkChan buf (ch_cap (fl_ch f)) (ch_closed (fl_ch f))).
    assert (Hr : receive (fl_ch f) = Received d c) by (unfold receive; by rewrite <- Eb).
    destruct (merge_frame (set_ch f c) d) as (_ & _ & _ & Hch & _ & _ & _ & Hdone).
    destruct (IH (merge (set_ch f c) d)) as (f' & Hn & Hrest).
    + by rewrite Hch.
    + by rewrite Hdone.
    + by rewrite Hch.
    + exists f'. split; [|done]. eapply nsteps_l; [by eapply loop_merge|done].
Qed.
End Properties.

(** One step of goroutine [i], evaluated. *)
Ltac go i := eapply rtc_l; [eapply (step_thread _ _ i _ None); [reflexivity|reflexivity]|]; simpl.

(** The flusher of a database that is down, after one delta, [Close] and the drain. *)
Definition ex_down : Flusher log_store := NewFlusher (mkLogStore [] false) 0 0.

(** A delta can vanish uncounted at shutdown: when the write that drains the
    channel fails, [Close] still returns nil, and the delta is neither written nor in
    [Dropped]. *)
Theorem Close_loses_failed_write :
  ∃ s, rtc flusher_step (initial_system (mkLogStore [] false) 0 0) s ∧
    fl_done (sys_flusher s) = true ∧ sys_threads s = [Returned None; Returned None] ∧
    fl_added (sys_flusher s) = [ex_delta 7%N 100] ∧ fl_sent (sys_flusher s) = [] ∧
    Dropped (sys_flusher s) = 0.
Proof.
  set (f0 := ex_down). set (d := ex_delta 7%N 100).
  set (f1 := Flusher_Add f0 d).
  set (f2 := set_ch (set_closed f1 true) (mkChan [d] 8192 true)).
  set (f3 := merge (set_ch f2 (mkChan [] 8192 true)) d).
  set (f4 := set_done (write f3 (pending_values f3))).
  exists (mkSystem f4 [Returned None; Returned None]).
  split; [|by vm_compute].
  unfold initial_system. fold ex_down f0.
  eapply rtc_l; [apply (step_call _ [] (Add_lock d)); eauto|]. simpl. do 4 go 0%nat.
  eapply rtc_l; [apply (step_call _ [Returned None] Close_lock); eauto|]. simpl. do 4 go 1%nat.
  change (mkSystem _ _) with (mkSystem f2 [Returned None; Close_wait]) at 1.
  eapply rtc_l; [eapply step_loop, (loop_merge f2 d (mkChan [] 8192 true)); reflexivity|].
  eapply rtc_l; [eapply step_loop, (loop_exit f3 (pending_values f3)); done|].
  fold f4. go 1%nat. apply rtc_refl.
Qed.

(** ** Witnesses *)

(** Two deltas of two tenants, added and merged. *)
Definition ex_up : Flusher log_store := NewFlusher (mkLogStore [] true) 0 0.
Definition ex_queue (f : Flusher log_store) (d : WindowUsage) : Flusher log_store :=
  set_ch (note_added f d) (mkChan [d] 8192 false).
Definition ex_merge (f : Flusher log_store) (d : WindowUsage) : Flusher log_store :=
  merge (set_ch f (mkChan [] 8192 false)) d.
Definition ex_one : Flusher log_store := ex_merge (ex_queue ex_up (ex_delta 7%N 100)) (ex_delta 7%N 100).
Definition ex_two : Flusher log_store := ex_merge (ex_queue ex_one (ex_delta 3%N 5)) (ex_delta 3%N 5).

Lemma ex_add_and_merge f ts d :
  fl_ch f = mkChan [] 8192 false → fl_writer f = false → fl_readers f = 0 →
  fl_closed f = false → fl_done f = false →
  rtc flusher_step (mkSystem f ts) (mkSystem (ex_merge (ex_queue f d) d) (ts ++ [Returned None])).
Proof.
  intros Hch Hw Hr Hc Hd. destruct f. simpl in *. subst.
  set (f := mkFlusher _ _ _ _ _ _ _ _ _ _ _ _ _ _).
  assert (Hi : ∀ p, (ts ++ [p]) !! length ts = Some p) by (intros p; by apply list_lookup_middle).
  assert (Hu : ∀ p p', <[length ts := p']> (ts ++ [p]) = ts ++ [p'])
    by (intros p p'; by rewrite insert_app_r_alt, Nat.sub_diag by lia).
  eapply rtc_l; [apply (step_call f ts (Add_lock d)); eauto|].
  do 4 (eapply rtc_l;
    [eapply (step_thread _ _ (length ts) _ None); [apply Hi|reflexivity]|]; rewrite Hu).
  eapply rtc_l; [eapply step_loop, (loop_merge (ex_queue f d) d (mkChan [] 8192 false)); reflexivity|].
  apply rtc_refl.
Qed.

Definition ex_system : system log_store := mkSystem ex_two [Returned None; Returned None].

Lemma ex_two_reached :
  rtc flusher_step (initial_system (mkLogStore [] true) 0 0)
    ex_system.
Proof.
  unfold ex_system. etransitivity; [by apply (ex_add_and_merge ex_up [] (ex_delta 7%N 100))|].
  by apply (ex_add_and_merge ex_one [Returned None] (ex_delta 3%N 5)).
Qed.

Lemma flusher_never_panics_witness :
  ¬ can_panic ex_system.
Proof. exact (flusher_never_panics _ 0 0 _ ex_two_reached). Defined.

Lemma flusher_conserves_witness :
  total (7%N, WindowDay, 0) (fl_added (sys_flusher ex_system)) =
    ledger (sys_flusher ex_system) (7%N, WindowDay, 0) ∧
  ledger (sys_flusher ex_system) (7%N, WindowDay, 0) = mkQuotaUsage 1 10 100.
Proof.
  destruct (flusher_conserves _ 0 0 _ (7%N, WindowDay, 0) ex_two_reached) as [E _].
  split; [exact E|]. vm_compute. reflexivity.
Defined.

Lemma batch_order_fixed_witness :
  write (sys_flusher ex_system) [ex_delta 7%N 100; ex_delta 3%N 5] =
  write (sys_flusher ex_system) [ex_delta 3%N 5; ex_delta 7%N 100].
Proof.
  assert (Hv : [ex_delta 7%N 100; ex_delta 3%N 5] ≡ₚ pending_values (sys_flusher ex_system)).
  { apply (bool_decide_unpack (_ ≡ₚ _)). vm_compute. exact I. }
  assert (Hv' : [ex_delta 3%N 5; ex_delta 7%N 100] ≡ₚ pending_values (sys_flusher ex_system)).
  { rewrite <- Hv. apply Permutation_swap. }
  exact (proj1 (batch_order_fixed _ 0 0 _ _ _ ex_two_reached Hv Hv')).
Defined.

Lemma closed_loop_drains_witness :
  ∃ f', nsteps loop_step 2 (mkFlusher (mkLogStore [] true) Second
           (mkChan [ex_delta 7%N 100] 8192 true) 8192 0 0 0 false true false ∅ [] [] []) f' ∧
    fl_done f' = true.
Proof.
  destruct (closed_loop_drains (mkFlusher (mkLogStore [] true) Second
    (mkChan [ex_delta 7%N 100] 8192 true) 8192 0 0 0 false true false ∅ [] [] []))
    as (f' & Hn & Hd & _); [done..|]. eauto.
Defined.
