(* ===== verification/Records.v ===== *)
(** The records a request leaves behind: its facts, the ladder it was routed to, the
    outcome of dispatching it and the decision written to the log
    ([internal/core/domains] facts.go, routing.go, outcome.go, decision.go,
    decision-id.go). *)
From S2P Require Import Prelude Errors Money.

(** ** What the router knows about a request *)

(** [src/internal/core/domains/facts.go:33-35] Tenant *)
Definition Tenant := string.

(** [src/internal/core/domains/facts.go:37-37] DefaultTenant *)
Definition DefaultTenant : Tenant := "default".
(** [src/internal/core/domains/facts.go:38-42] MaxMetadataKeys, MaxMetadataLen, MaxTenantLen *)
Definition MaxMetadataKeys : Z := 32.
Definition MaxMetadataLen : Z := 256.
Definition MaxTenantLen : Z := 256.

(** [src/internal/core/domains/facts.go:9-31] RequestFacts *)
Record RequestFacts := mkRequestFacts {
  rf_Tenant : Tenant;
  rf_KeyID : uuid;
  rf_Metadata : gmap string string;
  rf_RequestedModel : string;
  rf_Stream : bool;
  rf_WantsUsage : bool;
  rf_ReceivedAt : time;
  rf_PromptSize : PromptSize;
  rf_MaxOutputTokens : Z;
  rf_Choices : Z;
}.

(** ** Routing *)

(** [src/internal/core/domains/routing.go:3-9] TargetRef *)
Record TargetRef := mkTargetRef {
  ref_Name : string;
  ref_Provider : string;
  ref_UpstreamModel : string;
  ref_Region : string;
}.

#[export] Instance TargetRef_eq_dec : EqDecision TargetRef.
Proof. solve_decision. Defined.

(** [src/internal/core/domains/routing.go:20-28] ReasonKind, ReasonModelAlias, ReasonRuleMatch *)
Definition ReasonKind := string.
Definition ReasonModelAlias : ReasonKind := "model_alias".
Definition ReasonRuleMatch : ReasonKind := "rule_match".

(** [src/internal/core/domains/routing.go:30-38] Reason *)
Record Reason := mkReason {
  reason_Kind : ReasonKind;
  reason_ModelAlias : string;
  reason_RuleName : string;
  reason_PolicyVersion : Z;
}.

(** [src/internal/core/domains/routing.go:11-16] Ladder *)
Record Ladder := mkLadder { ladder_Targets : list TargetRef; ladder_Reason : Reason }.

(** [src/internal/core/domains/routing.go:18-18] Ladder.IsEmpty *)
Definition Ladder_IsEmpty (l : Ladder) : bool := bool_decide (ladder_Targets l = []).

(** ** Outcomes *)

(** [src/internal/core/domains/outcome.go:8-16] Status, StatusOK, StatusExhausted, StatusTruncated, StatusClientDisconnect, StatusPolicyBlocked *)
Definition Status := string.
Definition StatusOK : Status := "ok".
Definition StatusExhausted : Status := "exhausted".
Definition StatusTruncated : Status := "truncated".
Definition StatusClientDisconnect : Status := "client_disconnect".
Definition StatusPolicyBlocked : Status := "policy_blocked".

(** [src/internal/core/domains/outcome.go:26-31] AttemptFailure *)
Record AttemptFailure := mkAttemptFailure {
  af_Kind : string;
  af_StatusCode : Z;
  af_Message : text;
  af_Retryable : bool;
}.

(** [src/internal/core/domains/outcome.go:18-24] Attempt *)
Record Attempt := mkAttempt {
  at_Target : string;
  at_StartedAt : time;
  at_DurationMs : Z;
  at_Failure : option AttemptFailure;
}.

(** [src/internal/core/domains/outcome.go:33-39] Outcome *)
Record Outcome := mkOutcome {
  out_Status : Status;
  out_Attempts : list Attempt;
  out_Usage : TokenUsage;
  out_TTFTMs : Z;
  out_TotalMs : Z;
}.

(** [src/internal/core/domains/outcome.go:41-50] Outcome.ChosenTarget *)
Definition ChosenTarget (o : Outcome) : string :=
  match last (out_Attempts o) with
  | None => ""
  | Some a => match at_Failure a with Some _ => "" | None => at_Target a end
  end.

(** [src/internal/core/domains/outcome.go:52-66] Validate *)
Definition Outcome_Validate (o : Outcome) : option error :=
  if String.eqb (out_Status o) "" then Some (Errorf "outcome has no status" [])
  else if String.eqb (out_Status o) StatusExhausted && negb (out_TTFTMs o =? 0)
  then Some (Errorf "exhausted outcome has a first-token time" [])
  else if String.eqb (out_Status o) StatusExhausted && negb (String.eqb (ChosenTarget o) "")
  then Some (Errorf "exhausted outcome names a chosen target %q" [AStr (ChosenTarget o)])
  else if negb (String.eqb (out_Status o) StatusExhausted) &&
          (0 <? Z.of_nat (length (out_Attempts o))) && String.eqb (ChosenTarget o) ""
  then Some (Errorf "status %q but no attempt succeeded" [AStr (out_Status o)])
  else None.

(** ** Decisions *)

(** [src/internal/core/domains/decision-id.go:12-14] DecisionID *)
Definition DecisionID := uuid.

(** [src/internal/core/domains/decision-id.go:10-10] idPrefix *)
Definition idPrefix : string := "dec_".

(** [src/internal/core/domains/decision-id.go:43-43] DecisionID.IsZero *)
Definition DecisionID_IsZero (d : DecisionID) : bool := N.eqb d uuid_Nil.

Section Decision_ids.
(** [uuid.Parse] and [UUID.String] of the uuid package. *)
Context (uuid_parse : string → result error uuid) (uuid_string : uuid → string).

(** [src/internal/core/domains/decision-id.go:25-33] ParseDecisionID *)
Definition ParseDecisionID (s : string) : result error DecisionID :=
  match uuid_parse (TrimPrefix s idPrefix) with
  | Err e => Err (Errorf "domains: invalid decision ID %q: %w" [AStr s; AWrap e])
  | Ok u => Ok u
  end.

(** [src/internal/core/domains/decision-id.go:35-38] DecisionID.String *)
Definition DecisionID_String (d : DecisionID) : string := idPrefix +:+ uuid_string d.
End Decision_ids.

(** [src/internal/core/domains/decision.go:35-41] RequestSummary *)
Record RequestSummary := mkRequestSummary {
  rs_RequestedModel : string;
  rs_Stream : bool;
  rs_WantsUsage : bool;
  rs_Metadata : gmap string string;
}.

(** [src/internal/core/domains/decision.go:9-33] RoutingDecision *)
Record RoutingDecision := mkRoutingDecision {
  d_ID : DecisionID;
  d_OccurredAt : time;
  d_Tenant : Tenant;
  d_KeyID : uuid;
  d_Request : RequestSummary;
  d_Ladder : Ladder;
  d_Outcome : Outcome;
  d_Cost : option CostBreakdown;
}.

(** [src/internal/core/domains/decision.go:43-63] NewRoutingDecision *)
Definition NewRoutingDecision (id : DecisionID) (facts : RequestFacts) (ladder : Ladder)
    (outcome : Outcome) : RoutingDecision :=
  mkRoutingDecision id (rf_ReceivedAt facts) (rf_Tenant facts) (rf_KeyID facts)
    (mkRequestSummary (rf_RequestedModel facts) (rf_Stream facts) (rf_WantsUsage facts)
       (rf_Metadata facts))
    ladder outcome None.
