(* ===== verification/Accounts.v ===== *)
(** The accounts of the admin side: tenants, API keys, roles, admin credentials and
    people with their sessions, and the identity a key gives a request
    ([internal/core/domains] admin.go, admin_user.go, audit.go; [internal/ports] auth.go,
    admin.go). *)
From S2P Require Import Prelude Errors Quota Records.

(** ** Tenants and keys *)

(** [src/internal/core/domains/admin.go:11-25] TenantAccount *)
Record TenantAccount := mkTenantAccount {
  ta_ID : uuid;
  ta_ExternalID : Tenant;
  ta_Name : string;
  ta_Metadata : string;
  ta_CreatedAt : time;
  ta_DisabledAt : option time;
}.

#[export] Instance TenantAccount_eq_dec : EqDecision TenantAccount.
Proof. solve_decision. Defined.

(** [src/internal/core/domains/admin.go:27-27] TenantAccount.Disabled *)
Definition TenantAccount_Disabled (t : TenantAccount) : bool :=
  bool_decide (is_Some (ta_DisabledAt t)).

(** [src/internal/core/domains/admin.go:29-45] APIKey *)
Record APIKey := mkAPIKey {
  ak_ID : uuid;
  ak_TenantID : uuid;
  ak_Prefix : string;
  ak_ModelAllowlist : option (list string);
  ak_CreatedAt : time;
  ak_LastUsedAt : option time;
  ak_RevokedAt : option time;
}.

#[export] Instance APIKey_eq_dec : EqDecision APIKey.
Proof. solve_decision. Defined.

(** [src/internal/core/domains/admin.go:47-47] APIKey.Revoked *)
Definition APIKey_Revoked (k : APIKey) : bool := bool_decide (is_Some (ak_RevokedAt k)).

(** [src/internal/ports/auth.go:21-37] Identity *)
Record Identity := mkIdentity {
  id_Tenant : Tenant;
  id_KeyID : uuid;
  id_Allowlist : option (list string);
}.

(** [src/internal/ports/auth.go:39-45] Identity.AllowsModel *)
Definition AllowsModel (i : Identity) (alias : string) : bool :=
  match id_Allowlist i with
  | None => true
  | Some l => existsb (String.eqb alias) l
  end.

(** ** Roles *)

(** [src/internal/core/domains/admin.go:49-59] Role, RoleAdmin, RoleReadonly, Roles *)
Definition Role := string.
Definition RoleAdmin : Role := "admin".
Definition RoleReadonly : Role := "readonly".
Definition Roles : list Role := [RoleAdmin; RoleReadonly].

(** [src/internal/core/domains/admin.go:61-68] Role.Valid *)
Definition Role_Valid (r : Role) : bool := existsb (String.eqb r) Roles.

(** [src/internal/core/domains/admin.go:70-76] Permission, PermissionRead, PermissionWrite *)
Definition Permission := string.
Definition PermissionRead : Permission := "read".
Definition PermissionWrite : Permission := "write".

(** [src/internal/core/domains/admin.go:78-89] Role.Allows *)
Definition Role_Allows (r : Role) (p : Permission) : bool :=
  if String.eqb r RoleAdmin then true
  else if String.eqb r RoleReadonly then String.eqb p PermissionRead
  else false.

(** ** Machine credentials *)

(** [src/internal/core/domains/admin.go:91-115] AdminCredential *)
Record AdminCredential := mkAdminCredential {
  ac_ID : uuid;
  ac_Name : string;
  ac_Prefix : string;
  ac_Role : Role;
  ac_ExpiresAt : option time;
  ac_CreatedAt : time;
  ac_LastUsedAt : option time;
  ac_RevokedAt : option time;
}.

#[export] Instance AdminCredential_eq_dec : EqDecision AdminCredential.
Proof. solve_decision. Defined.

(** [src/internal/core/domains/admin.go:117-117] AdminCredential.Revoked *)
Definition AdminCredential_Revoked (c : AdminCredential) : bool :=
  bool_decide (is_Some (ac_RevokedAt c)).

(** [src/internal/core/domains/admin.go:119-123] AdminCredential.Expired *)
Definition AdminCredential_Expired (c : AdminCredential) (now : time) : bool :=
  match ac_ExpiresAt c with
  | None => false
  | Some e => negb (Before now e)
  end.

(** [src/internal/core/domains/admin.go:125-127] AdminCredential.Actor *)
Definition AdminCredential_Actor (c : AdminCredential) : string := "admin:" +:+ ac_Name c.

(** ** People *)

(** [src/internal/core/domains/admin_user.go:13-13] ErrInvalidAdminUser *)
Definition ErrInvalidAdminUser : error := Sentinel "admin user: invalid".

(** [src/internal/core/domains/admin_user.go:15-17] MaxEmailLen *)
Definition MaxEmailLen : Z := 254.

(** [src/internal/core/domains/admin_user.go:19-34] AdminUser *)
Record AdminUser := mkAdminUser {
  au_ID : uuid;
  au_Email : string;
  au_Role : Role;
  au_CreatedAt : time;
  au_DisabledAt : option time;
  au_LastLoginAt : option time;
  au_PasswordChangedAt : time;
}.

#[export] Instance AdminUser_eq_dec : EqDecision AdminUser.
Proof. solve_decision. Defined.

(** [src/internal/core/domains/admin_user.go:36-36] AdminUser.Disabled *)
Definition AdminUser_Disabled (u : AdminUser) : bool := bool_decide (is_Some (au_DisabledAt u)).

(** [src/internal/core/domains/admin_user.go:38-44] AdminUser.TokenIssuedAfterPasswordChange *)
Definition TokenIssuedAfterPasswordChange (u : AdminUser) (issued : time) : bool :=
  negb (Before (Truncate issued Second) (Truncate (au_PasswordChangedAt u) Second)).

(** [src/internal/core/domains/admin_user.go:46-49] AdminUser.Actor *)
Definition AdminUser_Actor (u : AdminUser) : string := "user:" +:+ au_Email u.

(** [src/internal/core/domains/admin_user.go:76-89] AdminRefreshToken *)
Record AdminRefreshToken := mkAdminRefreshToken {
  rt_ID : uuid;
  rt_UserID : uuid;
  rt_IssuedAt : time;
  rt_ExpiresAt : time;
  rt_RevokedAt : option time;
  rt_ReplacedBy : option uuid;
}.

#[export] Instance AdminRefreshToken_eq_dec : EqDecision AdminRefreshToken.
Proof. solve_decision. Defined.

(** [src/internal/core/domains/admin_user.go:91-91] AdminRefreshToken.Revoked *)
Definition RefreshToken_Revoked (t : AdminRefreshToken) : bool :=
  bool_decide (is_Some (rt_RevokedAt t)).

(** [src/internal/core/domains/admin_user.go:93-95] AdminRefreshToken.Expired *)
Definition RefreshToken_Expired (t : AdminRefreshToken) (now : time) : bool :=
  negb (Before now (rt_ExpiresAt t)).

(** [src/internal/core/domains/admin_user.go:97-100] AdminRefreshToken.Usable *)
Definition RefreshToken_Usable (t : AdminRefreshToken) (now : time) : bool :=
  negb (RefreshToken_Revoked t) && negb (RefreshToken_Expired t now).

(** ** The admin ports' data *)

(** [src/internal/ports/admin.go:30-34] Write *)
Record Write := mkWrite { w_Actor : string }.

(** [src/internal/ports/admin.go:36-40] NewTenant *)
Record NewTenant := mkNewTenant { nt_ExternalID : string; nt_Name : string; nt_Metadata : string }.

(** [src/internal/ports/admin.go:42-47] TenantPatch

    An unset [Metadata] is a nil slice. *)
Record TenantPatch := mkTenantPatch { tp_Name : option string; tp_Metadata : option string }.

(** [src/internal/ports/admin.go:49-55] TenantCreated *)
Record TenantCreated := mkTenantCreated { tc_Tenant : TenantAccount; tc_Created : bool }.

(** [src/internal/ports/admin.go:57-60] TenantFilter *)
Record TenantFilter := mkTenantFilter { tf_IncludeDisabled : bool; tf_Limit : Z }.

(** [src/internal/ports/admin.go:62-65] NewAPIKey *)
Record NewAPIKey := mkNewAPIKey { nk_ModelAllowlist : option (list string) }.

(** [src/internal/ports/admin.go:67-71] IssuedAPIKey *)
Record IssuedAPIKey := mkIssuedAPIKey { ik_Key : APIKey; ik_Secret : string }.

(** [src/internal/ports/admin.go:73-76] APIKeyPatch *)
Record APIKeyPatch := mkAPIKeyPatch { kp_ModelAllowlist : option (list string) }.

(** [src/internal/ports/admin.go:15-18] DefaultTenantLimit, MaxTenantLimit *)
Definition DefaultTenantLimit : Z := 100.
Definition MaxTenantLimit : Z := 1000.

(** [src/internal/ports/admin.go:186-196] AuditEntry

    [Detail] is the JSON the mutation left behind, kept as the value it encodes. *)
Record AuditEntry (D : Type) := mkAuditEntry {
  ae_ID : uuid;
  ae_At : time;
  ae_TenantID : option uuid;
  ae_KeyID : option uuid;
  ae_Actor : string;
  ae_Action : string;
  ae_Detail : D;
}.
Arguments mkAuditEntry {D} _ _ _ _ _ _ _.
Arguments ae_ID {D} _.
Arguments ae_At {D} _.
Arguments ae_TenantID {D} _.
Arguments ae_KeyID {D} _.
Arguments ae_Actor {D} _.
Arguments ae_Action {D} _.
Arguments ae_Detail {D} _.

(** ** Reading accounts *)

(** [src/internal/ports/admin.go:101-107] TenantReader

    A call may change the world it is made in: it takes time, and others write. *)
Class TenantReader (W : Type) := {
  Tenants_Get : W → uuid → W * result error TenantAccount;
  Tenants_GetByExternalID : W → string → W * result error TenantAccount;
  Tenants_List : W → TenantFilter → W * result error (list TenantAccount);
}.

(** [src/internal/ports/admin.go:142-147] QuotaReader *)
Class QuotaReader (W : Type) := {
  Quotas_Get : W → uuid → WindowKind → W * result error Quota;
  Quotas_List : W → uuid → W * result error (list Quota);
}.

(** A readonly role never changes anything, and a role this build does not know does
    nothing at all. *)
Lemma Allows_write r : Role_Allows r PermissionWrite = true ↔ r = RoleAdmin.
Proof.
  unfold Role_Allows. destruct (String.eqb_spec r RoleAdmin); [naive_solver|].
  destruct (String.eqb_spec r RoleReadonly); split; naive_solver.
Qed.

Lemma Allows_valid r p : Role_Allows r p = true → Role_Valid r = true.
Proof.
  unfold Role_Allows, Role_Valid. simpl.
  destruct (String.eqb r RoleAdmin); [done|]. by destruct (String.eqb r RoleReadonly).
Qed.
