(* ===== verification/Sink.v ===== *)
(** The buffered decision sink of [internal/adapters/outbound/sink/buffered.go]:
    request goroutines [Record] decisions into a bounded channel, one loop writes
    them in batches, and [Flush] stops it.

    Unlike the usage flusher it holds no lock between reading [closed] and sending, so
    the two are separate steps of a goroutine. *)
From S2P Require Import Prelude Channel Errors Money Records.

(** [src/internal/ports/sink.go:9-13] RecordWriter *)
Class RecordWriter (W : Type) := {
  Writer_Write : W → list RoutingDecision → W * option error;
}.

(** [src/internal/adapters/outbound/sink/buffered.go:16-21] Config *)
Record SinkConfig := mkSinkConfig {
  BufferSize : Z;
  BatchSize : Z;
  sink_FlushInterval : duration;
  WriteTimeout : duration;
}.

(** The state of the [sync.Once]: no call yet, one running, done. *)
Inductive once := OnceNew | OnceRunning | OnceDone.

(** [src/internal/adapters/outbound/sink/buffered.go:23-36] Buffered

    [b_batch] is the loop's local slice. [b_accepted] and [b_batches] are for the proofs
    only: the decisions the channel took, in order, and the batches handed to the writer
    with whether it accepted them. *)
Record Buffered (W : Type) := mkBuffered {
  b_ch : chan RoutingDecision;
  b_writer : W;
  b_cfg : SinkConfig;
  b_dropped : Z;
  b_failed : Z;
  b_written : Z;
  b_done : bool;
  b_stopOnce : once;
  b_closed : bool;
  b_batch : list RoutingDecision;
  b_accepted : list RoutingDecision;
  b_batches : list (list RoutingDecision * bool);
}.
Arguments mkBuffered {W} _ _ _ _ _ _ _ _ _ _ _ _.
Arguments b_ch {W} _.
Arguments b_writer {W} _.
Arguments b_cfg {W} _.
Arguments b_dropped {W} _.
Arguments b_failed {W} _.
Arguments b_written {W} _.
Arguments b_done {W} _.
Arguments b_stopOnce {W} _.
Arguments b_closed {W} _.
Arguments b_batch {W} _.
Arguments b_accepted {W} _.
Arguments b_batches {W} _.

Section Sink.
Context {W : Type} `{RecordWriter W}.
Implicit Types (b : Buffered W) (d : RoutingDecision).

(** [src/internal/adapters/outbound/sink/buffered.go:40-62] NewBuffered *)
Definition NewBuffered (w : W) (cfg : SinkConfig) : Buffered W :=
  let bufferSize := if BufferSize cfg <=? 0 then 4096 else BufferSize cfg in
  let batchSize := if BatchSize cfg <=? 0 then 100 else BatchSize cfg in
  let flushInterval := if sink_FlushInterval cfg <=? 0 then Second else sink_FlushInterval cfg in
  let writeTimeout := if WriteTimeout cfg <=? 0 then 10 * Second else WriteTimeout cfg in
  let cfg := mkSinkConfig bufferSize batchSize flushInterval writeTimeout in
  mkBuffered (make_chan bufferSize) w cfg 0 0 0 false OnceNew false [] [] [].

Definition b_drop b : Buffered W :=
  mkBuffered (b_ch b) (b_writer b) (b_cfg b) (wrap64 (b_dropped b + 1)) (b_failed b)
    (b_written b) (b_done b) (b_stopOnce b) (b_closed b) (b_batch b) (b_accepted b) (b_batches b).
Definition b_enqueue b d c : Buffered W :=
  mkBuffered c (b_writer b) (b_cfg b) (b_dropped b) (b_failed b)
    (b_written b) (b_done b) (b_stopOnce b) (b_closed b) (b_batch b)
    (b_accepted b ++ [d]) (b_batches b).
Definition b_take b c (batch : list RoutingDecision) : Buffered W :=
  mkBuffered c (b_writer b) (b_cfg b) (b_dropped b) (b_failed b)
    (b_written b) (b_done b) (b_stopOnce b) (b_closed b) batch (b_accepted b) (b_batches b).
Definition b_stop b (o : once) (closed : bool) c : Buffered W :=
  mkBuffered c (b_writer b) (b_cfg b) (b_dropped b) (b_failed b)
    (b_written b) (b_done b) o closed (b_batch b) (b_accepted b) (b_batches b).
Definition b_finish b : Buffered W :=
  mkBuffered (b_ch b) (b_writer b) (b_cfg b) (b_dropped b) (b_failed b)
    (b_written b) true (b_stopOnce b) (b_closed b) (b_batch b) (b_accepted b) (b_batches b).

(** [src/internal/adapters/outbound/sink/buffered.go:115-131] Buffered.write *)
Definition b_write b (batch : list RoutingDecision) : Buffered W :=
  if Nat.eqb (length batch) 0 then b
  else
    let n := Z.of_nat (length batch) in
    match Writer_Write (b_writer b) batch with
    | (w, Some _) =>
        mkBuffered (b_ch b) w (b_cfg b) (b_dropped b) (wrap64 (b_failed b + n)) (b_written b)
          (b_done b) (b_stopOnce b) (b_closed b) (b_batch b) (b_accepted b)
          (b_batches b ++ [(batch, false)])
    | (w, None) =>
        mkBuffered (b_ch b) w (b_cfg b) (b_dropped b) (b_failed b) (wrap64 (b_written b + n))
          (b_done b) (b_stopOnce b) (b_closed b) (b_batch b) (b_accepted b)
          (b_batches b ++ [(batch, true)])
    end.

(** [batch = batch[:0]] *)
Definition b_clear b : Buffered W := b_take b (b_ch b) [].

(** [src/internal/adapters/outbound/sink/buffered.go:86-113] Buffered.loop *)
Inductive sink_loop b : Buffered W → Prop :=
| sink_receive d c :
    b_done b = false → receive (b_ch b) = Received d c →
    let b' := b_take b c (b_batch b ++ [d]) in
    sink_loop b (if BatchSize (b_cfg b) <=? Z.of_nat (length (b_batch b'))
                 then b_clear (b_write b' (b_batch b')) else b')
| sink_drained :
    b_done b = false → receive (b_ch b) = RecvClosed →
    sink_loop b (b_finish (b_clear (b_write b (b_batch b))))
| sink_tick :
    b_done b = false →
    sink_loop b (if Nat.ltb 0 (length (b_batch b)) then b_clear (b_write b (b_batch b)) else b).

(** Where a goroutine is in [Record] or [Flush]. *)
Inductive sink_pc :=
| Record_load (d : RoutingDecision) | Record_send (d : RoutingDecision)
| Flush_once | Flush_store | Flush_close | Flush_wait
| Sink_returned (err : option error).

Inductive sink_turn := Sink_blocked | Sink_panics | Sink_goes (b : Buffered W) (p : sink_pc).

(** [src/internal/adapters/outbound/sink/buffered.go:64-84] Buffered.Record *)
Definition Record_step b (p : sink_pc) : sink_turn :=
  match p with
  | Record_load d => if b_closed b then Sink_goes (b_drop b) (Sink_returned None)
                     else Sink_goes b (Record_send d)
  | Record_send d =>
      match try_send (b_ch b) d with
      | Sent c => Sink_goes (b_enqueue b d c) (Sink_returned None)
      | SendDefault => Sink_goes (b_drop b) (Sink_returned None)
      | SendPanic => Sink_panics
      end
  | _ => Sink_blocked
  end.

(** [src/internal/adapters/outbound/sink/buffered.go:133-149] Buffered.Flush

    A second [Do] waits for the first to finish. [ctx] is the context's error when the
    final [select] takes that branch. *)
Definition Flush_step b (ctx : option error) (p : sink_pc) : sink_turn :=
  match p with
  | Flush_once =>
      match b_stopOnce b with
      | OnceNew => Sink_goes (b_stop b OnceRunning (b_closed b) (b_ch b)) Flush_store
      | OnceRunning => Sink_blocked
      | OnceDone => Sink_goes b Flush_wait
      end
  | Flush_store => Sink_goes (b_stop b (b_stopOnce b) true (b_ch b)) Flush_close
  | Flush_close =>
      match close_chan (b_ch b) with
      | Some c => Sink_goes (b_stop b OnceDone (b_closed b) c) Flush_wait
      | None => Sink_panics
      end
  | Flush_wait =>
      match ctx with
      | Some e => Sink_goes b (Sink_returned (Some e))
      | None => if b_done b then Sink_goes b (Sink_returned None) else Sink_blocked
      end
  | _ => Sink_blocked
  end.

Definition sink_thread_step b (ctx : option error) (p : sink_pc) : sink_turn :=
  match p with
  | Record_load _ | Record_send _ => Record_step b p
  | _ => Flush_step b ctx p
  end.

Record sink_system := mkSinkSystem { ss_sink : Buffered W; ss_threads : list sink_pc }.

Inductive sink_step : sink_system → sink_system → Prop :=
| sink_call b ts p :
    p = Flush_once ∨ (∃ d, p = Record_load d) →
    sink_step (mkSinkSystem b ts) (mkSinkSystem b (ts ++ [p]))
| sink_thread b ts i p ctx b' p' :
    ts !! i = Some p → sink_thread_step b ctx p = Sink_goes b' p' →
    sink_step (mkSinkSystem b ts) (mkSinkSystem b' (<[i := p']> ts))
| sink_loops b ts b' :
    sink_loop b b' → sink_step (mkSinkSystem b ts) (mkSinkSystem b' ts).

Definition sink_can_panic (s : sink_system) : Prop :=
  ∃ i p ctx, ss_threads s !! i = Some p ∧ sink_thread_step (ss_sink s) ctx p = Sink_panics.

Definition initial_sink w cfg : sink_system := mkSinkSystem (NewBuffered w cfg) [].

(** [Record] when no [Flush] runs at the same time. *)
Definition Buffered_Record b d : Buffered W :=
  if b_closed b then b_drop b
  else match try_send (b_ch b) d with
       | Sent c => b_enqueue b d c
       | _ => b_drop b
       end.

(** [src/internal/adapters/outbound/sink/buffered.go:151-154] Buffered.Stats *)
Definition Sink_Stats b : Z * Z * Z := (b_written b, b_dropped b, b_failed b).
End Sink.
Arguments sink_system W : clear implicits.
Arguments sink_turn W : clear implicits.

(** ** Facts *)

Section Facts.
Context {W : Type} `{RecordWriter W}.
Implicit Types (b : Buffered W).

(** Everything the channel took is, in order, in the batches handed to the writer, in
    the batch being filled or still in the channel. *)
Record sink_inv b : Prop := {
  si_fifo : b_accepted b = concat (b_batches b).*1 ++ b_batch b ++ ch_buf (b_ch b);
  si_written : b_written b =
    wrap64 (Z.of_nat (length (concat (filter (λ p, p.2 = true) (b_batches b)).*1)));
  si_failed : b_failed b =
    wrap64 (Z.of_nat (length (concat (filter (λ p, p.2 = false) (b_batches b)).*1)));
  si_batch : Z.of_nat (length (b_batch b)) < Z.max 1 (BatchSize (b_cfg b));
  si_chan : chan_bounded (b_ch b);
  si_sizes : Forall (λ p, 0 < Z.of_nat (length p.1) ≤ BatchSize (b_cfg b)) (b_batches b);
  si_size : 0 < BatchSize (b_cfg b);
  si_done : b_done b = true → b_batch b = [] ∧ ch_buf (b_ch b) = [] ∧ ch_closed (b_ch b) = true;
}.

(** Writing a batch and emptying it. *)
Lemma write_clear_inv b batch c :
  batch ≠ [] → Z.of_nat (length batch) ≤ BatchSize (b_cfg b) → 0 < BatchSize (b_cfg b) →
  chan_bounded c → b_done b = false →
  b_accepted b = concat (b_batches b).*1 ++ batch ++ ch_buf c →
  b_written b = wrap64 (Z.of_nat (length (concat (filter (λ p, p.2 = true) (b_batches b)).*1))) →
  b_failed b = wrap64 (Z.of_nat (length (concat (filter (λ p, p.2 = false) (b_batches b)).*1))) →
  Forall (λ p, 0 < Z.of_nat (length p.1) ≤ BatchSize (b_cfg b)) (b_batches b) →
  sink_inv (b_clear (b_write (b_take b c batch) batch)).
Proof.
  intros Hne Hlen Hpos Hc Hd Ha Hw Hf Hs. unfold b_write.
  destruct batch as [|d0 rest] eqn:Eb; [done|]. rewrite <- Eb in *. clear Hne.
  assert (Nat.eqb (length batch) 0 = false) as -> by by rewrite Eb.
  destruct (Writer_Write _ _) as [w [e|]]; unfold b_clear, b_take; split; simpl; try done.
  all: try (rewrite fmap_app, concat_app, Ha; simpl; by rewrite app_nil_r, <- app_assoc).
  all: try (rewrite ?Hw, ?Hf, ?wrap64_add_l, filter_app, filter_cons, filter_nil;
    first [rewrite decide_True by done | rewrite decide_False by done];
    simpl; rewrite ?fmap_app, ?concat_app, ?app_nil_r, ?length_app; simpl;
    rewrite ?app_nil_r, ?length_app; f_equal; lia).
  all: try (apply Forall_app; split; [done|]; apply Forall_singleton; simpl;
    split; [rewrite Eb; simpl; lia|done]).
  all: try lia.
  all: try congruence.
Qed.

Lemma sink_loop_inv b b' : sink_loop b b' → sink_inv b → sink_inv b'.
Proof.
  intros Hl [Ha Hw Hf Hb Hc Hs Hp Hd]. destruct Hl as [d c Hn Hr b'|Hn Hr|Hn].
  - apply receive_fifo in Hr as (Hbuf & Hcap & Hcl).
    assert (Hc' : chan_bounded c)
      by (unfold chan_bounded in *; rewrite Hbuf in Hc; simpl in Hc; lia).
    rewrite Hbuf in Ha. unfold b'. simpl.
    destruct (Z.leb_spec (BatchSize (b_cfg b)) (Z.of_nat (length (b_batch b ++ [d])))) as [Hfull|Hroom].
    + apply write_clear_inv; try done.
      * by destruct (b_batch b).
      * rewrite length_app in *. simpl in *. lia.
      * rewrite Ha. by rewrite <- app_assoc.
    + split; simpl; try done.
      * rewrite Ha. by rewrite <- app_assoc.
      * lia.
      * congruence.
  - apply receive_closed in Hr as [Hbuf Hcl]. destruct (b_batch b) as [|d rest] eqn:Eb.
    + unfold b_write. simpl. split; simpl; try done.
    + rewrite <- Eb in *.
      assert (Hi : sink_inv (b_clear (b_write (b_take b (b_ch b) (b_batch b)) (b_batch b)))).
      { apply write_clear_inv; try done; try lia; by rewrite Eb. }
      assert (E : b_take b (b_ch b) (b_batch b) = b) by by destruct b.
      rewrite E in Hi. destruct Hi as [Ha' Hw' Hf' Hb' Hc' Hs' Hp' _].
      split; simpl; try done. intros _.
      unfold b_write. case_match; [done|].
      by destruct (Writer_Write _ _) as [w [e|]].
  - case_match; [|by split]. 
    assert (Hi : sink_inv (b_clear (b_write (b_take b (b_ch b) (b_batch b)) (b_batch b)))).
    { apply write_clear_inv; try done; try lia; by destruct (b_batch b). }
    assert (E : b_take b (b_ch b) (b_batch b) = b) by by destruct b.
    by rewrite E in Hi.
Qed.

Lemma sink_inv_step s s' : sink_step s s' → sink_inv (ss_sink s) → sink_inv (ss_sink s').
Proof.
  intros [b ts p _|b ts i p ctx b' p' _ Ht|b ts b' Hl] Hi; simpl in *;
    [done| |by eapply sink_loop_inv].
  pose proof Hi as [Ha Hw Hf Hb Hc Hs Hp Hd].
  destruct p as [d|d| | | | |e]; cbn [sink_thread_step Record_step Flush_step] in Ht.
  - destruct (b_closed b); simplify_eq; by split.
  - destruct (try_send _ _) as [c| |] eqn:Es; simplify_eq; [|by split].
    pose proof (try_send_bounded _ _ _ Es) as (Hb' & _ & Hcl).
    assert (Hbuf : ch_buf c = ch_buf (b_ch b) ++ [d] ∧ ch_closed (b_ch b) = false).
    { revert Es. unfold try_send. repeat case_match; intros; by simplify_eq/=. }
    destruct Hbuf as [Hbuf Hopen]. split; simpl; try done.
    + rewrite Ha, Hbuf. by rewrite <- !app_assoc.
    + intros Hdone. destruct (Hd Hdone) as (_ & _ & Hx). congruence.
  - destruct (b_stopOnce b); simplify_eq; by split.
  - simplify_eq. by split.
  - unfold close_chan in Ht. destruct (ch_closed (b_ch b)) eqn:E; simplify_eq.
    split; simpl; try done. intros Hdone. destruct (Hd Hdone) as (_ & _ & Hx). congruence.
  - destruct ctx; [|destruct (b_done b)]; by simplify_eq.
  - done.
Qed.

Lemma initial_sink_inv w cfg : sink_inv (NewBuffered w cfg).
Proof.
  split; simpl; try done.
  - lia.
  - unfold chan_bounded. simpl. case_match; bool_prop; lia.
  - case_match; bool_prop; lia.
Qed.

(** The sink loses and reorders nothing it accepted: the decisions the channel took
    are, in order, the batches handed to the writer, then the batch being filled, then
    the queue; no batch is larger than the configured size; [Stats] counts the written
    and the failed decisions; and when the loop has stopped nothing is left behind. *)
Theorem sink_fifo w cfg s :
  rtc sink_step (initial_sink w cfg) s → sink_inv (ss_sink s).
Proof.
  intros Hr. pose proof (initial_sink_inv w cfg) as Hi.
  change (NewBuffered w cfg) with (ss_sink (initial_sink w cfg)) in Hi.
  induction Hr as [|s1 s2 s3 Hs _ IH]; [done|]. by eapply IH, sink_inv_step.
Qed.
End Facts.

(** ** Recording while the sink shuts down *)

(** A writer that accepts everything. *)
#[export] Instance discard_writer : RecordWriter unit := { Writer_Write w _ := (w, None) }.

Definition ex_decision : RoutingDecision :=
  mkRoutingDecision 5%N 1000 "default" uuid_Nil (mkRequestSummary "m" false false ∅)
    (mkLadder [] (mkReason ReasonModelAlias "m" "" 0))
    (mkOutcome StatusExhausted [] zero_TokenUsage 0 3) None.

Definition ex_sink_cfg : SinkConfig := mkSinkConfig 2 1 0 0.

(** [Record] can panic the process during shutdown: a goroutine that has read
    [closed] as false and is about to send when [Flush] closes the channel sends on a
    closed channel. *)
Theorem Record_races_Flush :
  ∃ s, rtc sink_step (initial_sink tt ex_sink_cfg) s ∧ sink_can_panic s.
Proof.
  eexists. split.
  - eapply rtc_l; [apply (sink_call _ [] (Record_load ex_decision)); eauto|]. simpl.
    eapply rtc_l; [eapply (sink_thread _ _ 0 _ None); reflexivity|]. simpl.
    eapply rtc_l; [apply (sink_call _ _ Flush_once); eauto|]. simpl.
    eapply rtc_l; [eapply (sink_thread _ _ 1 _ None); reflexivity|]. simpl.
    eapply rtc_l; [eapply (sink_thread _ _ 1 _ None); reflexivity|]. simpl.
    eapply rtc_l; [eapply (sink_thread _ _ 1 _ None); reflexivity|]. simpl.
    apply rtc_refl.
  - exists 0%nat, (Record_send ex_decision), None. by split.
Qed.

(** One decision recorded, received and written. *)
Lemma sink_fifo_witness :
  ∃ s, rtc sink_step (initial_sink tt ex_sink_cfg) s ∧ sink_inv (ss_sink s) ∧
    b_batches (ss_sink s) = [([ex_decision], true)].
Proof.
  set (b1 := b_enqueue (NewBuffered tt ex_sink_cfg) ex_decision (mkChan [ex_decision] 2 false)).
  set (b2 := b_take b1 (mkChan [] 2 false) [ex_decision]).
  set (b3 := b_clear (b_write b2 [ex_decision])).
  assert (Hr : rtc sink_step (initial_sink tt ex_sink_cfg)
                 (mkSinkSystem b3 [Sink_returned None])).
  { eapply rtc_l; [apply (sink_call _ [] (Record_load ex_decision)); eauto|]. simpl.
    eapply rtc_l; [eapply (sink_thread _ _ 0 _ None); reflexivity|]. simpl.
    eapply rtc_l; [eapply (sink_thread _ _ 0 _ None); reflexivity|]. simpl.
    eapply rtc_l; [|apply rtc_refl]. apply sink_loops.
    by apply (sink_receive b1 ex_decision (mkChan [] 2 false)). }
  exists (mkSinkSystem b3 [Sink_returned None]).
  split; [exact Hr|]. split; [exact (sink_fifo tt ex_sink_cfg _ Hr)|reflexivity].
Defined.
