(* ===== verification/Enforcer.v ===== *)
(** The quota enforcer of [internal/usecases/quota/enforcer.go]: it sizes a request,
    reserves its worst case on the live counters, seeds counters that are missing from
    the durable snapshot, and corrects the reservation when the request is over.

    The live counters [C] are reached through the counter port; the database [W] through
    the tenant, quota and usage readers. Both are threaded through every call, so other
    replicas may act between two of them. *)
From S2P Require Import Prelude Errors Money Quota Redis Counters Channel Flusher Records Accounts.

(** [src/internal/usecases/quota/enforcer.go:18-29] OnUnavailable, FailOpen, FailClosed *)
Definition OnUnavailable := string.
Definition FailOpen : OnUnavailable := "open".
Definition FailClosed : OnUnavailable := "closed".

(** [src/internal/usecases/quota/enforcer.go:31-47] maxSeedRounds, storeTimeout, reconcileTimeout, resyncTimeout *)
Definition maxSeedRounds : nat := 3.
Definition storeTimeout : duration := 2 * Second.
Definition reconcileTimeout : duration := 2 * Second.
Definition resyncTimeout : duration := 30 * Second.

(** [src/internal/usecases/quota/enforcer.go:49-56] Config *)
Record EnforcerConfig := mkEnforcerConfig {
  cfg_OnUnavailable : OnUnavailable;
  cfg_DefaultMaxOutput : Z;
  cfg_LimitsTTL : duration;
  cfg_FlushInterval : duration;
  cfg_FlushBuffer : Z;
  cfg_ResyncInterval : duration;
}.

(** [src/internal/usecases/quota/enforcer.go:85-91] tenantLimits *)
Record tenantLimits := mkTenantLimits {
  tl_tenantID : uuid;
  tl_quotas : list Quota;
  tl_fetched : time;
}.

Definition zero_tenantLimits : tenantLimits := mkTenantLimits uuid_Nil [] zero_time.

(** [src/internal/ports/quota.go:31-46] QuotaRequest *)
Record QuotaRequest := mkQuotaRequest {
  qr_Tenant : Tenant;
  qr_At : time;
  qr_Prompt : PromptSize;
  qr_MaxOutputTokens : Z;
  qr_Choices : Z;
  qr_Targets : list string;
}.

(** [src/internal/ports/quota.go:48-65] Reservation *)
Record Reservation := mkReservation {
  res_TenantID : uuid;
  res_At : time;
  res_Windows : list Window;
  res_Reserved : QuotaUsage;
}.

#[export] Instance Reservation_eq_dec : EqDecision Reservation.
Proof. solve_decision. Defined.

Definition zero_Reservation : Reservation := mkReservation uuid_Nil zero_time [] zero_QuotaUsage.

(** [src/internal/ports/quota.go:67-67] Reservation.IsZero *)
Definition Reservation_IsZero (r : Reservation) : bool := bool_decide (res_Windows r = []).

(** [src/internal/ports/pricing.go:12-14] PricingTable *)
Definition PricingTable : Type := time → string → result error (Rates * string).

(** [src/internal/usecases/quota/enforcer.go:60-83] Enforcer

    [e_wake] is whether the one-slot wake channel holds a token; [e_stop] and
    [e_resyncDone] whether those channels are closed. The database is the flusher's
    store. *)
Record Enforcer (C W : Type) := mkEnforcer {
  e_counters : C;
  e_flusher : Flusher W;
  e_cfg : EnforcerConfig;
  e_limits : gmap Tenant tenantLimits;
  e_wake : bool;
  e_stop : bool;
  e_resyncDone : bool;
  e_unavailable : Z;
  e_unpriced : Z;
  e_degraded : bool;
  e_resyncs : Z;
}.
Arguments mkEnforcer {C W} _ _ _ _ _ _ _ _ _ _ _.
Arguments e_counters {C W} _.
Arguments e_flusher {C W} _.
Arguments e_cfg {C W} _.
Arguments e_limits {C W} _.
Arguments e_wake {C W} _.
Arguments e_stop {C W} _.
Arguments e_resyncDone {C W} _.
Arguments e_unavailable {C W} _.
Arguments e_unpriced {C W} _.
Arguments e_degraded {C W} _.
Arguments e_resyncs {C W} _.

Section Enforcer.
Context {C W : Type} `{QuotaCounters C} `{TenantReader W} `{QuotaReader W}
  `{UsageCounterRepository W}.
(** The price table, nil when the deployment has none. *)
Context (pricing : option PricingTable).
Implicit Types (e : Enforcer C W).

Definition set_counters e (c : C) : Enforcer C W :=
  mkEnforcer c (e_flusher e) (e_cfg e) (e_limits e) (e_wake e) (e_stop e) (e_resyncDone e)
    (e_unavailable e) (e_unpriced e) (e_degraded e) (e_resyncs e).
Definition set_flusher e (f : Flusher W) : Enforcer C W :=
  mkEnforcer (e_counters e) f (e_cfg e) (e_limits e) (e_wake e) (e_stop e) (e_resyncDone e)
    (e_unavailable e) (e_unpriced e) (e_degraded e) (e_resyncs e).
Definition set_limits e (m : gmap Tenant tenantLimits) : Enforcer C W :=
  mkEnforcer (e_counters e) (e_flusher e) (e_cfg e) m (e_wake e) (e_stop e) (e_resyncDone e)
    (e_unavailable e) (e_unpriced e) (e_degraded e) (e_resyncs e).
Definition set_health e (unavailable unpriced : Z) (degraded : bool) : Enforcer C W :=
  mkEnforcer (e_counters e) (e_flusher e) (e_cfg e) (e_limits e) (e_wake e) (e_stop e)
    (e_resyncDone e) unavailable unpriced degraded (e_resyncs e).
Definition set_loop e (wake stop resyncDone : bool) (resyncs : Z) : Enforcer C W :=
  mkEnforcer (e_counters e) (e_flusher e) (e_cfg e) (e_limits e) wake stop resyncDone
    (e_unavailable e) (e_unpriced e) (e_degraded e) resyncs.

Definition set_store (f : Flusher W) (w : W) : Flusher W :=
  mkFlusher w (fl_interval f) (fl_ch f) (fl_maxKeys f) (fl_dropped f) (fl_written f)
    (fl_readers f) (fl_writer f) (fl_closed f) (fl_done f) (fl_pending f)
    (fl_added f) (fl_lost f) (fl_sent f).
Definition e_store e : W := fl_store (e_flusher e).
Definition set_db e (w : W) : Enforcer C W := set_flusher e (set_store (e_flusher e) w).

(** [src/internal/usecases/quota/enforcer.go:93-134] New *)
Definition NewEnforcer (counters : C) (db : W) (cfg : EnforcerConfig) : Enforcer C W :=
  let onUnavailable :=
    if String.eqb (cfg_OnUnavailable cfg) "" then FailOpen else cfg_OnUnavailable cfg in
  let defaultMaxOutput :=
    if cfg_DefaultMaxOutput cfg <=? 0 then 4096 else cfg_DefaultMaxOutput cfg in
  let limitsTTL := if cfg_LimitsTTL cfg <=? 0 then 10 * Second else cfg_LimitsTTL cfg in
  let resyncInterval := if cfg_ResyncInterval cfg <=? 0 then Minute else cfg_ResyncInterval cfg in
  let cfg := mkEnforcerConfig onUnavailable defaultMaxOutput limitsTTL (cfg_FlushInterval cfg)
               (cfg_FlushBuffer cfg) resyncInterval in
  mkEnforcer counters (NewFlusher db (cfg_FlushInterval cfg) (cfg_FlushBuffer cfg)) cfg ∅
    false false false 0 0 false 0.

(** ** Outages *)

(** [src/internal/usecases/quota/enforcer.go:415-430] Enforcer.failed *)
Definition failed e (err : error) : Enforcer C W * result error Reservation :=
  let e := set_health e (wrap64 (e_unavailable e + 1)) (e_unpriced e) true in
  if String.eqb (cfg_OnUnavailable (e_cfg e)) FailClosed
  then (e, Err (Errorf "%w: %v" [AWrap ErrQuotaUnavailable; AErr err]))
  else (e, Ok zero_Reservation).

(** [src/internal/usecases/quota/enforcer.go:272-277] Enforcer.requestResync *)
Definition requestResync e : Enforcer C W :=
  set_loop e true (e_stop e) (e_resyncDone e) (e_resyncs e).

(** [src/internal/usecases/quota/enforcer.go:432-441] Enforcer.recovered *)
Definition recovered e : Enforcer C W :=
  if e_degraded e
  then requestResync (set_health e (e_unavailable e) (e_unpriced e) false)
  else e.

(** [src/internal/usecases/quota/enforcer.go:346-363] Enforcer.unpriceable *)
Definition unpriceable e (req : QuotaRequest) : Enforcer C W * result error Reservation :=
  let e := set_health e (e_unavailable e) (wrap64 (e_unpriced e + 1)) (e_degraded e) in
  if String.eqb (cfg_OnUnavailable (e_cfg e)) FailClosed
  then (e, Err (Errorf "%w: no price for targets %v"
                  (AWrap ErrQuotaUnavailable :: map AStr (qr_Targets req))))
  else (e, Ok zero_Reservation).

(** ** Limits *)

(** [src/internal/usecases/quota/enforcer.go:399-413] Enforcer.loadLimits *)
Definition loadLimits e (tenant : Tenant) : Enforcer C W * result error tenantLimits :=
  match Tenants_GetByExternalID (e_store e) tenant with
  | (w, Err err) =>
      (set_db e w,
       if Is err ErrNotFound then Ok zero_tenantLimits
       else Err (Errorf "quota: resolve tenant %s: %w" [AStr tenant; AWrap err]))
  | (w, Ok account) =>
      match Quotas_List w (ta_ID account) with
      | (w, Err err) =>
          (set_db e w, Err (Errorf "quota: list quotas %s: %w" [AStr tenant; AWrap err]))
      | (w, Ok quotas) => (set_db e w, Ok (mkTenantLimits (ta_ID account) quotas zero_time))
      end
  end.

(** [src/internal/usecases/quota/enforcer.go:365-397] Enforcer.tenantLimits

    [now] is the clock's reading. *)
Definition get_tenantLimits e (now : time) (tenant : Tenant)
    : Enforcer C W * result error tenantLimits :=
  let cached := e_limits e !! tenant in
  let load :=
    match loadLimits e tenant with
    | (e, Err err) =>
        match cached with Some c => (e, Ok c) | None => (e, Err err) end
    | (e, Ok fresh) =>
        let fresh := mkTenantLimits (tl_tenantID fresh) (tl_quotas fresh) now in
        (set_limits e (<[tenant := fresh]> (e_limits e)), Ok fresh)
    end in
  match cached with
  | Some c => if Sub now (tl_fetched c) <? cfg_LimitsTTL (e_cfg e) then (e, Ok c) else load
  | None => load
  end.

(** ** Pricing *)

(** [src/internal/usecases/quota/enforcer.go:331-343] the dearest of the targets *)
Fixpoint dearest_target (table : PricingTable) (at_ : time) (estimate : TokenUsage)
    (targets : list string) (dearest : USD) (priced : bool) : USD * bool :=
  match targets with
  | [] => (dearest, priced)
  | t :: targets =>
      match table at_ t with
      | Err _ => dearest_target table at_ estimate targets dearest priced
      | Ok (rates, _) =>
          let c := Rates_Cost rates estimate in
          dearest_target table at_ estimate targets (if dearest <? c then c else dearest) true
      end
  end.

(** [src/internal/usecases/quota/enforcer.go:323-344] Enforcer.priceEstimate *)
Definition priceEstimate (req : QuotaRequest) (estimate : TokenUsage) : USD * bool :=
  match pricing with
  | None => (0, false)
  | Some table => dearest_target table (qr_At req) estimate (qr_Targets req) 0 false
  end.

(** [src/internal/usecases/quota/enforcer.go:304-321] Enforcer.actualUsage *)
Definition actualUsage (res : Reservation) (outcome : Outcome) : QuotaUsage :=
  let chosen := ChosenTarget outcome in
  if String.eqb (out_Status outcome) StatusExhausted || String.eqb chosen ""
  then zero_QuotaUsage
  else if Total (out_Usage outcome) =? 0 then res_Reserved res
  else
    let cost :=
      match pricing with
      | None => 0
      | Some table =>
          match table (res_At res) chosen with
          | Err _ => 0
          | Ok (rates, _) => Rates_Cost rates (out_Usage outcome)
          end
      end in
    mkQuotaUsage 1 (Total (out_Usage outcome)) cost.

(** ** Seeding *)

(** [src/internal/usecases/quota/enforcer.go:204-211] the durable snapshots of some windows *)
Fixpoint snapshots_of (w : W) (tenantID : uuid) (windows : list Window)
    : W * result error (list WindowUsage) :=
  match windows with
  | [] => (w, Ok [])
  | win :: windows =>
      match durable_Get w tenantID win with
      | (w, Err err) =>
          (w, Err (Errorf "quota: rehydrate %s window: %w" [AStr (Window_Kind win); AWrap err]))
      | (w, Ok u) =>
          let '(w, rest) := snapshots_of w tenantID windows in
          (w, let! seeds := rest in Ok (mkWindowUsage tenantID win u :: seeds))
      end
  end.

(** [src/internal/usecases/quota/enforcer.go:200-214] Enforcer.rehydrate *)
Definition rehydrate e (tenantID : uuid) (windows : list Window) : Enforcer C W * option error :=
  match snapshots_of (e_store e) tenantID windows with
  | (w, Err err) => (set_db e w, Some err)
  | (w, Ok seeds) =>
      let '(c, err) := qc_Seed (e_counters e) seeds in
      (set_counters (set_db e w) c, err)
  end.

(** ** Reserving *)

(** [src/internal/usecases/quota/enforcer.go:159-197] the rounds of a reservation *)
Fixpoint reserve_rounds (rounds : nat) e (tenantID : uuid) (limits : list WindowLimit)
    (amount : QuotaUsage) (at_ : time) : Enforcer C W * result error Reservation :=
  match rounds with
  | O => failed e (Sentinel "quota: counters kept disappearing while being seeded")
  | S rounds =>
      let '(c, got) := qc_Reserve (e_counters e) tenantID limits amount in
      let e := set_counters e c in
      match got with
      | Err err => failed e err
      | Ok got =>
          if Nat.ltb 0 (length (Missing got)) then
            match rehydrate e tenantID (Missing got) with
            | (e, Some err) => failed e err
            | (e, None) => reserve_rounds rounds e tenantID limits amount at_
            end
          else
            let e := recovered e in
            match Blocked got with
            | Some b => (e, Err (QuotaExceededError b))
            | None =>
                (e, Ok (mkReservation tenantID at_ (map wl_Window limits) amount))
            end
      end
  end.

(** [src/internal/usecases/quota/enforcer.go:136-198] Enforcer.Reserve *)
Definition Reserve e (now : time) (req : QuotaRequest) : Enforcer C W * result error Reservation :=
  match get_tenantLimits e now (qr_Tenant req) with
  | (e, Err err) => failed e err
  | (e, Ok tl) =>
      let limits := ApplicableLimits (tl_quotas tl) (qr_At req) in
      if Nat.eqb (length limits) 0 then (e, Ok zero_Reservation)
      else
        let estimate :=
          EstimateTokens (qr_Prompt req) (qr_MaxOutputTokens req) (qr_Choices req)
            (cfg_DefaultMaxOutput (e_cfg e)) in
        let '(cost, priced) := priceEstimate req estimate in
        if negb priced then unpriceable e req
        else
          let amount := mkQuotaUsage 1 (Total estimate) cost in
          reserve_rounds maxSeedRounds e (tl_tenantID tl) limits amount (qr_At req)
  end.

(** [src/internal/usecases/quota/enforcer.go:279-302] Enforcer.Reconcile *)
Definition Reconcile e (res : Reservation) (outcome : Outcome) : Enforcer C W :=
  if Reservation_IsZero res then e
  else
    let actual := actualUsage res outcome in
    let delta := QuotaUsage_Sub actual (res_Reserved res) in
    let e :=
      if QuotaUsage_IsZero delta then e
      else set_counters e (qc_Adjust (e_counters e) (res_TenantID res) (res_Windows res) delta).1 in
    if QuotaUsage_IsZero actual then e
    else set_flusher e
           (foldl (λ f w, Flusher_Add f (mkWindowUsage (res_TenantID res) w actual))
              (e_flusher e) (res_Windows res)).

(** ** Resyncing *)

(** [src/internal/usecases/quota/enforcer.go:249-263] one pass over the tenants *)
Fixpoint resync_tenants e (now : time) (tenants : list tenantLimits) : Enforcer C W :=
  match tenants with
  | [] => e
  | tl :: tenants =>
      let limits := ApplicableLimits (tl_quotas tl) now in
      let e := if Nat.eqb (length limits) 0 then e
               else (rehydrate e (tl_tenantID tl) (map wl_Window limits)).1 in
      resync_tenants e now tenants
  end.

(** [src/internal/usecases/quota/enforcer.go:234-270] Enforcer.resync

    [tenants] is the cache's content in the order the runtime iterates over it. *)
Definition resync e (now : time) (tenants : list tenantLimits) : Enforcer C W :=
  let e := resync_tenants e now tenants in
  set_loop e (e_wake e) (e_stop e) (e_resyncDone e) (wrap64 (e_resyncs e + 1)).

Definition cached_tenants e : list tenantLimits := (map_to_list (e_limits e)).*2.

(** [src/internal/usecases/quota/enforcer.go:216-232] Enforcer.resyncLoop *)
Inductive resync_step e : Enforcer C W → Prop :=
| resync_stop :
    e_resyncDone e = false → e_stop e = true →
    resync_step e (set_loop e (e_wake e) (e_stop e) true (e_resyncs e))
| resync_tick now tenants :
    e_resyncDone e = false → tenants ≡ₚ cached_tenants e →
    resync_step e (resync e now tenants)
| resync_wake now tenants :
    e_resyncDone e = false → e_wake e = true → tenants ≡ₚ cached_tenants e →
    resync_step e (resync (set_loop e false (e_stop e) (e_resyncDone e) (e_resyncs e)) now tenants).

(** [src/internal/usecases/quota/enforcer.go:459-469] Enforcer.Close

    [None] while it waits for the resync loop; otherwise where it goes on, which is the
    flusher's [Close] once the loop has stopped. [ctx] is the context's error when the
    select takes that branch. *)
Definition Enforcer_Close e (ctx : option error) : Enforcer C W * option pc :=
  let e := set_loop e (e_wake e) true (e_resyncDone e) (e_resyncs e) in
  (e, match ctx with
      | Some err => Some (Returned (Some err))
      | None => if e_resyncDone e then Some Close_lock else None
      end).

(** [src/internal/usecases/quota/enforcer.go:443-457] Stats, Resyncs, Unpriced *)
Definition Enforcer_Stats e : Z * Z := (e_unavailable e, Dropped (e_flusher e)).
Definition Resyncs e : Z := e_resyncs e.
Definition Unpriced e : Z := e_unpriced e.
End Enforcer.
