(* ===== verification/EnforcerProps.v ===== *)
(** What the enforcer promises: the outage policy, the reservation contract across
    seeding, the correction after the request, and what the estimate covers. *)
From S2P Require Import Prelude Calendar Errors Money Quota Redis Counters CounterProps Channel Flusher FlusherProps Records Accounts Enforcer.

Section Errors.
Context {C W : Type} `{QuotaCounters C} `{TenantReader W} `{QuotaReader W}
  `{UsageCounterRepository W}.
Context (pricing : option PricingTable).
Implicit Types (e : Enforcer C W).

Lemma rounds_At n e t limits amount at_ e' res :
  reserve_rounds n e t limits amount at_ = (e', Ok res) → res_At res = at_ ∨ res = zero_Reservation.
Proof.
  assert (Hf : ∀ e err e' res, failed e err = (e', Ok res) → res = zero_Reservation)
    by (unfold failed; intros *; cbv zeta; case_match; congruence).
  revert e. induction n as [|n IH]; intros e; cbn [reserve_rounds]; [intros ?; right; by eapply Hf|].
  destruct (qc_Reserve _ _ _ _) as [c [got|err]]; [|intros ?; right; by eapply Hf].
  destruct (Nat.ltb _ _).
  - destruct (rehydrate _ _ _) as [e1 [err|]]; [intros ?; right; by eapply Hf|apply IH].
  - destruct (Blocked got); [done|]. intros [= _ <-]. by left.
Qed.

(** A reservation is dated by its request. *)
Lemma Reserve_At e now req e' res :
  Reserve pricing e now req = (e', Ok res) → res_At res = qr_At req ∨ res = zero_Reservation.
Proof.
  unfold Reserve. destruct (get_tenantLimits _ _ _) as [e1 [tl|err]].
  - destruct (Nat.eqb _ _); [intros [= _ <-]; by right|].
    destruct (priceEstimate _ _ _) as [cost [|]]; cbn [negb]; [apply rounds_At|].
    unfold unpriceable. cbv zeta. case_match; [done|intros [= _ <-]; by right].
  - unfold failed. cbv zeta. case_match; [done|intros [= _ <-]; by right].
Qed.

Lemma rehydrate_cfg e t windows : e_cfg (rehydrate e t windows).1 = e_cfg e.
Proof.
  unfold rehydrate. destruct (snapshots_of _ _ _) as [w [seeds|]]; [|done].
  by destruct (qc_Seed _ _).
Qed.

Lemma recovered_cfg e : e_cfg (recovered e) = e_cfg e.
Proof. unfold recovered. by destruct (e_degraded e). Qed.

Lemma get_tenantLimits_cfg e now tenant : e_cfg (get_tenantLimits e now tenant).1 = e_cfg e.
Proof.
  unfold get_tenantLimits, loadLimits.
  destruct (e_limits e !! tenant) as [c|]; [case_match; [done|]|];
    destruct (Tenants_GetByExternalID _ _) as [w [a|err]];
    try (destruct (Quotas_List _ _) as [w' [qs|err']]); try done; by case_match.
Qed.
End Errors.

(** ** Sizes *)

Section Sizes.
Context (table : PricingTable).

Lemma dearest_ge at_ est targets d p :
  d ≤ (dearest_target table at_ est targets d p).1.
Proof.
  revert d p. induction targets as [|t targets IH]; intros d p; simpl; [lia|].
  destruct (table at_ t) as [[r v]|]; [|apply IH].
  etransitivity; [|apply IH]. destruct (Z.ltb_spec d (Rates_Cost r est)); lia.
Qed.

Lemma dearest_covers at_ est targets d p t r v :
  t ∈ targets → table at_ t = Ok (r, v) →
  Rates_Cost r est ≤ (dearest_target table at_ est targets d p).1 ∧
  (dearest_target table at_ est targets d p).2 = true.
Proof.
  assert (Hp : ∀ targets d, (dearest_target table at_ est targets d true).2 = true).
  { intros ts. induction ts as [|t' ts IH]; intros d'; simpl; [done|].
    destruct (table at_ t') as [[r' v']|]; apply IH. }
  revert d p. induction targets as [|t' targets IH]; intros d p Ht Hr; [set_solver|].
  simpl. apply elem_of_cons in Ht as [<-|Ht].
  - rewrite Hr. split; [|apply Hp]. etransitivity; [|apply dearest_ge].
    destruct (Z.ltb_spec d (Rates_Cost r est)); lia.
  - destruct (table at_ t') as [[r' v']|]; by apply IH.
Qed.
End Sizes.

(** Rates that a well-formed price block gives: no part of the prompt costs more than
    an input token. *)
Definition rates_wf (r : Rates) : Prop :=
  0 ≤ Rate_CacheRead r ≤ Rate_Input r ∧ 0 ≤ Rate_CacheWrite r ≤ Rate_Input r ∧ 0 ≤ Rate_Output r.

(** What was used stays within the estimate. *)
Definition within_estimate (u est : TokenUsage) : Prop :=
  0 ≤ Input u ∧ 0 ≤ CacheRead u ∧ 0 ≤ CacheWrite u ∧ 0 ≤ Output u ∧
  Input u + CacheRead u + CacheWrite u ≤ Input est ∧ Output u ≤ Output est ∧
  CacheRead est = 0 ∧ CacheWrite est = 0.

(** The estimate's price is computed without overflow. *)
Definition price_fits (r : Rates) (est : TokenUsage) : Prop :=
  Rate_Input r * Input est + Rate_Output r * Output est < 2 ^ 63.

Lemma Cost_zero p : PerMillionTokens_Cost p 0 = 0.
Proof. unfold PerMillionTokens_Cost. by rewrite Z.mul_0_r. Qed.

Lemma Rates_Cost_covers r u est :
  rates_wf r → within_estimate u est → price_fits r est → Rates_Cost r u ≤ Rates_Cost r est.
Proof.
  intros ([Hcr Hcr'] & [Hcw Hcw'] & Ho) (Hi & Hr & Hw & Hou & Hin & Hout & Er & Ew) Hf.
  unfold price_fits in Hf. unfold Rates_Cost. rewrite Er, Ew, !Cost_zero, !Z.add_0_r.
  set (pi := Rate_Input r) in *. set (po := Rate_Output r) in *.
  assert (Hpi : 0 ≤ pi) by lia.
  assert (0 ≤ pi * Input est) by nia. assert (0 ≤ po * Output est) by nia.
  assert (Fi : cost_fits pi (Input est)) by (unfold cost_fits; split_and!; nia).
  assert (Fo : cost_fits po (Output est)) by (unfold cost_fits; split_and!; nia).
  assert (F1 : cost_fits pi (Input u + CacheRead u + CacheWrite u))
    by (eapply cost_fits_mono; [exact Fi|lia]).
  pose proof (Cost_split pi (Rate_CacheWrite r) (Input u + CacheRead u) (CacheWrite u) F1
    ltac:(lia) ltac:(lia) ltac:(lia)) as S1.
  pose proof (Cost_split pi (Rate_CacheRead r) (Input u) (CacheRead u)
    ltac:(eapply cost_fits_mono; [exact F1|lia]) ltac:(lia) ltac:(lia) ltac:(lia)) as S2.
  pose proof (Cost_mono pi (Input u + CacheRead u + CacheWrite u) (Input est) Fi ltac:(lia)) as M1.
  pose proof (Cost_mono po (Output u) (Output est) Fo ltac:(lia)) as M2.
  pose proof (Cost_nonneg pi (Input u) ltac:(eapply cost_fits_mono; [exact Fi|lia])) as N1.
  pose proof (Cost_nonneg po (Output u) ltac:(eapply cost_fits_mono; [exact Fo|lia])) as N2.
  assert (N3 : 0 ≤ PerMillionTokens_Cost (Rate_CacheRead r) (CacheRead u)).
  { apply Cost_nonneg. destruct F1. unfold cost_fits. split_and!; nia. }
  assert (N4 : 0 ≤ PerMillionTokens_Cost (Rate_CacheWrite r) (CacheWrite u)).
  { apply Cost_nonneg. destruct F1. unfold cost_fits. split_and!; nia. }
  assert (B : PerMillionTokens_Cost pi (Input est) + PerMillionTokens_Cost po (Output est) < 2 ^ 63).
  { rewrite !Cost_exact by done. nia. }
  rewrite !wrap64_id; unfold int64_range; rewrite ?wrap64_id; unfold int64_range;
    rewrite ?wrap64_id; unfold int64_range; rewrite ?wrap64_id; unfold int64_range; lia.
Qed.

(** ** Reserving on counters that answer *)

Section Contract.
Context {C W : Type} `{QuotaCountersSpec C} `{TenantReader W} `{QuotaReader W}
  `{UsageCounterRepository W}.
Context (pricing : option PricingTable).
Implicit Types (e : Enforcer C W).

Lemma snapshots_of_windows (w : W) t windows w' seeds :
  snapshots_of w t windows = (w', Ok seeds) →
  map wu_Window seeds = windows ∧ ∀ u, u ∈ seeds → wu_TenantID u = t.
Proof.
  revert w seeds. induction windows as [|win windows IH]; intros w seeds Hs; simpl in Hs.
  { simplify_eq. split; [done|set_solver]. }
  destruct (durable_Get w t win) as [w1 [u|err]]; [|done].
  destruct (snapshots_of w1 t windows) as [w2 [rest|err]] eqn:Er; simplify_eq/=.
  apply IH in Er as [<- Ht]. split; [done|].
  intros v [->|Hv]%elem_of_cons; [done|auto].
Qed.

(** The calls of one reservation all answer: [c] is what the counters were when it
    was decided, after one round of seeding at most. *)
Inductive counters_answer e (t : uuid) (limits : list WindowLimit) (amount : QuotaUsage)
    : C → Prop :=
| answer_at_once c got :
    reserve_pre (e_counters e) t limits amount →
    qc_Reserve (e_counters e) t limits amount = (c, Ok got) → Missing got = [] →
    counters_answer e t limits amount (e_counters e)
| answer_after_seed c got w seeds c' c'' got' :
    reserve_pre (e_counters e) t limits amount →
    qc_Reserve (e_counters e) t limits amount = (c, Ok got) → Missing got ≠ [] →
    snapshots_of (e_store e) t (Missing got) = (w, Ok seeds) →
    seed_pre c seeds → qc_Seed c seeds = (c', None) →
    reserve_pre c' t limits amount → qc_Reserve c' t limits amount = (c'', Ok got') →
    counters_answer e t limits amount c'.

(** What a reservation decided on live counters comes to. *)
Definition decided (t : uuid) (limits : list WindowLimit) (amount : QuotaUsage) (at_ : time)
    (r : CounterReservation) : result error Reservation :=
  match Blocked r with
  | Some b => Err (QuotaExceededError b)
  | None => Ok (mkReservation t at_ (map wl_Window limits) amount)
  end.

Definition moved (c c' : C) (t : uuid) (limits : list WindowLimit) (amount : QuotaUsage)
    (r : CounterReservation) : Prop :=
  ∀ t' w, live c' t' w =
    (λ u, if decide (Blocked r = None ∧ t' = t ∧ window_id w ∈ map (window_id ∘ wl_Window) limits)
          then QuotaUsage_Add u amount else u) <$> live c t' w.

Lemma reserve_spec_missing lv limits amount :
  Missing (reserve_spec lv limits amount) = filter (λ w, lv w = None) (map wl_Window limits).
Proof.
  unfold reserve_spec. destruct (filter _ _) as [|w ws] eqn:E; [|done].
  unfold reserve_check. by destruct (list_find _ _) as [[? ?]|].
Qed.

(** What is taken fits every limit that blocks, and nothing else is refused. *)
Definition fits (lv : Window → option QuotaUsage) (amount : QuotaUsage) (limits : list WindowLimit) : Prop :=
  ∀ l, l ∈ limits → wl_Block l = true → ∃ u, lv (wl_Window l) = Some u ∧ Cost u + Cost amount ≤ wl_MaxCost l.

Lemma reserve_spec_fits lv limits amount :
  let r := reserve_spec lv limits amount in
  Missing r = [] → (Blocked r = None ↔ fits lv amount limits).
Proof.
  intros r Hm. assert (Hlive : ∀ l, l ∈ limits → ∃ u, lv (wl_Window l) = Some u).
  { intros l Hl. destruct (lv (wl_Window l)) as [u|] eqn:Eu; [eauto|]. subst r. rewrite reserve_spec_missing in Hm.
    destruct (not_elem_of_nil (wl_Window l)). rewrite <- Hm. apply list_elem_of_filter.
    split; [done|]. by apply list_elem_of_fmap_2. }
  subst r. unfold reserve_spec in *. destruct (filter _ _); [|done]. unfold reserve_check, fits.
  destruct (list_find _ limits) as [[n l]|] eqn:Ef; simpl.
  - split; [done|]. intros Hfits. apply list_find_Some in Ef as (Hn & [Hb Hc] & _).
    apply list_elem_of_lookup_2 in Hn. destruct (Hfits l Hn Hb) as (u & Hu & Hle). unfold crosses in Hc.
    rewrite Hu in Hc. simpl in Hc. lia.
  - split; [|done]. intros _ l Hl Hb. destruct (Hlive l Hl) as [u Hu]. exists u. split; [done|].
    apply list_find_None in Ef. rewrite Forall_forall in Ef. specialize (Ef l Hl).
    unfold blocking, crosses in Ef. rewrite Hu in Ef. simpl in Ef. apply Z.le_ngt. intros ?. by apply Ef.
Qed.

#[export] Instance fits_perm lv amount : Proper ((≡ₚ) ==> iff) (fits lv amount).
Proof. intros l l' Hl. unfold fits. by setoid_rewrite Hl. Qed.

(** Counters seeded from a reply that named them missing are all live. *)
Lemma seeded_all_live c t limits amount c1 got seeds c2 :
  reserve_pre c t limits amount → qc_Reserve c t limits amount = (c1, Ok got) →
  map wu_Window seeds = Missing got → (∀ u, u ∈ seeds → wu_TenantID u = t) →
  Missing got ≠ [] →
  seed_pre c1 seeds → qc_Seed c1 seeds = (c2, None) →
  Missing (reserve_spec (live c2 t) limits amount) = [].
Proof.
  intros Hp Hr Hw Ht Hne Hsp Hs.
  destruct (reserve_ok _ _ _ _ _ _ Hp Hr) as [Hgot Hlive].
  assert (Hnt : taken got = false).
  { unfold taken. by rewrite bool_decide_false. }
  destruct (seed_ok _ _ _ Hsp Hs) as [Hsome Hother].
  rewrite reserve_spec_missing. apply elem_of_nil_inv.
  intros w [Hnone Hin]%list_elem_of_filter.
  destruct (decide (Exists (λ u, window_id (wu_Window u) = window_id w) seeds)) as [Hex|Hno].
  - apply Exists_exists in Hex as (u & Hu & Hid).
    destruct (Hsome u Hu) as [x Hx]. rewrite (Ht u Hu) in Hx.
    rewrite (live_id c2 t w (wu_Window u)) in Hnone by done. congruence.
  - rewrite Hother in Hnone.
    + rewrite Hlive, Hnt in Hnone.
      assert (Hc : live c t w = None) by by destruct (live c t w).
      assert (Hm : w ∈ Missing got).
      { rewrite Hgot, reserve_spec_missing. by apply list_elem_of_filter. }
      rewrite <- Hw in Hm. apply list_elem_of_fmap in Hm as (u & -> & Hu).
      apply Hno, Exists_exists. eauto.
    + intros u Hu [= _ Hid]. apply Hno, Exists_exists. exists u. split; [done|].
      unfold window_id. congruence.
Qed.

Lemma recovered_counters e : e_counters (recovered e) = e_counters e.
Proof. unfold recovered. by destruct (e_degraded e). Qed.

(** One round in which nothing is missing. *)
Lemma final_round n e t limits amount at_ c got :
  reserve_pre (e_counters e) t limits amount →
  qc_Reserve (e_counters e) t limits amount = (c, Ok got) → Missing got = [] →
  ∃ e', reserve_rounds (S n) e t limits amount at_ =
          (e', decided t limits amount at_ (reserve_spec (live (e_counters e) t) limits amount)) ∧
    moved (e_counters e) (e_counters e') t limits amount
      (reserve_spec (live (e_counters e) t) limits amount).
Proof.
  intros Hp Hr Hm. destruct (reserve_ok _ _ _ _ _ _ Hp Hr) as [Hgot Hlive].
  simpl. rewrite Hr, Hm. simpl. rewrite <- Hgot.
  assert (Hl : moved (e_counters e) c t limits amount got).
  { intros t' w. rewrite Hlive. destruct (live _ t' w); simpl; [|done]. f_equal.
    apply decide_ext. unfold taken. rewrite Hm, (bool_decide_true ([] = [])) by done. simpl.
    by rewrite bool_decide_eq_true. }
  unfold decided. destruct (Blocked got) as [b|] eqn:Eb;
    (eexists; split; [reflexivity|]; by rewrite recovered_counters).
Qed.

Lemma rounds_contract n e t limits amount at_ c :
  counters_answer e t limits amount c →
  ∃ e', reserve_rounds (S (S n)) e t limits amount at_ =
          (e', decided t limits amount at_ (reserve_spec (live c t) limits amount)) ∧
    moved c (e_counters e') t limits amount (reserve_spec (live c t) limits amount) ∧
    Missing (reserve_spec (live c t) limits amount) = [].
Proof.
  intros Ha. destruct Ha as [c0 got Hp Hr Hm|c0 got w seeds c1 c2 got' Hp Hr Hm Hs Hsp Hseed Hp' Hr'].
  - destruct (final_round (S n) e t limits amount at_ c0 got Hp Hr Hm) as (e' & He & Hl).
    destruct (reserve_ok _ _ _ _ _ _ Hp Hr) as [Hgot _].
    exists e'. split_and!; [exact He|exact Hl|by rewrite <- Hgot].
  - destruct (snapshots_of_windows _ _ _ _ _ Hs) as [Hw Ht].
    pose proof (seeded_all_live _ _ _ _ _ _ _ _ Hp Hr Hw Ht Hm Hsp Hseed) as Hm'.
    destruct (reserve_ok _ _ _ _ _ _ Hp' Hr') as [Hgot' _].
    set (e1 := set_counters (set_db (set_counters e c0) w) c1).
    destruct (final_round n e1 t limits amount at_ c2 got') as (e' & He & Hl);
      [exact Hp'|exact Hr'|by rewrite Hgot'|].
    exists e'. split_and!; [|exact Hl|exact Hm'].
    cbn [reserve_rounds]. rewrite Hr.
    assert (Nat.ltb 0 (length (Missing got)) = true) as ->
      by (apply Nat.ltb_lt; destruct (Missing got); simpl; [done|lia]).
    unfold rehydrate. change (e_store (set_counters e c0)) with (e_store e). rewrite Hs.
    change (e_counters (set_counters e c0)) with c0. rewrite Hseed. exact He.
Qed.

(** The amount a request is reserved at, when it can be priced. *)
Definition request_amount (cfg : EnforcerConfig) (req : QuotaRequest) : option QuotaUsage :=
  let est := EstimateTokens (qr_Prompt req) (qr_MaxOutputTokens req) (qr_Choices req)
               (cfg_DefaultMaxOutput cfg) in
  let '(cost, priced) := priceEstimate pricing req est in
  if priced then Some (mkQuotaUsage 1 (Total est) cost) else None.

Lemma usage_wf_actual res outcome :
  usage_wf (res_Reserved res) → usage_wf (actualUsage pricing res outcome).
Proof.
  intros Hr. unfold actualUsage.
  assert (Hz : int64_range 0 ∧ int64_range 1) by by vm_compute.
  destruct Hz as [Hz Ho]. case_match; [by split_and!|]. case_match; [done|].
  split_and!; simpl; [done|apply wrap64_range|].
  destruct pricing as [table|]; [|done]. destruct (table _ _) as [[r v]|]; [|done].
  apply Rates_Cost_range.
Qed.
End Contract.

Lemma fold_Add_added {W} (f : Flusher W) (g : Window → WindowUsage) ws :
  fl_added (foldl (λ f w, Flusher_Add f (g w)) f ws) = fl_added f ++ map g ws.
Proof.
  revert f. induction ws as [|w ws IH]; intros f; simpl; [by rewrite app_nil_r|].
  rewrite IH. unfold Flusher_Add.
  assert (E : ∀ f' : Flusher W, fl_added f' = fl_added f ++ [g w] →
              fl_added f' ++ map g ws = fl_added f ++ g w :: map g ws).
  { intros f' ->. by rewrite <- app_assoc. }
  destruct (fl_closed f); [by apply E|]. by destruct (try_send _ _); apply E.
Qed.

(** ** Properties *)

Section Properties.
Context {C W : Type} `{QuotaCountersSpec C} `{TenantReader W} `{QuotaReader W}
  `{UsageCounterRepository W}.
Context (pricing : option PricingTable).
Implicit Types (e : Enforcer C W).

Lemma Reserve_contract e now req e1 tl amount c :
  get_tenantLimits e now (qr_Tenant req) = (e1, Ok tl) →
  ApplicableLimits (tl_quotas tl) (qr_At req) ≠ [] →
  request_amount pricing (e_cfg e1) req = Some amount →
  counters_answer e1 (tl_tenantID tl) (ApplicableLimits (tl_quotas tl) (qr_At req)) amount c →
  let limits := ApplicableLimits (tl_quotas tl) (qr_At req) in
  let r := reserve_spec (live c (tl_tenantID tl)) limits amount in
  ∃ e', Reserve pricing e now req = (e', decided (tl_tenantID tl) limits amount (qr_At req) r) ∧
    moved c (e_counters e') (tl_tenantID tl) limits amount r ∧ Missing r = [].
Proof.
  intros Ht Hl Ha Hc limits r. unfold Reserve. rewrite Ht. fold limits in Hl, Hc |- *.
  assert (Nat.eqb (length limits) 0 = false) as -> by by destruct limits.
  unfold request_amount in Ha. destruct (priceEstimate _ _ _) as [cost priced].
  destruct priced; [|done]. injection Ha as <-. cbn [negb].
  exact (rounds_contract 1 e1 _ limits _ (qr_At req) c Hc).
Qed.

Lemma Reserve_admits e now req e1 tl amount c :
  get_tenantLimits e now (qr_Tenant req) = (e1, Ok tl) →
  request_amount pricing (e_cfg e1) req = Some amount →
  counters_answer e1 (tl_tenantID tl) (ApplicableLimits (tl_quotas tl) (qr_At req)) amount c →
  is_ok (Reserve pricing e now req).2 = true ↔
    fits (live c (tl_tenantID tl)) amount (ApplicableLimits (tl_quotas tl) (qr_At req)).
Proof.
  intros Ht Ha Hc. destruct (decide (ApplicableLimits (tl_quotas tl) (qr_At req) = [])) as [El|Hl].
  { unfold Reserve. rewrite Ht, El. simpl. split; [|done]. by intros _ l ?%elem_of_nil. }
  destruct (Reserve_contract e now req e1 tl amount c Ht Hl Ha Hc) as (e' & -> & _ & Hm).
  rewrite <- (reserve_spec_fits _ _ _ Hm). unfold decided. simpl.
  by destruct (Blocked _).
Qed.

(** C5. [Reserve] keeps the reservation contract across seeding. A tenant without limits that apply
    is let through unreserved, and a request no target of which has a price goes the way of the
    outage policy ([unpriceable]). Otherwise, when the counters and the stores answer every call
    and their arithmetic is exact ([reserve_pre], [seed_pre]: on Redis, amounts, caps and sums
    of at most 2^53 in size and windows whose counters have not expired), one round of seeding at most
    leaves every counter live, and the request is refused with the blocking limit it would
    cross, moving no counter, or reserved at its worst case in every window, moving exactly those
    counters by exactly that. *)
Theorem Reserve_enforces e now req e1 tl :
  get_tenantLimits e now (qr_Tenant req) = (e1, Ok tl) →
  let limits := ApplicableLimits (tl_quotas tl) (qr_At req) in
  (limits = [] → Reserve pricing e now req = (e1, Ok zero_Reservation)) ∧
  (limits ≠ [] → request_amount pricing (e_cfg e1) req = None →
     Reserve pricing e now req = unpriceable e1 req) ∧
  ∀ amount c, limits ≠ [] → request_amount pricing (e_cfg e1) req = Some amount →
    counters_answer e1 (tl_tenantID tl) limits amount c →
    let r := reserve_spec (live c (tl_tenantID tl)) limits amount in
    ∃ e', Reserve pricing e now req = (e', decided (tl_tenantID tl) limits amount (qr_At req) r) ∧
      moved c (e_counters e') (tl_tenantID tl) limits amount r ∧ Missing r = [].
Proof.
  intros Ht limits. split_and!.
  - intros Hl. unfold Reserve. rewrite Ht. fold limits. by rewrite Hl.
  - intros Hl Ha. unfold Reserve. rewrite Ht. fold limits. destruct limits; [done|].
    unfold request_amount in Ha. destruct (priceEstimate _ _ _) as [cost priced]. by destruct priced.
  - intros amount c Hl Ha Hc. exact (Reserve_contract e now req e1 tl amount c Ht Hl Ha Hc).
Qed.

Lemma Reconcile_contract e res outcome :
  let actual := actualUsage pricing res outcome in
  let delta := QuotaUsage_Sub actual (res_Reserved res) in
  res_Windows res ≠ [] → usage_wf (res_Reserved res) →
  adjust_pre (e_counters e) (res_TenantID res) (res_Windows res) delta →
  (qc_Adjust (e_counters e) (res_TenantID res) (res_Windows res) delta).2 = None →
  let e' := Reconcile pricing e res outcome in
  (∀ w u, window_id w ∈ map window_id (res_Windows res) → usage_wf u →
     live (e_counters e) (res_TenantID res) w = Some (QuotaUsage_Add u (res_Reserved res)) →
     live (e_counters e') (res_TenantID res) w = Some (QuotaUsage_Add u actual)) ∧
  (∀ t w, t ≠ res_TenantID res ∨ window_id w ∉ map window_id (res_Windows res) →
     live (e_counters e') t w = live (e_counters e) t w) ∧
  fl_added (e_flusher e') = fl_added (e_flusher e) ++
    if QuotaUsage_IsZero actual then []
    else map (λ w, mkWindowUsage (res_TenantID res) w actual) (res_Windows res).
Proof.
  intros actual delta Hne Hwf Hpre Hok e'.
  assert (Hactual : usage_wf actual) by by apply usage_wf_actual.
  assert (Hadj : QuotaUsage_Add (res_Reserved res) delta = actual) by by apply Usage_Add_Sub.
  assert (Hc : ∀ t w, live (e_counters e') t w =
    (λ u, if decide (t = res_TenantID res ∧ window_id w ∈ map window_id (res_Windows res) ∧
                     delta ≠ zero_QuotaUsage)
          then QuotaUsage_Add u delta else u) <$> live (e_counters e) t w).
  { intros t w. unfold e', Reconcile, Reservation_IsZero. rewrite bool_decide_false by done.
    fold actual delta.
    assert (∀ e1, e_counters (if QuotaUsage_IsZero actual then e1 else set_flusher e1
      (foldl (λ f w, Flusher_Add f (mkWindowUsage (res_TenantID res) w actual))
         (e_flusher e1) (res_Windows res))) = e_counters e1) as -> by (intros; by case_match).
    destruct (QuotaUsage_IsZero delta) eqn:Ez.
    - apply IsZero_spec in Ez. destruct (live _ t w); simpl; [|done]. f_equal.
      by rewrite decide_False by naive_solver.
    - assert (delta ≠ zero_QuotaUsage) by (intros E; apply IsZero_spec in E; congruence).
      destruct (qc_Adjust _ _ _ delta) as [c1 err] eqn:Ea. simpl in *. subst err.
      rewrite (adjust_ok _ _ _ _ _ Hpre Ea). destruct (live _ t w); simpl; [|done]. f_equal.
      apply decide_ext. naive_solver. }
  split_and!.
  - intros w u Hw Hu Hlive. rewrite Hc, Hlive. simpl. f_equal.
    destruct (decide (delta = zero_QuotaUsage)) as [Ez|Ez].
    + rewrite decide_False by naive_solver. f_equal. rewrite <- Hadj, Ez.
      by rewrite Usage_Add_zero_r.
    + rewrite decide_True by done. by rewrite <- Usage_Add_assoc, Hadj.
  - intros t w Hor. rewrite Hc. destruct (live _ t w); simpl; [|done]. f_equal.
    by rewrite decide_False by naive_solver.
  - unfold e', Reconcile, Reservation_IsZero. rewrite bool_decide_false by done. fold actual delta.
    destruct (QuotaUsage_IsZero actual); [by case_match; simpl; rewrite app_nil_r|].
    simpl. rewrite (fold_Add_added _ (λ w, mkWindowUsage (res_TenantID res) w actual)).
    by case_match.
Qed.

(** [Reconcile] replaces the reservation with what was used: in every window of the
    reservation a counter that held [u] and the reservation now holds [u] and the actual
    usage, no other counter moves, and the same actual usage, unless it is zero, is
    handed to the durable writer once per window. *)
Theorem Reconcile_nets e res outcome :
  let actual := actualUsage pricing res outcome in
  let delta := QuotaUsage_Sub actual (res_Reserved res) in
  res_Windows res ≠ [] → usage_wf (res_Reserved res) →
  adjust_pre (e_counters e) (res_TenantID res) (res_Windows res) delta →
  (qc_Adjust (e_counters e) (res_TenantID res) (res_Windows res) delta).2 = None →
  let e' := Reconcile pricing e res outcome in
  (∀ w u, window_id w ∈ map window_id (res_Windows res) → usage_wf u →
     live (e_counters e) (res_TenantID res) w = Some (QuotaUsage_Add u (res_Reserved res)) →
     live (e_counters e') (res_TenantID res) w = Some (QuotaUsage_Add u actual)) ∧
  (∀ t w, t ≠ res_TenantID res ∨ window_id w ∉ map window_id (res_Windows res) →
     live (e_counters e') t w = live (e_counters e) t w) ∧
  fl_added (e_flusher e') = fl_added (e_flusher e) ++
    if QuotaUsage_IsZero actual then []
    else map (λ w, mkWindowUsage (res_TenantID res) w actual) (res_Windows res).
Proof. apply Reconcile_contract. Qed.

(** What a reservation came to, told by what the stores answered alone. *)
Inductive verdict :=
| NotLimited
| Answered (t : uuid) (limits : list WindowLimit) (amount : QuotaUsage) (got : CounterReservation)
| Outage.

(** The rounds allowed: counters that are missing are seeded, until the counters answer. *)
Inductive rounds_end (t : uuid) (limits : list WindowLimit) (amount : QuotaUsage) : nat → Enforcer C W → verdict → Prop :=
| end_exhausted e : rounds_end t limits amount 0 e Outage
| end_unreachable n e c err :
    qc_Reserve (e_counters e) t limits amount = (c, Err err) → rounds_end t limits amount (S n) e Outage
| end_unseeded n e c got e' err :
    qc_Reserve (e_counters e) t limits amount = (c, Ok got) → Missing got ≠ [] →
    rehydrate (set_counters e c) t (Missing got) = (e', Some err) → rounds_end t limits amount (S n) e Outage
| end_seeded n e c got e' v :
    qc_Reserve (e_counters e) t limits amount = (c, Ok got) → Missing got ≠ [] →
    rehydrate (set_counters e c) t (Missing got) = (e', None) →
    rounds_end t limits amount n e' v → rounds_end t limits amount (S n) e v
| end_answered n e c got :
    qc_Reserve (e_counters e) t limits amount = (c, Ok got) → Missing got = [] →
    rounds_end t limits amount (S n) e (Answered t limits amount got).

(** An outage is limits that cannot be read while none are cached, no price for any target, a
    store that fails, or counters that keep disappearing. *)
Inductive comes_to e now req : verdict → Prop :=
| to_unread e1 err : get_tenantLimits e now (qr_Tenant req) = (e1, Err err) → comes_to e now req Outage
| to_unlimited e1 tl :
    get_tenantLimits e now (qr_Tenant req) = (e1, Ok tl) → ApplicableLimits (tl_quotas tl) (qr_At req) = [] →
    comes_to e now req NotLimited
| to_unpriced e1 tl :
    get_tenantLimits e now (qr_Tenant req) = (e1, Ok tl) → ApplicableLimits (tl_quotas tl) (qr_At req) ≠ [] →
    request_amount pricing (e_cfg e1) req = None → comes_to e now req Outage
| to_counters e1 tl amount v :
    get_tenantLimits e now (qr_Tenant req) = (e1, Ok tl) → ApplicableLimits (tl_quotas tl) (qr_At req) ≠ [] →
    request_amount pricing (e_cfg e1) req = Some amount →
    rounds_end (tl_tenantID tl) (ApplicableLimits (tl_quotas tl) (qr_At req)) amount 3 e1 v → comes_to e now req v.

(** The result a policy prescribes. *)
Definition prescribed (policy : OnUnavailable) (at_ : time) (v : verdict) (r : result error Reservation) : Prop :=
  match v with
  | NotLimited => r = Ok zero_Reservation
  | Answered t limits amount got => r = decided t limits amount at_ got
  | Outage => if String.eqb policy FailClosed then ∃ err, r = Err err ∧ Is err ErrQuotaUnavailable = true
              else r = Ok zero_Reservation
  end.

Lemma failed_prescribed e err at_ :
  prescribed (cfg_OnUnavailable (e_cfg e)) at_ Outage (failed e err).2.
Proof. unfold failed. simpl. destruct (String.eqb _ _); [|done]. by eexists. Qed.

Lemma unpriceable_prescribed e req :
  prescribed (cfg_OnUnavailable (e_cfg e)) (qr_At req) Outage (unpriceable e req).2.
Proof. unfold unpriceable. simpl. destruct (String.eqb _ _); [|done]. by eexists. Qed.

Lemma rounds_prescribed n e t limits amount at_ :
  ∃ v, rounds_end t limits amount n e v ∧
    prescribed (cfg_OnUnavailable (e_cfg e)) at_ v (reserve_rounds n e t limits amount at_).2.
Proof.
  revert e. induction n as [|n IH]; intros e; cbn [reserve_rounds].
  { eexists. split; [constructor|apply failed_prescribed]. }
  destruct (qc_Reserve _ _ _ _) as [c [got|err]] eqn:Er;
    [|eexists; split; [by eapply end_unreachable|apply (failed_prescribed (set_counters e c))]].
  destruct (Missing got) as [|w ws] eqn:Em; cbn [length Nat.ltb Nat.leb].
  - exists (Answered t limits amount got). split; [by eapply end_answered|]. simpl. unfold decided. by destruct (Blocked got).
  - rewrite <- Em. pose proof (rehydrate_cfg (set_counters e c) t (Missing got)) as Hcfg.
    destruct (rehydrate _ _ _) as [e' [err|]] eqn:Eh; cbn [fst] in Hcfg; change (e_cfg (set_counters e c)) with (e_cfg e) in Hcfg.
    + exists Outage. split; [eapply end_unseeded; [done|by rewrite Em|done]|]. rewrite <- Hcfg. apply failed_prescribed.
    + destruct (IH e') as (v & Hv & Hp). exists v. rewrite <- Hcfg. split; [|done].
      eapply end_seeded; [done|by rewrite Em|done|done].
Qed.

(** C9. The outage policy is kept on every path. When the limits cannot be read and none are cached,
    when no target has a price, when the counters or the durable store fail, or when the counters
    are still missing after three rounds of seeding, a deployment that fails closed refuses the
    request with an error that is [ErrQuotaUnavailable], and any other lets it through with nothing
    reserved. When the stores do answer the policy plays no part: a tenant without limits is let
    through, and the rest is what the counters say, refused with the limit they name or reserved. *)
Theorem Reserve_outage_policy e now req e' r :
  Reserve pricing e now req = (e', r) →
  ∃ v, comes_to e now req v ∧ prescribed (cfg_OnUnavailable (e_cfg e)) (qr_At req) v r.
Proof.
  intros Hr. apply (f_equal snd) in Hr. cbn [snd] in Hr. subst r. unfold Reserve.
  pose proof (get_tenantLimits_cfg e now (qr_Tenant req)) as Hcfg.
  destruct (get_tenantLimits e now (qr_Tenant req)) as [e1 [tl|err]] eqn:Eg; cbn [fst] in Hcfg; rewrite <- Hcfg.
  2:{ exists Outage. split; [by eapply to_unread|apply failed_prescribed]. }
  destruct (ApplicableLimits (tl_quotas tl) (qr_At req)) as [|l ls] eqn:El; cbn [length Nat.eqb].
  { exists NotLimited. split; [by eapply to_unlimited|done]. }
  rewrite <- El. destruct (request_amount pricing (e_cfg e1) req) as [amount|] eqn:Ea;
    pose proof Ea as Ea'; unfold request_amount in Ea'; destruct (priceEstimate _ _ _) as [cost [|]]; try done; cbn [negb].
  - injection Ea' as <-. destruct (rounds_prescribed 3 e1 (tl_tenantID tl) (ApplicableLimits (tl_quotas tl) (qr_At req))
      (mkQuotaUsage 1 (Total (EstimateTokens (qr_Prompt req) (qr_MaxOutputTokens req) (qr_Choices req)
         (cfg_DefaultMaxOutput (e_cfg e1)))) cost) (qr_At req)) as (v & Hv & Hp).
    exists v. split; [|done]. eapply to_counters; [done|by rewrite El|done|done].
  - exists Outage. split; [eapply to_unpriced; [done|by rewrite El|done]|apply unpriceable_prescribed].
Qed.
End Properties.

(** C8. The reservation covers the request: when the usage stays within the estimate, no
    part of the prompt is dearer than an input token and the estimate's price does not
    overflow, the target that served costs at most what was reserved. *)
Theorem estimate_covers_actual table req est res outcome r v :
  priceEstimate (Some table) req est = (Cost (res_Reserved res), true) →
  res_At res = qr_At req → ChosenTarget outcome ∈ qr_Targets req →
  table (qr_At req) (ChosenTarget outcome) = Ok (r, v) →
  rates_wf r → within_estimate (out_Usage outcome) est → price_fits r est →
  0 ≤ Cost (res_Reserved res) →
  Cost (actualUsage (Some table) res outcome) ≤ Cost (res_Reserved res).
Proof.
  intros Hp Hat Hin Ht Hr Hu Hf Hpos. unfold actualUsage. rewrite Hat, Ht.
  case_match; [done|]. case_match; [done|]. simpl.
  destruct (dearest_covers table (qr_At req) est (qr_Targets req) 0 false _ r v Hin Ht) as [Hd _].
  unfold priceEstimate in Hp. rewrite Hp in Hd. simpl in Hd.
  etransitivity; [by apply Rates_Cost_covers|done].
Qed.

(** ** A deployment to run it on *)

(** A database: the usage counters, the tenants and their quotas. *)
Record ex_db := mkExDb {
  xd_usage : log_store;
  xd_tenants : list TenantAccount;
  xd_quotas : list (uuid * list Quota);
}.

#[export] Instance ex_db_usage : UsageCounterRepository ex_db := {
  durable_Get w t win := (w, (durable_Get (xd_usage w) t win).2);
  AddDeltas w batch :=
    let '(l, err) := AddDeltas (xd_usage w) batch in (mkExDb l (xd_tenants w) (xd_quotas w), err);
}.

Definition find_or {A} (l : list A) (p : A → bool) : result error A :=
  match List.find p l with Some x => Ok x | None => Err ErrNotFound end.

#[export] Instance ex_db_tenants : TenantReader ex_db := {
  Tenants_Get w id := (w, find_or (xd_tenants w) (λ t, N.eqb (ta_ID t) id));
  Tenants_GetByExternalID w x := (w, find_or (xd_tenants w) (λ t, String.eqb (ta_ExternalID t) x));
  Tenants_List w f := (w, Ok (xd_tenants w));
}.

#[export] Instance ex_db_quotas : QuotaReader ex_db := {
  Quotas_Get w id kind :=
    (w, let! p := find_or (xd_quotas w) (λ p, N.eqb p.1 id) in
        find_or p.2 (λ q, String.eqb (q_WindowKind q) kind));
  Quotas_List w id := (w, Ok (concat (map snd (List.filter (λ p, N.eqb p.1 id) (xd_quotas w)))));
}.

(** Tenant 7 may spend one dollar a day; the target costs $2.50 and $10 a million
    tokens. *)
Definition one_dollar : USD := 1000000000.
Definition ex_quota : Quota := mkQuota WindowDay None None one_dollar QuotaBlock 0.
Definition ex_account : TenantAccount := mkTenantAccount 7%N "acme" "Acme" "" 0 None.
Definition ex_rates : Rates := mkRates 2500000000 10000000000 1250000000 0.
Definition ex_table : PricingTable := λ _ t,
  if String.eqb t "openai/gpt-5" then Ok (ex_rates, "2026-08-01") else Err ErrNoPricing.
Definition ex_config (policy : OnUnavailable) : EnforcerConfig :=
  mkEnforcerConfig policy 0 0 0 0 0.
Definition ex_world (up : bool) : ex_db :=
  mkExDb (mkLogStore [] up) [ex_account] [(7%N, [ex_quota])].
Definition ex_redis (fates : list fate) : redis_client map_redis := mkClient (mkMapRedis 60000 ∅) fates.
#[export] Instance ex_counters : QuotaCounters (redis_client map_redis) :=
  redis_counters example_uuid_string.
#[export] Instance ex_counters_spec : QuotaCountersSpec (redis_client map_redis) :=
  redis_counters_spec example_uuid_string example_uuid_string_hex example_uuid_string_inj.
Definition ex_enforcer (policy : OnUnavailable) (fates : list fate) :
  Enforcer (redis_client map_redis) ex_db :=
  NewEnforcer (ex_redis fates) (ex_world true) (ex_config policy).
Definition ex_now : time := 60000 * Second.
Definition ex_request (maxOutput : Z) : QuotaRequest :=
  mkQuotaRequest "acme" ex_now (mkPromptSize 400 1 0) maxOutput 0 ["openai/gpt-5"].

(** A cap can be bypassed by asking for enough tokens: the price of a large enough
    [max_tokens] overflows to a negative number, no target is then dearer than nothing, and
    the request is reserved at zero. With a cap of one dollar a million tokens are refused
    and a thousand million are served. *)
Theorem overflow_bypasses_cap :
  (∃ b, (Reserve (Some ex_table) (ex_enforcer FailClosed []) ex_now (ex_request 1000000)).2 =
          Err (QuotaExceededError b) ∧ Breach_Limit b = one_dollar) ∧
  ∃ res, (Reserve (Some ex_table) (ex_enforcer FailClosed []) ex_now (ex_request 1000000000)).2 =
           Ok res ∧ Reservation_IsZero res = false ∧ Cost (res_Reserved res) = 0.
Proof. split; eexists; split; vm_compute; try split; reflexivity. Qed.

(** A reservation whose reply is lost is never handed back: the script has moved the
    counter, but in a deployment that fails open the request is served with the zero
    reservation, which [Reconcile] ignores, so the worst case stays on the counter. *)
Theorem lost_reply_leaks_reservation outcome :
  let e := ex_enforcer FailOpen [Replied; Replied; ReplyLost db_down] in
  let '(e', r) := Reserve (Some ex_table) e ex_now (ex_request 1000) in
  r = Ok zero_Reservation ∧
  live (e_counters (Reconcile (Some ex_table) e' zero_Reservation outcome)) 7%N
    (mkWindow WindowDay 0 (24 * Hour)) = Some (mkQuotaUsage 1 1104 10260000).
Proof. vm_compute. split; reflexivity. Qed.

(** The estimate is not the worst case when a price block charges more for writing the
    cache than for input: such rates are valid, and a request whose tokens stay within the
    estimate costs more than was reserved. *)
Theorem cache_writes_exceed_estimate :
  ∃ rates est used,
    Rates_Validate (rate_entries rates) rates = None ∧
    Input used + CacheRead used + CacheWrite used ≤ Input est ∧ Output used ≤ Output est ∧
    Rates_Cost rates est < Rates_Cost rates used.
Proof.
  exists (mkRates 3000000000 15000000000 300000000 3750000000),
    (mkTokenUsage 10000 1000 0 0 0), (mkTokenUsage 0 1000 10000 0 0).
  split_and!; [reflexivity|eval_le|eval_le|apply Z.ltb_lt; vm_compute; reflexivity].
Qed.

(** ** Witnesses *)

(** The preconditions of the counters, on values. *)
Ltac ready_to_reserve :=
  split_and!; [split; [eval_le|]|..];
  [repeat (apply Forall_cons; split; [split_and!; eval_le|]); by apply Forall_nil
  |repeat (apply Forall_cons; split; [split; [eval_fields|done]|]); by apply Forall_nil
  |apply (bool_decide_unpack (NoDup _)); vm_compute; exact I].
Ltac ready_to_seed :=
  repeat (apply Forall_cons; split;
    [split_and!; [|discriminate|done]; intros f; unfold usage_field; repeat case_match; eval_le|]);
  by apply Forall_nil.

Lemma Reserve_enforces_witness :
  ∃ e' res, Reserve (Some ex_table) (ex_enforcer FailClosed []) ex_now (ex_request 1000) = (e', Ok res) ∧
    res_Reserved res = mkQuotaUsage 1 1104 10260000.
Proof.
  set (e1 := (get_tenantLimits (ex_enforcer FailClosed []) ex_now "acme").1).
  set (tl := mkTenantLimits 7%N [ex_quota] ex_now).
  set (amount := mkQuotaUsage 1 1104 10260000).
  set (c := (qc_Seed (ex_redis []) [mkWindowUsage 7%N (mkWindow WindowDay 0 DayLen) zero_QuotaUsage]).1).
  assert (Hget : get_tenantLimits (ex_enforcer FailClosed []) ex_now (qr_Tenant (ex_request 1000)) = (e1, Ok tl))
    by (vm_compute; reflexivity).
  destruct (proj2 (proj2 (Reserve_enforces (Some ex_table) (ex_enforcer FailClosed []) ex_now (ex_request 1000)
    e1 tl Hget)) amount c) as (e' & He & _).
  - vm_compute. discriminate.
  - vm_compute. reflexivity.
  - change (ApplicableLimits (tl_quotas tl) (qr_At (ex_request 1000))) with
      [mkWindowLimit (mkWindow WindowDay 0 DayLen) one_dollar true].
    eapply (answer_after_seed _ _ _ _ (ex_redis []) (mkCounterReservation [mkWindow WindowDay 0 DayLen] None [])
              (ex_world true) [mkWindowUsage 7%N (mkWindow WindowDay 0 DayLen) zero_QuotaUsage] c).
    + ready_to_reserve.
    + vm_compute. reflexivity.
    + discriminate.
    + vm_compute. reflexivity.
    + ready_to_seed.
    + reflexivity.
    + ready_to_reserve.
    + vm_compute. reflexivity.
  - eexists e', _. split; [rewrite He; vm_compute; reflexivity|reflexivity].
Defined.

(** A counter holding one reservation, and the request that made it, over. *)
Definition ex_day_window : Window := mkWindow WindowDay 0 DayLen.
Definition ex_reservation : Reservation :=
  mkReservation 7%N ex_now [ex_day_window] (mkQuotaUsage 1 1104 10260000).
Definition ex_held : Enforcer (redis_client map_redis) ex_db :=
  set_counters (ex_enforcer FailClosed [])
    (mkClient (mkMapRedis 60000
       {[Key example_uuid_string 7%N ex_day_window := (ex_hash 3 1404 10560000, None)]}) []).
Definition ex_outcome : Outcome :=
  mkOutcome StatusOK [mkAttempt "openai/gpt-5" ex_now 900 None]
    (mkTokenUsage 100 200 0 0 0) 120 900.

Lemma Reconcile_nets_witness :
  live (e_counters (Reconcile (Some ex_table) ex_held ex_reservation ex_outcome)) 7%N ex_day_window
  = Some (mkQuotaUsage 3 600 2550000).
Proof.
  destruct (Reconcile_nets (Some ex_table) ex_held ex_reservation ex_outcome) as (Hnet & _ & _).
  - discriminate.
  - split_and!; eval_int64.
  - split.
    + apply (bool_decide_unpack (NoDup _)). vm_compute. exact I.
    + intros w Hw _. change (res_Windows ex_reservation) with [ex_day_window] in Hw.
      apply list_elem_of_singleton in Hw as ->. eval_fields.
  - vm_compute. reflexivity.
  - etransitivity; [apply (Hnet ex_day_window (mkQuotaUsage 2 300 300000))|].
    + by left.
    + split_and!; eval_int64.
    + vm_compute. reflexivity.
    + vm_compute. reflexivity.
Defined.

Lemma Reserve_outage_policy_witness :
  let r := (Reserve (Some ex_table) (ex_enforcer FailClosed [NotSent db_down]) ex_now (ex_request 1000)).2 in
  is_ok r = false ∧
  ∃ v, comes_to (Some ex_table) (ex_enforcer FailClosed [NotSent db_down]) ex_now (ex_request 1000) v ∧
    prescribed FailClosed ex_now v r.
Proof.
  split; [vm_compute; reflexivity|].
  exact (Reserve_outage_policy (Some ex_table) (ex_enforcer FailClosed [NotSent db_down]) ex_now (ex_request 1000)
           _ _ (surjective_pairing _)).
Defined.

Lemma estimate_covers_actual_witness :
  Cost (actualUsage (Some ex_table) ex_reservation ex_outcome) ≤ 10260000.
Proof.
  apply (estimate_covers_actual ex_table (ex_request 1000) (mkTokenUsage 104 1000 0 0 0)
           ex_reservation ex_outcome ex_rates "2026-08-01").
  - vm_compute. reflexivity.
  - reflexivity.
  - by left.
  - reflexivity.
  - split_and!; eval_le.
  - split_and!; solve [eval_le|reflexivity].
  - apply Z.ltb_lt. vm_compute. reflexivity.
  - eval_le.
Defined.
