(* ===== verification/Config.v ===== *)
(** The configuration the gateway boots from: its data, defaults and validation
    ([internal/config/config.go]). Reading and decoding the file is outside. *)
From Stdlib Require Import SpecFloat.
From S2P Require Import Prelude Calendar Errors Money.

(** ** Data *)

(** [src/internal/config/config.go:26-38] Redis *)
Record RedisConfig := mkRedisConfig {
  redis_Addr : string;
  redis_Password : string;
  redis_DB : Z;
  redis_Timeout : duration;
  redis_OnUnavailable : string;
}.

(** [src/internal/config/config.go:40-41] Redis.Enabled *)
Definition Redis_Enabled (r : RedisConfig) : bool := negb (String.eqb (redis_Addr r) "").

(** [src/internal/config/config.go:43-63] Quota *)
Record QuotaConfig := mkQuotaConfig {
  qc_DefaultMaxOutputTokens : Z;
  qc_LimitsTTL : duration;
  qc_FlushInterval : duration;
  qc_FlushBuffer : Z;
  qc_ResyncInterval : duration;
}.

(** [src/internal/config/config.go:65-70] Sink *)
Record SinkSection := mkSinkSection {
  sink_DSN : string;
  sink_BufferSize : Z;
  sink_BatchSize : Z;
  sink_Interval : duration;
}.

(** [src/internal/config/config.go:72-78] Provider *)
Record ProviderConfig := mkProviderConfig {
  pv_Type : string;
  pv_BaseURL : string;
  pv_APIKey : string;
  pv_DisableStreamOptions : bool;
  pv_ExtraHeaders : gmap string string;
}.

(** [src/internal/config/config.go:86-96] RateConfig *)
Record RateConfig := mkRateConfig {
  rc_Free : bool;
  rc_InputPerMillion : float64;
  rc_OutputPerMillion : float64;
  rc_CacheReadPerMillion : float64;
  rc_CacheWritePerMillion : float64;
  rc_Note : string;
}.

(** The instant and, of the zone it was written in, the offset from UTC.

    [src/internal/config/config.go:80-84] PriceBlock *)
Record PriceBlock := mkPriceBlock {
  pb_EffectiveFrom : time;
  pb_Zone : duration;
  pb_Source : string;
  pb_Rates : gmap string RateConfig;
}.

(** [src/internal/config/config.go:98-101] Pricing *)
Record PricingConfig := mkPricingConfig {
  pc_CompareAgainst : list string;
  pc_Table : list PriceBlock;
}.

(** [src/internal/config/config.go:103-111] Target *)
Record TargetConfig := mkTargetConfig {
  tg_Provider : string;
  tg_Model : string;
  tg_Region : string;
}.

(** [src/internal/config/config.go:15-24] Config *)
Record Config := mkConfig {
  c_Listen : string;
  c_Providers : gmap string ProviderConfig;
  c_Targets : gmap string TargetConfig;
  c_Models : gmap string (list string);
  c_Sink : SinkSection;
  c_Pricing : PricingConfig;
  c_Redis : RedisConfig;
  c_Quota : QuotaConfig;
}.

(** ** Rates *)

(** [src/internal/config/config.go:324-334] RateConfig.ToRates *)
Definition ToRates (rc : RateConfig) : Rates :=
  if rc_Free rc then mkRates 0 0 0 0
  else mkRates (FromDollars (rc_InputPerMillion rc)) (FromDollars (rc_OutputPerMillion rc))
         (FromDollars (rc_CacheReadPerMillion rc)) (FromDollars (rc_CacheWritePerMillion rc)).

Definition f64_zero : float64 := S754_zero false.

(** [t.Format("2006-01-02")] in UTC. *)
Definition pad2 (z : Z) : string := if z <? 10 then "0" +:+ pretty z else pretty z.
Definition pad4 (z : Z) : string :=
  if z <? 10 then "000" +:+ pretty z
  else if z <? 100 then "00" +:+ pretty z
  else if z <? 1000 then "0" +:+ pretty z
  else pretty z.
Definition FormatDate (t : time) : string :=
  pad4 (Year t) +:+ "-" +:+ pad2 (Month t) +:+ "-" +:+ pad2 (Day t).

(** [b.EffectiveFrom.Format("2006-01-02")], which reads the date where the time was written. *)
Definition EffectiveDate (b : PriceBlock) : string := FormatDate (pb_EffectiveFrom b + pb_Zone b).

(** ** Validation

    The problems are collected in lists; the code sorts their text before it joins
    them, so the order they are found in does not show. *)

(** [src/internal/config/config.go:237-248] the rates of one price block *)
Definition validate_rates (targets : gmap string TargetConfig) (key : string)
    (rates : list (string * RateConfig)) : list error :=
  concat (map (λ '(name, rc),
    (if bool_decide (is_Some (targets !! name)) then []
     else [Errorf "pricing %s: unknown target %q" [AStr key; AStr name]]) ++
    (if negb (rc_Free rc) && SFeqb (rc_InputPerMillion rc) f64_zero &&
        SFeqb (rc_OutputPerMillion rc) f64_zero
     then [Errorf "pricing %s: target %q has no rates and is not marked free" [AStr key; AStr name]]
     else []) ++
    (match Rates_Validate (rate_entries (ToRates rc)) (ToRates rc) with
     | Some e => [Errorf "pricing %s: target %q: %v" [AStr key; AStr name; AErr e]]
     | None => []
     end)) rates).

(** [src/internal/config/config.go:225-249] the blocks in turn *)
Fixpoint validate_blocks (targets : gmap string TargetConfig) (seen : gset string)
    (blocks : list PriceBlock) : list error :=
  match blocks with
  | [] => []
  | b :: blocks =>
      if IsZero (pb_EffectiveFrom b) then
        Errorf "pricing: a block has no effective_from" [] :: validate_blocks targets seen blocks
      else
        let key := EffectiveDate b in
        (if bool_decide (key ∈ seen)
         then [Errorf "pricing: two blocks share effective_from %s" [AStr key]] else []) ++
        validate_rates targets key (map_to_list (pb_Rates b)) ++
        validate_blocks targets ({[key]} ∪ seen) blocks
  end.

(** [src/internal/config/config.go:251-261] targets the latest block forgot *)
Definition validate_latest (table : list PriceBlock) : list error :=
  match last table with
  | Some latest =>
      if Nat.ltb 1 (length table) then
        concat (map (λ b,
          concat (map (λ '(name, _),
            if bool_decide (is_Some (pb_Rates latest !! name)) then []
            else [Errorf "pricing: target %q priced in an earlier block but missing from the latest"
                    [AStr name]]) (map_to_list (pb_Rates b))))
          (removelast table))
      else []
  | None => []
  end.

(** [src/internal/config/config.go:218-264] Config.validatePricing *)
Definition validatePricing (c : Config) : list error :=
  let table := pc_Table (c_Pricing c) in
  if Nat.eqb (length table) 0 then []
  else validate_blocks (c_Targets c) ∅ table ++ validate_latest table.

(** [src/internal/config/config.go:266-288] Config.applyQuotaDefaults *)
Definition applyQuotaDefaults (c : Config) : Config :=
  let or (x d : Z) := if x =? 0 then d else x in
  let r := c_Redis c in
  let q := c_Quota c in
  mkConfig (c_Listen c) (c_Providers c) (c_Targets c) (c_Models c) (c_Sink c) (c_Pricing c)
    (mkRedisConfig (redis_Addr r) (redis_Password r) (redis_DB r)
       (or (redis_Timeout r) (100 * Millisecond))
       (if String.eqb (redis_OnUnavailable r) "" then "open" else redis_OnUnavailable r))
    (mkQuotaConfig (or (qc_DefaultMaxOutputTokens q) 4096) (or (qc_LimitsTTL q) (10 * Second))
       (or (qc_FlushInterval q) Second) (or (qc_FlushBuffer q) 8192)
       (or (qc_ResyncInterval q) Minute)).

(** [src/internal/config/config.go:290-322] Config.validateQuota *)
Definition validateQuota (c : Config) : list error :=
  let check (bad : bool) (e : error) : list error := if bad then [e] else [] in
  let r := c_Redis c in
  let q := c_Quota c in
  check (negb (String.eqb (redis_OnUnavailable r) "open" || String.eqb (redis_OnUnavailable r) "closed"))
    (Errorf "redis: on_unavailable must be open or closed, got %q" [AStr (redis_OnUnavailable r)]) ++
  check (redis_Timeout r <? 0) (Errorf "redis: timeout must not be negative" []) ++
  check (redis_DB r <? 0) (Errorf "redis: db must not be negative" []) ++
  check (qc_DefaultMaxOutputTokens q <? 0)
    (Errorf "quota: default_max_output_tokens must not be negative" []) ++
  check (qc_LimitsTTL q <? 0) (Errorf "quota: limits_ttl must not be negative" []) ++
  check (qc_FlushInterval q <? 0) (Errorf "quota: flush_interval must not be negative" []) ++
  check (qc_FlushBuffer q <? 0) (Errorf "quota: flush_buffer must not be negative" []) ++
  check (qc_ResyncInterval q <? 0) (Errorf "quota: resync_interval must be positive" []).

(** [src/internal/config/config.go:175-182] the providers *)
Definition validate_providers (providers : gmap string ProviderConfig) : list error :=
  concat (map (λ '(name, p),
    (if String.eqb (pv_Type p) "oaicompat" then []
     else [Errorf "provider %q: unknown type %q" [AStr name; AStr (pv_Type p)]]) ++
    (if String.eqb (pv_BaseURL p) ""
     then [Errorf "provider %q: base_url is required" [AStr name]] else []))
    (map_to_list providers)).

(** [src/internal/config/config.go:184-191] the targets *)
Definition validate_targets (c : Config) : list error :=
  concat (map (λ '(name, t),
    (if bool_decide (is_Some (c_Providers c !! tg_Provider t)) then []
     else [Errorf "target %q: unknown provider %q" [AStr name; AStr (tg_Provider t)]]) ++
    (if String.eqb (tg_Model t) ""
     then [Errorf "target %q: model is required" [AStr name]] else []))
    (map_to_list (c_Targets c))).

(** [src/internal/config/config.go:193-202] the models *)
Definition validate_models (c : Config) : list error :=
  concat (map (λ '(alias, ladder),
    (if Nat.eqb (length ladder) 0 then [Errorf "model %q: empty ladder" [AStr alias]] else []) ++
    concat (map (λ tn,
      if bool_decide (is_Some (c_Targets c !! tn)) then []
      else [Errorf "model %q: unknown target %q" [AStr alias; AStr tn]]) ladder))
    (map_to_list (c_Models c))).

(** [src/internal/config/config.go:165-216] Config.validate *)
Definition validate (c : Config) : option error :=
  let errs :=
    (if Nat.eqb (size (c_Providers c)) 0 then [Errorf "no providers defined" []] else []) ++
    (if Nat.eqb (size (c_Models c)) 0
     then [Errorf "no models defined; clients would have nothing to request" []] else []) ++
    validate_providers (c_Providers c) ++ validate_targets c ++ validate_models c ++
    (if String.eqb (sink_DSN (c_Sink c)) ""
     then [Errorf "sink: dsn is required; go-route needs Postgres to authenticate and to record spend" []]
     else []) ++
    validatePricing c ++ validateQuota c in
  if Nat.ltb 0 (length errs)
  then Some (Errorf "config: invalid:\n  - %s" (map AErr errs))
  else None.

(** ** What a valid configuration guarantees *)

Lemma app_nil2 {A} (l k : list A) : l ++ k = [] ↔ l = [] ∧ k = [].
Proof. split; [apply app_eq_nil|by intros [-> ->]]. Qed.

Lemma concat_map_nil {A B} (f : A → list B) l :
  concat (map f l) = [] ↔ ∀ x, x ∈ l → f x = [].
Proof.
  induction l as [|x l IH]; simpl; [split; [intros _ x []%elem_of_nil|done]|].
  rewrite app_nil2, IH. split.
  - intros [Hx Hl] y [->|Hy]%elem_of_cons; auto.
  - intros H. split; [apply H; by left|]. intros y Hy. apply H. by right.
Qed.

Record config_wf (c : Config) : Prop := {
  cw_models : c_Models c ≠ ∅;
  cw_ladders : ∀ alias l, c_Models c !! alias = Some l →
    l ≠ [] ∧ ∀ tn, tn ∈ l → is_Some (c_Targets c !! tn);
  cw_targets : ∀ name t, c_Targets c !! name = Some t →
    is_Some (c_Providers c !! tg_Provider t) ∧ tg_Model t ≠ "";
  cw_providers : ∀ name p, c_Providers c !! name = Some p →
    pv_Type p = "oaicompat" ∧ pv_BaseURL p ≠ "";
}.

Lemma validate_wf c : validate c = None → config_wf c.
Proof.
  unfold validate. case_match eqn:E; [done|]. intros _.
  apply Nat.ltb_ge, Nat.le_0_r, length_zero_iff_nil in E. rewrite !app_nil2 in E.
  destruct E as (_ & Hm & Hp & Ht & Hmo & _). split.
  - intros Hem. rewrite Hem, map_size_empty in Hm. done.
  - intros alias l Hl. unfold validate_models in Hmo. rewrite concat_map_nil in Hmo.
    specialize (Hmo (alias, l)). rewrite elem_of_map_to_list in Hmo.
    apply Hmo, app_nil2 in Hl as [H1 H2]. split.
    + by intros ->.
    + intros tn Htn. rewrite concat_map_nil in H2. specialize (H2 tn Htn).
      by case_bool_decide.
  - intros name t Hn. unfold validate_targets in Ht. rewrite concat_map_nil in Ht.
    specialize (Ht (name, t)). rewrite elem_of_map_to_list in Ht.
    apply Ht, app_nil2 in Hn as [H1 H2]. split; [by case_bool_decide|].
    destruct (String.eqb_spec (tg_Model t) ""); [done|done].
  - intros name p Hn. unfold validate_providers in Hp. rewrite concat_map_nil in Hp.
    specialize (Hp (name, p)). rewrite elem_of_map_to_list in Hp.
    apply Hp, app_nil2 in Hn as [H1 H2].
    destruct (String.eqb_spec (pv_Type p) "oaicompat"); [|done].
    by destruct (String.eqb_spec (pv_BaseURL p) "").
Qed.
