(* ===== verification/Pricing.v ===== *)
(** The price table and the pricer: [internal/adapters/outbound/pricing/table.go] and
    [internal/usecases/pricing]. *)
From S2P Require Import Prelude Sorting Errors Money Records Config.

(** ** The table *)

(** [src/internal/adapters/outbound/pricing/table.go:13-17] block *)
Record block := mkBlock {
  bl_from : time;
  bl_version : string;
  bl_rates : gmap string Rates;
}.

(** [src/internal/adapters/outbound/pricing/table.go:19-21] Table *)
Record Table := mkTable { tb_blocks : list block }.

Definition from_less (a b : block) : bool := Before (bl_from a) (bl_from b).

(** [src/internal/adapters/outbound/pricing/table.go:27-37] one block of the configuration *)
Definition block_of (b : PriceBlock) : block :=
  mkBlock (pb_EffectiveFrom b) (EffectiveDate b) (ToRates <$> pb_Rates b).

(** [src/internal/adapters/outbound/pricing/table.go:25-41] NewTable *)
Definition NewTable (cfg : list PriceBlock) : Table :=
  mkTable (sort_slice from_less (map block_of cfg)).

(** [src/internal/adapters/outbound/pricing/table.go:48-59] the search from the newest block *)
Fixpoint latest_from (at_ : time) (target : string) (blocks : list block)
    : option (result error (Rates * string)) :=
  match blocks with
  | [] => None
  | b :: blocks =>
      if After (bl_from b) at_ then latest_from at_ target blocks
      else Some match bl_rates b !! target with
                | None => Err (Errorf "%w: target %q not in price table %s"
                                 [AWrap ErrNoPricing; AStr target; AStr (bl_version b)])
                | Some r => Ok (r, bl_version b)
                end
  end.

(** [src/internal/adapters/outbound/pricing/table.go:43-63] Table.RatesAt *)
Definition RatesAt (t : Table) (at_ : time) (target : string) : result error (Rates * string) :=
  match tb_blocks t with
  | [] => Err ErrNoPricing
  | b0 :: _ =>
      match latest_from at_ target (rev (tb_blocks t)) with
      | Some r => r
      | None => Err (Errorf "%w: %s predates the earliest price table (%s)"
                       [AWrap ErrNoPricing; ATime at_; AStr (bl_version b0)])
      end
  end.

(** ** The pricer *)

(** [src/internal/usecases/pricing/pricer.go:11-18] Pricer *)
Record Pricer := mkPricer {
  pr_table : time → string → result error (Rates * string);
  pr_compare : list string;
}.

(** [src/internal/usecases/pricing/pricer.go:56-80] Pricer.comparisonTargets

    The set's elements are sorted, so the order they are taken from the map in does not
    show. *)
Definition comparisonTargets (p : Pricer) (d : RoutingDecision) (chosen : string) : list string :=
  let add (seen : gset string) (name : string) : gset string :=
    if String.eqb name "" || String.eqb name chosen then seen else {[name]} ∪ seen in
  let seen := foldl (λ seen ref, add seen (ref_Name ref)) ∅ (ladder_Targets (d_Ladder d)) in
  let seen := foldl add seen (pr_compare p) in
  sort_strings (elements seen).

(** [src/internal/usecases/pricing/pricer.go:42-54] Pricer.addCounterfactuals *)
Definition addCounterfactuals (p : Pricer) (d : RoutingDecision) (chosen : string)
    (cb : CostBreakdown) : CostBreakdown :=
  foldl (λ cb target,
    match pr_table p (d_OccurredAt d) target with
    | Err _ => mkCostBreakdown (Actual cb) (PriceTableVersion cb) (Counterfactuals cb)
                 (UnpricedComparisons cb ++ [target])
    | Ok (rates, _) =>
        mkCostBreakdown (Actual cb) (PriceTableVersion cb)
          (Counterfactuals cb ++ [mkCounterfactual target (Rates_Cost rates (out_Usage (d_Outcome d)))])
          (UnpricedComparisons cb)
    end) cb (comparisonTargets p d chosen).

(** [src/internal/usecases/pricing/pricer.go:20-40] Pricer.Price *)
Definition Price (p : Pricer) (d : RoutingDecision) : option CostBreakdown :=
  let chosen := ChosenTarget (d_Outcome d) in
  if String.eqb chosen "" then None
  else match pr_table p (d_OccurredAt d) chosen with
       | Err _ => None
       | Ok (rates, version) =>
           let cb := mkCostBreakdown (Rates_Cost rates (out_Usage (d_Outcome d))) version [] [] in
           Some (addCounterfactuals p d chosen cb)
       end.

(** [src/internal/usecases/pricing/sink.go:21-24] Sink.Record

    The priced decision the next sink is given. *)
Definition priced (p : Pricer) (d : RoutingDecision) : RoutingDecision :=
  mkRoutingDecision (d_ID d) (d_OccurredAt d) (d_Tenant d) (d_KeyID d) (d_Request d)
    (d_Ladder d) (d_Outcome d) (Price p d).

(** ** Facts *)

#[export] Instance from_less_order : LessOrder from_less.
Proof.
  split; unfold not_after, from_less, Before.
  - intros x y. rewrite !Z.ltb_ge. lia.
  - intros x y z. rewrite !Z.ltb_ge. lia.
Qed.

Lemma latest_from_spec at_ target blocks r :
  StronglySorted (λ x y, bl_from y ≤ bl_from x) blocks →
  latest_from at_ target blocks = Some r →
  ∃ b, b ∈ blocks ∧ bl_from b ≤ at_ ∧ (∀ b', b' ∈ blocks → bl_from b' ≤ at_ → bl_from b' ≤ bl_from b) ∧
    r = match bl_rates b !! target with
        | None => Err (Errorf "%w: target %q not in price table %s"
                         [AWrap ErrNoPricing; AStr target; AStr (bl_version b)])
        | Some r => Ok (r, bl_version b)
        end.
Proof.
  induction blocks as [|b blocks IH]; intros Hs Hl; [done|].
  apply StronglySorted_inv in Hs as [Hs Hb]. rewrite Forall_forall in Hb. simpl in Hl.
  unfold After in Hl. destruct (Z.ltb_spec at_ (bl_from b)) as [Hlt|Hge].
  - destruct (IH Hs Hl) as (b1 & Hin & Hle & Hmax & Hr). exists b1. split_and!; [by right|done| |done].
    intros b' [->|Hb']%elem_of_cons Hle'; [lia|auto].
  - injection Hl as <-. exists b. split_and!; [by left|done| |done].
    intros b' [->|Hb']%elem_of_cons Hle'; [done|by apply Hb].
Qed.

Lemma latest_from_none at_ target blocks :
  latest_from at_ target blocks = None ↔ ∀ b, b ∈ blocks → at_ < bl_from b.
Proof.
  unfold After. induction blocks as [|b blocks IH]; simpl; [split; [intros _ b []%elem_of_nil|done]|].
  unfold After. destruct (Z.ltb_spec at_ (bl_from b)) as [Hlt|Hge].
  - rewrite IH. split; [intros H b' [->|Hb]%elem_of_cons; auto|intros H b' Hb; apply H; by right].
  - split; [done|]. intros H. specialize (H b ltac:(by left)). lia.
Qed.

(** A block of the configuration that is in force at an instant: no other block starts
    later and yet by then. *)
Definition in_force (cfg : list PriceBlock) (at_ : time) (b : PriceBlock) : Prop :=
  b ∈ cfg ∧ pb_EffectiveFrom b ≤ at_ ∧
  ∀ b', b' ∈ cfg → pb_EffectiveFrom b' ≤ at_ → pb_EffectiveFrom b' ≤ pb_EffectiveFrom b.

Lemma NewTable_elem cfg b : b ∈ tb_blocks (NewTable cfg) ↔ ∃ c, c ∈ cfg ∧ b = block_of c.
Proof.
  unfold NewTable. simpl. rewrite sort_slice_elem, list_elem_of_fmap. naive_solver.
Qed.

Lemma NewTable_desc cfg : StronglySorted (λ x y, bl_from y ≤ bl_from x) (rev (tb_blocks (NewTable cfg))).
Proof.
  pose proof (sort_slice_sorted from_less (map block_of cfg)) as Hs.
  unfold NewTable. simpl. induction Hs as [|b l Hs IH Hb]; [constructor|]. simpl.
  apply StronglySorted_app_2; [|done|by constructor; [constructor|]].
  intros x y Hx Hy. apply list_elem_of_singleton in Hy as ->.
  rewrite Forall_forall in Hb.
  assert (Hin : x ∈ l) by (rewrite list_elem_of_In in Hx |- *; by apply in_rev).
  specialize (Hb x Hin). unfold not_after, from_less, Before in Hb. apply Z.ltb_ge in Hb. exact Hb.
Qed.

Lemma in_force_unique cfg at_ b b' :
  NoDup (map pb_EffectiveFrom cfg) → in_force cfg at_ b → in_force cfg at_ b' → b = b'.
Proof.
  intros Hnd (Hb & Hle & Hmax) (Hb' & Hle' & Hmax').
  assert (E : pb_EffectiveFrom b = pb_EffectiveFrom b').
  { specialize (Hmax b' Hb' Hle'). specialize (Hmax' b Hb Hle). lia. }
  apply list_elem_of_lookup in Hb as [i Hi]. apply list_elem_of_lookup in Hb' as [j Hj].
  assert (i = j) as ->; [|congruence].
  apply (NoDup_lookup (map pb_EffectiveFrom cfg) i j (pb_EffectiveFrom b)); [done|..].
  - change (map pb_EffectiveFrom cfg) with (pb_EffectiveFrom <$> cfg). by rewrite list_lookup_fmap, Hi.
  - change (map pb_EffectiveFrom cfg) with (pb_EffectiveFrom <$> cfg).
    by rewrite list_lookup_fmap, Hj, E.
Qed.

(** Which names a decision is compared against. *)
Definition compared (p : Pricer) (d : RoutingDecision) (chosen name : string) : Prop :=
  name ≠ "" ∧ name ≠ chosen ∧
  (name ∈ map ref_Name (ladder_Targets (d_Ladder d)) ∨ name ∈ pr_compare p).

Lemma fold_add_elem {A} (f : A → string) (chosen : string) (l : list A) (seen : gset string) x :
  x ∈ foldl (λ seen a, if String.eqb (f a) "" || String.eqb (f a) chosen then seen
                       else {[f a]} ∪ seen) seen l ↔
  x ∈ seen ∨ (x ≠ "" ∧ x ≠ chosen ∧ x ∈ map f l).
Proof.
  revert seen. induction l as [|a l IH]; intros seen; simpl.
  - rewrite elem_of_nil. tauto.
  - rewrite IH, elem_of_cons.
    destruct (String.eqb_spec (f a) "") as [E1|E1]; simpl; [naive_solver|].
    destruct (String.eqb_spec (f a) chosen) as [E2|E2]; [naive_solver|].
    rewrite elem_of_union, elem_of_singleton. naive_solver.
Qed.

Lemma comparisonTargets_spec p d chosen :
  StronglySorted (not_after string_lt) (comparisonTargets p d chosen) ∧
  NoDup (comparisonTargets p d chosen) ∧
  ∀ x, x ∈ comparisonTargets p d chosen ↔ compared p d chosen x.
Proof.
  unfold comparisonTargets, compared, sort_strings. split_and!.
  - apply sort_slice_sorted, _.
  - rewrite sort_slice_perm. apply NoDup_elements.
  - intros x. rewrite sort_slice_elem, elem_of_elements.
    rewrite (fold_add_elem (λ x, x)), (fold_add_elem ref_Name). rewrite map_id. set_solver.
Qed.

Definition counterfactual_of (p : Pricer) (d : RoutingDecision) (t : string) : option Counterfactual :=
  match pr_table p (d_OccurredAt d) t with
  | Err _ => None
  | Ok (r, _) => Some (mkCounterfactual t (Rates_Cost r (out_Usage (d_Outcome d))))
  end.

Lemma addCounterfactuals_spec p d chosen cb :
  let ts := comparisonTargets p d chosen in
  addCounterfactuals p d chosen cb =
  mkCostBreakdown (Actual cb) (PriceTableVersion cb)
    (Counterfactuals cb ++ omap (counterfactual_of p d) ts)
    (UnpricedComparisons cb ++ filter (λ t, counterfactual_of p d t = None) ts).
Proof.
  intros ts. unfold addCounterfactuals. fold ts. generalize ts. clear ts. intros ts.
  revert cb. induction ts as [|t ts IH]; intros cb; simpl.
  { destruct cb. simpl. by rewrite !app_nil_r. }
  rewrite IH, filter_cons. destruct (pr_table p (d_OccurredAt d) t) as [[r v]|e] eqn:E.
  - assert (Hc : counterfactual_of p d t =
      Some (mkCounterfactual t (Rates_Cost r (out_Usage (d_Outcome d)))))
      by (unfold counterfactual_of; by rewrite E).
    rewrite Hc, decide_False by done. simpl. by rewrite <- app_assoc.
  - assert (Hc : counterfactual_of p d t = None) by (unfold counterfactual_of; by rewrite E).
    rewrite Hc, decide_True by done. simpl. by rewrite <- app_assoc.
Qed.

(** ** Properties *)

(** C15. Prices are looked up as of the request: the rates of a target are those of the
    block in force at the request's instant, that is the latest one not after it, with that
    block's version; a target is unpriced, with an error that is [ErrNoPricing], exactly
    when the block in force does not list it or none is; and the order the blocks are
    written in does not matter, as long as no two of them are of the same instant. *)
Theorem RatesAt_in_force cfg cfg' at_ target :
  NoDup (map pb_EffectiveFrom cfg) → cfg ≡ₚ cfg' →
  RatesAt (NewTable cfg) at_ target = RatesAt (NewTable cfg') at_ target ∧
  match RatesAt (NewTable cfg) at_ target with
  | Ok (r, v) => ∃ b rc, in_force cfg at_ b ∧ pb_Rates b !! target = Some rc ∧
      r = ToRates rc ∧ v = EffectiveDate b
  | Err e => Is e ErrNoPricing = true ∧ ∀ b, in_force cfg at_ b → pb_Rates b !! target = None
  end.
Proof.
  intros Hnd Hp. split.
  { assert (NewTable cfg = NewTable cfg') as ->; [|done]. unfold NewTable. f_equal.
    apply sort_slice_unique; [apply _| |by apply Permutation_map].
    intros x y (b & -> & Hb)%list_elem_of_fmap (b' & -> & Hb')%list_elem_of_fmap.
    unfold from_less, Before. simpl. rewrite !Z.ltb_ge. intros H1 H2. f_equal.
    apply (in_force_unique cfg (pb_EffectiveFrom b)); [done|..]; split_and!; try done; lia || intros; lia. }
  pose proof (NewTable_desc cfg) as Hs.
  assert (Hin : ∀ b, b ∈ rev (tb_blocks (NewTable cfg)) ↔ ∃ c, c ∈ cfg ∧ b = block_of c).
  { intros b. rewrite <- NewTable_elem, !list_elem_of_In, <- in_rev. done. }
  unfold RatesAt. destruct (tb_blocks (NewTable cfg)) as [|b0 bs] eqn:Eb.
  { split; [done|]. intros b (Hb & _). exfalso.
    assert (H : block_of b ∈ rev []) by (apply Hin; eauto). by apply elem_of_nil in H. }
  destruct (latest_from at_ target (rev (b0 :: bs))) as [r|] eqn:El.
  - destruct (latest_from_spec _ _ _ _ Hs El) as (b & Hb & Hle & Hmax & ->).
    apply Hin in Hb as (c & Hc & ->). simpl in Hle.
    assert (Hf : in_force cfg at_ c).
    { split_and!; [done|done|]. intros c' Hc' Hle'.
      apply (Hmax (block_of c')); [apply Hin; eauto|done]. }
    simpl. rewrite lookup_fmap. destruct (pb_Rates c !! target) as [rc|] eqn:Er; simpl.
    + exists c, rc. done.
    + split; [done|]. intros b Hb. by rewrite (in_force_unique cfg at_ b c).
  - split; [done|]. intros b (Hb & Hle & _). exfalso. rewrite latest_from_none in El.
    specialize (El (block_of b)). rewrite Hin in El. specialize (El ltac:(eauto)). simpl in El. lia.
Qed.

(** A breakdown is complete and honest about its gaps: a decision is priced exactly
    when some target served it and had a price, at that target's rates; every other target
    of the ladder and every configured comparison appears once, as a counterfactual at its
    own price or among the unpriced, both sorted by name. *)
Theorem Price_breakdown p d :
  let chosen := ChosenTarget (d_Outcome d) in
  let ts := comparisonTargets p d chosen in
  StronglySorted (not_after string_lt) ts ∧ NoDup ts ∧
  (∀ name, name ∈ ts ↔ compared p d chosen name) ∧
  match Price p d with
  | None => chosen = "" ∨ is_ok (pr_table p (d_OccurredAt d) chosen) = false
  | Some cb => ∃ r v, chosen ≠ "" ∧ pr_table p (d_OccurredAt d) chosen = Ok (r, v) ∧
      Actual cb = Rates_Cost r (out_Usage (d_Outcome d)) ∧ PriceTableVersion cb = v ∧
      Counterfactuals cb = omap (counterfactual_of p d) ts ∧
      UnpricedComparisons cb = filter (λ t, counterfactual_of p d t = None) ts
  end.
Proof.
  intros chosen ts. destruct (comparisonTargets_spec p d chosen) as (Hs & Hn & He).
  split_and!; [done..|]. unfold Price. fold chosen.
  destruct (String.eqb_spec chosen "") as [E|E]; [by left|].
  destruct (pr_table p (d_OccurredAt d) chosen) as [[r v]|e]; [|by right].
  exists r, v. rewrite addCounterfactuals_spec. fold ts. by split_and!.
Qed.

(** ** A table written newest first *)

Definition ex_rate (input output : Z) : RateConfig :=
  mkRateConfig false (f64_of_Z input) (f64_of_Z output) f64_zero f64_zero "".
(** 1 August and 1 September 2026. *)
Definition ex_august : time := 1785542400 * Second.
Definition ex_september : time := 1788220800 * Second.
Definition ex_newest_first : list PriceBlock :=
  [mkPriceBlock ex_september 0 "" {["a" := ex_rate 2 8]};
   mkPriceBlock ex_august 0 "" {["a" := ex_rate 3 9; "b" := ex_rate 1 4]}].
Definition ex_config_of (table : list PriceBlock) : Config :=
  mkConfig ":4000" {["p" := mkProviderConfig "oaicompat" "http://p" "" false ∅]}
    {["a" := mkTargetConfig "p" "a" ""; "b" := mkTargetConfig "p" "b" ""]}
    {["m" := ["a"; "b"]]} (mkSinkSection "postgres://" 0 0 0) (mkPricingConfig [] table)
    (mkRedisConfig "" "" 0 0 "open") (mkQuotaConfig 0 0 0 0 0).

(** The check that the latest price block still lists every target looks at the last
    block written, not the latest in time: with the blocks written newest first a
    configuration whose newest block forgot a target is accepted, and the target loses
    its price from that block on; in chronological order the same blocks are refused. *)
Theorem latest_check_uses_position :
  validate (ex_config_of ex_newest_first) = None ∧
  is_ok (RatesAt (NewTable ex_newest_first) ex_august "b") = true ∧
  is_ok (RatesAt (NewTable ex_newest_first) ex_september "b") = false ∧
  validate (ex_config_of (rev ex_newest_first)) ≠ None.
Proof. split_and!; [vm_compute; reflexivity..|]. vm_compute. discriminate. Qed.

(** ** Witnesses *)

Lemma RatesAt_in_force_witness :
  RatesAt (NewTable ex_newest_first) (ex_september + Hour) "a" =
  RatesAt (NewTable (rev ex_newest_first)) (ex_september + Hour) "a" ∧
  is_ok (RatesAt (NewTable ex_newest_first) (ex_september + Hour) "a") = true.
Proof.
  assert (Hn : NoDup (map pb_EffectiveFrom ex_newest_first))
    by (apply (bool_decide_unpack (NoDup _)); vm_compute; exact I).
  destruct (RatesAt_in_force ex_newest_first (rev ex_newest_first) (ex_september + Hour) "a" Hn
              (Permutation_rev ex_newest_first)) as [E _].
  split; [exact E|vm_compute; reflexivity].
Defined.
