(* ===== verification/Routing.v ===== *)
(** From an alias to dialable targets: [internal/usecases/routing] and the wiring of
    providers in [internal/bootstrap/providers.go]. *)
From S2P Require Import Prelude Sorting Errors Records Config.

(** [src/internal/usecases/routing/table.go:13-19] Table *)
Record RoutingTable := mkRoutingTable {
  rt_ladders : gmap string Ladder;
  rt_aliases : list string;
}.

(** [src/internal/usecases/routing/table.go:21-36] NewTable

    [order] is the order the runtime iterates over the map in. The aliases are kept as
    a list; the code joins them with commas. *)
Fixpoint check_ladders (order : list (string * Ladder)) (names : list string)
    : result error (list string) :=
  match order with
  | [] => Ok names
  | (n, l) :: order =>
      if Ladder_IsEmpty l
      then Err (Errorf "routing: model %q has an empty ladder" [AStr n])
      else check_ladders order (names ++ [n])
  end.
Definition NewRoutingTable (ladders : gmap string Ladder) (order : list (string * Ladder))
    : result error RoutingTable :=
  if Nat.eqb (size ladders) 0 then Err (Errorf "routing: no models configured" [])
  else let! names := check_ladders order [] in
       Ok (mkRoutingTable ladders (sort_strings names)).

(** [src/internal/usecases/routing/table.go:38-48] Table.Route *)
Definition Route (t : RoutingTable) (facts : RequestFacts) : result error Ladder :=
  match rt_ladders t !! rf_RequestedModel facts with
  | None => Err (Errorf "unknown model %q; available: %s"
                   (AStr (rf_RequestedModel facts) :: map AStr (rt_aliases t)))
  | Some l => Ok l
  end.

Section Routing.
(** A dialable provider client. *)
Context {P : Type}.

(** [src/internal/ports/dispatcher.go:9-13] Target *)
Record Target := mkTarget {
  t_Provider : P;
  t_Model : string;
  t_Ref : TargetRef;
}.

(** [src/internal/ports/dispatcher.go:15-20] Target.String *)
Definition Target_String (t : Target) : string :=
  if String.eqb (ref_Name (t_Ref t)) "" then "unnamed:" +:+ t_Model t else ref_Name (t_Ref t).

(** [src/internal/usecases/routing/resolver.go:10-19] Resolver *)
Record Resolver := mkResolver { rv_providers : gmap string P }.

(** [src/internal/usecases/routing/resolver.go:26-38] the targets of a ladder in turn *)
Fixpoint resolve_refs (r : Resolver) (refs : list TargetRef) : result error (list Target) :=
  match refs with
  | [] => Ok []
  | ref :: refs =>
      match rv_providers r !! ref_Provider ref with
      | None => Err (Errorf "routing: no provider %q for target %q"
                       [AStr (ref_Provider ref); AStr (ref_Name ref)])
      | Some p =>
          let! out := resolve_refs r refs in
          Ok (mkTarget p (ref_UpstreamModel ref) ref :: out)
      end
  end.

(** [src/internal/usecases/routing/resolver.go:21-39] Resolver.Resolve *)
Definition Resolve (r : Resolver) (l : Ladder) : result error (list Target) :=
  resolve_refs r (ladder_Targets l).

(** [src/internal/usecases/routing/build.go:11-19] the refs of the configured targets *)
Definition target_refs (targets : gmap string TargetConfig) : gmap string TargetRef :=
  map_imap (λ name tc, Some (mkTargetRef name (tg_Provider tc) (tg_Model tc) (tg_Region tc))) targets.

Definition zero_TargetRef : TargetRef := mkTargetRef "" "" "" "".

(** [src/internal/usecases/routing/build.go:21-31] the ladders of the configured models *)
Definition ladders_of (c : Config) : gmap string Ladder :=
  map_imap (λ alias names,
    Some (mkLadder (map (λ n, default zero_TargetRef (target_refs (c_Targets c) !! n)) names)
            (mkReason ReasonModelAlias alias "" 0))) (c_Models c).

(** [src/internal/usecases/routing/build.go:9-38] FromConfig *)
Definition FromConfig (c : Config) (providers : gmap string P) (order : list (string * Ladder))
    : result error (RoutingTable * Resolver) :=
  let! table := NewRoutingTable (ladders_of c) order in
  Ok (table, mkResolver providers).

(** *** Wiring *)

(** [oaicompat.New], given the name and the section of a provider. *)
Context (new_provider : string → ProviderConfig → result error P).

(** [src/internal/bootstrap/providers.go:11-38] buildProviders *)
Fixpoint build_providers (order : list (string * ProviderConfig)) (providers : gmap string P)
    : result error (gmap string P) :=
  match order with
  | [] => Ok providers
  | (name, pc) :: order =>
      if String.eqb (pv_Type pc) "oaicompat" then
        match new_provider name pc with
        | Err e => Err (Errorf "provider %q: %w" [AStr name; AWrap e])
        | Ok p => build_providers order (<[name := p]> providers)
        end
      else Err (Errorf "provider %q: unsupported type %q" [AStr name; AStr (pv_Type pc)])
  end.
Definition buildProviders (c : Config) (order : list (string * ProviderConfig))
    : result error (gmap string P) :=
  build_providers order ∅.
End Routing.
Arguments Target P : clear implicits.
Arguments Resolver P : clear implicits.

(** ** Facts *)

Section Facts.
Context {P : Type}.

Lemma check_ladders_ok order names :
  (∀ n l, (n, l) ∈ order → ladder_Targets l ≠ []) → check_ladders order names = Ok (names ++ order.*1).
Proof.
  revert names. induction order as [|[n l] order IH]; intros names Ho; simpl.
  { by rewrite app_nil_r. }
  unfold Ladder_IsEmpty. rewrite bool_decide_false by (apply (Ho n l); by left).
  rewrite IH by (intros n' l' H; apply (Ho n' l'); by right). by rewrite <- app_assoc.
Qed.

Lemma target_refs_lookup targets n :
  target_refs targets !! n =
  (λ tc, mkTargetRef n (tg_Provider tc) (tg_Model tc) (tg_Region tc)) <$> targets !! n.
Proof. unfold target_refs. rewrite map_lookup_imap. by destruct (targets !! n). Qed.

Lemma ladders_of_lookup c alias :
  ladders_of c !! alias =
  (λ names, mkLadder (map (λ n, default zero_TargetRef (target_refs (c_Targets c) !! n)) names)
              (mkReason ReasonModelAlias alias "" 0)) <$> c_Models c !! alias.
Proof. unfold ladders_of. rewrite map_lookup_imap. by destruct (c_Models c !! alias). Qed.

(** A ladder whose targets are configured with known providers resolves, rung by rung. *)
Lemma resolve_known c (r : Resolver P) names :
  (∀ n, n ∈ names → ∃ tc p, c_Targets c !! n = Some tc ∧ rv_providers r !! tg_Provider tc = Some p) →
  ∃ ts, resolve_refs r (map (λ n, default zero_TargetRef (target_refs (c_Targets c) !! n)) names) = Ok ts ∧
    Forall2 (λ t n, ∃ tc, c_Targets c !! n = Some tc ∧ t_Model t = tg_Model tc ∧
      rv_providers r !! tg_Provider tc = Some (t_Provider t) ∧ ref_Name (t_Ref t) = n) ts names.
Proof.
  induction names as [|n names IH]; intros Hn; simpl; [by exists []|].
  destruct (Hn n) as (tc & p & Htc & Hp); [by left|].
  destruct IH as (ts & Hts & Hf); [intros m Hm; apply Hn; by right|].
  rewrite target_refs_lookup, Htc. simpl. rewrite Hp. simpl in Hts |- *. rewrite Hts. simpl.
  eexists. split; [reflexivity|]. constructor; [|done]. exists tc. done.
Qed.

Context (new_provider : string → ProviderConfig → result error P).

(** A wiring that goes through gives every name the client of its own section, and one section
    that no client can be made of stops it. *)
Lemma build_providers_ok order providers :
  NoDup order.*1 →
  (∀ name pc, (name, pc) ∈ order → pv_Type pc = "oaicompat" ∧ is_ok (new_provider name pc) = true) →
  ∃ m, build_providers new_provider order providers = Ok m ∧
    (∀ name pc, (name, pc) ∈ order → ∃ p, new_provider name pc = Ok p ∧ m !! name = Some p) ∧
    (∀ name, name ∉ order.*1 → m !! name = providers !! name).
Proof.
  revert providers. induction order as [|[name pc] order IH]; intros providers Hnd Ho; simpl in *.
  { exists providers. split; [done|]. split; [by intros ?? ?%elem_of_nil|done]. }
  apply NoDup_cons in Hnd as [Hn Hnd].
  destruct (Ho name pc) as [-> Hok]; [by left|]. simpl.
  destruct (new_provider name pc) as [p|] eqn:Ep; [|done].
  destruct (IH (<[name := p]> providers)) as (m & Hm & Hin & Hout); [done|by intros; apply Ho; right|].
  exists m. split; [done|]. split.
  - intros n pc' [[= -> ->]|H]%elem_of_cons; [|by apply Hin].
    exists p. split; [done|]. by rewrite Hout, lookup_insert_eq.
  - intros n H. rewrite not_elem_of_cons in H. by rewrite Hout, lookup_insert_ne by naive_solver.
Qed.

Lemma build_providers_fails order providers name pc :
  (name, pc) ∈ order → is_ok (new_provider name pc) = false →
  is_ok (build_providers new_provider order providers) = false.
Proof.
  revert providers. induction order as [|[n q] order IH]; intros providers Hin Hf; [by apply elem_of_nil in Hin|].
  simpl. destruct (String.eqb _ _); [|done].
  apply elem_of_cons in Hin as [[= -> ->]|Hin]; [by destruct (new_provider n q)|].
  destruct (new_provider n q); [by apply IH|done].
Qed.

(** A valid configuration whose providers can all be made has its ladders and its clients: every
    alias of it, and no other, goes to the targets it names, each with its own client. *)
Lemma valid_config_routes c (porder : list (string * ProviderConfig)) (lorder : list (string * Ladder)) :
  config_wf c →
  (∀ name pc, c_Providers c !! name = Some pc → is_ok (new_provider name pc) = true) →
  porder ≡ₚ map_to_list (c_Providers c) → lorder ≡ₚ map_to_list (ladders_of c) →
  ∃ providers table resolver,
    buildProviders new_provider c porder = Ok providers ∧
    FromConfig c providers lorder = Ok (table, resolver) ∧
    ∀ facts, match c_Models c !! rf_RequestedModel facts with
      | None => is_ok (Route table facts) = false
      | Some names => ∃ l ts, Route table facts = Ok l ∧ Resolve resolver l = Ok ts ∧
          Forall2 (λ t n, ∃ tc, c_Targets c !! n = Some tc ∧ t_Model t = tg_Model tc ∧
            (∃ pc, c_Providers c !! tg_Provider tc = Some pc ∧
              new_provider (tg_Provider tc) pc = Ok (t_Provider t)) ∧ ref_Name (t_Ref t) = n) ts names
      end.
Proof.
  intros [Hm Hl Ht Hp] Hnew Hpo Hlo.
  assert (Hin : ∀ name pc, (name, pc) ∈ porder ↔ c_Providers c !! name = Some pc).
  { intros name pc. by rewrite Hpo, elem_of_map_to_list. }
  destruct (build_providers_ok porder ∅) as (providers & Hb & Hdom & _).
  { rewrite Hpo. apply NoDup_fst_map_to_list. }
  { intros name pc E%Hin. split; [by apply (Hp name)|by apply Hnew]. }
  assert (Hsize : Nat.eqb (size (ladders_of c)) 0 = false).
  { apply Nat.eqb_neq. intros E. apply map_size_empty_iff in E. apply Hm, map_eq. intros alias.
    rewrite lookup_empty. pose proof (ladders_of_lookup c alias) as H. rewrite E, lookup_empty in H.
    by destruct (c_Models c !! alias). }
  exists providers, (mkRoutingTable (ladders_of c) (sort_strings lorder.*1)), (mkResolver providers).
  split; [done|]. split.
  - unfold FromConfig, NewRoutingTable. rewrite Hsize, check_ladders_ok; [done|].
    intros n l E. rewrite Hlo in E. apply elem_of_map_to_list in E.
    rewrite ladders_of_lookup in E. destruct (c_Models c !! n) as [names|] eqn:En; [|done].
    injection E as <-. simpl. destruct (Hl n names En) as [Hne _]. by destruct names.
  - intros facts. unfold Route. simpl. rewrite ladders_of_lookup.
    destruct (c_Models c !! rf_RequestedModel facts) as [names|] eqn:En; simpl; [|done].
    destruct (Hl _ names En) as [_ Hknown].
    destruct (resolve_known c (mkResolver providers) names) as (ts & Hts & Hf).
    { intros n Hn. destruct (Hknown n Hn) as [tc Htc]. destruct (Ht n tc Htc) as [[pc Hpc] _].
      destruct (Hdom (tg_Provider tc) pc) as (p & _ & Hp'); [by apply Hin|]. exists tc, p. done. }
    eexists _, ts. split; [reflexivity|]. split; [exact Hts|].
    eapply Forall2_impl; [exact Hf|]. intros t n (tc & Htc & Hmo & Hpr & Hr). exists tc. split_and!; [done..| |done].
    destruct (Ht n tc Htc) as [[pc Hpc] _]. exists pc. split; [done|].
    destruct (Hdom (tg_Provider tc) pc) as (p & Hp' & E); [by apply Hin|]. simpl in Hpr. congruence.
Qed.
End Facts.

(** ** An example *)

Definition ex_routes : Config :=
  mkConfig ":4000" {["p" := mkProviderConfig "oaicompat" "http://p/" "" false ∅]}
    {["fast" := mkTargetConfig "p" "gpt-5-mini" ""; "big" := mkTargetConfig "p" "gpt-5" "eu"]}
    {["chat" := ["fast"; "big"]]} (mkSinkSection "postgres://" 0 0 0) (mkPricingConfig [] [])
    (mkRedisConfig "" "" 0 0 "open") (mkQuotaConfig 0 0 0 0 0).

Definition ex_facts (model : string) : RequestFacts :=
  mkRequestFacts "default" uuid_Nil ∅ model false false 0 (Money.mkPromptSize 0 0 0) 0 0.
