(* ===== verification/Dispatch.v ===== *)
(** The dispatcher of [internal/usecases/dispatch/dispatch.go]: it walks a ladder of
    targets, relays the first stream that yields an event and stops there.

    Providers, stream readers, the client and the clock are one environment [X] that each
    call may change; the calls made, with their answers, are kept in a log so that
    theorems can speak about the order of effects. *)
From S2P Require Import Prelude Errors Money Records Routing.

(** [src/internal/ports/provider_request.go:3-10] ProviderRequest *)
Record ProviderRequest := mkProviderRequest {
  preq_Model : string;
  preq_Body : string;
  preq_Stream : bool;
  preq_WantsUsage : bool;
}.

(** [src/internal/ports/provider.go:23-32] StreamEvent *)
Record StreamEvent := mkStreamEvent {
  ev_Raw : string;
  ev_Usage : option TokenUsage;
  ev_Terminal : bool;
  ev_UsageOnly : bool;
}.

#[export] Instance StreamEvent_eq_dec : EqDecision StreamEvent.
Proof. solve_decision. Defined.

(** [src/internal/ports/provider.go:11-21] Provider, StreamReader

    With [src/internal/ports/client_stream.go] and the clock. [P] is a provider client and
    [R] an open reader. *)
Class Environment (X P R : Type) := {
  Now : X → X * time;
  Stream : X → P → ProviderRequest → X * result error R;
  Next : X → R → X * result error StreamEvent;
  CloseReader : X → R → X;
  Commit : X → X * option error;
  Send : X → StreamEvent → X * option error;
  SendError : X → error → X * option error;
}.

(** What the dispatcher did, in order. *)
Inductive action :=
| DidStream (target : string) (model : string) (opened : bool)
| DidNext (r : result error StreamEvent)
| DidCommit (err : option error)
| DidSend (ev : StreamEvent) (err : option error)
| DidSendError (e : error)
| DidClose.

Section Dispatch.
Context {X P R : Type} `{Environment X P R}.

(** The environment and the log. *)
Definition state : Type := X * list action.

Definition do_now (st : state) : state * time :=
  let '(x, t) := Now st.1 in ((x, st.2), t).
Definition do_stream (st : state) (t : Target P) (req : ProviderRequest) : state * result error R :=
  let '(x, r) := Stream st.1 (t_Provider t) req in
  ((x, st.2 ++ [DidStream (Target_String t) (preq_Model req) (is_ok r)]), r).
Definition do_next (st : state) (r : R) : state * result error StreamEvent :=
  let '(x, ev) := Next st.1 r in ((x, st.2 ++ [DidNext ev]), ev).
Definition do_close (st : state) (r : R) : state := (CloseReader st.1 r, st.2 ++ [DidClose]).
Definition do_commit (st : state) : state * option error :=
  let '(x, e) := Commit st.1 in ((x, st.2 ++ [DidCommit e]), e).
Definition do_send (st : state) (ev : StreamEvent) : state * option error :=
  let '(x, e) := Send st.1 ev in ((x, st.2 ++ [DidSend ev e]), e).
Definition do_send_error (st : state) (err : error) : state :=
  ((SendError st.1 err).1, st.2 ++ [DidSendError err]).

(** [src/internal/usecases/dispatch/dispatch.go:195-197] msBetween *)
Definition msBetween (from to : time) : Z := Milliseconds (Sub to from).

(** [src/internal/usecases/dispatch/dispatch.go:149-159] retryable *)
Definition retryable (err : error) : bool :=
  if Is err context_Canceled || Is err context_DeadlineExceeded then false
  else match as_provider err with Some pe => pe_Retryable pe | None => true end.

(** [src/internal/usecases/dispatch/dispatch.go:162-185] the failure recorded for an error *)
Definition failure_of (err : error) : AttemptFailure :=
  let failure :=
    match as_provider err with
    | Some pe => mkAttemptFailure (FailureKind_String (pe_Kind pe)) (pe_StatusCode pe)
                   (pe_Message pe) (pe_Retryable pe)
    | None => mkAttemptFailure (FailureKind_String FailureUnknown) 0 (TErr err) true
    end in
  if Is err context_Canceled
  then mkAttemptFailure "client_disconnect" (af_StatusCode failure) (af_Message failure) false
  else if Is err context_DeadlineExceeded
  then mkAttemptFailure (FailureKind_String FailureTimeout) (af_StatusCode failure)
         (af_Message failure) false
  else failure.

(** [src/internal/usecases/dispatch/dispatch.go:161-193] Dispatcher.failedAttempt *)
Definition failedAttempt (st : state) (t : Target P) (startedAt : time) (err : error)
    : state * Attempt :=
  let '(st, now) := do_now st in
  (st, mkAttempt (Target_String t) startedAt (msBetween startedAt now) (Some (failure_of err))).

Definition set_status (o : Outcome) (s : Status) : Outcome :=
  mkOutcome s (out_Attempts o) (out_Usage o) (out_TTFTMs o) (out_TotalMs o).
Definition set_usage (o : Outcome) (u : option TokenUsage) : Outcome :=
  match u with
  | None => o
  | Some u => mkOutcome (out_Status o) (out_Attempts o) u (out_TTFTMs o) (out_TotalMs o)
  end.
Definition add_attempt (o : Outcome) (a : Attempt) : Outcome :=
  mkOutcome (out_Status o) (out_Attempts o ++ [a]) (out_Usage o) (out_TTFTMs o) (out_TotalMs o).
Definition set_ttft (o : Outcome) (ms : Z) : Outcome :=
  mkOutcome (out_Status o) (out_Attempts o) (out_Usage o) ms (out_TotalMs o).
Definition set_total (o : Outcome) (ms : Z) : Outcome :=
  mkOutcome (out_Status o) (out_Attempts o) (out_Usage o) (out_TTFTMs o) ms.

(** [src/internal/usecases/dispatch/dispatch.go:100-147] Dispatcher.relay

    [fuel] bounds the number of events; [None] when it runs out. *)
Fixpoint relay (fuel : nat) (st : state) (rd : R) (ev : StreamEvent) (req : ProviderRequest)
    (outcome : Outcome) : option (state * Outcome) :=
  match fuel with
  | O => None
  | S fuel =>
      let outcome := set_usage outcome (ev_Usage ev) in
      let skip := ev_UsageOnly ev && negb (preq_WantsUsage req) in
      let '(st, sent) := if skip then (st, None) else do_send st ev in
      match sent with
      | Some _ => Some (st, set_status outcome StatusClientDisconnect)
      | None =>
          if ev_Terminal ev then Some (st, set_status outcome StatusOK)
          else
            match do_next st rd with
            | (st, Ok ev) => relay fuel st rd ev req outcome
            | (st, Err err) =>
                if Is err io_EOF then Some (st, set_status outcome StatusOK)
                else if Is err context_Canceled || Is err context_DeadlineExceeded
                then Some (st, set_status outcome StatusClientDisconnect)
                else Some (do_send_error st err, set_status outcome StatusTruncated)
            end
      end
  end.

(** How an attempt ends: the ladder is over, or the next target may be tried. *)
Inductive tried := Done | Failed (err : error).

(** [src/internal/usecases/dispatch/dispatch.go:57-98] Dispatcher.tryTarget *)
Definition tryTarget (fuel : nat) (st : state) (target : Target P) (req : ProviderRequest)
    (outcome : Outcome) (start attemptStart : time) : option (state * Outcome * tried) :=
  let attemptReq := mkProviderRequest (t_Model target) (preq_Body req) (preq_Stream req)
                      (preq_WantsUsage req) in
  match do_stream st target attemptReq with
  | (st, Err err) => Some (st, outcome, Failed err)
  | (st, Ok rd) =>
      match do_next st rd with
      | (st, Err err) => Some (do_close st rd, outcome, Failed err)
      | (st, Ok first) =>
          let '(st, t1) := do_now st in
          let outcome := set_ttft outcome (msBetween start t1) in
          let '(st, t2) := do_now st in
          let outcome :=
            add_attempt outcome
              (mkAttempt (Target_String target) attemptStart (msBetween attemptStart t2) None) in
          match do_commit st with
          | (st, Some _) => Some (do_close st rd, set_status outcome StatusClientDisconnect, Done)
          | (st, None) =>
              match relay fuel st rd first req outcome with
              | None => None
              | Some (st, outcome) => Some (do_close st rd, outcome, Done)
              end
          end
      end
  end.

(** [outcome.TotalMs = msBetween(start, d.now())] and return. *)
Definition finish_run (st : state) (outcome : Outcome) (start : time) : state * Outcome :=
  let '(st, now) := do_now st in (st, set_total outcome (msBetween start now)).

(** [src/internal/usecases/dispatch/dispatch.go:35-54] the ladder *)
Fixpoint run_ladder (fuel : nat) (st : state) (ladder : list (Target P)) (req : ProviderRequest)
    (outcome : Outcome) (start : time) : option (state * Outcome) :=
  match ladder with
  | [] => Some (finish_run st (set_status outcome StatusExhausted) start)
  | target :: ladder =>
      let '(st, attemptStart) := do_now st in
      match tryTarget fuel st target req outcome start attemptStart with
      | None => None
      | Some (st, outcome, Done) => Some (finish_run st outcome start)
      | Some (st, outcome, Failed err) =>
          let '(st, a) := failedAttempt st target attemptStart err in
          let outcome := add_attempt outcome a in
          if retryable err then run_ladder fuel st ladder req outcome start
          else Some (finish_run st (set_status outcome StatusExhausted) start)
      end
  end.

Definition zero_Outcome : Outcome := mkOutcome "" [] zero_TokenUsage 0 0.

(** [src/internal/usecases/dispatch/dispatch.go:25-55] Dispatcher.Run *)
Definition Run (fuel : nat) (x : X) (ladder : list (Target P)) (req : ProviderRequest)
    : option (state * Outcome) :=
  let '(st, start) := do_now (x, []) in
  run_ladder fuel st ladder req zero_Outcome start.

(** [src/internal/usecases/dispatch/dispatch.go:199-207] Validate *)
Definition Dispatch_Validate (o : Outcome) : option error :=
  if String.eqb (out_Status o) "" then Some (Errorf "outcome has no status" [])
  else if String.eqb (out_Status o) StatusExhausted && negb (out_TTFTMs o =? 0)
  then Some (Errorf "exhausted outcome has a first-token time" [])
  else None.
End Dispatch.
