(* ===== verification/DispatchProps.v ===== *)
(** What a dispatch does: how far it walks the ladder, what the client is sent and when,
    what usage is charged, and that it ends. *)
From S2P Require Import Prelude Errors Money Records Routing Dispatch.

(** ** Reading a log *)

Definition reads (log : list action) : list StreamEvent :=
  omap (λ a, match a with DidNext (Ok ev) => Some ev | _ => None end) log.
Definition sends (log : list action) : list StreamEvent :=
  omap (λ a, match a with DidSend ev _ => Some ev | _ => None end) log.
Definition tally (p : action → bool) (log : list action) : nat := length (List.filter p log).
Definition is_commit (a : action) : bool := match a with DidCommit _ => true | _ => false end.
Definition is_stream (a : action) : bool := match a with DidStream _ _ _ => true | _ => false end.
Definition is_open (a : action) : bool := match a with DidStream _ _ true => true | _ => false end.
Definition is_close (a : action) : bool := match a with DidClose => true | _ => false end.

Lemma reads_app l k : reads (l ++ k) = reads l ++ reads k.
Proof. apply omap_app. Qed.
Lemma sends_app l k : sends (l ++ k) = sends l ++ sends k.
Proof. apply omap_app. Qed.
Lemma tally_app p l k : tally p (l ++ k) = (tally p l + tally p k)%nat.
Proof. unfold tally. by rewrite List.filter_app, length_app. Qed.

(** Nothing reached the client, and every reader that was opened was closed. *)
Definition quiet (log : list action) : Prop :=
  reads log = [] ∧ sends log = [] ∧ tally is_commit log = 0%nat ∧
  tally is_open log = tally is_close log.

(** Only events and sends. *)
Definition relaying (log : list action) : Prop :=
  tally is_stream log = 0%nat ∧ tally is_commit log = 0%nat ∧ tally is_close log = 0%nat.

Lemma quiet_app l k : quiet l → quiet k → quiet (l ++ k).
Proof.
  intros (? & ? & ? & ?) (? & ? & ? & ?).
  unfold quiet. rewrite reads_app, sends_app, !tally_app.
  split_and!; [by rewrite H, H3|by rewrite H0, H4|lia|lia].
Qed.

(** What the client is shown: everything but the usage chunk it did not ask for. *)
Definition forwarded (req : ProviderRequest) (ev : StreamEvent) : Prop :=
  ev_UsageOnly ev = false ∨ preq_WantsUsage req = true.

#[export] Instance forwarded_dec req ev : Decision (forwarded req ev).
Proof. unfold forwarded. apply _. Defined.

Lemma skip_forwarded req ev :
  ev_UsageOnly ev && negb (preq_WantsUsage req) = true ↔ ¬ forwarded req ev.
Proof.
  unfold forwarded. destruct (ev_UsageOnly ev), (preq_WantsUsage req); simpl; naive_solver.
Qed.

(** The usage charged for some events: the last one reported. *)
Definition last_usage (u : TokenUsage) (evs : list StreamEvent) : TokenUsage :=
  default u (last (omap ev_Usage evs)).

Lemma last_usage_cons u ev evs :
  last_usage u (ev :: evs) = last_usage (default u (ev_Usage ev)) evs.
Proof.
  unfold last_usage.
  change (omap ev_Usage (ev :: evs)) with
    (match ev_Usage ev with Some v => v :: omap ev_Usage evs | None => omap ev_Usage evs end).
  destruct (ev_Usage ev) as [v|]; [|done].
  rewrite last_cons. by destruct (last (omap ev_Usage evs)).
Qed.

Definition attempt_retryable (a : Attempt) : bool :=
  match at_Failure a with Some f => af_Retryable f | None => false end.

Lemma failure_retryable err : af_Retryable (failure_of err) = retryable err.
Proof.
  unfold failure_of, retryable. destruct (Is err context_Canceled); [done|].
  destruct (Is err context_DeadlineExceeded); [done|]. by destruct (as_provider err).
Qed.

Section Facts.
Context {X P R : Type} `{Environment X P R}.
Implicit Types (st : state (X := X)).

Lemma do_now_log st : (do_now st).1.2 = st.2.
Proof. unfold do_now. by destruct (Now st.1). Qed.

(** ** One relay *)

(** The client is sent the event, where it is one to forward. *)
Lemma send_spec st ev req :
  ∃ st1 head sent,
    (if ev_UsageOnly ev && negb (preq_WantsUsage req) then (st, None) else do_send st ev) = (st1, sent) ∧
    st1.2 = st.2 ++ head ∧ relaying head ∧ reads head = [] ∧ sends head = filter (forwarded req) [ev].
Proof.
  destruct (ev_UsageOnly ev && negb (preq_WantsUsage req)) eqn:Es.
  - exists st, [], None. split_and!; [done|by rewrite app_nil_r|done|done|].
    rewrite filter_cons_False by (by apply skip_forwarded). done.
  - unfold do_send. destruct (Send st.1 ev) as [x e]. exists (x, st.2 ++ [DidSend ev e]), [DidSend ev e], e.
    split_and!; [done..|]. rewrite filter_cons_True; [done|].
    destruct (decide (forwarded req ev)) as [|Hn]; [done|]. apply skip_forwarded in Hn. congruence.
Qed.

Lemma relay_spec fuel st rd ev req o st' o' :
  relay fuel st rd ev req o = Some (st', o') →
  out_Attempts o' = out_Attempts o ∧ out_TTFTMs o' = out_TTFTMs o ∧
  out_Status o' ∈ [StatusOK; StatusClientDisconnect; StatusTruncated] ∧
  ∃ tail, st'.2 = st.2 ++ tail ∧ relaying tail ∧
    sends tail = filter (forwarded req) (ev :: reads tail) ∧
    out_Usage o' = last_usage (out_Usage o) (ev :: reads tail).
Proof.
  revert st ev o. induction fuel as [|fuel IH]; intros st ev o Hr; [done|]. cbn [relay] in Hr.
  assert (Ho : out_Attempts (set_usage o (ev_Usage ev)) = out_Attempts o ∧
               out_TTFTMs (set_usage o (ev_Usage ev)) = out_TTFTMs o ∧
               out_Usage (set_usage o (ev_Usage ev)) = default (out_Usage o) (ev_Usage ev))
    by by destruct (ev_Usage ev).
  destruct Ho as (Ho1 & Ho2 & Ho3). revert Hr.
  set (o1 := set_usage o (ev_Usage ev)) in *.
  destruct (send_spec st ev req) as (st1 & head & sent & -> & Hlog & Hrel & Hreads & Hsends).
  (* an outcome reached without reading another event *)
  assert (Hstop : ∀ tail, reads tail = [] → sends tail = [] → relaying tail →
    ∃ t, st1.2 ++ tail = st.2 ++ t ∧ relaying t ∧ sends t = filter (forwarded req) (ev :: reads t) ∧
      out_Usage o1 = last_usage (out_Usage o) (ev :: reads t)).
  { intros tail E1 E2 (? & ? & ?). exists (head ++ tail). rewrite Hlog, <- app_assoc.
    destruct Hrel as (? & ? & ?). unfold relaying.
    rewrite reads_app, sends_app, !tally_app, Hreads, E1, E2, Hsends, app_nil_r.
    split_and!; try done; try lia. rewrite last_usage_cons, Ho3. done. }
  destruct sent as [err|].
  - intros [= <- <-]. split_and!; simpl; [done|done|set_solver|].
    specialize (Hstop []). rewrite app_nil_r in Hstop. by apply Hstop.
  - destruct (ev_Terminal ev).
    + intros [= <- <-]. split_and!; simpl; [done|done|set_solver|].
      specialize (Hstop []). rewrite app_nil_r in Hstop. by apply Hstop.
    + unfold do_next. destruct (Next st1.1 rd) as [x nx]. destruct nx as [ev2|err].
      * intros Hr. apply IH in Hr as (E1 & E2 & E3 & tail & Ht & Hrt & Hst & Hu).
        split_and!; [congruence|congruence|done|].
        exists (head ++ DidNext (Ok ev2) :: tail). simpl in Ht.
        destruct Hrel as (? & ? & ?), Hrt as (? & ? & ?). split_and!.
        -- rewrite Ht, Hlog, <- !app_assoc. done.
        -- change (DidNext (Ok ev2) :: tail) with ([DidNext (Ok ev2)] ++ tail).
           unfold relaying. rewrite !tally_app. unfold tally at 2 5 8. simpl. split_and!; lia.
        -- rewrite sends_app, reads_app, Hreads, Hsends. simpl. rewrite Hst.
           by rewrite (filter_app (forwarded req) [ev] (ev2 :: reads tail)).
        -- rewrite reads_app, Hreads. simpl. rewrite last_usage_cons, <- Ho3. done.
      * destruct (Is err io_EOF); [|destruct (Is err context_Canceled || Is err context_DeadlineExceeded)];
          intros [= <- <-]; (split_and!; simpl; [done|done|set_solver|]).
        -- by apply (Hstop [DidNext (Err err)]).
        -- by apply (Hstop [DidNext (Err err)]).
        -- rewrite <- app_assoc. by apply (Hstop [DidNext (Err err); DidSendError err]).
Qed.

(** ** One attempt *)

(** The log of the attempt that ended the ladder, and what it charged. *)
Definition served_log (req : ProviderRequest) (u : TokenUsage) (log : list action) (o : Outcome) : Prop :=
  ∃ s m ev e tail,
    log = DidStream s m true :: DidNext (Ok ev) :: DidCommit e :: tail ++ [DidClose] ∧
    relaying tail ∧
    match e with
    | Some _ => tail = [] ∧ out_Status o = StatusClientDisconnect ∧ out_Usage o = u
    | None =>
        sends tail = filter (forwarded req) (ev :: reads tail) ∧
        out_Usage o = last_usage u (ev :: reads tail)
    end.

Lemma tryTarget_spec fuel st t req o start astart st' o' r :
  tryTarget fuel st t req o start astart = Some (st', o', r) →
  ∃ log, st'.2 = st.2 ++ log ∧
  match r with
  | Failed err => o' = o ∧ quiet log
  | Done => served_log req (out_Usage o) log o' ∧
      out_Status o' ∈ [StatusOK; StatusClientDisconnect; StatusTruncated] ∧
      ∃ a, out_Attempts o' = out_Attempts o ++ [a] ∧ at_Target a = Target_String t ∧
           at_Failure a = None
  end.
Proof.
  unfold tryTarget, do_stream. destruct (Stream _ _ _) as [x [rd|err]]; simpl.
  2:{ intros [= <- <- <-]. eexists. split; [reflexivity|]. split; [done|]. by split_and!. }
  unfold do_next. simpl. destruct (Next x rd) as [x1 [ev|err]].
  2:{ intros [= <- <- <-]. unfold do_close. simpl. eexists. rewrite <- !app_assoc.
      split; [reflexivity|]. split; [done|]. by split_and!. }
  unfold do_now at 1. simpl. destruct (Now x1) as [x2 t1]. unfold do_now. simpl.
  destruct (Now x2) as [x3 t2]. unfold do_commit. simpl.
  destruct (Commit x3) as [x4 [e|]].
  - intros [= <- <- <-]. unfold do_close. simpl. eexists. rewrite <- !app_assoc.
    split; [reflexivity|]. split_and!.
    + eexists _, _, ev, (Some e), []. simpl. split_and!; [reflexivity|done..].
    + simpl. set_solver.
    + eexists. by split_and!.
  - destruct (relay _ _ _ _ _ _) as [[st5 o5]|] eqn:Er; [|done]. intros [= <- <- <-].
    apply relay_spec in Er as (Ea & _ & Hs & tail & Ht & Hrel & Hsend & Hu). simpl in *.
    eexists. split; [rewrite Ht, <- !app_assoc; reflexivity|]. split_and!.
    + eexists _, _, ev, None, tail. simpl. split_and!; [reflexivity|done..].
    + done.
    + eexists. split; [exact Ea|]. done.
Qed.

(** ** The ladder *)

Lemma finish_spec (st : state (X := X)) o start :
  (finish_run st o start).1.2 = st.2 ∧ ∃ ms, (finish_run st o start).2 = set_total o ms.
Proof. unfold finish_run, do_now. destruct (Now st.1) as [x t]. simpl. eauto. Qed.

(** What walking a ladder adds to an outcome whose attempts so far all failed. *)
Record walked (ladder : list (Target P)) (o o' : Outcome) : Prop := {
  wk_attempts : ∃ atts, out_Attempts o' = out_Attempts o ++ atts ∧
    (length atts ≤ length ladder)%nat ∧
    map at_Target atts = map Target_String (take (length atts) ladder) ∧
    (∀ i a, atts !! i = Some a → (S i < length atts)%nat → attempt_retryable a = true) ∧
    (out_Status o' = StatusExhausted → Forall (λ a, is_Some (at_Failure a)) atts ∧
       (length atts = length ladder ∨ ∃ a, last atts = Some a ∧ attempt_retryable a = false)) ∧
    (out_Status o' ≠ StatusExhausted → ∃ a, last atts = Some a ∧ at_Failure a = None);
  wk_status : out_Status o' ∈ [StatusExhausted; StatusOK; StatusClientDisconnect; StatusTruncated];
}.

Lemma walked_total ladder o o' ms : walked ladder o o' → walked ladder o (set_total o' ms).
Proof. intros [Ha Hs]. by split. Qed.

Lemma walked_exhausted ladder o :
  walked ladder zero_Outcome o → out_Status o = StatusExhausted → ChosenTarget o = "".
Proof.
  intros [(atts & Ea & _ & _ & _ & Hex & _) _] E. destruct (Hex E) as [Hf _]. unfold ChosenTarget. rewrite Ea. simpl.
  destruct (last atts) as [a|] eqn:El; [|done]. apply last_Some_elem_of in El.
  rewrite Forall_forall in Hf. destruct (Hf a El) as [f ->]. done.
Qed.

Lemma walked_cons (t : Target P) ladder o o' st start err st1 a :
  failedAttempt st t start err = (st1, a) → retryable err = true →
  walked ladder (add_attempt o a) o' → walked (t :: ladder) o o'.
Proof.
  unfold failedAttempt. destruct (do_now st) as [st2 now]. intros [= _ <-] Hr [Ha Hs].
  destruct Ha as (atts & E & Hlen & Ht & Hretry & Hex & Hok). split; [|done].
  eexists (_ :: atts). split; [rewrite E; simpl; by rewrite <- app_assoc|]. simpl.
  split_and!; [lia|by rewrite Ht|..].
  - intros [|i] b Hb Hi; simplify_eq/=.
    + unfold attempt_retryable. simpl. by rewrite failure_retryable.
    + apply (Hretry i b Hb). lia.
  - intros E'. destruct (Hex E') as [Hf Hor]. split; [by constructor|].
    destruct Hor as [->|(b & Hb & Hb')]; [by left|right].
    exists b. split; [|done]. rewrite last_cons. by rewrite Hb.
  - intros E'. destruct (Hok E') as (b & Hb & Hb'). exists b. split; [|done].
    rewrite last_cons. by rewrite Hb.
Qed.

Lemma run_ladder_spec fuel st ladder req o start st' o' :
  run_ladder fuel st ladder req o start = Some (st', o') →
  walked ladder o o' ∧
  ∃ log, st'.2 = st.2 ++ log ∧
    ((quiet log ∧ out_Status o' = StatusExhausted ∧ out_Usage o' = out_Usage o ∧
      out_TTFTMs o' = out_TTFTMs o) ∨
     (out_Status o' ≠ StatusExhausted ∧
      ∃ failed_logs, ∃ final, log = failed_logs ++ final ∧ quiet failed_logs ∧
        served_log req (out_Usage o) final o')).
Proof.
  revert st o. induction ladder as [|t ladder IH]; intros st o Hr; cbn [run_ladder] in Hr.
  { injection Hr as Hr. destruct (finish_spec st (set_status o StatusExhausted) start) as [Hl [ms Ho]].
    rewrite Hr in Hl, Ho. simpl in Hl, Ho. subst o'. split.
    - apply walked_total. split; [|simpl; set_solver]. exists []. simpl. rewrite app_nil_r.
      split_and!; try done. intros _. split; [constructor|by left].
    - exists []. rewrite app_nil_r. split; [done|]. left. by split_and!. }
  pose proof (do_now_log st) as Hnow. destruct (do_now st) as [st0 astart]. simpl in Hnow.
  destruct (tryTarget _ _ _ _ _ _ _) as [[[st1 o1] r]|] eqn:Et; [|done].
  apply tryTarget_spec in Et as (log & Hlog & Hres).
  destruct r as [|err].
  - destruct Hres as (Hserved & Hstatus & a & Ha & Hat & Haf). injection Hr as Hr.
    destruct (finish_spec st1 o1 start) as [Hl [ms Ho]]. rewrite Hr in Hl, Ho. simpl in Hl, Ho.
    subst o'.
    assert (Hne : out_Status o1 ≠ StatusExhausted).
    { intros E. rewrite E in Hstatus. by apply (bool_decide_eq_true_1 _) in Hstatus || set_solver. }
    split.
    + apply walked_total. split; [|simpl; set_solver]. exists [a]. split; [done|]. simpl.
      split_and!; [lia|by rewrite Hat|by intros [|?] ? ? ?; simpl in *; lia|done|eauto].
    + exists log. rewrite Hl, Hlog, Hnow. split; [done|]. right. split; [done|].
      exists [], log. done.
  - destruct Hres as [-> Hq].
    destruct (failedAttempt st1 t astart err) as [st2 a] eqn:Ef.
    assert (Hst2 : st2.2 = st1.2).
    { pose proof (do_now_log st1) as H1. unfold failedAttempt in Ef.
      destruct (do_now st1). by injection Ef as <- _. }
    destruct (retryable err) eqn:Eretry.
    + apply IH in Hr as (Hw & log2 & Hl2 & Hor). split; [by eapply walked_cons|].
      exists (log ++ log2). rewrite Hl2, Hst2, Hlog, Hnow, <- app_assoc. split; [done|].
      destruct Hor as [(Hq2 & ?)|(Hne & fl & final & -> & Hqf & Hfin)].
      * left. split; [by apply quiet_app|done].
      * right. split; [done|]. exists (log ++ fl), final. rewrite app_assoc.
        split_and!; [done|by apply quiet_app|done].
    + injection Hr as Hr.
      destruct (finish_spec st2 (set_status (add_attempt o a) StatusExhausted) start) as [Hl [ms Ho]].
      rewrite Hr in Hl, Ho. simpl in Hl, Ho. subst o'. split.
      * apply walked_total. split; [|simpl; set_solver]. exists [a]. split; [done|].
        unfold failedAttempt in Ef. destruct (do_now st1). injection Ef as _ <-. simpl.
        split_and!; [lia|done|by intros [|?] ? ? ?; simpl in *; lia|..].
        -- intros _. split; [by repeat constructor|]. right. eexists. split; [reflexivity|].
           unfold attempt_retryable. simpl. by rewrite failure_retryable.
        -- done.
      * exists log. rewrite Hl, Hst2, Hlog, Hnow. split; [done|]. left. by split_and!.
Qed.

(** ** What every step keeps *)

Record stable (I : state (X := X) → Prop) : Prop := {
  sb_now st : I st → I (do_now st).1;
  sb_stream st t req : I st → I (do_stream st t req).1;
  sb_next st rd : I st → I (do_next st rd).1;
  sb_close st rd : I st → I (do_close st rd);
  sb_commit st : I st → I (do_commit st).1;
  sb_send st ev : I st → I (do_send st ev).1;
  sb_send_error st err : I st → I (do_send_error st err);
}.

Section Stable.
Context (I : state (X := X) → Prop) (SI : stable I).

Lemma relay_stable fuel st rd ev req o st' o' :
  I st → relay fuel st rd ev req o = Some (st', o') → I st'.
Proof.
  revert st ev o. induction fuel as [|fuel IH]; intros st ev o Hi Hr; [done|]. cbn [relay] in Hr.
  destruct (if ev_UsageOnly ev && negb (preq_WantsUsage req) then (st, None) else do_send st ev) as [st1 sent] eqn:Es.
  assert (H1 : I st1).
  { destruct (_ && _); [by simplify_eq|]. pose proof (sb_send _ SI st ev Hi) as Hs. by rewrite Es in Hs. }
  destruct sent; [by simplify_eq|]. destruct (ev_Terminal ev); [by simplify_eq|].
  pose proof (sb_next _ SI st1 rd H1) as H2. destruct (do_next st1 rd) as [st2 [ev2|err]]; [by eapply IH|].
  simpl in H2. repeat case_match; simplify_eq; first [done|by apply (sb_send_error _ SI)].
Qed.

Lemma tryTarget_stable fuel st t req o start astart st' o' r :
  I st → tryTarget fuel st t req o start astart = Some (st', o', r) → I st'.
Proof.
  intros Hi. unfold tryTarget. set (areq := mkProviderRequest _ _ _ _).
  pose proof (sb_stream _ SI st t areq Hi) as H1. destruct (do_stream st t areq) as [st1 [rd|err]]; [|by intros [= <- _ _]].
  pose proof (sb_next _ SI st1 rd H1) as H2. destruct (do_next st1 rd) as [st2 [ev|err]];
    [|intros [= <- _ _]; by apply (sb_close _ SI)].
  pose proof (sb_now _ SI st2 H2) as H3. destruct (do_now st2) as [st3 t1].
  pose proof (sb_now _ SI st3 H3) as H4. destruct (do_now st3) as [st4 t2].
  pose proof (sb_commit _ SI st4 H4) as H5. destruct (do_commit st4) as [st5 [e|]];
    [intros [= <- _ _]; by apply (sb_close _ SI)|].
  destruct (relay _ _ _ _ _ _) as [[st6 o6]|] eqn:Er; [|done]. intros [= <- _ _].
  apply (sb_close _ SI). by eapply relay_stable.
Qed.

Lemma run_ladder_stable fuel st ladder req o start st' o' :
  I st → run_ladder fuel st ladder req o start = Some (st', o') → I st'.
Proof.
  assert (Hfin : ∀ st o start st' o', I st → finish_run st o start = (st', o') → I st').
  { intros st1 o1 start1 st2 o2 H1. unfold finish_run. pose proof (sb_now _ SI st1 H1) as H2.
    destruct (do_now st1). by intros [= <- _]. }
  revert st o. induction ladder as [|t ladder IH]; intros st o Hi; cbn [run_ladder]; [intros [=]; by eapply Hfin|].
  pose proof (sb_now _ SI st Hi) as H1. destruct (do_now st) as [st1 astart].
  destruct (tryTarget _ _ _ _ _ _ _) as [[[st2 o2] r]|] eqn:Et; [|done].
  apply tryTarget_stable in Et; [|done]. destruct r as [|err]; [intros [=]; by eapply Hfin|].
  unfold failedAttempt. pose proof (sb_now _ SI st2 Et) as H3. destruct (do_now st2) as [st3 now].
  destruct (retryable err); [by apply IH|]. intros [=]. by eapply Hfin.
Qed.

Lemma Run_stable fuel x ladder req st o : I (x, []) → Run fuel x ladder req = Some (st, o) → I st.
Proof.
  intros Hi. unfold Run. pose proof (sb_now _ SI (x, []) Hi) as H1. destruct (do_now (x, [])) as [st0 start].
  by apply run_ladder_stable.
Qed.
End Stable.

(** ** Whole runs *)

Lemma Target_String_nonempty (t : Target P) : Target_String t ≠ "".
Proof. unfold Target_String. destruct (String.eqb_spec (ref_Name (t_Ref t)) ""); done. Qed.

Lemma Run_inv fuel x ladder req st o :
  Run fuel x ladder req = Some (st, o) →
  ∃ st0 start, st0.2 = [] ∧ run_ladder fuel st0 ladder req zero_Outcome start = Some (st, o).
Proof.
  unfold Run. pose proof (do_now_log (x, [])) as Hl. destruct (do_now (x, [])) as [st0 start].
  simpl in Hl. eauto.
Qed.


Lemma last_attempt_target (atts : list Attempt) (ladder : list (Target P)) a :
  map at_Target atts = map Target_String (take (length atts) ladder) → last atts = Some a →
  ∃ t, ladder !! pred (length atts) = Some t ∧ at_Target a = Target_String t.
Proof.
  intros Hm Hl. rewrite last_lookup in Hl.
  assert (Hn : map at_Target atts !! pred (length atts) = Some (at_Target a))
    by (rewrite list_lookup_fmap, Hl; done).
  rewrite Hm, list_lookup_fmap in Hn. apply fmap_Some in Hn as (t & Ht & ->).
  apply lookup_take_Some in Ht as [Ht _]. eauto.
Qed.

(** C13. The attempts a dispatch records are a prefix of its ladder, in order: each target is
    tried only after the one before failed in a way that allows a retry, an exhausted
    dispatch either tried every target or stopped at a failure that forbids a retry, any
    other dispatch ends in the attempt that succeeded, and the outcome passes both of the
    code's own validations. *)
Theorem Run_ladder fuel x ladder req st o :
  Run fuel x ladder req = Some (st, o) →
  (length (out_Attempts o) ≤ length ladder)%nat ∧
  map at_Target (out_Attempts o) = map Target_String (take (length (out_Attempts o)) ladder) ∧
  (∀ i a, out_Attempts o !! i = Some a → (S i < length (out_Attempts o))%nat →
     attempt_retryable a = true) ∧
  (out_Status o = StatusExhausted →
     ChosenTarget o = "" ∧
     (length (out_Attempts o) = length ladder ∨
      ∃ a, last (out_Attempts o) = Some a ∧ attempt_retryable a = false)) ∧
  (out_Status o ≠ StatusExhausted →
     ∃ t, ladder !! pred (length (out_Attempts o)) = Some t ∧ ChosenTarget o = Target_String t) ∧
  Outcome_Validate o = None ∧ Dispatch_Validate o = None.
Proof.
  intros (st0 & start & _ & Hr)%Run_inv. apply run_ladder_spec in Hr as [Hw (log & _ & Hor)].
  pose proof (walked_exhausted _ _ Hw) as Hchosen. destruct Hw as [Ha Hst].
  destruct Ha as (atts & Ea & Hlen & Ht & Hretry & Hex & Hok). simpl in Ea. rewrite Ea in *.
  assert (Hserved : out_Status o ≠ StatusExhausted →
    ∃ t, ladder !! pred (length atts) = Some t ∧ ChosenTarget o = Target_String t).
  { intros E. destruct (Hok E) as (a & El & Hf). unfold ChosenTarget. rewrite Ea, El, Hf.
    by apply last_attempt_target. }
  assert (Httft : out_Status o = StatusExhausted → out_TTFTMs o = 0)
    by (destruct Hor as [(_ & _ & _ & Hm)|[? _]]; [by intros _|done]).
  assert (Hname : String.eqb (out_Status o) "" = false).
  { rewrite !elem_of_cons in Hst. by destruct Hst as [->|[->|[->|[->|[]%not_elem_of_nil]]]]. }
  unfold Outcome_Validate, Dispatch_Validate. rewrite Hname.
  split_and!; [done|done|done|naive_solver|done|..].
  - destruct (String.eqb_spec (out_Status o) StatusExhausted) as [E|E]; simpl.
    + rewrite (Httft E), (Hchosen E). done.
    + destruct (Hserved E) as (t & _ & Hc). rewrite Hc.
      destruct (String.eqb_spec (Target_String t) ""); [by destruct (Target_String_nonempty t)|].
      by rewrite andb_false_r.
  - destruct (String.eqb_spec (out_Status o) StatusExhausted) as [E|E]; simpl; [|done].
    by rewrite (Httft E).
Qed.

(** ** Termination *)

(** The environment has a bounded number of events left to yield; nothing it does adds to
    them. *)
Record finite_world (remaining : X → nat) : Prop := {
  fw_Next : ∀ x rd ev, (Next x rd).2 = Ok ev → (remaining (Next x rd).1 < remaining x)%nat;
  fw_Next_err : ∀ x rd, (remaining (Next x rd).1 ≤ remaining x)%nat;
  fw_Now : ∀ x, (remaining (Now x).1 ≤ remaining x)%nat;
  fw_Stream : ∀ x p r, (remaining (Stream x p r).1 ≤ remaining x)%nat;
  fw_Close : ∀ x rd, (remaining (CloseReader x rd) ≤ remaining x)%nat;
  fw_Commit : ∀ x, (remaining (Commit x).1 ≤ remaining x)%nat;
  fw_Send : ∀ x ev, (remaining (Send x ev).1 ≤ remaining x)%nat;
  fw_SendError : ∀ x e, (remaining (SendError x e).1 ≤ remaining x)%nat;
}.

Section Finite.
Context (remaining : X → nat) (FW : finite_world remaining).

Lemma relay_total n st rd ev req o :
  (remaining st.1 ≤ n)%nat →
  ∃ r, (remaining r.1.1 ≤ remaining st.1)%nat ∧
    ∀ fuel, (n < fuel)%nat → relay fuel st rd ev req o = Some r.
Proof.
  revert st ev o. induction n as [n IH] using lt_wf_ind; intros st ev o Hn.
  destruct (if ev_UsageOnly ev && negb (preq_WantsUsage req) then (st, None) else do_send st ev)
    as [st1 sent] eqn:Es.
  assert (H1 : (remaining st1.1 ≤ remaining st.1)%nat).
  { destruct (_ && _); [by injection Es as <- _|]. unfold do_send in Es.
    pose proof (fw_Send _ FW st.1 ev). destruct (Send st.1 ev). by injection Es as <- _. }
  assert (Hfuel : ∀ r, (remaining r.1.1 ≤ remaining st.1)%nat →
    (∀ fuel, (n ≤ fuel)%nat → relay (S fuel) st rd ev req o = Some r) →
    ∃ r, (remaining r.1.1 ≤ remaining st.1)%nat ∧
      ∀ fuel, (n < fuel)%nat → relay fuel st rd ev req o = Some r).
  { intros r Hr Hf. exists r. split; [done|]. intros [|fuel] ?; [lia|]. apply Hf. lia. }
  destruct sent as [err|].
  { eapply Hfuel; [|intros fuel _; cbn [relay]; rewrite Es; reflexivity]. done. }
  destruct (ev_Terminal ev) eqn:Et.
  { eapply Hfuel; [|intros fuel _; cbn [relay]; rewrite Es, Et; reflexivity]. done. }
  destruct (do_next st1 rd) as [st2 [ev2|err]] eqn:En.
  - assert (H2 : (remaining st2.1 < remaining st1.1)%nat).
    { unfold do_next in En. pose proof (fw_Next _ FW st1.1 rd) as Hx.
      destruct (Next st1.1 rd) as [x y]. injection En as <- ->. by eapply Hx. }
    destruct (IH (remaining st2.1) ltac:(lia) st2 ev2 (set_usage o (ev_Usage ev)) ltac:(lia))
      as (r & Hr & Hf).
    eapply Hfuel; [|intros fuel Hle; cbn [relay]; rewrite Es, Et, En; apply Hf; lia]. lia.
  - assert (H2 : (remaining st2.1 ≤ remaining st1.1)%nat).
    { unfold do_next in En. pose proof (fw_Next_err _ FW st1.1 rd) as Hx.
      destruct (Next st1.1 rd) as [x y]. by injection En as <- _. }
    pose proof (fw_SendError _ FW st2.1 err).
    destruct (Is err io_EOF) eqn:E1;
      [|destruct (Is err context_Canceled || Is err context_DeadlineExceeded) eqn:E2];
      (eapply Hfuel; [|intros fuel _; cbn [relay]; rewrite Es, Et, En, E1, ?E2; reflexivity]);
      simpl; lia.
Qed.

Lemma do_now_remaining st : (remaining (do_now st).1.1 ≤ remaining st.1)%nat.
Proof.
  unfold do_now. pose proof (fw_Now _ FW st.1) as Hn. by destruct (Now st.1).
Qed.

Lemma tryTarget_total st t req o start astart :
  ∃ r, (remaining r.1.1.1 ≤ remaining st.1)%nat ∧
    ∀ fuel, (remaining st.1 < fuel)%nat → tryTarget fuel st t req o start astart = Some r.
Proof.
  unfold tryTarget, do_stream. set (areq := mkProviderRequest _ _ _ _).
  pose proof (fw_Stream _ FW st.1 (t_Provider t) areq) as H1.
  destruct (Stream st.1 (t_Provider t) areq) as [x1 [rd|err]]; simpl in *;
    [|eexists (_, _, _); (split; [|reflexivity]); done].
  unfold do_next. simpl. pose proof (fw_Next_err _ FW x1 rd) as H2.
  destruct (Next x1 rd) as [x2 [ev|err]]; simpl in *.
  2:{ eexists (_, _, _). split; [|reflexivity]. simpl. pose proof (fw_Close _ FW x2 rd). lia. }
  unfold do_now at 1. simpl. pose proof (fw_Now _ FW x2) as H3. destruct (Now x2) as [x3 t1].
  unfold do_now. simpl in *. pose proof (fw_Now _ FW x3) as H4. destruct (Now x3) as [x4 t2].
  unfold do_commit. simpl in *. pose proof (fw_Commit _ FW x4) as H5.
  destruct (Commit x4) as [x5 [e|]]; simpl in *.
  { eexists (_, _, _). split; [|reflexivity]. simpl. pose proof (fw_Close _ FW x5 rd). lia. }
  match goal with |- context [relay _ ?s ?r ?e ?q ?oo] =>
    destruct (relay_total (remaining x5) s r e q oo ltac:(simpl; lia)) as ([st6 o6] & Hr & Hf) end.
  eexists (_, _, _). simpl in *. split; [|intros fuel Hl; rewrite Hf by lia; reflexivity].
  simpl. pose proof (fw_Close _ FW st6.1 rd). lia.
Qed.

Lemma run_ladder_total st ladder req o start :
  ∃ r, ∀ fuel, (remaining st.1 < fuel)%nat → run_ladder fuel st ladder req o start = Some r.
Proof.
  revert st o. induction ladder as [|t ladder IH]; intros st o; cbn [run_ladder]; [by eexists|].
  pose proof (do_now_remaining st) as H1. destruct (do_now st) as [st1 astart]. simpl in H1.
  destruct (tryTarget_total st1 t req o start astart) as ([[st2 o2] r] & H2 & Hf). simpl in H2.
  destruct r as [|err].
  { eexists. intros fuel Hl. rewrite Hf by lia. reflexivity. }
  destruct (failedAttempt st2 t astart err) as [st3 a] eqn:Ef.
  assert (H3 : (remaining st3.1 ≤ remaining st2.1)%nat).
  { pose proof (do_now_remaining st2). unfold failedAttempt in Ef. destruct (do_now st2).
    by injection Ef as <- _. }
  destruct (retryable err) eqn:Er.
  - destruct (IH st3 (add_attempt o2 a)) as [r Hr]. exists r. intros fuel Hl.
    rewrite Hf, Ef, Er by lia. apply Hr. lia.
  - eexists. intros fuel Hl. rewrite Hf, Ef, Er by lia. reflexivity.
Qed.

Lemma Run_total x ladder req :
  ∃ r, ∀ fuel, (remaining x < fuel)%nat → Run fuel x ladder req = Some r.
Proof.
  unfold Run. pose proof (do_now_remaining (x, [])) as H1.
  destruct (do_now (x, [])) as [st start]. simpl in H1.
  destruct (run_ladder_total st ladder req zero_Outcome start) as [r Hr].
  exists r. intros fuel Hl. apply Hr. lia.
Qed.
(** A dispatch always returns: when the providers between them yield finitely many
    events, there is one result that every fuel above that number of events computes, for
    every ladder, every client and every failure on the way. *)
Theorem Run_terminates x ladder req :
  ∃ r, ∀ fuel, (remaining x < fuel)%nat → Run fuel x ladder req = Some r.
Proof. apply Run_total. Qed.
End Finite.
End Facts.

(** ** A scripted environment

    What each call to [Stream] will do is written in advance; the client accepts
    everything and the clock ticks a millisecond per reading. *)
Definition script : Type := result error (list (result error StreamEvent)).

Record scripted := mkScripted {
  sc_clock : time;
  sc_open : list (result error StreamEvent);
  sc_pending : list script;
}.

Definition script_size (s : script) : nat := match s with Ok l => length l | Err _ => 0%nat end.
Definition script_left (x : scripted) : nat :=
  (length (sc_open x) + sum_list (script_size <$> sc_pending x))%nat.

#[export] Instance scripted_environment : Environment scripted unit unit := {|
  Now x := (mkScripted (sc_clock x + Millisecond) (sc_open x) (sc_pending x), sc_clock x);
  Stream x _ _ :=
    match sc_pending x with
    | [] => (x, Err (Errorf "no more targets" []))
    | Err e :: rest => (mkScripted (sc_clock x) [] rest, Err e)
    | Ok l :: rest => (mkScripted (sc_clock x) l rest, Ok tt)
    end;
  Next x _ :=
    match sc_open x with
    | [] => (x, Err io_EOF)
    | r :: l => (mkScripted (sc_clock x) l (sc_pending x), r)
    end;
  CloseReader x _ := mkScripted (sc_clock x) [] (sc_pending x);
  Commit x := (x, None);
  Send x _ := (x, None);
  SendError x _ := (x, None);
|}.

Lemma scripted_finite : finite_world script_left.
Proof.
  split; intros [c o p]; intros; destruct o as [|[|]], p as [|[|]]; unfold script_left;
    simplify_eq/=; unfold script_size; lia.
Qed.

Definition ex_usage : TokenUsage := mkTokenUsage 11 7 0 0 0.
Definition ex_chunk : StreamEvent := mkStreamEvent "{hello}" None false false.
Definition ex_usage_chunk : StreamEvent := mkStreamEvent "{usage}" (Some ex_usage) false true.
Definition ex_overloaded : error := ProviderError FailureUpstream "p" 503 (TLit "busy") true None.

(** The first target is overloaded; the second streams a chunk, then its usage, then ends. *)
Definition ex_world : scripted :=
  mkScripted 0 [] [Err ex_overloaded; Ok [Ok ex_chunk; Ok ex_usage_chunk]].
Definition ex_ladder : list (Target unit) :=
  [mkTarget tt "m1" (mkTargetRef "a" "p" "m1" ""); mkTarget tt "m2" (mkTargetRef "" "q" "m2" "")].
Definition ex_preq : ProviderRequest := mkProviderRequest "alias" "{}" true false.
Definition ex_run : option (state (X := scripted) * Outcome) := Run 5 ex_world ex_ladder ex_preq.


Lemma Run_ladder_witness :
  match ex_run with
  | Some (st, o) => ChosenTarget o = "unnamed:m2" ∧ length (out_Attempts o) = 2%nat ∧
      Outcome_Validate o = None ∧
      map at_Target (out_Attempts o) = map Target_String (take 2 ex_ladder)
  | None => False
  end.
Proof.
  destruct ex_run as [[st o]|] eqn:E; [|vm_compute in E; discriminate].
  pose proof (Run_ladder 5 ex_world ex_ladder ex_preq st o E) as (_ & Hm & _ & _ & _ & Hv & _).
  assert (Hc : Some (ChosenTarget o, length (out_Attempts o)) = Some ("unnamed:m2", 2%nat)).
  { transitivity ((fun '(st, o) => (ChosenTarget o, length (out_Attempts o))) <$> ex_run);
      [by rewrite E | vm_compute; reflexivity]. }
  injection Hc as Hc1 Hc2. rewrite Hc2 in Hm. auto.
Defined.

Lemma Run_terminates_witness :
  script_left ex_world = 2%nat ∧
  ∃ r, ∀ fuel, (2 < fuel)%nat → Run fuel ex_world ex_ladder ex_preq = Some r.
Proof.
  split; [reflexivity|].
  exact (Run_terminates script_left scripted_finite ex_world ex_ladder ex_preq).
Defined.
