(* ===== verification/Json.v ===== *)
(** JSON as Go's [encoding/json] reads it: a scanner that checks a whole text and keeps the
    raw text of every value, and decoders into Go values with the package's rules for null,
    missing and repeated members, letter case and number ranges. *)
From Stdlib Require Import Ascii.
From S2P Require Import Prelude Bytes Utf8 Errors.

(** ** Values

    Every value keeps the text it was read from. *)
Inductive node := Node (raw : bytes) (v : json)
with json :=
| JNull
| JBool (b : bool)
| JNumber
| JString (s : bytes)
| JArray (l : list node)
| JObject (members : list (bytes * node)).

Definition node_raw (n : node) : bytes := match n with Node raw _ => raw end.
Definition node_value (n : node) : json := match n with Node _ v => v end.

(** ** Scanning *)

Definition QUOTE : ascii := "034"%char.
Definition BACKSLASH : ascii := "092"%char.

Definition is_space (c : ascii) : bool := bool_decide (code c ∈ [9; 10; 13; 32]).

Definition hex (c : ascii) : option Z :=
  let z := code c in
  if is_digit c then Some (z - 48)
  else if (97 <=? z) && (z <=? 102) then Some (z - 87)
  else if (65 <=? z) && (z <=? 70) then Some (z - 55)
  else None.
Definition hex4 (a b c d : ascii) : option Z :=
  match hex a, hex b, hex c, hex d with
  | Some a, Some b, Some c, Some d => Some (4096 * a + 256 * b + 16 * c + d)
  | _, _, _, _ => None
  end.

Fixpoint skip_ws (b : bytes) : bytes :=
  match b with c :: b' => if is_space c then skip_ws b' else b | [] => [] end.


(** What follows a number; [None] if there is none. *)
Definition scan_fraction (b : bytes) : option bytes :=
  match b with
  | "."%char :: b' => match digits b' with ([], _) => None | (_, r) => Some r end
  | _ => Some b
  end.
Definition scan_exponent (b : bytes) : option bytes :=
  match b with
  | c :: b' =>
      if bool_decide (c = "e"%char ∨ c = "E"%char) then
        let b'' := match b' with
                   | s :: r => if bool_decide (s = "+"%char ∨ s = "-"%char) then r else b'
                   | [] => b'
                   end in
        match digits b'' with ([], _) => None | (_, r) => Some r end
      else Some b
  | [] => Some b
  end.
Definition scan_number (b : bytes) : option bytes :=
  let b := match b with "-"%char :: r => r | _ => b end in
  let int := match b with
             | "0"%char :: r => Some r
             | _ => match digits b with ([], _) => None | (_, r) => Some r end
             end in
  match int with
  | None => None
  | Some r => match scan_fraction r with None => None | Some r => scan_exponent r end
  end.

(** The content of a string whose opening quote is gone, and what follows it. *)
Fixpoint scan_string (b : bytes) : option (bytes * bytes) :=
  match b with
  | [] => None
  | c :: r =>
      if decide (c = QUOTE) then Some ([], r)
      else if decide (c = BACKSLASH) then
        match r with
        | "u"%char :: h1 :: h2 :: h3 :: h4 :: r' =>
            match hex4 h1 h2 h3 h4, scan_string r' with
            | Some _, Some (s, t) => Some (c :: "u"%char :: h1 :: h2 :: h3 :: h4 :: s, t)
            | _, _ => None
            end
        | e :: r' =>
            if bool_decide (e ∈ [QUOTE; BACKSLASH; "/"; "b"; "f"; "n"; "r"; "t"]%char) then
              match scan_string r' with Some (s, t) => Some (c :: e :: s, t) | None => None end
            else None
        | [] => None
        end
      else if code c <? 32 then None
      else match scan_string r with Some (s, t) => Some (c :: s, t) | None => None end
  end.

Definition is_surrogate (z : Z) : bool := (55296 <=? z) && (z <? 57344).
(** [utf16.DecodeRune] *)
Definition surrogates (hi lo : Z) : option Z :=
  if (55296 <=? hi) && (hi <? 56320) && (56320 <=? lo) && (lo <? 57344)
  then Some (65536 + (hi - 55296) * 1024 + (lo - 56320)) else None.

Definition escaped (e : ascii) : ascii :=
  match e with
  | "b" => byte 8 | "f" => byte 12 | "n" => byte 10 | "r" => byte 13 | "t" => byte 9 | c => c
  end%char.

(** The second half of a pair, where one follows. *)
Definition escaped_half (b : bytes) : option (Z * bytes) :=
  match b with
  | b1 :: "u"%char :: k1 :: k2 :: k3 :: k4 :: r =>
      if decide (b1 = BACKSLASH) then Some (default 0 (hex4 k1 k2 k3 k4), r) else None
  | _ => None
  end.
Definition surrogate_pair (hi : Z) (b : bytes) : option (Z * bytes) :=
  match escaped_half b with
  | Some (lo, r) => match surrogates hi lo with Some w => Some (w, r) | None => None end
  | None => None
  end.

(** The value of a scanned string. *)
Fixpoint unquote (fuel : nat) (b : bytes) : bytes :=
  match fuel, b with
  | S fuel, c :: r =>
      if decide (c = BACKSLASH) then
        match r with
        | "u"%char :: h1 :: h2 :: h3 :: h4 :: r' =>
            let z := default 0 (hex4 h1 h2 h3 h4) in
            match surrogate_pair z r' with
            | Some (w, r'') => utf8 w ++ unquote fuel r''
            | None => (if is_surrogate z then replacement else utf8 z) ++ unquote fuel r'
            end
        | e :: r' => escaped e :: unquote fuel r'
        | [] => []
        end
      else if code c <? 128 then c :: unquote fuel r
      else
        match r with
        | c1 :: r1 =>
            if valid2 c c1 then c :: c1 :: unquote fuel r1
            else match r1 with
                 | c2 :: r2 =>
                     if valid3 c c1 c2 then c :: c1 :: c2 :: unquote fuel r2
                     else match r2 with
                          | c3 :: r3 =>
                              if valid4 c c1 c2 c3 then c :: c1 :: c2 :: c3 :: unquote fuel r3
                              else replacement ++ unquote fuel r
                          | [] => replacement ++ unquote fuel r
                          end
                 | [] => replacement ++ unquote fuel r
                 end
        | [] => replacement
        end
  | _, _ => []
  end.

Definition string_value (content : bytes) : bytes := unquote (length content) content.

(** [rest] is a suffix of [b]: the text before it. *)
Definition consumed (b rest : bytes) : bytes := take (length b - length rest) b.

Definition strip (p b : bytes) : option bytes :=
  if bool_decide (take (length p) b = p) then Some (drop (length p) b) else None.

Definition maxNestingDepth : Z := 10000.

(** The value a text starts with, and what follows it. Every call but the one an array makes
    for an element consumes a byte first, so twice the length of the text is fuel enough. *)
Fixpoint scan_value (fuel : nat) (depth : Z) (b : bytes) : option (node * bytes) :=
  match fuel with
  | O => None
  | S fuel =>
      match b with
      | [] => None
      | c :: r =>
          let leaf v rest := Some (Node (consumed b rest) v, rest) in
          if decide (c = QUOTE) then
            match scan_string r with
            | Some (s, rest) => leaf (JString (string_value s)) rest
            | None => None
            end
          else if decide (c = "{"%char) then
            if maxNestingDepth <? depth + 1 then None
            else match skip_ws r with
                 | "}"%char :: rest => leaf (JObject []) rest
                 | r => match scan_members fuel (depth + 1) r with
                        | Some (ms, rest) => leaf (JObject ms) rest
                        | None => None
                        end
                 end
          else if decide (c = "["%char) then
            if maxNestingDepth <? depth + 1 then None
            else match skip_ws r with
                 | "]"%char :: rest => leaf (JArray []) rest
                 | r => match scan_elements fuel (depth + 1) r with
                        | Some (l, rest) => leaf (JArray l) rest
                        | None => None
                        end
                 end
          else match strip (lit "null") b, strip (lit "true") b, strip (lit "false") b with
               | Some rest, _, _ => leaf JNull rest
               | _, Some rest, _ => leaf (JBool true) rest
               | _, _, Some rest => leaf (JBool false) rest
               | None, None, None =>
                   match scan_number b with Some rest => leaf JNumber rest | None => None end
               end
      end
  end
with scan_members (fuel : nat) (depth : Z) (b : bytes) : option (list (bytes * node) * bytes) :=
  match fuel with
  | O => None
  | S fuel =>
      match b with
      | c :: r =>
          if decide (c = QUOTE) then
            match scan_string r with
            | None => None
            | Some (key, r) =>
                match skip_ws r with
                | ":"%char :: r =>
                    match scan_value fuel depth (skip_ws r) with
                    | None => None
                    | Some (v, r) =>
                        match skip_ws r with
                        | "}"%char :: rest => Some ([(string_value key, v)], rest)
                        | ","%char :: r =>
                            match scan_members fuel depth (skip_ws r) with
                            | Some (ms, rest) => Some ((string_value key, v) :: ms, rest)
                            | None => None
                            end
                        | _ => None
                        end
                    end
                | _ => None
                end
            end
          else None
      | [] => None
      end
  end
with scan_elements (fuel : nat) (depth : Z) (b : bytes) : option (list node * bytes) :=
  match fuel with
  | O => None
  | S fuel =>
      match scan_value fuel depth b with
      | None => None
      | Some (v, r) =>
          match skip_ws r with
          | "]"%char :: rest => Some ([v], rest)
          | ","%char :: r =>
              match scan_elements fuel depth (skip_ws r) with
              | Some (l, rest) => Some (v :: l, rest)
              | None => None
              end
          | _ => None
          end
      end
  end.

Definition parse (b : bytes) : option node :=
  match scan_value (2 * length b) 0 (skip_ws b) with
  | Some (n, rest) => if bool_decide (skip_ws rest = []) then Some n else None
  | None => None
  end.

(** ** Decoding

    A decoder turns a value into an [A], given the [A] that is there already. The texts of
    the package's errors are not modelled. *)
Definition syntax_error : error := Errorf "json: syntax error" [].
Definition type_error : error := Errorf "json: cannot unmarshal value into Go type" [].

Definition decoder (A : Type) := A → node → result error A.

Definition into_string : decoder bytes := λ old n,
  match node_value n with JString s => Ok s | JNull => Ok old | _ => Err type_error end.
Definition into_bool : decoder bool := λ old n,
  match node_value n with JBool b => Ok b | JNull => Ok old | _ => Err type_error end.

(** An integer literal in range, without fraction or exponent. *)
Definition parse_int (raw : bytes) : option Z :=
  let '(neg, b) := match raw with "-"%char :: r => (true, r) | _ => (false, raw) end in
  match digits b with
  | ((_ :: _) as ds, []) =>
      let z := if neg : bool then - decimal ds else decimal ds in
      if bool_decide (int64_range z) then Some z else None
  | _ => None
  end.
Definition into_int : decoder Z := λ old n,
  match node_value n with
  | JNumber => match parse_int (node_raw n) with Some z => Ok z | None => Err type_error end
  | JNull => Ok old
  | _ => Err type_error
  end.

(** [json.RawMessage] keeps the text, of a null too; empty if the member is missing. *)
Definition RawMessage := bytes.
Definition into_raw : decoder RawMessage := λ _ n, Ok (node_raw n).

Definition into_ptr {A} (zero : A) (d : decoder A) : decoder (option A) := λ old n,
  match node_value n with
  | JNull => Ok None
  | _ => match d (default zero old) n with Ok a => Ok (Some a) | Err e => Err e end
  end.

Fixpoint decode_all {A} (zero : A) (d : decoder A) (l : list node) : result error (list A) :=
  match l with
  | [] => Ok []
  | n :: l => let! a := d zero n in let! r := decode_all zero d l in Ok (a :: r)
  end.
Definition into_slice {A} (zero : A) (d : decoder A) : decoder (list A) := λ _ n,
  match node_value n with JArray l => decode_all zero d l | JNull => Ok [] | _ => Err type_error end.

(** The package's case folding, as far as it concerns names made of ASCII letters. *)
Fixpoint fold_name (b : bytes) : bytes :=
  match b with
  | [] => []
  | c :: r =>
      match r with
      | c1 :: r1 =>
          if (code c =? 197) && (code c1 =? 191) then "S"%char :: fold_name r1
          else match r1 with
               | c2 :: r2 =>
                   if (code c =? 226) && (code c1 =? 132) && (code c2 =? 170)
                   then "K"%char :: fold_name r2 else upper c :: fold_name r
               | [] => upper c :: fold_name r
               end
      | [] => upper c :: fold_name r
      end
  end.

(** The fields of a struct by their names: the exact name first, else any that folds to it. *)
Definition fields (A : Type) := list (string * decoder A).
Definition field_of {A} (fs : fields A) (key : bytes) : option (decoder A) :=
  match List.find (λ f, bool_decide (lit f.1 = key)) fs with
  | Some f => Some f.2
  | None => snd <$> List.find (λ f, bool_decide (fold_name (lit f.1) = fold_name key)) fs
  end.
Fixpoint decode_members {A} (fs : fields A) (acc : A) (ms : list (bytes * node)) : result error A :=
  match ms with
  | [] => Ok acc
  | (key, n) :: ms =>
      match field_of fs key with
      | None => decode_members fs acc ms
      | Some d => let! acc := d acc n in decode_members fs acc ms
      end
  end.
Definition into_struct {A} (fs : fields A) : decoder A := λ old n,
  match node_value n with
  | JObject ms => decode_members fs old ms
  | JNull => Ok old
  | _ => Err type_error
  end.

(** A decoder of one field. *)
Definition field {A B} (get : A → B) (set : B → A → A) (d : decoder B) : decoder A := λ a n,
  match d (get a) n with Ok b => Ok (set b a) | Err e => Err e end.

(** [json.Unmarshal] into a zero value. *)
Definition Unmarshal {A} (d : decoder A) (zero : A) (data : bytes) : result error A :=
  match parse data with None => Err syntax_error | Some n => d zero n end.

(** ** Writing strings *)

Definition hexdigit (z : Z) : ascii := byte (if z <? 10 then 48 + z else 87 + z).

(** How one ASCII character is written inside a string, with HTML characters escaped. *)
Definition json_ascii (c : ascii) : bytes :=
  if decide (c = QUOTE) then [BACKSLASH; QUOTE]
  else if decide (c = BACKSLASH) then [BACKSLASH; BACKSLASH]
  else if code c =? 8 then lit "\b"
  else if code c =? 12 then lit "\f"
  else if code c =? 10 then lit "\n"
  else if code c =? 13 then lit "\r"
  else if code c =? 9 then lit "\t"
  else if (code c <? 32) || bool_decide (c ∈ ["<"; ">"; "&"]%char)
  then lit "\u00" ++ [hexdigit (code c / 16); hexdigit (code c mod 16)]
  else [c].

Fixpoint json_chars (fuel : nat) (b : bytes) : bytes :=
  match fuel, b with
  | S fuel, c :: r =>
      if code c <? 128 then json_ascii c ++ json_chars fuel r
      else
        match r with
        | c1 :: r1 =>
            if valid2 c c1 then c :: c1 :: json_chars fuel r1
            else match r1 with
                 | c2 :: r2 =>
                     if valid3 c c1 c2 then
                       (if (code c =? 226) && (code c1 =? 128) && ((code c2 =? 168) || (code c2 =? 169))
                        then lit "\u202" ++ [hexdigit (code c2 - 160)] else [c; c1; c2])
                         ++ json_chars fuel r2
                     else match r2 with
                          | c3 :: r3 =>
                              if valid4 c c1 c2 c3 then c :: c1 :: c2 :: c3 :: json_chars fuel r3
                              else lit "\ufffd" ++ json_chars fuel r
                          | [] => lit "\ufffd" ++ json_chars fuel r
                          end
                 | [] => lit "\ufffd" ++ json_chars fuel r
                 end
        | [] => lit "\ufffd"
        end
  | _, _ => []
  end.

(** A Go string, marshalled. *)
Definition json_string (b : bytes) : bytes := [QUOTE] ++ json_chars (length b) b ++ [QUOTE].

(** Text with its quotes written as apostrophes. *)
Definition quoted (s : string) : bytes :=
  map (λ c, if decide (c = "'"%char) then QUOTE else c) (lit s).
