(* ===== verification/Sse.v ===== *)
(** The server-sent-event codec of [internal/core/sse/parse.go]: the decoder as it reads,
    line by line through a buffered reader over whatever chunks the connection delivers,
    and the encoder. The functions of [bufio] and [bytes] it calls are written out here. *)
From Stdlib Require Import Ascii.
From S2P Require Import Prelude Bytes Errors.

(** ** [bufio.Reader] *)

Definition bufio_ErrBufferFull : error := Sentinel "bufio: buffer full".

(** The unread part of the buffer, what later reads of the connection will return, and the
    error they end with. *)
Record Reader := mkReader {
  r_size : Z;
  r_buf : bytes;
  r_src : list bytes;
  r_end : error;
}.

(** One read into the free part of the buffer; [None] once the connection is at its end. *)
Definition fill (r : Reader) : option Reader :=
  match r_src r with
  | [] => None
  | chunk :: src =>
      let free := Z.to_nat (r_size r - blen (r_buf r)) in
      let rest := drop free chunk in
      Some (mkReader (r_size r) (r_buf r ++ take free chunk)
              (if decide (rest = []) then src else rest :: src) (r_end r))
  end.

(** [b.ReadSlice('\n')]: the buffered bytes up to a line feed; the whole buffer when it is
    full of one line; what is left when the connection ends. *)
Fixpoint read_slice (fuel : nat) (r : Reader) : Reader * bytes * option error :=
  match cut LF (r_buf r) with
  | Some (l, rest) => (mkReader (r_size r) rest (r_src r) (r_end r), l ++ [LF], None)
  | None =>
      let emptied src := mkReader (r_size r) [] src (r_end r) in
      if r_size r <=? blen (r_buf r) then (emptied (r_src r), r_buf r, Some bufio_ErrBufferFull)
      else match fuel, fill r with
           | S fuel, Some r => read_slice fuel r
           | _, _ => (emptied [], r_buf r, Some (r_end r))
           end
  end.

(** What is still to be read. *)
Definition unread (r : Reader) : bytes := r_buf r ++ concat (r_src r).

(** Each read brings a byte at least, so this many suffice. *)
Definition ReadSlice (r : Reader) : Reader * bytes * option error :=
  read_slice (S (length (concat (r_src r)))) r.

(** ** The decoder *)

(** [src/internal/core/sse/parse.go:13-16] ErrLineTooLong, errPartialLine *)
Definition ErrLineTooLong : error := Sentinel "sse: line exceeds maximum length".
Definition errPartialLine : error := Sentinel "sse: partial line at EOF".

(** [src/internal/core/sse/parse.go:18-21] defaultMaxLine, readBufSize *)
Definition defaultMaxLine : Z := Z.shiftl 1 20.
Definition readBufSize : Z := Z.shiftl 16 10.

(** [src/internal/core/sse/parse.go:23-28] Event *)
Record Event := mkEvent { ev_Type : bytes; ev_Data : bytes }.

#[export] Instance Event_eq_dec : EqDecision Event.
Proof. solve_decision. Defined.

(** The event being built. *)
Record building := mkBuilding {
  b_data : bytes;
  b_evType : bytes;
  b_sawData : bool;
  b_dirty : bool;
}.

(** [src/internal/core/sse/parse.go:30-43] Decoder *)
Record Decoder := mkDecoder {
  d_r : Reader;
  d_maxLine : Z;
  d_event : building;
  d_err : option error;
}.

(** [src/internal/core/sse/parse.go:178-183] Decoder.reset *)
Definition reset : building := mkBuilding [] [] false false.

(** [src/internal/core/sse/parse.go:45-50] NewDecoder *)
Definition NewDecoder (src : list bytes) (final : error) : Decoder :=
  mkDecoder (mkReader readBufSize [] src final) defaultMaxLine reset None.

(** [src/internal/core/sse/parse.go:185-188] trimEOL *)
Definition trimEOL (b : bytes) : bytes := trim_last CR (trim_last LF b).

(** [src/internal/core/sse/parse.go:190-201] parseField *)
Definition parseField (line : bytes) : bytes * bytes :=
  match cut ":"%char line with
  | None => (line, [])
  | Some (field, value) =>
      match value with
      | " "%char :: value' => (field, value')
      | _ => (field, value)
      end
  end.

(** [src/internal/core/sse/parse.go:138-170] the loop of Decoder.readLine

    [acc] is the line read so far; each turn but the last empties a full buffer. *)
Fixpoint readLine_loop (fuel : nat) (maxLine : Z) (acc : bytes) (r : Reader)
    : Reader * result error (bytes * option error) :=
  let '(r, chunk, err) := ReadSlice r in
  let too_long := maxLine <? blen acc + blen chunk in
  match err with
  | Some err =>
      if Is err bufio_ErrBufferFull then
        if too_long then (r, Err ErrLineTooLong)
        else match fuel with
             | O => (r, Err err)
             | S fuel => readLine_loop fuel maxLine (acc ++ chunk) r
             end
      else if Is err io_EOF then
        if bool_decide (acc = []) && bool_decide (chunk = []) then (r, Err io_EOF)
        else if too_long then (r, Err ErrLineTooLong)
        else (r, Ok (acc ++ chunk, Some errPartialLine))
      else (r, Err err)
  | None =>
      if too_long then (r, Err ErrLineTooLong)
      else if 0 <? blen acc then (r, Ok (trimEOL (acc ++ chunk), None))
      else (r, Ok (trimEOL chunk, None))
  end.

(** [src/internal/core/sse/parse.go:137-171] Decoder.readLine *)
Definition readLine (d : Decoder) : Reader * result error (bytes * option error) :=
  readLine_loop (length (unread (d_r d))) (d_maxLine d) [] (d_r d).

(** [src/internal/core/sse/parse.go:74-107] what one line does to the event being built *)
Definition on_line (b : building) (line : bytes) : building * option Event :=
  match line with
  | [] => if negb (b_sawData b) then (reset, None)
          else (reset, Some (mkEvent (b_evType b) (b_data b)))
  | ":"%char :: _ => (b, None)
  | _ =>
      let '(field, value) := parseField line in
      if bool_decide (field = lit "data")
      then let data := if b_sawData b then b_data b ++ [LF] else b_data b in
           (mkBuilding (data ++ value) (b_evType b) true true, None)
      else if bool_decide (field = lit "event")
      then (mkBuilding (b_data b) value (b_sawData b) true, None)
      else (mkBuilding (b_data b) (b_evType b) (b_sawData b) true, None)
  end.

(** [src/internal/core/sse/parse.go:173-176] Decoder.fail *)
Definition fail (d : Decoder) (r : Reader) (err : error) : Decoder * result error Event :=
  (mkDecoder r (d_maxLine d) (d_event d) (Some err), Err err).

(** [src/internal/core/sse/parse.go:59-108] the loop of Decoder.Next *)
Fixpoint next_loop (fuel : nat) (d : Decoder) : Decoder * result error Event :=
  let '(r, res) := readLine d in
  match res with
  | Ok (_, Some err) =>
      if Is err errPartialLine then fail d r io_ErrUnexpectedEOF else fail d r err
  | Err err =>
      if Is err errPartialLine then fail d r io_ErrUnexpectedEOF
      else if Is err io_EOF then
        if b_dirty (d_event d) then fail d r io_ErrUnexpectedEOF else fail d r io_EOF
      else fail d r err
  | Ok (line, None) =>
      let '(b, ev) := on_line (d_event d) line in
      let d := mkDecoder r (d_maxLine d) b (d_err d) in
      match ev with
      | Some ev => (d, Ok ev)
      | None => match fuel with O => (d, Err io_EOF) | S fuel => next_loop fuel d end
      end
  end.

(** [src/internal/core/sse/parse.go:52-109] Decoder.Next

    Every line has a byte at least, so the bytes left bound the turns. *)
Definition Decoder_Next (d : Decoder) : Decoder * result error Event :=
  match d_err d with
  | Some err => (d, Err err)
  | None => next_loop (length (unread (d_r d))) d
  end.

(** [src/internal/core/sse/parse.go:203-212] drain *)
Fixpoint drain_loop (fuel : nat) (d : Decoder) : list Event * error :=
  match Decoder_Next d with
  | (d, Err err) => ([], err)
  | (d, Ok ev) =>
      match fuel with
      | O => ([], io_EOF)
      | S fuel => let '(evs, err) := drain_loop fuel d in (ev :: evs, err)
      end
  end.
Definition drain (d : Decoder) : list Event * error := drain_loop (length (unread (d_r d))) d.

(** ** The encoder *)

(** [src/internal/core/sse/parse.go:115-131] the bytes of WriteEvent *)
Definition event_bytes (ev : Event) : bytes :=
  (if bool_decide (ev_Type ev = []) then [] else lit "event: " ++ ev_Type ev ++ [LF]) ++
  concat (map (λ seg, lit "data: " ++ seg ++ [LF]) (split_on LF (ev_Data ev))) ++ [LF].

(** [src/internal/core/sse/parse.go:111-135] WriteEvent *)
Definition WriteEvent {W} (Write : W → bytes → W * option error) (w : W) (ev : Event)
    : W * option error :=
  if existsb (λ c, bool_decide (c = CR ∨ c = LF)) (ev_Type ev)
  then (w, Some (Errorf "sse: event type contains a line terminator: %q"
                   [AStr (String.string_of_list_ascii (ev_Type ev))]))
  else Write w (event_bytes ev).

(** ** The buffered reader *)

Definition reader_wf (r : Reader) : Prop :=
  0 < r_size r ∧ blen (r_buf r) ≤ r_size r ∧ Forall (λ c, c ≠ []) (r_src r).

Lemma fill_spec r r' :
  reader_wf r → blen (r_buf r) < r_size r → fill r = Some r' →
  reader_wf r' ∧ unread r' = unread r ∧ r_end r' = r_end r ∧ r_size r' = r_size r ∧
  (length (concat (r_src r')) < length (concat (r_src r)))%nat.
Proof.
  intros (Hs & Hb & Hf) Hfree. unfold fill, unread, reader_wf, blen in *.
  destruct (r_src r) as [|chunk src]; [done|]. intros [= <-]. simpl.
  apply Forall_cons in Hf as [Hc Hf].
  set (n := Z.to_nat (r_size r - Z.of_nat (length (r_buf r)))).
  assert (Hn : (0 < n)%nat) by lia.
  assert (Hlen : (length chunk ≠ 0)%nat) by (by destruct chunk).
  pose proof (take_drop n chunk) as Echunk.
  case_decide as Hd; [rewrite Hd, app_nil_r in Echunk|].
  - rewrite Echunk, !length_app, <- app_assoc. split_and!; try done; try lia.
    rewrite <- Echunk, length_take. lia.
  - rewrite concat_cons, !length_app, length_take, length_drop, <- app_assoc,
      (app_assoc (take n chunk)), Echunk.
    split_and!; try done; try lia. by constructor.
Qed.

Lemma fill_None r : fill r = None → concat (r_src r) = [].
Proof. unfold fill. by destruct (r_src r). Qed.

Lemma read_slice_spec fuel r r' chunk err :
  reader_wf r → (length (concat (r_src r)) < fuel)%nat →
  read_slice fuel r = (r', chunk, err) →
  reader_wf r' ∧ r_end r' = r_end r ∧ r_size r' = r_size r ∧
  match cut LF (unread r), err with
  | Some (l, rest), None => chunk = l ++ [LF] ∧ unread r' = rest ∧ blen chunk ≤ r_size r
  | _, Some err =>
      LF ∉ chunk ∧ unread r = chunk ++ unread r' ∧
      (if decide (blen chunk = r_size r) then err = bufio_ErrBufferFull
       else err = r_end r ∧ unread r' = [] ∧ blen chunk < r_size r)
  | None, None => False
  end.
Proof.
  revert r. induction fuel as [|fuel IH]; intros r Hwf Hfuel; [lia|]. cbn [read_slice].
  destruct (cut LF (r_buf r)) as [[l rest]|] eqn:Ec.
  { intros [= <- <- <-]. pose proof (cut_Some _ _ _ _ Ec) as [Eb Hn].
    assert (E : unread r = l ++ LF :: rest ++ concat (r_src r))
      by (unfold unread; rewrite Eb, <- app_assoc; done).
    rewrite E, cut_app by done. destruct Hwf as (Hs & Hb & Hf). rewrite Eb in Hb.
    unfold blen in *. rewrite length_app in *. simpl in *.
    split_and!; try done; unfold reader_wf, blen; simpl; repeat split; try done; lia. }
  apply cut_None in Ec.
  destruct (Z.leb_spec (r_size r) (blen (r_buf r))) as [Hfull|Hfree].
  { intros [= <- <- <-]. destruct Hwf as (Hs & Hb & Hf).
    assert (He : blen (r_buf r) = r_size r) by lia.
    split_and!; try done; [unfold reader_wf, blen; simpl; repeat split; try done; lia|].
    rewrite decide_True by done. by destruct (cut LF (unread r)) as [[]|]. }
  destruct (fill r) as [r1|] eqn:Efill.
  - apply fill_spec in Efill as (Hwf1 & Hu & He & Hs & Hl); [|done..].
    intros Hr. apply IH in Hr; [|done|lia]. by rewrite Hu, He, Hs in Hr.
  - apply fill_None in Efill. intros [= <- <- <-]. destruct Hwf as (Hs & Hb & Hf).
    assert (E : unread r = r_buf r) by (unfold unread; by rewrite Efill, app_nil_r).
    rewrite E, (proj2 (cut_None LF (r_buf r)) Ec). unfold unread. simpl. rewrite app_nil_r.
    split_and!; try done; [unfold reader_wf, blen; simpl; repeat split; try done; lia|].
    rewrite decide_False by lia. done.
Qed.

(** A connection ends with an error that is none of the reader's own. *)
Definition plain_end (final : error) : Prop :=
  Is final bufio_ErrBufferFull = false ∧ Is final errPartialLine = false.

(** How reading a line fails when the connection ends before the line does. [size] is the
    size of the buffer: a read error is only noticed once the buffers before it have been
    counted against the limit. *)
Definition end_of_line (size maxLine : Z) (final : error) (rest : bytes)
    : result error (bytes * option error) :=
  if Is final io_EOF then
    if bool_decide (rest = []) then Err io_EOF
    else if maxLine <? blen rest then Err ErrLineTooLong
    else Ok (rest, Some errPartialLine)
  else if maxLine <? size * (blen rest / size) then Err ErrLineTooLong
  else Err final.

(** The last turn, when the connection ended inside a line. *)
Lemma end_of_line_spec size maxLine final acc chunk res (r r' : Reader) :
  blen acc mod size = 0 → blen chunk < size → blen acc ≤ maxLine →
  (if Is final io_EOF then
     if bool_decide (acc = []) && bool_decide (chunk = []) then (r, Err io_EOF)
     else if maxLine <? blen acc + blen chunk then (r, Err ErrLineTooLong)
     else (r, Ok (acc ++ chunk, Some errPartialLine))
   else (r, Err final)) = (r', res) →
  res = end_of_line size maxLine final (acc ++ chunk).
Proof.
  intros Hmod Hlt Hle. unfold end_of_line. rewrite blen_app.
  destruct (Is final io_EOF).
  - assert (Hb : acc ++ chunk = [] ↔ acc = [] ∧ chunk = [])
      by (split; [apply app_eq_nil | by intros [-> ->]]).
    repeat case_bool_decide; try (exfalso; tauto); simpl;
      try destruct (maxLine <? blen acc + blen chunk); by intros [= <- <-].
  - assert (Hc : 0 ≤ blen chunk) by (unfold blen; lia).
    assert (Ha : blen acc = size * (blen acc / size))
      by (rewrite (Z.div_mod (blen acc) size) at 1 by lia; lia).
    rewrite <- (Z.div_unique_pos (blen acc + blen chunk) size (blen acc / size) (blen chunk)),
      <- Ha by lia.
    rewrite (proj2 (Z.ltb_ge maxLine (blen acc))) by done. by intros [= <- <-].
Qed.

(** The full buffers already exceed the limit. *)
Lemma too_long_spec size maxLine final acc chunk l :
  0 < size → blen acc mod size = 0 → blen chunk = size → maxLine < blen acc + blen chunk →
  end_of_line size maxLine final (acc ++ chunk ++ l) = Err ErrLineTooLong.
Proof.
  intros Hs Hmod Hfull Hlong. unfold end_of_line. rewrite !blen_app.
  assert (Hl : 0 ≤ blen l) by (unfold blen; lia).
  assert (Hb : acc ++ chunk ++ l ≠ []).
  { intros E. apply (f_equal blen) in E. rewrite !blen_app in E.
    unfold blen in *. simpl in E. lia. }
  rewrite (proj2 (Z.ltb_lt maxLine (blen acc + (blen chunk + blen l)))) by lia.
  assert (Ha : blen acc = size * (blen acc / size))
    by (rewrite (Z.div_mod (blen acc) size) at 1 by lia; lia).
  assert (Hq : blen acc / size + 1 ≤ (blen acc + (blen chunk + blen l)) / size)
    by (apply Z.div_le_lower_bound; lia).
  rewrite (proj2 (Z.ltb_lt maxLine (size * _))) by nia.
  destruct (Is _ _); [|done]. by case_bool_decide.
Qed.

Lemma readLine_loop_spec fuel maxLine acc r r' res :
  reader_wf r → plain_end (r_end r) → 0 ≤ maxLine → (length (unread r) ≤ fuel)%nat →
  LF ∉ acc → blen acc ≤ maxLine → blen acc mod r_size r = 0 →
  readLine_loop fuel maxLine acc r = (r', res) →
  match cut LF (acc ++ unread r) with
  | Some (l, rest) =>
      if maxLine <? blen l + 1 then res = Err ErrLineTooLong
      else res = Ok (trimEOL (l ++ [LF]), None) ∧ reader_wf r' ∧ unread r' = rest ∧
           r_end r' = r_end r ∧ r_size r' = r_size r
  | None => res = end_of_line (r_size r) maxLine (r_end r) (acc ++ unread r)
  end.
Proof.
  revert acc r. induction fuel as [|fuel IH]; intros acc r Hwf Hend Hmax Hfuel Hacc Hle Hmod;
    unfold readLine_loop; fold readLine_loop; unfold ReadSlice;
    destruct (read_slice _ _) as [[r1 chunk] err] eqn:Es;
    (apply read_slice_spec in Es as (Hwf1 & He1 & Hs1 & Hspec); [|done|lia]);
    rewrite cut_app_notin by done; pose proof (proj1 Hwf) as Hsize;
    destruct err as [err|].
  (* fuel is left, or the buffer could not have been full *)
  2,4: destruct (cut LF (unread r)) as [[l rest]|] eqn:Ec; [|done];
    destruct Hspec as (-> & Hrest & _); rewrite !blen_app; change (blen [LF]) with 1;
    replace (blen acc + blen l + 1) with (blen acc + (blen l + 1)) by lia;
    destruct (maxLine <? blen acc + (blen l + 1)); [by intros [= <- <-]|];
    rewrite <- He1, <- Hs1;
    (destruct (Z.ltb_spec 0 (blen acc)) as [|Hz];
      [intros [= <- <-]; by rewrite app_assoc
      |replace acc with (@nil ascii) by (symmetry; apply blen_nil_iff; unfold blen in *; lia);
       by intros [= <- <-]]).
  all: assert (Hn : LF ∉ chunk ∧ unread r = chunk ++ unread r1 ∧
         (if decide (blen chunk = r_size r) then err = bufio_ErrBufferFull
          else err = r_end r ∧ unread r1 = [] ∧ blen chunk < r_size r))
         by (by destruct (cut LF (unread r)) as [[]|]);
    clear Hspec; destruct Hn as (Hn & Hu & Herr); rewrite Hu, cut_app_notin by done;
    case_decide as Hfull; [subst err; change (Is bufio_ErrBufferFull bufio_ErrBufferFull) with true; cbv iota|].
  2,4: destruct Herr as (-> & Hu1 & Hlt); rewrite (proj1 Hend), Hu1, app_nil_r;
    rewrite (proj2 (cut_None LF [])) by set_solver; by apply end_of_line_spec.
  - apply (f_equal length) in Hu. rewrite length_app in Hu. unfold blen in Hfull. lia.
  - destruct (Z.ltb_spec maxLine (blen acc + blen chunk)) as [Hlong|Hlong].
    + intros [= <- <-]. destruct (cut LF (unread r1)) as [[l rest]|].
      * assert (0 ≤ blen l) by (unfold blen; lia). rewrite !blen_app.
        by rewrite (proj2 (Z.ltb_lt maxLine _)) by lia.
      * symmetry. by apply too_long_spec.
    + intros Hr. apply IH in Hr; [|done|by rewrite He1|done|..].
      * rewrite He1, Hs1, <- app_assoc, cut_app_notin, cut_app_notin in Hr by done. done.
      * apply (f_equal length) in Hu. rewrite length_app in Hu. unfold blen in Hfull. lia.
      * set_solver.
      * by rewrite blen_app.
      * rewrite blen_app, Hfull, Hs1, <- (Z.mul_1_l (r_size r)) at 1. rewrite Z.mod_add; lia.
Qed.

(** ** What a stream decodes to

    The whole stream is cut at its line feeds: each piece but the last is a line, the last
    one is what the connection cut short. *)
Definition stream_end (size maxLine : Z) (final : error) (b : building) (rest : bytes) : error :=
  match end_of_line size maxLine final rest with
  | Ok _ => io_ErrUnexpectedEOF
  | Err err => if Is err io_EOF then (if b_dirty b then io_ErrUnexpectedEOF else io_EOF) else err
  end.

Fixpoint decode (size maxLine : Z) (final : error) (b : building) (pieces : list bytes)
    : list Event * error :=
  match pieces with
  | [] => ([], stream_end size maxLine final b [])
  | [piece] => ([], stream_end size maxLine final b piece)
  | line :: pieces =>
      if maxLine <? blen line + 1 then ([], ErrLineTooLong)
      else
        let '(b, ev) := on_line b (trim_last CR line) in
        let '(evs, err) := decode size maxLine final b pieces in
        (option_list ev ++ evs, err)
  end.

Lemma decode_cons size maxLine final b line pieces :
  pieces ≠ [] →
  decode size maxLine final b (line :: pieces) =
  if maxLine <? blen line + 1 then ([], ErrLineTooLong)
  else let '(b, ev) := on_line b (trim_last CR line) in
       let '(evs, err) := decode size maxLine final b pieces in (option_list ev ++ evs, err).
Proof. by destruct pieces. Qed.

Lemma trimEOL_line l : trimEOL (l ++ [LF]) = trim_last CR l.
Proof. unfold trimEOL. by rewrite trim_last_app, decide_True. Qed.

Definition decoder_wf (d : Decoder) : Prop :=
  reader_wf (d_r d) ∧ plain_end (r_end (d_r d)) ∧ 0 ≤ d_maxLine d ∧ d_err d = None.

(** What a decoder is still to produce. *)
Definition rest_of (d : Decoder) : list Event * error :=
  decode (r_size (d_r d)) (d_maxLine d) (r_end (d_r d)) (d_event d) (split_on LF (unread (d_r d))).

Lemma next_loop_spec fuel d d' res :
  decoder_wf d → (length (unread (d_r d)) ≤ fuel)%nat → next_loop fuel d = (d', res) →
  match res with
  | Ok ev => decoder_wf d' ∧ (length (unread (d_r d')) < length (unread (d_r d)))%nat ∧
      rest_of d = (ev :: (rest_of d').1, (rest_of d').2)
  | Err err => d_err d' = Some err ∧ rest_of d = ([], err)
  end.
Proof.
  revert d. induction fuel as [|fuel IH]; intros d (Hr & Hend & Hmax & He) Hfuel;
    unfold next_loop; fold next_loop; unfold readLine;
    destruct (readLine_loop _ _ _ _) as [r' out] eqn:El;
    (apply readLine_loop_spec in El;
      [|done|done|done|lia|set_solver|done|pose proof (proj1 Hr); by apply Z.mod_0_l; lia]);
    unfold rest_of; rewrite split_on_cut; rewrite app_nil_l in El;
    destruct (cut LF (unread (d_r d))) as [[l rest]|] eqn:Ec.
  (* the connection is over *)
  2,4: subst out; intros Hn; simpl; unfold stream_end; unfold end_of_line in *;
    destruct Hend as [Hfull Hpart]; revert Hn; unfold fail;
    repeat (case_match; simplify_eq/=; try done); by intros [= <- <-].
  1: apply cut_Some in Ec as [Ec _]; rewrite Ec, length_app in Hfuel; simpl in Hfuel; lia.
  rewrite decode_cons by apply split_on_nonempty.
  destruct (d_maxLine d <? blen l + 1); [subst out; by intros [= <- <-]|].
  destruct El as (-> & Hwf' & Hrest & Hend' & Hs'). rewrite trimEOL_line.
  destruct (on_line (d_event d) (trim_last CR l)) as [b ev].
  apply cut_Some in Ec as [Ec _].
  assert (Hlt : (length (unread r') < length (unread (d_r d)))%nat)
    by (rewrite Ec, Hrest, length_app; simpl; lia).
  assert (Hwfd : decoder_wf (mkDecoder r' (d_maxLine d) b (d_err d)))
    by (split_and!; simpl; [done|by rewrite Hend'|done|done]).
  destruct ev as [ev|].
  - intros [= <- <-]. split_and!; [done|done|]. unfold rest_of. simpl.
    rewrite Hend', Hs', Hrest. by destruct (decode _ _ _ _ _).
  - intros Hn. apply IH in Hn; [|done|simpl; lia]. unfold rest_of in Hn. simpl in Hn.
    rewrite Hend', Hs', Hrest in Hn.
    destruct (decode _ _ _ _ _) as [evs err]. simpl in *.
    destruct res; [|done]. destruct Hn as (? & Hlt2 & ?).
    split_and!; [done|by rewrite Hrest in Hlt; lia|done].
Qed.

Lemma Decoder_Next_spec d d' res :
  decoder_wf d → Decoder_Next d = (d', res) →
  match res with
  | Ok ev => decoder_wf d' ∧ (length (unread (d_r d')) < length (unread (d_r d)))%nat ∧
      rest_of d = (ev :: (rest_of d').1, (rest_of d').2)
  | Err err => d_err d' = Some err ∧ rest_of d = ([], err)
  end.
Proof.
  intros Hwf. unfold Decoder_Next. destruct Hwf as (? & ? & ? & He) eqn:E. rewrite He.
  by apply next_loop_spec.
Qed.

Lemma drain_loop_spec fuel d :
  decoder_wf d → (length (unread (d_r d)) ≤ fuel)%nat → drain_loop fuel d = rest_of d.
Proof.
  revert d. induction fuel as [|fuel IH]; intros d Hwf Hfuel; simpl;
    destruct (Decoder_Next d) as [d' [ev|err]] eqn:En; apply Decoder_Next_spec in En; try done.
  - destruct En as (_ & Hlt & _). lia.
  - by destruct En as [_ ->].
  - destruct En as (Hwf' & Hlt & ->). rewrite IH by (done || lia). by destruct (rest_of d').
  - by destruct En as [_ ->].
Qed.

(** ** A reader takes a byte for every event *)

Lemma fill_unread r r' : fill r = Some r' → length (unread r') = length (unread r).
Proof.
  unfold fill, unread. destruct (r_src r) as [|chunk src]; [done|]. intros [= <-]. simpl.
  set (n := Z.to_nat _). rewrite !length_app.
  assert (Hc : length chunk = (length (take n chunk) + length (drop n chunk))%nat)
    by (by rewrite <- length_app, take_drop).
  destruct (decide _) as [E|E]; simpl; [rewrite E in Hc; simpl in Hc|rewrite length_app]; lia.
Qed.

Lemma read_slice_unread fuel r r' chunk err :
  read_slice fuel r = (r', chunk, err) →
  (length (unread r') + length chunk ≤ length (unread r))%nat ∧ (err = None → chunk ≠ []).
Proof.
  revert r. induction fuel as [|fuel IH]; intros r; cbn [read_slice];
    (destruct (cut LF (r_buf r)) as [[l rest]|] eqn:Ec;
      [apply cut_Some in Ec as [Ec _]; intros [= <- <- <-]; unfold unread; simpl; rewrite Ec;
       split; [rewrite ?length_app; simpl; rewrite ?length_app; simpl; lia|by destruct l]|]);
    (destruct (r_size r <=? blen (r_buf r));
      [intros [= <- <- <-]; unfold unread; simpl; rewrite length_app; split; [lia|done]|]).
  - intros [= <- <- <-]. unfold unread. simpl. rewrite length_app. split; [lia|done].
  - destruct (fill r) as [r1|] eqn:Ef.
    + intros Hr. rewrite <- (fill_unread _ _ Ef). by apply IH.
    + intros [= <- <- <-]. unfold unread. simpl. rewrite length_app. split; [lia|done].
Qed.

Lemma readLine_loop_unread fuel maxLine acc r r' res :
  readLine_loop fuel maxLine acc r = (r', res) →
  (length (unread r') ≤ length (unread r))%nat ∧
  (∀ line, res = Ok (line, None) → (length (unread r') < length (unread r))%nat).
Proof.
  revert acc r. induction fuel as [|fuel IH]; intros acc r; cbn [readLine_loop]; unfold ReadSlice;
    destruct (read_slice _ r) as [[r1 chunk] err] eqn:Es;
    apply read_slice_unread in Es as [Hle Hne];
    assert (Hlt : err = None → (length (unread r1) < length (unread r))%nat)
      by (intros E; specialize (Hne E); destruct chunk; [done|simpl in Hle; lia]);
    destruct err as [err|]; repeat case_match; intros Hr; simplify_eq; try (split; [lia|intros; simplify_eq; auto; lia]).
  all: apply IH in Hr as [H1 H2]; split; [lia|intros line E; specialize (H2 line E); lia].
Qed.

Lemma next_loop_unread fuel d d' res :
  next_loop fuel d = (d', res) →
  (length (unread (d_r d')) ≤ length (unread (d_r d)))%nat ∧
  (∀ ev, res = Ok ev → (length (unread (d_r d')) < length (unread (d_r d)))%nat).
Proof.
  revert d. induction fuel as [|fuel IH]; intros d; cbn [next_loop]; unfold readLine;
    destruct (readLine_loop _ _ _ _) as [r' out] eqn:El; apply readLine_loop_unread in El as [Hle Hlt];
    unfold fail; destruct out as [[line [err|]]|err];
    try (repeat case_match; intros ?; simplify_eq/=; by split).
  all: specialize (Hlt line eq_refl); destruct (on_line _ _) as [b [ev|]];
    [intros [= <- <-]; simpl; split; [lia|intros; lia]|].
  - intros [= <- <-]. simpl. split; [lia|done].
  - intros Hn. apply IH in Hn as [H1 H2]. simpl in *. split; [lia|intros ev E; specialize (H2 ev E); lia].
Qed.

(** ** What is written *)

(** The lines of a written event. *)
Definition event_lines (ev : Event) : list bytes :=
  (if bool_decide (ev_Type ev = []) then [] else [lit "event: " ++ ev_Type ev]) ++
  map (λ seg, lit "data: " ++ seg) (split_on LF (ev_Data ev)) ++ [[]].

(** An event that survives the wire: a type without line terminators, segments that do not
    end in a carriage return, lines within the limit. *)
Definition writable (ev : Event) : Prop :=
  CR ∉ ev_Type ev ∧ LF ∉ ev_Type ev ∧ blen (ev_Type ev) + 8 ≤ defaultMaxLine ∧
  Forall (λ seg, last seg ≠ Some CR ∧ blen seg + 7 ≤ defaultMaxLine) (split_on LF (ev_Data ev)).

Lemma event_bytes_lines ev : event_bytes ev = concat (map (λ l, l ++ [LF]) (event_lines ev)).
Proof.
  unfold event_bytes, event_lines. rewrite !List.map_app, !concat_app, List.map_map. f_equal.
  - case_bool_decide; simpl; [done|]. by rewrite app_nil_r.
Qed.

Lemma last_not_CR (a s : bytes) : last a ≠ Some CR → last s ≠ Some CR → last (a ++ s) ≠ Some CR.
Proof. rewrite last_app. destruct (last s); naive_solver. Qed.

Lemma data_line b seg :
  last seg ≠ Some CR →
  on_line b (trim_last CR (lit "data: " ++ seg)) =
  (mkBuilding ((if b_sawData b then b_data b ++ [LF] else b_data b) ++ seg) (b_evType b) true true, None).
Proof. intros Hs. by rewrite trim_last_id by (by apply last_not_CR). Qed.

Lemma event_line b ty :
  last ty ≠ Some CR →
  on_line b (trim_last CR (lit "event: " ++ ty)) = (mkBuilding (b_data b) ty (b_sawData b) true, None).
Proof. intros Hs. by rewrite trim_last_id by (by apply last_not_CR). Qed.

Lemma decode_data size maxLine final b segs pieces :
  pieces ≠ [] →
  Forall (λ seg, last seg ≠ Some CR ∧ blen seg + 7 ≤ maxLine) segs →
  b_sawData b = true →
  decode size maxLine final b (map (λ seg, lit "data: " ++ seg) segs ++ [] :: pieces) =
  decode size maxLine final
    (mkBuilding (b_data b ++ concat (map (cons LF) segs)) (b_evType b) true (b_dirty b || negb (bool_decide (segs = []))))
    ([] :: pieces).
Proof.
  intros Hp Hf. revert b. induction Hf as [|seg segs [Hs Hl] _ IH]; intros b Hb.
  { cbn [map app concat]. rewrite app_nil_r, orb_false_r. destruct b; simpl in *. by subst. }
  cbn [map app]. rewrite decode_cons by (by destruct segs).
  rewrite (proj2 (Z.ltb_ge _ _)) by (rewrite blen_app; change (blen (lit "data: ")) with 6; lia).
  rewrite data_line, Hb by done. rewrite IH by done. cbn [b_data b_evType b_dirty concat].
  rewrite (bool_decide_eq_false_2 (seg :: segs = [])) by done. cbn [negb].
  rewrite orb_true_r, <- !app_assoc. by destruct (decode _ _ _ _ _).
Qed.

Lemma decode_event size final ev pieces :
  writable ev → pieces ≠ [] →
  decode size defaultMaxLine final reset (event_lines ev ++ pieces) =
  let '(evs, err) := decode size defaultMaxLine final reset pieces in (ev :: evs, err).
Proof.
  intros (Hcr & Hlf & Hlt & Hf) Hp. unfold event_lines.
  destruct (split_on LF (ev_Data ev)) as [|seg segs] eqn:Es; [by apply split_on_nonempty in Es|].
  apply Forall_cons in Hf as [[Hs Hl] Hf]. pose proof (split_on_join _ _ _ Es) as Ed.
  assert (Hdata : ∀ ty, decode size defaultMaxLine final (mkBuilding [] ty false (negb (bool_decide (ty = []))))
      (map (λ seg, lit "data: " ++ seg) (seg :: segs) ++ [] :: pieces) =
    let '(evs, err) := decode size defaultMaxLine final reset pieces in
    (mkEvent ty (ev_Data ev) :: evs, err)).
  { intros ty. cbn [map app]. rewrite decode_cons by (by destruct segs).
    rewrite (proj2 (Z.ltb_ge _ _)) by (rewrite blen_app; change (blen (lit "data: ")) with 6; lia).
    rewrite data_line by done. cbn [b_sawData b_data b_evType app].
    rewrite decode_data by done. cbn [b_data b_evType b_dirty].
    rewrite decode_cons by done. change (defaultMaxLine <? blen [] + 1) with false. cbn -[decode].
    rewrite <- Ed. by destruct (decode _ _ _ _ _). }
  case_bool_decide as Ht.
  - specialize (Hdata []). change (mkBuilding [] [] false _) with reset in Hdata.
    rewrite app_nil_l, <- app_assoc. etransitivity; [exact Hdata|]. rewrite <- Ht. by destruct ev.
  - rewrite <- !app_assoc. cbn [app]. rewrite decode_cons by done.
    rewrite (proj2 (Z.ltb_ge _ _)) by (rewrite blen_app; change (blen (lit "event: ")) with 7; lia).
    rewrite event_line.
    2:{ intros E. apply last_Some_elem_of in E. done. }
    specialize (Hdata (ev_Type ev)). rewrite bool_decide_eq_false_2 in Hdata by done.
    cbn [b_data b_sawData reset]. cbn [negb app] in Hdata. rewrite Hdata.
    destruct (decode size defaultMaxLine final reset pieces). by destruct ev.
Qed.

Lemma decode_events size final evs pieces :
  Forall writable evs → pieces ≠ [] →
  decode size defaultMaxLine final reset (concat (map event_lines evs) ++ pieces) =
  let '(evs', err) := decode size defaultMaxLine final reset pieces in (evs ++ evs', err).
Proof.
  intros Hf Hp. induction Hf as [|ev evs Hw _ IH]; cbn [map concat app];
    [by destruct (decode size defaultMaxLine final reset pieces)|].
  rewrite <- app_assoc, decode_event, IH; [|done|by intros [? ?]%app_eq_nil].
  by destruct (decode size defaultMaxLine final reset pieces).
Qed.

Lemma event_lines_LF ev : writable ev → Forall (λ l, LF ∉ l) (event_lines ev).
Proof.
  intros (_ & Hlf & _). unfold event_lines. rewrite !Forall_app. split_and!.
  - case_bool_decide; [constructor|]. apply Forall_singleton, not_elem_of_app.
    split; [by apply (bool_decide_eq_true_1 _)|done].
  - apply Forall_map, (Forall_impl _ _ _ (split_on_notin LF (ev_Data ev))). intros seg Hs.
    apply not_elem_of_app. split; [by apply (bool_decide_eq_true_1 _)|done].
  - apply Forall_singleton, not_elem_of_nil.
Qed.

Lemma NewDecoder_wf src final :
  Forall (λ c, c ≠ []) src → plain_end final → decoder_wf (NewDecoder src final).
Proof. intros Hc Hf. unfold decoder_wf, reader_wf, blen. simpl. split_and!; try done; lia. Qed.

(** [WriteEvent] onto a buffer. *)
Definition append (w : bytes) (b : bytes) : bytes * option error := (w ++ b, None).
Definition write_all (evs : list Event) : bytes :=
  fold_left (λ w ev, (WriteEvent append w ev).1) evs [].

Lemma write_all_bytes evs :
  Forall writable evs → write_all evs = concat (map event_bytes evs).
Proof.
  intros Hf. unfold write_all. rewrite <- (app_nil_l (concat _)). generalize (@nil ascii).
  induction Hf as [|ev evs (Hcr & Hlf & _) _ IH]; intros w; simpl; [by rewrite app_nil_r|].
  rewrite IH, app_assoc. f_equal. unfold WriteEvent.
  destruct (existsb _ _) eqn:E; [|done]. apply existsb_exists in E as (c & Hc & E).
  apply bool_decide_eq_true in E. apply list_elem_of_In in Hc. by destruct E as [->| ->].
Qed.

(** C18. Decoding depends only on the bytes of the stream and on how it ends, never on how the
    connection delivered them: through the 16 KB buffer, whatever the sizes of the reads,
    draining a decoder gives what cutting the whole stream at its line feeds gives, with
    every line over the limit refused; and once a decoder has failed it stays failed. *)
Theorem decoding_ignores_chunking src final :
  Forall (λ c, c ≠ []) src → plain_end final →
  drain (NewDecoder src final) =
    decode readBufSize defaultMaxLine final reset (split_on LF (concat src)) ∧
  ∀ d d' err, decoder_wf d → Decoder_Next d = (d', Err err) → Decoder_Next d' = (d', Err err).
Proof.
  intros Hc Hf. split.
  - unfold drain. rewrite drain_loop_spec; [done|by apply NewDecoder_wf|done].
  - intros d d' err Hwf Hn. apply Decoder_Next_spec in Hn as [He _]; [|done].
    unfold Decoder_Next. by rewrite He.
Qed.

(** C17. What is written is read back: any sequence of events whose types hold no line
    terminator, whose data has no segment ending in a carriage return and whose lines fit
    the limit, written one after the other and delivered in any chunks, decodes to exactly
    that sequence followed by a clean end of stream. *)
Theorem write_then_decode evs src :
  Forall writable evs → Forall (λ c, c ≠ []) src → concat src = write_all evs →
  drain (NewDecoder src io_EOF) = (evs, io_EOF).
Proof.
  intros Hw Hc Hsrc. unfold drain.
  rewrite drain_loop_spec by (done || by apply NewDecoder_wf).
  unfold rest_of, unread. simpl. rewrite Hsrc, write_all_bytes by done.
  assert (Hlines : concat (map event_bytes evs) =
    concat (map (λ l, l ++ [LF]) (concat (map event_lines evs))) ++ []).
  { rewrite app_nil_r. clear. induction evs as [|ev evs IH]; cbn [map concat]; [done|].
    by rewrite List.map_app, concat_app, <- event_bytes_lines, IH. }
  rewrite Hlines, split_on_lines.
  - rewrite decode_events by done. simpl. by rewrite app_nil_r.
  - clear -Hw. induction Hw as [|ev evs Hev _ IH]; simpl; [constructor|].
    apply Forall_app. split; [by apply event_lines_LF|done].
Qed.

(** The encoder does not always invert the decoder: an event whose data ends in a carriage
    return is written without complaint, and read back without it. *)
Theorem trailing_CR_is_lost :
  let ev := mkEvent [] (lit "{}" ++ [CR]) in
  (WriteEvent append [] ev).2 = None ∧
  drain (NewDecoder [write_all [ev]] io_EOF) = ([mkEvent [] (lit "{}")], io_EOF).
Proof. split; vm_compute; reflexivity. Qed.

(** ** Examples *)

Definition ex_stream : list bytes :=
  [lit "da"; lit "ta: {" ++ [LF]; lit "data:}" ++ [CR; LF; LF] ++ lit ": keep"; lit "-alive" ++ [LF; LF]].

Lemma decoding_ignores_chunking_witness :
  drain (NewDecoder ex_stream io_EOF) =
    decode readBufSize defaultMaxLine io_EOF reset (split_on LF (concat ex_stream)) ∧
  drain (NewDecoder ex_stream io_EOF) = ([mkEvent [] (lit "{" ++ [LF] ++ lit "}")], io_EOF).
Proof.
  split; [|vm_compute; reflexivity].
  refine (proj1 (decoding_ignores_chunking ex_stream io_EOF _ _)).
  - repeat constructor; discriminate.
  - split; reflexivity.
Defined.

Definition ex_events : list Event :=
  [mkEvent (lit "delta") (lit "a" ++ [LF; LF] ++ lit " b"); mkEvent [] []].

Lemma write_then_decode_witness :
  drain (NewDecoder [write_all ex_events] io_EOF) = (ex_events, io_EOF).
Proof.
  refine (write_then_decode ex_events [write_all ex_events] _ _ _).
  - repeat constructor; try discriminate; apply (bool_decide_eq_true_1 _); vm_compute; reflexivity.
  - repeat constructor. discriminate.
  - vm_compute. reflexivity.
Defined.
