(* ===== verification/Provider.v ===== *)
(** The OpenAI-compatible provider client of [internal/adapters/outbound/providers/oaicompat]:
    what it sends upstream, how it sorts failures, and the readers that turn a response body
    into the events the dispatcher relays.

    The HTTP transport and the [sjson] package are parameters; an upstream response is its
    status, the chunks its body arrives in and the error the body ends with. *)
From Stdlib Require Import Ascii.
From S2P Require Import Prelude Bytes Errors Money Json Sse Config Dispatch.

(** ** Chunks *)

(** [src/internal/adapters/outbound/providers/oaicompat/chunck.go:23-25] promptTokenDetails *)
Record promptTokenDetails := mkPromptDetails { CachedTokens : Z }.
(** [src/internal/adapters/outbound/providers/oaicompat/chunck.go:27-29] completionTokenDetails *)
Record completionTokenDetails := mkCompletionDetails { ReasoningTokens : Z }.

(** [src/internal/adapters/outbound/providers/oaicompat/chunck.go:16-21] usageJSON *)
Record usageJSON := mkUsageJSON {
  PromptTokens : Z;
  CompletionTokens : Z;
  PromptTokensDetails : option promptTokenDetails;
  CompletionTokensDetails : option completionTokenDetails;
}.

(** [src/internal/adapters/outbound/providers/oaicompat/chunck.go:9-14] chunk *)
Record chunk := mkChunk { ck_Choices : list RawMessage; ck_Usage : option usageJSON }.

Definition zero_promptDetails := mkPromptDetails 0.
Definition zero_completionDetails := mkCompletionDetails 0.
Definition zero_usageJSON := mkUsageJSON 0 0 None None.
Definition zero_chunk := mkChunk [] None.

(** The [json] tags of the structs above. *)
Definition prompt_details_fields : fields promptTokenDetails :=
  [("cached_tokens", field CachedTokens (λ b _, mkPromptDetails b) into_int)].
Definition completion_details_fields : fields completionTokenDetails :=
  [("reasoning_tokens", field ReasoningTokens (λ b _, mkCompletionDetails b) into_int)].
Definition usage_fields : fields usageJSON :=
  [("prompt_tokens", field PromptTokens (λ b u, mkUsageJSON b (CompletionTokens u)
      (PromptTokensDetails u) (CompletionTokensDetails u)) into_int);
   ("completion_tokens", field CompletionTokens (λ b u, mkUsageJSON (PromptTokens u) b
      (PromptTokensDetails u) (CompletionTokensDetails u)) into_int);
   ("prompt_tokens_details", field PromptTokensDetails (λ b u, mkUsageJSON (PromptTokens u)
      (CompletionTokens u) b (CompletionTokensDetails u))
      (into_ptr zero_promptDetails (into_struct prompt_details_fields)));
   ("completion_tokens_details", field CompletionTokensDetails (λ b u, mkUsageJSON (PromptTokens u)
      (CompletionTokens u) (PromptTokensDetails u) b)
      (into_ptr zero_completionDetails (into_struct completion_details_fields)))].
Definition chunk_fields : fields chunk :=
  [("choices", field ck_Choices (λ b c, mkChunk b (ck_Usage c)) (into_slice [] into_raw));
   ("usage", field ck_Usage (λ b c, mkChunk (ck_Choices c) b)
      (into_ptr zero_usageJSON (into_struct usage_fields)))].

(** [src/internal/adapters/outbound/providers/oaicompat/chunck.go:31-35] parseChunk *)
Definition parseChunk (data : bytes) : result error chunk :=
  Unmarshal (into_struct chunk_fields) zero_chunk data.

(** [src/internal/adapters/outbound/providers/oaicompat/chunck.go:37-73] chunk.usage *)
Definition chunk_usage (c : chunk) : option TokenUsage :=
  match ck_Usage c with
  | None => None
  | Some u =>
      let cached := match PromptTokensDetails u with Some d => CachedTokens d | None => 0 end in
      let reasoning :=
        match CompletionTokensDetails u with Some d => ReasoningTokens d | None => 0 end in
      let input := wrap64 (PromptTokens u - cached) in
      let input := if input <? 0 then 0 else input in
      Some (mkTokenUsage input (CompletionTokens u) 0 cached reasoning)
  end.

(** [src/internal/adapters/outbound/providers/oaicompat/chunck.go:75-80] chunk.usageOnly *)
Definition chunk_usageOnly (c : chunk) : bool :=
  match ck_Usage c with Some _ => Nat.eqb (length (ck_Choices c)) 0 | None => false end.

(** ** Failures *)

(** [src/internal/adapters/outbound/providers/oaicompat/errors.go:9-9] maxErrorBodyBytes *)
Definition maxErrorBodyBytes : Z := Z.shiftl 8 10.

(** [src/internal/adapters/outbound/providers/oaicompat/errors.go:11-19] errorResponse *)
Record errorResponse := mkErrorResponse {
  er_Message : bytes;
  er_Type : bytes;
  er_Code : bytes;
}.
Definition zero_errorResponse := mkErrorResponse [] [] [].
Definition error_fields : fields errorResponse :=
  [("message", field er_Message (λ b e, mkErrorResponse b (er_Type e) (er_Code e)) into_string);
   ("type", field er_Type (λ b e, mkErrorResponse (er_Message e) b (er_Code e)) into_string);
   ("code", field er_Code (λ b e, mkErrorResponse (er_Message e) (er_Type e) b) into_string)].
Definition envelope_fields : fields errorResponse := [("error", into_struct error_fields)].

(** [src/internal/adapters/outbound/providers/oaicompat/errors.go:70-79] extractMessage *)
Definition extractMessage (body : bytes) : string :=
  let fallback :=
    if bool_decide (body = []) then "upstream returned an empty error body" else str body in
  match Unmarshal (into_struct envelope_fields) zero_errorResponse body with
  | Ok er => if bool_decide (er_Message er = []) then fallback else str (er_Message er)
  | Err _ => fallback
  end.

(** [src/internal/adapters/outbound/providers/oaicompat/errors.go:35-65] the kind and the retry decision of a status *)
Definition classify_status (status : Z) : FailureKind * bool :=
  if (status =? 401) || (status =? 403) then (FailureAuth, false)
  else if (status =? 400) || (status =? 422) then (FailureBadRequest, false)
  else if status =? 404 then (FailureBadRequest, true)
  else if status =? 413 then (FailureBadRequest, true)
  else if (status =? 408) || (status =? 504) then (FailureTimeout, true)
  else if status =? 429 then (FailureRateLimit, true)
  else if 500 <=? status then (FailureUpstream, true)
  else (FailureUnknown, true).

(** [src/internal/adapters/outbound/providers/oaicompat/errors.go:21-68] classify *)
Definition classify (provider : string) (status : Z) (body : bytes) : error :=
  let body :=
    if maxErrorBodyBytes <? blen body then take (Z.to_nat maxErrorBodyBytes) body else body in
  let '(kind, retryable) := classify_status status in
  ProviderError kind provider status (TLit (extractMessage body)) retryable None.

(** ** Readers *)

(** [src/internal/adapters/outbound/providers/oaicompat/readers.go:11-12] doneSentinel *)
Definition doneSentinel : bytes := lit "[DONE]".

(** [src/internal/adapters/outbound/providers/oaicompat/readers.go:14-17] reader
    [src/internal/adapters/outbound/providers/oaicompat/readers.go:48-55] nonStreamReader *)
Inductive upstream_reader :=
| reader (dec : Decoder)
| nonStreamReader (raw : bytes) (done : bool).

(** [src/internal/adapters/outbound/providers/oaicompat/readers.go:27-41] the event of a chunk *)
Definition event_of (data : bytes) : StreamEvent :=
  if bool_decide (data = doneSentinel) then mkStreamEvent (str data) None true false
  else
    match parseChunk data with
    | Ok c => mkStreamEvent (str data) (chunk_usage c) false (chunk_usageOnly c)
    | Err _ => mkStreamEvent (str data) None false false
    end.

(** [src/internal/adapters/outbound/providers/oaicompat/readers.go:21-42] reader.Next *)
Definition reader_Next (dec : Decoder) : upstream_reader * result error StreamEvent :=
  match Decoder_Next dec with
  | (dec, Err err) => (reader dec, Err err)
  | (dec, Ok ev) => (reader dec, Ok (event_of (ev_Data ev)))
  end.

(** [src/internal/adapters/outbound/providers/oaicompat/readers.go:59-70] nonStreamReader.Next *)
Definition nonStreamReader_Next (raw : bytes) (done : bool)
    : upstream_reader * result error StreamEvent :=
  if done then (nonStreamReader raw done, Err io_EOF)
  else
    let usage := match parseChunk raw with Ok c => chunk_usage c | Err _ => None end in
    (nonStreamReader raw true, Ok (mkStreamEvent (str raw) usage true false)).

Definition upstream_Next (r : upstream_reader) : upstream_reader * result error StreamEvent :=
  match r with
  | reader dec => reader_Next dec
  | nonStreamReader raw done => nonStreamReader_Next raw done
  end.

(** ** The client *)

(** [src/internal/adapters/outbound/providers/oaicompat/provider.go:22-29] Config *)
Record oaicompat_Config := mkOaicompatConfig {
  oc_Name : string;
  oc_BaseURL : string;
  oc_APIKey : string;
  oc_DisableStreamOption : bool;
  oc_ExtraHeaders : list (string * string);
}.

(** [src/internal/adapters/outbound/providers/oaicompat/provider.go:31-34] Provider *)
Record Provider := mkProvider { p_cfg : oaicompat_Config }.

(** [strings.TrimRight(s, "/")] *)
Fixpoint trim_right (c : ascii) (b : bytes) : bytes :=
  match b with
  | [] => []
  | x :: b =>
      match trim_right c b with
      | [] => if decide (x = c) then [] else [x]
      | r => x :: r
      end
  end.

(** [src/internal/adapters/outbound/providers/oaicompat/provider.go:38-53] New *)
Definition New (cfg : oaicompat_Config) : result error Provider :=
  if String.eqb (oc_Name cfg) "" then Err (Errorf "oaicompat: Name is required" [])
  else if String.eqb (oc_BaseURL cfg) "" then Err (Errorf "oaicompat: BaseURL is required" [])
  else Ok (mkProvider (mkOaicompatConfig (oc_Name cfg) (str (trim_right "/" (lit (oc_BaseURL cfg))))
             (oc_APIKey cfg) (oc_DisableStreamOption cfg) (oc_ExtraHeaders cfg))).

(** [src/internal/adapters/outbound/providers/oaicompat/provider.go:55-57] Provider.Name *)
Definition Provider_Name (p : Provider) : string := oc_Name (p_cfg p).

(** The canonical form of a header name made of letters, digits and dashes. *)
Fixpoint canonical (start : bool) (b : bytes) : bytes :=
  match b with
  | [] => []
  | c :: r => (if start then upper c else if between 65 90 c then byte (code c + 32) else c)
                :: canonical (bool_decide (c = "-"%char)) r
  end.
Definition token_char (c : ascii) : bool :=
  is_digit c || between 65 90 c || between 97 122 c ||
  existsb (Ascii.eqb c) (lit "!#$%&'*+-.^_`|~").
Definition CanonicalHeaderKey (k : string) : string :=
  if forallb token_char (lit k) then str (canonical true (lit k)) else k.

Definition Header := gmap string string.
Definition header_Set (h : Header) (k v : string) : Header := <[CanonicalHeaderKey k := v]> h.

Record http_Request := mkHttpRequest {
  hr_URL : string;
  hr_Header : Header;
  hr_Body : bytes;
}.
Record http_Response := mkHttpResponse {
  resp_StatusCode : Z;
  resp_Body : list bytes;
  resp_End : error;
}.

(** [io.ReadAll(io.LimitReader(body, n))] with its error dropped, and [io.ReadAll(body)]. *)
Definition read_limited (n : Z) (resp : http_Response) : bytes :=
  take (Z.to_nat n) (concat (resp_Body resp)).
Definition read_all (resp : http_Response) : result error bytes :=
  if Is (resp_End resp) io_EOF then Ok (concat (resp_Body resp)) else Err (resp_End resp).

Section Stream.
(** [sjson.SetBytes] with a string and with a boolean, and [http.NewRequestWithContext]. *)
Context (SetString : bytes → string → string → result error bytes)
        (SetBool : bytes → string → bool → result error bytes)
        (bad_url : string → option error).

(** [src/internal/adapters/outbound/providers/oaicompat/provider.go:124-150] Provider.buildBody *)
Definition buildBody (p : Provider) (req : ProviderRequest) : result error bytes :=
  match SetString (lit (preq_Body req)) "model" (preq_Model req) with
  | Err err =>
      Err (ProviderError FailureBadRequest (Provider_Name p) 0
             (TCat "rewrite model: " (TErr err)) false (Some err))
  | Ok body =>
      if preq_Stream req && negb (oc_DisableStreamOption (p_cfg p)) then
        match SetBool body "stream_options.include_usage" true with
        | Err err =>
            Err (ProviderError FailureBadRequest (Provider_Name p) 0
                   (TCat "inject stream_options: " (TErr err)) false (Some err))
        | Ok body => Ok body
        end
      else Ok body
  end.

(** [src/internal/adapters/outbound/providers/oaicompat/provider.go:76-86] the headers of the request *)
Definition request_headers (p : Provider) (req : ProviderRequest) : Header :=
  let h := header_Set ∅ "Content-Type" "application/json" in
  let h := header_Set h "Accept-Encoding" "identity" in
  let h := if String.eqb (oc_APIKey (p_cfg p)) "" then h
           else header_Set h "Authorization" ("Bearer " +:+ oc_APIKey (p_cfg p)) in
  let h := if preq_Stream req then header_Set h "Accept" "text/event-stream" else h in
  fold_left (λ h kv, header_Set h kv.1 kv.2) (oc_ExtraHeaders (p_cfg p)) h.

(** The upstream, and whether the body of its last response is open. *)
Context {U : Type} (Do : U → http_Request → U * result error http_Response).
Record exchange := mkExchange { ex_upstream : U; ex_sent : list http_Request; ex_open : bool }.

Definition connect_error (p : Provider) (err : error) : error :=
  ProviderError FailureConnect (Provider_Name p) 0 (TErr err) true (Some err).

(** [src/internal/adapters/outbound/providers/oaicompat/provider.go:59-122] Provider.Stream *)
Definition Provider_Stream (u : U) (p : Provider) (req : ProviderRequest)
    : exchange * result error upstream_reader :=
  match buildBody p req with
  | Err err => (mkExchange u [] false, Err err)
  | Ok body =>
      let url := oc_BaseURL (p_cfg p) +:+ "/chat/completions" in
      match bad_url url with
      | Some err => (mkExchange u [] false, Err (connect_error p err))
      | None =>
          let httpReq := mkHttpRequest url (request_headers p req) body in
          match Do u httpReq with
          | (u, Err err) => (mkExchange u [httpReq] false, Err (connect_error p err))
          | (u, Ok resp) =>
              if negb (resp_StatusCode resp =? 200) then
                let errBody := read_limited maxErrorBodyBytes resp in
                (mkExchange u [httpReq] false,
                 Err (classify (Provider_Name p) (resp_StatusCode resp) errBody))
              else if negb (preq_Stream req) then
                match read_all resp with
                | Err err =>
                    (mkExchange u [httpReq] false,
                     Err (ProviderError FailureUpstream (Provider_Name p) 0 (TErr err) true (Some err)))
                | Ok raw => (mkExchange u [httpReq] true, Ok (nonStreamReader raw false))
                end
              else (mkExchange u [httpReq] true,
                    Ok (reader (NewDecoder (resp_Body resp) (resp_End resp))))
          end
      end
  end.
End Stream.

(** ** Failures, sorted *)

(** The statuses no other target is tried after. *)
Definition final_statuses : list Z := [400; 401; 403; 422].

Lemma classify_status_final status : (classify_status status).2 = false ↔ status ∈ final_statuses.
Proof.
  unfold classify_status, final_statuses. rewrite !elem_of_cons, elem_of_nil.
  repeat case_match; bool_prop; simpl; split; try done; try lia.
  all: repeat match goal with
    | H : (_ || _)%bool = true |- _ => apply orb_true_iff in H as [?|?]; bool_prop
    end; lia.
Qed.

Lemma extractMessage_nonempty body : extractMessage body ≠ "".
Proof.
  unfold extractMessage. set (fallback := if bool_decide _ then _ else _).
  assert (Hf : fallback ≠ "") by (unfold fallback; case_bool_decide; [done|by apply str_nonempty]).
  destruct (Unmarshal _ _ _) as [er|]; [|done]. case_bool_decide; [done|by apply str_nonempty].
Qed.

Section Stream_facts.
Context (SetString : bytes → string → string → result error bytes)
        (SetBool : bytes → string → bool → result error bytes)
        (bad_url : string → option error)
        {U : Type} (Do : U → http_Request → U * result error http_Response).

Lemma buildBody_error p req err :
  buildBody SetString SetBool p req = Err err →
  ∃ m e, err = ProviderError FailureBadRequest (Provider_Name p) 0 m false (Some e).
Proof. unfold buildBody. repeat case_match; intros; simplify_eq; eauto. Qed.

(** A call to a provider holds a response body open exactly when it returned a reader, so
    the dispatcher, which closes every reader, leaks no connection; it sends at most one
    request; and every failure says whether the next target may be tried: never when the
    request itself could not be built or the upstream answered 400, 401, 403 or 422, always
    otherwise. *)
Theorem Stream_failures_sorted p u req x r :
  Provider_Stream SetString SetBool bad_url Do u p req = (x, r) →
  ex_open x = is_ok r ∧ (length (ex_sent x) ≤ 1)%nat ∧
  ∀ err, r = Err err → ∃ pe, as_provider err = Some pe ∧ pe_Message pe ≠ TLit "" ∧
    (pe_Retryable pe = false ↔
       is_ok (buildBody SetString SetBool p req) = false ∨ pe_StatusCode pe ∈ final_statuses).
Proof.
  unfold Provider_Stream. intros Hs.
  destruct (buildBody SetString SetBool p req) as [body|berr] eqn:Eb.
  2:{ injection Hs as <- <-. split_and!; [done|simpl; lia|]. intros err [= <-].
      destruct (buildBody_error _ _ _ Eb) as (m & e & ->). eexists. split_and!; [reflexivity| |].
      - unfold buildBody in Eb. repeat case_match; simplify_eq; done.
      - simpl. tauto. }
  assert (Hconn : ∀ e : error, ∃ pe, as_provider (connect_error p e) = Some pe ∧ pe_Message pe ≠ TLit "" ∧
      (pe_Retryable pe = false ↔ is_ok (@Ok error bytes body) = false ∨ pe_StatusCode pe ∈ final_statuses)).
  { intros e. eexists. split_and!; [reflexivity|done|]. simpl. unfold final_statuses. set_solver. }
  destruct (bad_url _) as [e|].
  { injection Hs as <- <-. split_and!; [done|simpl; lia|]. intros err [= <-]. apply Hconn. }
  destruct (Do _ _) as [u' [resp|e]].
  2:{ injection Hs as <- <-. split_and!; [done|simpl; lia|]. intros err [= <-]. apply Hconn. }
  destruct (Z.eqb_spec (resp_StatusCode resp) 200) as [E|E]; simpl in Hs.
  - destruct (preq_Stream req); simpl in Hs; [by injection Hs as <- <-; split_and!|].
    destruct (read_all resp) as [raw|e]; injection Hs as <- <-; split_and!; try done; simpl; try lia.
    intros err [= <-]. eexists. split_and!; [reflexivity|done|]. simpl. unfold final_statuses. set_solver.
  - injection Hs as <- <-. split_and!; [done|simpl; lia|]. intros err [= <-]. unfold classify.
    pose proof (classify_status_final (resp_StatusCode resp)) as Hc.
    destruct (classify_status _) as [kind retry]. eexists. split_and!; [reflexivity| |].
    + simpl. intros [= Hm]. by eapply extractMessage_nonempty.
    + simpl in *. rewrite Hc. naive_solver.
Qed.
End Stream_facts.

(** An upstream that refuses every request for its credentials. *)
Definition ex_refusal (u : unit) (_ : http_Request) : unit * result error http_Response :=
  (u, Ok (mkHttpResponse 401 [quoted "{'error':{'message':'bad key'}}"] io_EOF)).
Definition ex_set (body : bytes) (_ _ : string) : result error bytes := Ok body.
Definition ex_set_bool (body : bytes) (_ : string) (_ : bool) : result error bytes := Ok body.
Definition ex_provider : Provider := mkProvider (mkOaicompatConfig "openai" "http://up" "k" false []).
Definition ex_upstream_request : ProviderRequest := mkProviderRequest "m" "{}" true false.
Definition ex_exchange :=
  Provider_Stream ex_set ex_set_bool (λ _, None) ex_refusal tt ex_provider ex_upstream_request.

Lemma Stream_failures_sorted_witness :
  ex_exchange.2 = Err (ProviderError FailureAuth "openai" 401 (TLit "bad key") false None) ∧
  ex_open ex_exchange.1 = false.
Proof.
  split; [vm_compute; reflexivity|].
  destruct (Stream_failures_sorted ex_set ex_set_bool (λ _, None) ex_refusal ex_provider
              tt ex_upstream_request ex_exchange.1 ex_exchange.2 eq_refl) as (E & _ & _).
  rewrite E. vm_compute. reflexivity.
Defined.

(** ** Metering *)

(** Token counts are split the way they are billed: for every chunk with a usage object
    whose cached count is within its prompt count, fresh and cached input together make the
    reported prompt tokens, nothing is counted as a cache write, output is the completion
    count with reasoning inside it, and the input count is never negative whatever the
    provider reported. *)
Theorem usage_splits_prompt data t :
  ev_Usage (event_of data) = Some t →
  ∃ c u, parseChunk data = Ok c ∧ ck_Usage c = Some u ∧
    0 ≤ Input t ∧ CacheWrite t = 0 ∧ Output t = CompletionTokens u ∧
    (0 ≤ CacheRead t ≤ PromptTokens u → int64_range (PromptTokens u) →
       Input t + CacheRead t = PromptTokens u).
Proof.
  unfold event_of. case_bool_decide; [done|]. destruct (parseChunk data) as [c|]; [|done]. simpl.
  unfold chunk_usage. destruct (ck_Usage c) as [u|] eqn:Eu; [|done].
  set (cached := match PromptTokensDetails u with Some d => CachedTokens d | None => 0 end).
  intros [= <-]. exists c, u. simpl.
  split_and!; try done; [destruct (Z.ltb_spec (wrap64 (PromptTokens u - cached)) 0); lia|].
  unfold int64_range. intros Hc Hr. rewrite wrap64_id by (unfold int64_range; lia).
  rewrite (proj2 (Z.ltb_ge _ _)) by lia. lia.
Qed.

Definition ex_chunk_text : bytes := quoted
  "{'choices':[],'usage':{'prompt_tokens':100,'completion_tokens':20,'prompt_tokens_details':{'cached_tokens':60},'completion_tokens_details':{'reasoning_tokens':5}}}".

Definition ex_chunk_usage : TokenUsage := mkTokenUsage 40 20 0 60 5.

Lemma ex_chunk_event : ev_Usage (event_of ex_chunk_text) = Some ex_chunk_usage.
Proof. vm_compute. reflexivity. Qed.

Lemma usage_splits_prompt_witness :
  ev_Usage (event_of ex_chunk_text) = Some ex_chunk_usage ∧
  ∃ c u, parseChunk ex_chunk_text = Ok c ∧ ck_Usage c = Some u ∧
    Input ex_chunk_usage + CacheRead ex_chunk_usage = PromptTokens u.
Proof.
  split; [exact ex_chunk_event|].
  destruct (usage_splits_prompt ex_chunk_text ex_chunk_usage ex_chunk_event)
    as (c & u & Hc & Hu & _ & _ & _ & Hs).
  exists c, u. split; [exact Hc|split; [exact Hu|]].
  assert (E : (λ c, PromptTokens <$> ck_Usage c) <$> (match parseChunk ex_chunk_text with Ok c => Some c | Err _ => None end)
              = Some (Some 100)) by (vm_compute; reflexivity).
  rewrite Hc in E. simpl in E. rewrite Hu in E. injection E as E.
  rewrite E. reflexivity.
Defined.

(** The guard against negative counts covers the input only: a provider that reports a
    negative completion count gives a usage with negative output. *)
Theorem negative_output_passes :
  event_of (quoted "{'choices':[],'usage':{'prompt_tokens':5,'completion_tokens':-20}}") =
  mkStreamEvent (str (quoted "{'choices':[],'usage':{'prompt_tokens':5,'completion_tokens':-20}}"))
    (Some (mkTokenUsage 5 (-20) 0 0 0)) false true.
Proof. vm_compute. reflexivity. Qed.
