(* ===== verification/Extract.v ===== *)
(** What the proxy reads off a request ([internal/adapters/inbound/proxyapi/extract.go]):
    the facts routing and quota are decided on. *)
From Stdlib Require Import Ascii.
From S2P Require Import Prelude Sorting Bytes Errors Money Records Json.

(** [src/internal/adapters/inbound/proxyapi/extract.go:15-17] metaPrefix, tenantKey *)
Definition metaPrefix : string := "x-go-route-".
Definition tenantKey : string := "tenant".

(** [src/internal/adapters/inbound/proxyapi/extract.go:19-19] ErrInvalidRequest *)
Definition ErrInvalidRequest : error := Sentinel "invalid request".

(** [src/internal/adapters/inbound/proxyapi/extract.go:32-34] streamOption *)
Record streamOption := mkStreamOption { IncludeUsage : bool }.

(** [src/internal/adapters/inbound/proxyapi/extract.go:21-30] completionProbe *)
Record completionProbe := mkProbe {
  pb_Model : bytes;
  pb_Stream : bool;
  pb_StreamOption : option streamOption;
  pb_Messages : RawMessage;
  pb_Tools : RawMessage;
  pb_MaxTokens : RawMessage;
  pb_MaxCompletionTokens : RawMessage;
  pb_N : RawMessage;
}.
Definition zero_probe := mkProbe [] false None [] [] [] [] [].

(** The [json] tags of the structs above. *)
Definition stream_option_fields : fields streamOption :=
  [("include_usage", field IncludeUsage (λ b _, mkStreamOption b) into_bool)].
Definition probe_fields : fields completionProbe :=
  [("model", field pb_Model (λ b p, mkProbe b (pb_Stream p) (pb_StreamOption p) (pb_Messages p)
      (pb_Tools p) (pb_MaxTokens p) (pb_MaxCompletionTokens p) (pb_N p)) into_string);
   ("stream", field pb_Stream (λ b p, mkProbe (pb_Model p) b (pb_StreamOption p) (pb_Messages p)
      (pb_Tools p) (pb_MaxTokens p) (pb_MaxCompletionTokens p) (pb_N p)) into_bool);
   ("stream_options", field pb_StreamOption (λ b p, mkProbe (pb_Model p) (pb_Stream p) b
      (pb_Messages p) (pb_Tools p) (pb_MaxTokens p) (pb_MaxCompletionTokens p) (pb_N p))
      (into_ptr (mkStreamOption false) (into_struct stream_option_fields)));
   ("messages", field pb_Messages (λ b p, mkProbe (pb_Model p) (pb_Stream p) (pb_StreamOption p) b
      (pb_Tools p) (pb_MaxTokens p) (pb_MaxCompletionTokens p) (pb_N p)) into_raw);
   ("tools", field pb_Tools (λ b p, mkProbe (pb_Model p) (pb_Stream p) (pb_StreamOption p)
      (pb_Messages p) b (pb_MaxTokens p) (pb_MaxCompletionTokens p) (pb_N p)) into_raw);
   ("max_tokens", field pb_MaxTokens (λ b p, mkProbe (pb_Model p) (pb_Stream p) (pb_StreamOption p)
      (pb_Messages p) (pb_Tools p) b (pb_MaxCompletionTokens p) (pb_N p)) into_raw);
   ("max_completion_tokens", field pb_MaxCompletionTokens (λ b p, mkProbe (pb_Model p) (pb_Stream p)
      (pb_StreamOption p) (pb_Messages p) (pb_Tools p) (pb_MaxTokens p) b (pb_N p)) into_raw);
   ("n", field pb_N (λ b p, mkProbe (pb_Model p) (pb_Stream p) (pb_StreamOption p) (pb_Messages p)
      (pb_Tools p) (pb_MaxTokens p) (pb_MaxCompletionTokens p) b) into_raw)].

(** ** The size of the prompt *)

(** [src/internal/adapters/inbound/proxyapi/extract.go:59-61] probeMessage *)
Record probeMessage := mkProbeMessage { pm_Content : RawMessage }.
(** [src/internal/adapters/inbound/proxyapi/extract.go:63-66] probePart *)
Record probePart := mkProbePart { pp_Type : bytes; pp_Text : bytes }.

Definition message_fields : fields probeMessage :=
  [("content", field pm_Content (λ b _, mkProbeMessage b) into_raw)].
Definition part_fields : fields probePart :=
  [("type", field pp_Type (λ b p, mkProbePart b (pp_Text p)) into_string);
   ("text", field pp_Text (λ b p, mkProbePart (pp_Type p) b) into_string)].

Definition add_text (size : PromptSize) (n : Z) : PromptSize :=
  mkPromptSize (wrap64 (TextBytes size + n)) (Messages size) (MediaParts size).
Definition set_messages (size : PromptSize) (n : Z) : PromptSize :=
  mkPromptSize (TextBytes size) n (MediaParts size).
Definition add_media (size : PromptSize) : PromptSize :=
  mkPromptSize (TextBytes size) (Messages size) (wrap64 (MediaParts size + 1)).

Definition present (raw : RawMessage) : bool :=
  (0 <? blen raw) && negb (bool_decide (raw = lit "null")).

(** [src/internal/adapters/inbound/proxyapi/extract.go:97-103] one content part *)
Definition part_size (size : PromptSize) (p : probePart) : PromptSize :=
  if bool_decide (pp_Type p = lit "text") then add_text size (blen (pp_Text p)) else add_media size.

(** [src/internal/adapters/inbound/proxyapi/extract.go:85-104] one message *)
Definition message_size (size : PromptSize) (m : probeMessage) : PromptSize :=
  match Unmarshal into_string [] (pm_Content m) with
  | Ok text => add_text size (blen text)
  | Err _ =>
      match Unmarshal (into_slice (mkProbePart [] []) (into_struct part_fields)) [] (pm_Content m) with
      | Err _ => add_text size (blen (pm_Content m))
      | Ok parts => fold_left part_size parts size
      end
  end.

(** [src/internal/adapters/inbound/proxyapi/extract.go:68-106] promptSize *)
Definition promptSize (messages tools : RawMessage) : PromptSize :=
  let size := mkPromptSize 0 0 0 in
  let size := if present tools then add_text size (blen tools) else size in
  match Unmarshal (into_slice (mkProbeMessage []) (into_struct message_fields)) [] messages with
  | Err _ => if present messages then add_text size (blen messages) else size
  | Ok msgs =>
      let size := set_messages size (Z.of_nat (length msgs)) in
      fold_left message_size msgs size
  end.

(** [src/internal/adapters/inbound/proxyapi/extract.go:108-116] firstPositive *)
Fixpoint firstPositive (vals : list RawMessage) : Z :=
  match vals with
  | [] => 0
  | v :: vals =>
      match Unmarshal into_int 0 v with
      | Ok n => if 0 <? n then n else firstPositive vals
      | Err _ => firstPositive vals
      end
  end.

(** ** Metadata *)

(** [s[:n]] *)
Definition cut_string (n : Z) (s : string) : string := String.substring 0 (Z.to_nat n) s.

(** [src/internal/adapters/inbound/proxyapi/extract.go:124-140] one header *)
Definition header_entry (name : string) (vals : list string) : option (string * string) :=
  let lower := ToLower name in
  if negb (HasPrefix lower metaPrefix) || Nat.eqb (length vals) 0 then None
  else
    let key := TrimPrefix lower metaPrefix in
    if String.eqb key "" || String.eqb key tenantKey then None
    else
      let val := default "" (head vals) in
      Some (key, if MaxMetadataLen <? str_len val then cut_string MaxMetadataLen val else val).

(** [src/internal/adapters/inbound/proxyapi/extract.go:118-153] extractMetadata

    [h] is the header in the order the runtime iterates over it. *)
Definition extractMetadata (h : list (string * list string)) : gmap string string :=
  let entries := omap (λ nv, header_entry nv.1 nv.2) h in
  let seens := fold_left (λ m kv, <[kv.1 := kv.2]> m) entries (∅ : gmap string string) in
  let keys := sort_strings entries.*1 in
  let keys := if MaxMetadataKeys <? Z.of_nat (length keys)
              then take (Z.to_nat MaxMetadataKeys) keys else keys in
  fold_left (λ md k, <[k := default "" (seens !! k)]> md) keys ∅.

(** ** The facts *)

(** [src/internal/adapters/inbound/proxyapi/extract.go:36-57] ExtractFacts *)
Definition ExtractFacts (h : list (string * list string)) (raw : bytes) (tenant : Tenant)
    (now : time) : result error RequestFacts :=
  match Unmarshal (into_struct probe_fields) zero_probe raw with
  | Err err => Err (Errorf "%w: malformed JSON body: %v" [AWrap ErrInvalidRequest; AErr err])
  | Ok probe =>
      if bool_decide (pb_Model probe = [])
      then Err (Errorf "%w: missing required field: model" [AWrap ErrInvalidRequest])
      else
        let wantsUsage :=
          match pb_StreamOption probe with Some o => IncludeUsage o | None => false end in
        Ok (mkRequestFacts tenant 0%N (extractMetadata h)
              (String.string_of_list_ascii (pb_Model probe)) (pb_Stream probe) wantsUsage now
              (promptSize (pb_Messages probe) (pb_Tools probe))
              (firstPositive [pb_MaxCompletionTokens probe; pb_MaxTokens probe])
              (firstPositive [pb_N probe]))
  end.

Lemma ExtractFacts_given h raw tenant now facts :
  ExtractFacts h raw tenant now = Ok facts → rf_ReceivedAt facts = now ∧ rf_Tenant facts = tenant.
Proof. unfold ExtractFacts. repeat case_match; intros; by simplify_eq/=. Qed.

(** ** Metadata, bounded *)

Lemma fold_insert_lookup (f : string → string) keys (m : gmap string string) k :
  fold_left (λ md k, <[k := f k]> md) keys m !! k =
  if decide (k ∈ keys) then Some (f k) else m !! k.
Proof.
  revert m. induction keys as [|x keys IH]; intros m; simpl; [done|]. rewrite IH.
  destruct (decide (k ∈ keys)) as [Hin|Hn].
  - rewrite decide_True by (by right). done.
  - destruct (decide (x = k)) as [->|Hne].
    + rewrite lookup_insert_eq, decide_True by (by left). done.
    + rewrite lookup_insert_ne, decide_False by (set_solver || done). done.
Qed.

Lemma fold_insert_size (f : string → string) keys (m : gmap string string) :
  (size (fold_left (λ md k, <[k := f k]> md) keys m) ≤ size m + length keys)%nat.
Proof.
  revert m. induction keys as [|x keys IH]; intros m; simpl; [lia|].
  specialize (IH (<[x := f x]> m)). rewrite map_size_insert in IH.
  destruct (m !! x); simpl in IH; lia.
Qed.

Lemma fold_entries_elem (entries : list (string * string)) (m : gmap string string) k v :
  fold_left (λ m kv, <[kv.1 := kv.2]> m) entries m !! k = Some v →
  (k, v) ∈ entries ∨ (k ∉ entries.*1 ∧ m !! k = Some v).
Proof.
  revert m. induction entries as [|[x y] entries IH]; intros m; simpl; [intros; right; set_solver|].
  intros Hl. destruct (IH _ Hl) as [Hin|[Hn Hm]]; [by left; right|].
  destruct (decide (x = k)) as [->|Hne].
  - rewrite lookup_insert_eq in Hm. simplify_eq. left. by left.
  - rewrite lookup_insert_ne in Hm by done. right. split; [set_solver|done].
Qed.

Lemma fold_entries_some (entries : list (string * string)) (m : gmap string string) k :
  k ∈ entries.*1 ∨ is_Some (m !! k) →
  is_Some (fold_left (λ m kv, <[kv.1 := kv.2]> m) entries m !! k).
Proof.
  revert m. induction entries as [|[x y] entries IH]; intros m; simpl.
  { intros [Hn%elem_of_nil|]; done. }
  intros Hk. apply IH. destruct (decide (x = k)) as [->|Hne].
  - right. rewrite lookup_insert_eq. eauto.
  - rewrite lookup_insert_ne by done. set_solver.
Qed.

Lemma cut_string_len n s : 0 ≤ n → str_len (cut_string n s) ≤ n.
Proof.
  intros Hn. unfold cut_string, str_len.
  assert (Hs : ∀ m s, (String.length (String.substring 0 m s) ≤ m)%nat).
  { clear. intros m. induction m as [|m IH]; intros [|c s]; simpl; try lia. specialize (IH s). lia. }
  specialize (Hs (Z.to_nat n) s). lia.
Qed.

Lemma header_entry_spec name vals k v :
  header_entry name vals = Some (k, v) →
  k ≠ "" ∧ k ≠ tenantKey ∧ str_len v ≤ MaxMetadataLen ∧
  HasPrefix (ToLower name) metaPrefix = true ∧ k = TrimPrefix (ToLower name) metaPrefix.
Proof.
  unfold header_entry. intros He.
  destruct (negb _ || _) eqn:E1; [done|]. destruct (String.eqb _ "" || _) eqn:E2; [done|].
  bool_prop. injection He as <- <-. split_and!; try done.
  destruct (Z.ltb_spec MaxMetadataLen (str_len (default "" (head vals)))) as [|]; [|done].
  by apply cut_string_len.
Qed.

Lemma TrimPrefix_app s p : HasPrefix s p = true → s = p +:+ TrimPrefix s p.
Proof.
  intros Hp. unfold TrimPrefix, HasPrefix in *. rewrite Hp.
  assert (Hsub : ∀ n t, (String.length t ≤ n)%nat → String.substring 0 n t = t).
  { clear. intros n. induction n as [|n IH]; intros [|c t]; simpl; intros Hl; try done; try lia.
    by rewrite IH by lia. }
  revert s Hp. induction p as [|a p IH]; intros s Hp; simpl.
  { rewrite Nat.sub_0_r. symmetry. by apply Hsub. }
  destruct s as [|b s]; [done|]. simpl in Hp.
  destruct (Ascii.ascii_dec a b) as [->|]; [|done]. apply (f_equal (String b)). by apply IH.
Qed.

Definition entries_of (h : list (string * list string)) : list (string * string) :=
  omap (λ nv, header_entry nv.1 nv.2) h.

(** The headers of a request have distinct names, whatever their case. *)
Definition distinct_names (h : list (string * list string)) : Prop := NoDup (map (ToLower ∘ fst) h).

Lemma entries_key h k : k ∈ (entries_of h).*1 → metaPrefix +:+ k ∈ map (ToLower ∘ fst) h.
Proof.
  intros Hk. apply list_elem_of_fmap in Hk as ([k' v] & -> & Hin).
  apply list_elem_of_omap in Hin as ([name vals] & Hin & He). simpl in He.
  apply header_entry_spec in He as (_ & _ & _ & Hp & ->). simpl.
  rewrite <- TrimPrefix_app by done. apply list_elem_of_In, in_map_iff.
  exists (name, vals). split; [done|]. by apply list_elem_of_In.
Qed.

Lemma entries_NoDup h : distinct_names h → NoDup (entries_of h).*1.
Proof.
  unfold distinct_names. induction h as [|[name vals] h IH]; [intros; constructor|].
  cbn [map]. intros Hd. apply NoDup_cons in Hd as [Hn Hd]. unfold entries_of in *. simpl.
  destruct (header_entry name vals) as [[k v]|] eqn:He; [|by apply IH].
  simpl. apply NoDup_cons. split; [|by apply IH]. intros Hk. apply Hn.
  apply entries_key in Hk. apply header_entry_spec in He as (_ & _ & _ & Hp & ->).
  by rewrite <- TrimPrefix_app in Hk.
Qed.

Lemma fold_entries_perm entries entries' (m : gmap string string) :
  NoDup entries.*1 → entries ≡ₚ entries' →
  fold_left (λ m kv, <[kv.1 := kv.2]> m) entries m = fold_left (λ m kv, <[kv.1 := kv.2]> m) entries' m.
Proof.
  intros Hd Hp. revert m. induction Hp as [|[k v] l l' _ IH|[k v] [k' v'] l|l l' l'' H1 IH1 H2 IH2];
    intros m; simpl; [done|..].
  - apply NoDup_cons in Hd as [_ Hd]. by apply IH.
  - simpl in Hd. apply NoDup_cons in Hd as [Hn _]. f_equal. apply insert_insert_ne. set_solver.
  - rewrite IH1 by done. apply IH2. by rewrite <- H1.
Qed.

(** Request metadata is bounded and well defined: at most 32 entries, each with a non-empty
    key that never names the tenant and a value of at most 256 bytes, each taken from a
    header of the request; and it does not depend on the order in which the runtime walks
    the headers. *)
Theorem metadata_bounded h h' :
  distinct_names h → h ≡ₚ h' →
  extractMetadata h = extractMetadata h' ∧
  (size (extractMetadata h) ≤ Z.to_nat MaxMetadataKeys)%nat ∧
  ∀ k v, extractMetadata h !! k = Some v →
    k ≠ "" ∧ k ≠ tenantKey ∧ str_len v ≤ MaxMetadataLen ∧
    ∃ name vals, (name, vals) ∈ h ∧ ToLower name = metaPrefix +:+ k ∧ vals ≠ [].
Proof.
  intros Hd Hp. pose proof (entries_NoDup h Hd) as Hnd. split_and!.
  - unfold extractMetadata. fold (entries_of h) (entries_of h').
    assert (He : entries_of h ≡ₚ entries_of h') by (unfold entries_of; by rewrite Hp).
    rewrite (fold_entries_perm _ _ _ Hnd He).
    by rewrite (sort_strings_unique (entries_of h).*1 (entries_of h').*1) by (by rewrite He).
  - unfold extractMetadata. set (keys := if _ <? _ then _ else _).
    assert (Hl : (length keys ≤ Z.to_nat MaxMetadataKeys)%nat).
    { unfold keys. destruct (MaxMetadataKeys <? _) eqn:E; bool_prop; [rewrite length_take|]; lia. }
    etrans; [apply (fold_insert_size (λ k, default "" (_ !! k)))|]. rewrite map_size_empty. lia.
  - intros k v. unfold extractMetadata. fold (entries_of h).
    rewrite fold_insert_lookup. case_decide as Hk; [|by rewrite lookup_empty]. intros [= <-].
    assert (Hin : k ∈ (entries_of h).*1).
    { destruct (_ <? _); [apply elem_of_take in Hk as (i & Hi & _); apply list_elem_of_lookup_2 in Hi|];
        by apply sort_slice_elem in Hi || by apply sort_slice_elem in Hk. }
    destruct (fold_entries_some (entries_of h) ∅ k (or_introl Hin)) as [v Hv]. rewrite Hv. simpl.
    apply fold_entries_elem in Hv as [Hv|[Hn _]]; [|done].
    apply list_elem_of_omap in Hv as ([name vals] & Hh & He). simpl in He.
    assert (Hvals : vals ≠ []) by (intros ->; unfold header_entry in He; by rewrite orb_true_r in He).
    apply header_entry_spec in He as (? & ? & ? & Hpre & Hk'). split_and!; [done..|].
    exists name, vals. split_and!; [done| |done]. subst k. by apply TrimPrefix_app.
Qed.

(** The request's multiplier can be understated: names of members are matched without
    regard to case and the last match wins, so a body that asks the upstream for a hundred
    choices with [n] and then adds [N] is reserved for as one choice, while the body is
    forwarded as it came. *)
Theorem case_folded_N_understates_choices :
  ∃ facts,
    ExtractFacts [] (quoted "{'model':'m','messages':[],'n':100,'N':1}") "t" 0 = Ok facts ∧
    rf_Choices facts = 1 ∧
    ∃ exact, ExtractFacts [] (quoted "{'model':'m','messages':[],'n':100}") "t" 0 = Ok exact ∧
      rf_Choices exact = 100 ∧ rf_RequestedModel exact = rf_RequestedModel facts.
Proof.
  eexists. split; [vm_compute; reflexivity|]. split; [reflexivity|].
  eexists. split; [vm_compute; reflexivity|]. split; reflexivity.
Qed.

(** Headers in two orders, with one entry for the tenant and one without the prefix. *)
Definition ex_headers : list (string * list string) :=
  [("X-Go-Route-Team", ["search"; "ignored"]); ("Accept", ["*"]);
   ("X-Go-Route-Tenant", ["spoofed"]); ("x-go-route-env", ["prod"])].

Lemma metadata_bounded_witness :
  extractMetadata ex_headers = {["team" := "search"; "env" := "prod"]} ∧
  extractMetadata ex_headers = extractMetadata (reverse ex_headers) ∧
  (size (extractMetadata ex_headers) ≤ Z.to_nat MaxMetadataKeys)%nat.
Proof.
  assert (Hd : distinct_names ex_headers)
    by (apply (bool_decide_eq_true_1 _); vm_compute; reflexivity).
  split; [apply (bool_decide_eq_true_1 _); vm_compute; reflexivity|].
  destruct (metadata_bounded ex_headers (reverse ex_headers) Hd) as (E & Hs & _);
    [symmetry; apply reverse_Permutation|].
  split; [exact E|exact Hs].
Defined.
