(* ===== verification/Respond.v ===== *)
(** How the proxy answers a client: the response writer, the error bodies of
    [internal/adapters/inbound/proxyapi/errors.go], the stream of
    [internal/adapters/inbound/proxyapi/client_stream.go] and the bearer authentication of
    [internal/adapters/inbound/proxyapi/middleware.go]. *)
From Stdlib Require Import Ascii SpecFloat.
From S2P Require Import Prelude Bytes Errors Money Quota Records Accounts Json Sse Dispatch Provider.

(** ** The response writer

    [http.ResponseWriter]: the first [WriteHeader] or [Write] sends the header as it is
    then. [w_credit] counts the writes and flushes the connection still accepts. *)
Record Writer := mkWriter {
  w_Header : Header;
  w_sent : option (Z * Header);
  w_body : bytes;
  w_credit : nat;
}.

Definition new_Writer (credit : nat) : Writer := mkWriter ∅ None [] credit.
Definition broken_pipe : error := Sentinel "write: broken pipe".

Definition set_header (w : Writer) (k v : string) : Writer :=
  mkWriter (header_Set (w_Header w) k v) (w_sent w) (w_body w) (w_credit w).
Definition WriteHeader (w : Writer) (status : Z) : Writer :=
  match w_sent w with
  | Some _ => w
  | None => mkWriter (w_Header w) (Some (status, w_Header w)) (w_body w) (w_credit w)
  end.
Definition Write (w : Writer) (b : bytes) : Writer * option error :=
  let w := WriteHeader w 200 in
  match w_credit w with
  | O => (w, Some broken_pipe)
  | S n => (mkWriter (w_Header w) (w_sent w) (w_body w ++ b) n, None)
  end.
Definition Flush (w : Writer) : Writer * option error :=
  let w := WriteHeader w 200 in
  match w_credit w with
  | O => (w, Some broken_pipe)
  | S n => (mkWriter (w_Header w) (w_sent w) (w_body w) n, None)
  end.

(** ** Error bodies *)

(** [src/internal/adapters/inbound/proxyapi/client_stream.go:101-106] errorBody *)
Record errorBody := mkErrorBody {
  eb_Message : bytes;
  eb_Type : bytes;
  eb_Param : option bytes;
  eb_Code : option bytes;
}.
(** [src/internal/adapters/inbound/proxyapi/client_stream.go:97-99] errorEnvelope *)
Record errorEnvelope := mkErrorEnvelope { ee_Error : errorBody }.

(** [json.Marshal] of an envelope: its members in the order of the fields. *)
Definition json_optional (o : option bytes) : bytes :=
  match o with Some b => json_string b | None => lit "null" end.
Definition marshal (e : errorEnvelope) : bytes :=
  let b := ee_Error e in
  lit "{" ++ json_string (lit "error") ++ lit ":{" ++
  json_string (lit "message") ++ lit ":" ++ json_string (eb_Message b) ++ lit "," ++
  json_string (lit "type") ++ lit ":" ++ json_string (eb_Type b) ++ lit "," ++
  json_string (lit "param") ++ lit ":" ++ json_optional (eb_Param b) ++ lit "," ++
  json_string (lit "code") ++ lit ":" ++ json_optional (eb_Code b) ++ lit "}}".

Definition client_statuses : list Z := [400; 404; 413; 422].

(** [src/internal/adapters/inbound/proxyapi/errors.go:16-45] statusFor *)
Definition statusFor (o : Outcome) : Z :=
  match last (out_Attempts o) with
  | None => 503
  | Some a =>
      match at_Failure a with
      | None => 500
      | Some f =>
          let c := af_StatusCode f in
          if (c =? 400) || (c =? 404) || (c =? 413) || (c =? 422) then c
          else if (c =? 401) || (c =? 403) then 502
          else if c =? 429 then 502
          else 502
      end
  end.

(** [src/internal/adapters/inbound/proxyapi/errors.go:56-72] lastMessage *)
Definition lastMessage (o : Outcome) : text :=
  match last (out_Attempts o) with
  | None => TLit "no upstream targets were available"
  | Some a =>
      match at_Failure a with
      | None => TLit "upstream failed without a recorded reason"
      | Some f =>
          let c := af_StatusCode f in
          if (c =? 400) || (c =? 404) || (c =? 413) || (c =? 422) then af_Message f
          else TLit "all upstream targets failed"
      end
  end.

(** ** Seconds, as the runtime computes them *)

Definition f64_div := SFdiv 53 1024.
(** [d.Seconds()] *)
Definition Seconds (d : duration) : float64 :=
  f64_add (f64_of_Z (Z.quot d Second)) (f64_div (f64_of_Z (Z.rem d Second)) (f64_of_Z 1000000000)).
(** [int64(math.Ceil(f))] of a finite float in range. *)
Definition ceil (f : float64) : Z :=
  match f with
  | S754_finite s m e =>
      let z := if s then Zneg m else Zpos m in
      if 0 <=? e then z * 2 ^ e else - ((- z) / 2 ^ (- e))
  | S754_zero _ => 0
  | _ => min_int64
  end.

(** [src/internal/adapters/inbound/proxyapi/errors.go:103-105] sdkRetryHorizon *)
Definition sdkRetryHorizon : duration := Minute.

Section Respond.
(** How the runtime renders an error text, an id and a breach. *)
Context (render : text → string) (uuid_string : uuid → string) (breach_String : QuotaBreach → string).

(** [src/internal/adapters/inbound/proxyapi/errors.go:47-54] writeError *)
Definition writeError (w : Writer) (status : Z) (message : text) (errType : string) : Writer :=
  let w := set_header w "Content-Type" "application/json" in
  let w := WriteHeader w status in
  (Write w (marshal (mkErrorEnvelope
     (mkErrorBody (lit (render message)) (lit errType) None None)) ++ [LF])).1.

(** [src/internal/adapters/inbound/proxyapi/errors.go:97-101] unauthorized *)
Definition unauthorized (w : Writer) (message : string) : Writer :=
  let w := set_header w "WWW-Authenticate" "Bearer" in
  writeError w 401 (TLit message) "authentication_error".

(** [src/internal/adapters/inbound/proxyapi/errors.go:74-95] writeAuthError *)
Definition writeAuthError (w : Writer) (err : error) : Writer :=
  if Is err ErrNoCredentials
  then unauthorized w "missing api key: send it as Authorization: Bearer <key>"
  else if Is err ErrUnknownKey || Is err ErrKeyRevoked then unauthorized w "invalid api key"
  else if Is err ErrTenantDisabled
  then writeError w 403 (TLit "tenant is disabled") "permission_error"
  else if Is err ErrModelNotAllowed then writeError w 403 (TErr err) "permission_error"
  else writeError w 503 (TLit "authentication is unavailable") "internal_error".

(** [src/internal/adapters/inbound/proxyapi/errors.go:107-130] writeQuotaExceeded *)
Definition writeQuotaExceeded (w : Writer) (id : DecisionID) (b : QuotaBreach) (now : time) : Writer :=
  let retryAfter := Z.max 1 (ceil (Seconds (Sub (ResetAt b) now))) in
  let w := set_header w "Retry-After" (pretty retryAfter) in
  let w := set_header w "X-Should-Retry"
             (if wrap64 (retryAfter * Second) <=? sdkRetryHorizon then "true" else "false") in
  let w := set_header w "X-Go-Route-Decision-Id" (DecisionID_String uuid_string id) in
  let w := set_header w "Content-Type" "application/json" in
  let w := WriteHeader w 429 in
  (Write w (marshal (mkErrorEnvelope
     (mkErrorBody (lit ("quota exceeded: " +:+ breach_String b)) (lit "quota_exceeded") None
        (Some (lit "quota_exceeded")))) ++ [LF])).1.

(** ** The client's stream *)

(** [src/internal/adapters/inbound/proxyapi/client_stream.go:13-19] ClientStream *)
Record ClientStream := mkClientStream {
  cs_w : Writer;
  cs_decisionID : DecisionID;
  cs_committed : bool;
  cs_stream : bool;
}.

(** [src/internal/adapters/inbound/proxyapi/client_stream.go:23-30] NewClientStream *)
Definition NewClientStream (w : Writer) (id : DecisionID) (stream : bool) : ClientStream :=
  mkClientStream w id false stream.

Definition with_w (c : ClientStream) (w : Writer) : ClientStream :=
  mkClientStream w (cs_decisionID c) (cs_committed c) (cs_stream c).

(** [src/internal/adapters/inbound/proxyapi/client_stream.go:32-61] ClientStream.Commit *)
Definition ClientStream_Commit (c : ClientStream) : ClientStream * option error :=
  if cs_committed c then (c, Some (Errorf "proxyapi: Commit called twice" []))
  else
    let w := cs_w c in
    let w :=
      if cs_stream c then
        let w := set_header w "Content-Type" "text/event-stream" in
        let w := set_header w "Cache-Control" "no-cache" in
        let w := set_header w "Connection" "keep-alive" in
        set_header w "X-Accel-Buffering" "no"
      else set_header w "Content-Type" "application/json" in
    let w := set_header w "X-Go-Route-Decision-Id" (DecisionID_String uuid_string (cs_decisionID c)) in
    let w := WriteHeader w 200 in
    let '(w, err) := Flush w in
    (mkClientStream w (cs_decisionID c) true (cs_stream c), err).

(** Write an event, then flush it. *)
Definition write_event (c : ClientStream) (data : bytes) : ClientStream * option error :=
  match WriteEvent Write (cs_w c) (mkEvent [] data) with
  | (w, Some err) => (with_w c w, Some err)
  | (w, None) => let '(w, err) := Flush w in (with_w c w, err)
  end.

(** [src/internal/adapters/inbound/proxyapi/client_stream.go:63-75] ClientStream.Send *)
Definition ClientStream_Send (c : ClientStream) (ev : StreamEvent) : ClientStream * option error :=
  if negb (cs_stream c) then let '(w, err) := Write (cs_w c) (lit (ev_Raw ev)) in (with_w c w, err)
  else if negb (cs_committed c) then (c, Some (Errorf "proxyapi: Send before Commit" []))
  else write_event c (lit (ev_Raw ev)).

(** [src/internal/adapters/inbound/proxyapi/client_stream.go:77-95] ClientStream.SendError *)
Definition ClientStream_SendError (c : ClientStream) (cause : error) : ClientStream * option error :=
  if negb (cs_committed c) then (c, Some (Errorf "proxyapi: SendError before Commit" []))
  else
    let payload := marshal (mkErrorEnvelope (mkErrorBody
      (lit (render (TCat "upstream stream ended unexpectedly: " (TErr cause))))
      (lit "upstream_error") None None)) in
    write_event c payload.
End Respond.

(** ** Authentication *)

(** [src/internal/adapters/inbound/proxyapi/middleware.go:11-11] bearerPrefix *)
Definition bearerPrefix : string := "bearer ".

(** [src/internal/adapters/inbound/proxyapi/middleware.go:37-43] bearerToken

    [authorization] is the value of that header, empty when there is none. *)
Definition bearerToken (authorization : bytes) : bytes :=
  let v := TrimSpace authorization in
  let n := String.length bearerPrefix in
  if Nat.ltb (length v) n || negb (EqualFold (take n v) (lit bearerPrefix)) then []
  else TrimSpace (drop n v).

(** [src/internal/adapters/inbound/proxyapi/middleware.go:17-30] Authenticate

    [authenticate] is the [ports.Authenticator], [next] the wrapped handler. *)
Definition Authenticate {S A} (render : text → string)
    (authenticate : S → string → S * result error Identity)
    (next : S → Writer → Identity → A) (refused : S → Writer → A)
    (s : S) (w : Writer) (authorization : bytes) : A :=
  match authenticate s (str (bearerToken authorization)) with
  | (s, Err err) => refused s (writeAuthError render w err)
  | (s, Ok identity) => next s w identity
  end.
