(* ===== verification/Handler.v ===== *)
(** The completions handler of [internal/adapters/inbound/proxyapi/handler.go]: every gate a
    request passes, in order, and what is settled however it ends. *)
From Stdlib Require Import Ascii.
From S2P Require Import Prelude Bytes Errors Money Quota Records Accounts Routing Enforcer Dispatch Provider Json Extract Respond.

(** [src/internal/adapters/inbound/proxyapi/handler.go:16-16] maxBodyBytes *)
Definition maxBodyBytes : Z := Z.shiftl 20 20.

(** What the server hands the handler: headers in iteration order, the body as far as it
    could be read with the error it ended with, and the identity in its context. *)
Record Request := mkRequest {
  rq_Header : list (string * list string);
  rq_Body : bytes;
  rq_End : error;
  rq_Identity : option Identity;
}.

(** [io.ReadAll(http.MaxBytesReader(w, r.Body, n))] *)
Definition read_body (n : Z) (r : Request) : result error bytes :=
  if n <? blen (rq_Body r) then Err (Sentinel "http: request body too large")
  else if Is (rq_End r) io_EOF then Ok (rq_Body r) else Err (rq_End r).

(** [src/internal/adapters/inbound/proxyapi/middleware.go:32-35] IdentityFrom *)
Definition IdentityFrom (r : Request) : option Identity := rq_Identity r.

(** [src/internal/adapters/inbound/proxyapi/handler.go:24-42] Router, Resolver, Handler

    The collaborators a handler holds; [S] is their state. [None] from [px_Run] and [false]
    from [px_Record] are panics. *)
Class Handler (S P : Type) := {
  px_Route : RequestFacts → result error Ladder;
  px_Resolve : Ladder → result error (list (Target P));
  px_Reserve : S → QuotaRequest → S * result error Reservation;
  px_Reconcile : S → Reservation → Outcome → S;
  px_Run : S → list (Target P) → ProviderRequest → ClientStream → S * ClientStream * option Outcome;
  px_Record : S → RoutingDecision → S * bool;
}.

(** [src/internal/adapters/inbound/proxyapi/handler.go:66-70] unlimited.Reserve, unlimited.Reconcile *)
Definition unlimited_Reserve {S} (s : S) (_ : QuotaRequest) : S * result error Reservation :=
  (s, Ok zero_Reservation).
Definition unlimited_Reconcile {S} (s : S) (_ : Reservation) (_ : Outcome) : S := s.

(** The handler's effects on its collaborators, in order. *)
Inductive effect :=
| Reserved (req : QuotaRequest) (r : result error Reservation)
| Dispatched (req : ProviderRequest) (o : option Outcome)
| Recorded (d : RoutingDecision) (ok : bool)
| Reconciled (res : Reservation) (o : Outcome).

(** [src/internal/adapters/inbound/proxyapi/handler.go:166-172] targetNames *)
Definition targetNames (l : Ladder) : list string := map ref_Name (ladder_Targets l).

Definition with_KeyID (f : RequestFacts) (id : uuid) : RequestFacts :=
  mkRequestFacts (rf_Tenant f) id (rf_Metadata f) (rf_RequestedModel f) (rf_Stream f)
    (rf_WantsUsage f) (rf_ReceivedAt f) (rf_PromptSize f) (rf_MaxOutputTokens f) (rf_Choices f).

Definition quota_request (facts : RequestFacts) (ladder : Ladder) (now : time) : QuotaRequest :=
  mkQuotaRequest (rf_Tenant facts) now (rf_PromptSize facts) (rf_MaxOutputTokens facts)
    (rf_Choices facts) (targetNames ladder).

Definition blocked_Outcome : Outcome := mkOutcome StatusPolicyBlocked [] zero_TokenUsage 0 0.

Section Completions.
Context {S P : Type} `{Handler S P}.
Context (render : text → string) (uuid_string : uuid → string) (breach_String : QuotaBreach → string).

Definition answer := (S * Writer * list effect)%type.

(** [src/internal/adapters/inbound/proxyapi/handler.go:141-163] dispatch, with what is deferred *)
Definition dispatch (s : S) (w : Writer) (id : DecisionID) (facts : RequestFacts) (ladder : Ladder)
    (targets : list (Target P)) (raw : bytes) (reservation : Reservation) : answer :=
  let out := NewClientStream w id (rf_Stream facts) in
  let req := mkProviderRequest "" (str raw) (rf_Stream facts) (rf_WantsUsage facts) in
  match px_Run s targets req out with
  | (s, out, None) =>
      (px_Reconcile s reservation zero_Outcome, cs_w out,
       [Dispatched req None; Reconciled reservation zero_Outcome])
  | (s, out, Some outcome) =>
      let w := cs_w out in
      let w := if String.eqb (out_Status outcome) StatusExhausted
               then writeError render w (statusFor outcome) (lastMessage outcome) "upstream_error"
               else w in
      let decision := NewRoutingDecision id facts ladder outcome in
      let '(s, ok) := px_Record s decision in
      (px_Reconcile s reservation outcome, w,
       [Dispatched req (Some outcome); Recorded decision ok; Reconciled reservation outcome])
  end.

(** [src/internal/adapters/inbound/proxyapi/handler.go:115-163] the quota gate and what is behind it *)
Definition reserve_and_dispatch (s : S) (w : Writer) (now : time) (id : DecisionID)
    (facts : RequestFacts) (ladder : Ladder) (targets : list (Target P)) (raw : bytes) : answer :=
  let qreq := quota_request facts ladder now in
  match px_Reserve s qreq with
  | (s, Err err) =>
      match as_quota_exceeded err with
      | Some breach =>
          let w := writeQuotaExceeded uuid_string breach_String w id breach now in
          let decision := NewRoutingDecision id facts ladder blocked_Outcome in
          let '(s, ok) := px_Record s decision in
          (s, w, [Reserved qreq (Err err); Recorded decision ok])
      | None =>
          (s, writeError render w 503 (TLit "quota enforcement is unavailable") "internal_error",
           [Reserved qreq (Err err)])
      end
  | (s, Ok reservation) =>
      let '(s, w, effects) := dispatch s w id facts ladder targets raw reservation in
      (s, w, Reserved qreq (Ok reservation) :: effects)
  end.

(** [src/internal/adapters/inbound/proxyapi/handler.go:72-164] Handler.Completions *)
Definition Completions (s : S) (w : Writer) (now : time) (decisionID : DecisionID) (r : Request)
    : answer :=
  match IdentityFrom r with
  | None => (s, writeAuthError render w ErrNoCredentials, [])
  | Some identity =>
      match read_body maxBodyBytes r with
      | Err _ => (s, writeError render w 413 (TLit "request body too large") "invalid_request_error", [])
      | Ok raw =>
          match ExtractFacts (rq_Header r) raw (id_Tenant identity) now with
          | Err err => (s, writeError render w 400 (TErr err) "invalid_request_error", [])
          | Ok facts =>
              let facts := with_KeyID facts (id_KeyID identity) in
              if negb (AllowsModel identity (rf_RequestedModel facts))
              then (s, writeAuthError render w
                         (Errorf "%w: %s" [AWrap ErrModelNotAllowed; AStr (rf_RequestedModel facts)]), [])
              else
                match px_Route facts with
                | Err err => (s, writeError render w 400 (TErr err) "invalid_request_error", [])
                | Ok ladder =>
                    match px_Resolve ladder with
                    | Err err =>
                        (s, writeError render w 500 (TLit "routing misconfiguration") "internal_error", [])
                    | Ok targets => reserve_and_dispatch s w now decisionID facts ladder targets raw
                    end
                end
          end
      end
  end.

(** ** Settlement *)

(** What a request admitted past every other gate was admitted as. *)
Definition admitted (now : time) (r : Request) (facts : RequestFacts) (ladder : Ladder) : Prop :=
  ∃ identity raw f, rq_Identity r = Some identity ∧ read_body maxBodyBytes r = Ok raw ∧
    ExtractFacts (rq_Header r) raw (id_Tenant identity) now = Ok f ∧
    facts = with_KeyID f (id_KeyID identity) ∧
    AllowsModel identity (rf_RequestedModel facts) = true ∧
    px_Route facts = Ok ladder ∧ is_ok (px_Resolve ladder) = true.

Inductive settled (now : time) (id : DecisionID) (facts : RequestFacts) (ladder : Ladder)
    : list effect → Prop :=
| settled_unavailable err :
    as_quota_exceeded err = None →
    settled now id facts ladder [Reserved (quota_request facts ladder now) (Err err)]
| settled_refused err breach ok :
    as_quota_exceeded err = Some breach →
    settled now id facts ladder
      [Reserved (quota_request facts ladder now) (Err err);
       Recorded (NewRoutingDecision id facts ladder blocked_Outcome) ok]
| settled_panicked res preq :
    settled now id facts ladder
      [Reserved (quota_request facts ladder now) (Ok res); Dispatched preq None;
       Reconciled res zero_Outcome]
| settled_dispatched res preq o ok :
    preq_Stream preq = rf_Stream facts → preq_WantsUsage preq = rf_WantsUsage facts →
    settled now id facts ladder
      [Reserved (quota_request facts ladder now) (Ok res); Dispatched preq (Some o);
       Recorded (NewRoutingDecision id facts ladder o) ok; Reconciled res o].

(** The response already on the wire. *)
Definition answered (w : Writer) (status : Z) : Prop := ∃ h, w_sent w = Some (status, h).

Lemma set_header_sent w k v : w_sent (set_header w k v) = w_sent w.
Proof. reflexivity. Qed.

Lemma first_answer w status b : w_sent w = None → answered (Write (WriteHeader w status) b).1 status.
Proof.
  intros Hn. unfold answered, Write, WriteHeader. rewrite Hn. cbn [w_sent].
  destruct (w_credit _); eauto.
Qed.

Lemma writeError_status w status m ty :
  w_sent w = None → answered (writeError render w status m ty) status.
Proof. intros Hn. unfold writeError. apply first_answer. rewrite set_header_sent. exact Hn. Qed.

(** Membership in a concrete list. *)
Ltac in_list := apply (bool_decide_eq_true_1 _); vm_compute; reflexivity.

Lemma unauthorized_status w m : w_sent w = None → answered (unauthorized render w m) 401.
Proof. intros Hn. unfold unauthorized. apply writeError_status. rewrite set_header_sent. exact Hn. Qed.

Lemma writeAuthError_status w err :
  w_sent w = None → ∃ status, status ∈ [401; 403; 503] ∧ answered (writeAuthError render w err) status.
Proof.
  intros Hn. unfold writeAuthError.
  destruct (Is err ErrNoCredentials); [exists 401; split; [in_list|by apply unauthorized_status]|].
  destruct (Is err ErrUnknownKey || Is err ErrKeyRevoked);
    [exists 401; split; [in_list|by apply unauthorized_status]|].
  destruct (Is err ErrTenantDisabled); [exists 403; split; [in_list|by apply writeError_status]|].
  destruct (Is err ErrModelNotAllowed); [exists 403; split; [in_list|by apply writeError_status]|].
  exists 503. split; [in_list|by apply writeError_status].
Qed.

Lemma writeQuotaExceeded_status w id b now :
  w_sent w = None → answered (writeQuotaExceeded uuid_string breach_String w id b now) 429.
Proof.
  intros Hn. unfold writeQuotaExceeded. apply first_answer. rewrite !set_header_sent. exact Hn.
Qed.

Lemma reserve_settles s w now id facts ladder targets raw s' w' effects :
  w_sent w = None →
  reserve_and_dispatch s w now id facts ladder targets raw = (s', w', effects) →
  settled now id facts ladder effects ∧
  ∀ req err, Reserved req (Err err) ∈ effects →
    answered w' (if as_quota_exceeded err then 429 else 503).
Proof.
  intros Hw. unfold reserve_and_dispatch.
  destruct (px_Reserve s (quota_request facts ladder now)) as [s1 [res|err]].
  - unfold dispatch. destruct (px_Run _ _ _ _) as [[s2 out] [o|]].
    + destruct (px_Record _ _) as [s3 ok]. intros [= <- <- <-]. split; [by constructor|].
      intros req err Hin. by repeat (apply elem_of_cons in Hin as [?|Hin]; [done|]); apply elem_of_nil in Hin.
    + intros [= <- <- <-]. split; [by constructor|].
      intros req err Hin. by repeat (apply elem_of_cons in Hin as [?|Hin]; [done|]); apply elem_of_nil in Hin.
  - destruct (as_quota_exceeded err) as [breach|] eqn:E.
    + destruct (px_Record _ _) as [s3 ok]. intros [= <- <- <-]. split; [by eapply settled_refused|].
      intros req err' Hin. apply elem_of_cons in Hin as [[= -> ->]|Hin];
        [rewrite E; by apply writeQuotaExceeded_status|].
      by apply list_elem_of_singleton in Hin.
    + intros [= <- <- <-]. split; [by constructor|].
      intros req err' Hin. apply list_elem_of_singleton in Hin as [= -> ->]. rewrite E.
      by apply writeError_status.
Qed.

(** A request is refused at once, or gets to the quota gate. *)
Lemma Completions_passes s w now id r s' w' effects :
  w_sent w = None → Completions s w now id r = (s', w', effects) →
  (effects = [] ∧ s' = s ∧ ∃ status, status ∈ [400; 401; 403; 413; 500; 503] ∧ answered w' status) ∨
  (∃ facts ladder targets raw, admitted now r facts ladder ∧ px_Resolve ladder = Ok targets ∧
     reserve_and_dispatch s w now id facts ladder targets raw = (s', w', effects)).
Proof.
  intros Hw. unfold Completions, IdentityFrom.
  assert (Hauth : ∀ err, ∃ status, status ∈ [400; 401; 403; 413; 500; 503] ∧
    answered (writeAuthError render w err) status).
  { intros err. destruct (writeAuthError_status w err Hw) as (status & Hin & Ha).
    exists status. split; [|done]. rewrite !elem_of_cons in *. naive_solver. }
  assert (Herr : ∀ status m ty, status ∈ [400; 401; 403; 413; 500; 503] →
    ∃ status', status' ∈ [400; 401; 403; 413; 500; 503] ∧
      answered (writeError render w status m ty) status')
    by (intros status m ty ?; exists status; split; [done|by apply writeError_status]).
  destruct (rq_Identity r) as [identity|] eqn:Ei; [|intros [= <- <- <-]; left; by split_and!].
  destruct (read_body maxBodyBytes r) as [raw|] eqn:Eb;
    [|intros [= <- <- <-]; left; split_and!; [done|done|apply Herr; in_list]].
  destruct (ExtractFacts _ _ _ _) as [f|] eqn:Ef;
    [|intros [= <- <- <-]; left; split_and!; [done|done|apply Herr; in_list]].
  set (facts := with_KeyID f (id_KeyID identity)).
  destruct (AllowsModel identity (rf_RequestedModel facts)) eqn:Ea;
    [|intros [= <- <- <-]; left; by split_and!]. cbn [negb].
  destruct (px_Route facts) as [ladder|] eqn:Er;
    [|intros [= <- <- <-]; left; split_and!; [done|done|apply Herr; in_list]].
  destruct (px_Resolve ladder) as [targets|] eqn:Et;
    [|intros [= <- <- <-]; left; split_and!; [done|done|apply Herr; in_list]].
  intros Hr. right. exists facts, ladder, targets, raw. split_and!; [|done|done].
  exists identity, raw, f. rewrite Et. by split_and!.
Qed.

(** Every request is settled, however it ends. One refused before the quota gate touches
    neither quota nor upstream nor the log, and is answered with an error status. One that
    reaches the gate comes from an authenticated caller allowed the model it asked for and
    is reserved for in that caller's tenant; if the reservation is refused nothing is
    dispatched, the answer is 429 with one policy-blocked decision when the quota is
    exhausted and 503 otherwise; if it is granted it is reconciled exactly once, last, with
    the outcome of the dispatch that is also the one recorded, or with the empty outcome when
    the dispatch panicked. *)
Theorem Completions_settles s w now id r s' w' effects :
  w_sent w = None → Completions s w now id r = (s', w', effects) →
  (effects = [] ∧ s' = s ∧ ∃ status, status ∈ [400; 401; 403; 413; 500; 503] ∧ answered w' status) ∨
  (∃ facts ladder, admitted now r facts ladder ∧ settled now id facts ladder effects ∧
     (∀ req err, Reserved req (Err err) ∈ effects →
        answered w' (if as_quota_exceeded err then 429 else 503))).
Proof.
  intros Hw Hc. destruct (Completions_passes _ _ _ _ _ _ _ _ Hw Hc) as [?|(facts & ladder & ts & raw & Ha & _ & Hr)];
    [by left|right]. exists facts, ladder. split; [done|]. by eapply reserve_settles.
Qed.
End Completions.

(** ** An example

    One model; a quota with room for one request at a time; a dispatch that always succeeds
    and sends nothing. The state is the number of reservations held. *)
Definition ex_outcome : Outcome :=
  mkOutcome StatusOK [mkAttempt "a" 0 5 None] (mkTokenUsage 3 4 0 0 0) 5 9.
Definition ex_breach : QuotaBreach := mkQuotaBreach (mkWindow WindowHour 0 Hour) 1 1 1.

#[export] Instance ex_handler : Handler nat unit := {|
  px_Route facts :=
    if String.eqb (rf_RequestedModel facts) "chat"
    then Ok (mkLadder [mkTargetRef "a" "p" "m" ""] (mkReason ReasonModelAlias "chat" "" 0))
    else Err (Errorf "unknown model" []);
  px_Resolve l := Ok (map (mkTarget tt "m") (ladder_Targets l));
  px_Reserve held _ :=
    match held with
    | O => (1%nat, Ok zero_Reservation)
    | S _ => (held, Err (QuotaExceededError ex_breach))
    end;
  px_Reconcile held _ _ := pred held;
  px_Run held _ _ out := (held, out, Some ex_outcome);
  px_Record held _ := (held, true);
|}.

Definition ex_completion_request : Request :=
  mkRequest [] (quoted "{'model':'chat','messages':[]}") io_EOF (Some (mkIdentity "acme" 7%N None)).
Definition ex_answer : answer (S := nat) :=
  Completions (λ _, "") (λ _, "") (λ _, "") 0%nat (new_Writer 9) 0 1%N ex_completion_request.

Lemma Completions_settles_witness :
  length ex_answer.2 = 4%nat ∧ ex_answer.1.1 = 0%nat ∧
  (ex_answer.2 = [] ∨
   ∃ facts ladder, admitted 0 ex_completion_request facts ladder ∧
     settled 0 1%N facts ladder ex_answer.2).
Proof.
  split; [vm_compute; reflexivity|split; [vm_compute; reflexivity|]].
  destruct (Completions_settles (λ _, "") (λ _, "") (λ _, "") 0%nat (new_Writer 9) 0 1%N
              ex_completion_request ex_answer.1.1 ex_answer.1.2 ex_answer.2 eq_refl)
    as [[E _]|(facts & ladder & Ha & Hs & _)].
  - fold ex_answer. destruct ex_answer as [[? ?] ?]. reflexivity.
  - left. exact E.
  - right. exists facts, ladder. split; [exact Ha|exact Hs].
Defined.
