(* ===== verification/Password.v ===== *)
(** Passwords: the policy of [internal/core/password/policy.go] and the argon2id hashes of
    [internal/core/password/password.go].

    The derivation itself is [golang.org/x/crypto/argon2], a parameter; its text form, what
    is read back of it and the policy are the code's own. *)
From Stdlib Require Import Ascii.
From S2P Require Import Prelude Errors Bytes Utf8 Radix.

(** ** The policy *)

(** [src/internal/core/password/policy.go:28-33] PolicyError, PolicyError.Error *)
Record PolicyError := mkPolicyError { Rule : string }.
Definition PolicyError_Error (e : PolicyError) : error := Sentinel ("password: " +:+ Rule e).

#[export] Instance PolicyError_eq_dec : EqDecision PolicyError.
Proof. solve_decision. Defined.

(** [src/internal/core/password/password.go:29-32] MinLength *)
Definition MinLength : Z := 12.
(** [src/internal/core/password/policy.go:9-17] MaxLength *)
Definition MaxLength : Z := 128.
(** [src/internal/core/password/policy.go:19-22] minLocalPart *)
Definition minLocalPart : Z := 3.
(** [src/internal/core/password/policy.go:24-26] productNames *)
Definition productNames : list string := ["go-route"; "goroute"].

(** [src/internal/core/password/policy.go:35-41] ErrTooShort, ErrTooLong, ErrAllWhitespace, ErrContainsEmail, ErrContainsProduct *)
Definition ErrTooShort : PolicyError := mkPolicyError ("must be at least " +:+ pretty MinLength +:+ " characters").
Definition ErrTooLong : PolicyError := mkPolicyError ("must be at most " +:+ pretty MaxLength +:+ " characters").
Definition ErrAllWhitespace : PolicyError := mkPolicyError "must not be entirely whitespace".
Definition ErrContainsEmail : PolicyError := mkPolicyError "must not contain the address it belongs to".
Definition ErrContainsProduct : PolicyError := mkPolicyError "must not contain the name of this product".

(** [src/internal/core/password/policy.go:77-82] TooLong *)
Definition TooLong (plain : bytes) : bool := MaxLength <? RuneCount plain.

(** [src/internal/core/password/policy.go:84-93] checkLength *)
Definition checkLength (plain : bytes) : option PolicyError :=
  let n := RuneCount plain in
  if n <? MinLength then Some ErrTooShort
  else if MaxLength <? n then Some ErrTooLong
  else None.

(** [src/internal/core/password/policy.go:95-100] localPart *)
Definition localPart (email : bytes) : bytes :=
  let email := match cut "@" email with Some (l, _) => l | None => email end in
  map lower (TrimSpace email).

(** [src/internal/core/password/policy.go:43-75] Check *)
Definition Check_password (plain email : bytes) : option PolicyError :=
  match checkLength plain with
  | Some e => Some e
  | None =>
      if blank plain then Some ErrAllWhitespace
      else
        let low := map lower plain in
        if existsb (λ name, Contains low (lit name)) productNames then Some ErrContainsProduct
        else
          let loc := localPart email in
          if (minLocalPart <=? RuneCount loc) && Contains low loc then Some ErrContainsEmail
          else None
  end.

(** ** The text of a hash *)

(** [src/internal/core/password/password.go:18-27] timeCost, memoryCost, parallelism, saltLength, keyLength *)
Definition timeCost : Z := 3.
Definition memoryCost : Z := 65536.
Definition parallelism : Z := 2.
Definition saltLength : nat := 16.
Definition keyLength : Z := 32.

(** [src/internal/core/password/password.go:34-37] ErrMismatch, ErrMalformed *)
Definition ErrMismatch : error := Sentinel "password: does not match".
Definition ErrMalformed : error := Sentinel "password: malformed hash".

(** [argon2.Version] *)
Definition argon2_Version : Z := 19.

(** [src/internal/core/password/password.go:39-39] b64 *)
Definition b64 : alphabet :=
  mkAlphabet 6 (lit "ABCDEFGHIJKLMNOPQRSTUVWXYZabcdefghijklmnopqrstuvwxyz0123456789+/").

(** [b64.DecodeString] *)
Definition b64_Decode : bytes → option bytes := base64_Decode b64.

(** [src/internal/core/password/password.go:93-97] encode *)
Definition encode (salt digest : bytes) : bytes :=
  lit "$argon2id$v=" ++ lit (pretty argon2_Version) ++ lit "$m=" ++ lit (pretty memoryCost) ++
  lit ",t=" ++ lit (pretty timeCost) ++ lit ",p=" ++ lit (pretty parallelism) ++ lit "$" ++
  radix_encode b64 salt ++ lit "$" ++ radix_encode b64 digest.

(** [%d] of [fmt.Sscanf], for an integer between two bounds: white space but no line break,
    a sign if the type has one, digits. What follows is left. *)
Fixpoint scan_space (fuel : nat) (b : bytes) : option bytes :=
  match b, space_width b with
  | c :: _, Some n =>
      match fuel with
      | S fuel => if decide (c = LF) then None else scan_space fuel (drop n b)
      | O => None
      end
  | _, _ => Some b
  end.
Definition scan_d (signed : bool) (hi : Z) (b : bytes) : option (Z * bytes) :=
  match scan_space (length b) b with
  | None => None
  | Some b =>
      let '(neg, b) :=
        match b with
        | "-"%char :: r => if signed then (true, r) else (false, b)
        | "+"%char :: r => if signed then (false, r) else (false, b)
        | _ => (false, b)
        end in
      match digits b with
      | ([], _) => None
      | (ds, r) =>
          let z := if neg : bool then - decimal ds else decimal ds in
          if (z <=? hi) && (- hi - 1 <=? z) then Some (z, r) else None
      end
  end.
Definition scan_lit (p : string) (b : bytes) : option bytes := CutPrefix (lit p) b.

(** [fmt.Sscanf(s, "v=%d", &version)] and [fmt.Sscanf(s, "m=%d,t=%d,p=%d", &m, &t, &p)]. *)
Definition scan_version (b : bytes) : option Z :=
  b ← scan_lit "v=" b; r ← scan_d true max_int64 b; Some r.1.
Definition scan_params (b : bytes) : option (Z * Z * Z) :=
  b ← scan_lit "m=" b; m ← scan_d false (2 ^ 32 - 1) b;
  b ← scan_lit ",t=" m.2; t ← scan_d false (2 ^ 32 - 1) b;
  b ← scan_lit ",p=" t.2; p ← scan_d false 255 b;
  Some (m.1, t.1, p.1).

Record decoded := mkDecoded { d_t : Z; d_m : Z; d_p : Z; d_salt : bytes; d_digest : bytes }.

Definition malformed (what : string) (args : list arg) : error :=
  Errorf ("%w: " +:+ what) (AWrap ErrMalformed :: args).

(** [src/internal/core/password/password.go:99-123] decode *)
Definition decode (encoded : bytes) : result error decoded :=
  match split_on "$" encoded with
  | [e; scheme; v; params; salt; digest] =>
      if negb (bool_decide (e = []) && bool_decide (scheme = lit "argon2id"))
      then Err (malformed "not an argon2id PHC string" [])
      else if negb (bool_decide (scan_version v = Some argon2_Version))
      then Err (malformed "unsupported version %q" [AStr (str v)])
      else match scan_params params with
           | None => Err (malformed "unreadable parameters %q" [AStr (str params)])
           | Some (m, t, p) =>
               if (m =? 0) || (t =? 0) || (p =? 0)
               then Err (malformed "zero parameter in %q" [AStr (str params)])
               else match b64_Decode salt with
                    | None | Some [] => Err (malformed "unreadable salt" [])
                    | Some salt =>
                        match b64_Decode digest with
                        | None | Some [] => Err (malformed "unreadable digest" [])
                        | Some digest => Ok (mkDecoded t m p salt digest)
                        end
                    end
           end
  | _ => Err (malformed "not an argon2id PHC string" [])
  end.

(** ** Hashing and checking *)
Section Argon2.
(** [argon2.IDKey(password, salt, time, memory, threads, keyLen)] *)
Context (IDKey : bytes → bytes → Z → Z → Z → Z → bytes).

(** [src/internal/core/password/password.go:89-91] derive *)
Definition derive (plain salt : bytes) (t m p len : Z) : bytes := IDKey plain salt t m p len.

(** [src/internal/core/password/password.go:41-54] Hash

    [salt] is what [rand.Read] gives. *)
Definition Hash (salt : result error bytes) (plain : bytes) : result error string :=
  match checkLength plain with
  | Some e => Err (PolicyError_Error e)
  | None =>
      match salt with
      | Err e => Err (Errorf "password: salt: %w" [AWrap e])
      | Ok salt =>
          Ok (str (encode salt (derive plain salt timeCost memoryCost parallelism keyLength)))
      end
  end.

(** [src/internal/core/password/password.go:56-71] Verify *)
Definition Verify (encoded : string) (plain : bytes) : option error :=
  match decode (lit encoded) with
  | Err e => Some e
  | Ok d =>
      let got := derive plain (d_salt d) (d_t d) (d_m d) (d_p d) (blen (d_digest d) mod 2 ^ 32) in
      if bool_decide (got = d_digest d) then None else Some ErrMismatch
  end.

(** [src/internal/core/password/password.go:73-87] Dummy *)
Definition Dummy (salt : bytes) : string :=
  str (encode salt (derive salt salt timeCost memoryCost parallelism keyLength)).
End Argon2.

(** ** What is written is read *)

Lemma b64_lacks x b : bool_decide (x ∈ al_chars b64) = false → x ∉ radix_encode b64 b.
Proof. by apply base64_lacks. Qed.

Lemma b64_Decode_encode b : b64_Decode (radix_encode b64 b) = Some b.
Proof. by apply base64_roundtrip; vm_compute. Qed.

Lemma encode_fields salt digest :
  encode salt digest =
  [] ++ "$"%char :: lit "argon2id" ++ "$"%char :: lit "v=19" ++ "$"%char :: lit "m=65536,t=3,p=2" ++
  "$"%char :: radix_encode b64 salt ++ "$"%char :: radix_encode b64 digest.
Proof. reflexivity. Qed.

Lemma decode_encode salt digest :
  salt ≠ [] → digest ≠ [] →
  decode (encode salt digest) = Ok (mkDecoded timeCost memoryCost parallelism salt digest).
Proof.
  intros Hs Hd. unfold decode. rewrite encode_fields.
  rewrite !split_on_app, split_on_last by (by apply b64_lacks || (vm_compute; set_solver)).
  replace (scan_version (lit "v=19")) with (Some argon2_Version) by by vm_compute.
  replace (scan_params (lit "m=65536,t=3,p=2")) with (Some (memoryCost, timeCost, parallelism)) by by vm_compute.
  rewrite !bool_decide_eq_true_2 by done.
  cbn [negb andb]. replace ((memoryCost =? 0) || _ || _) with false by by vm_compute.
  rewrite !b64_Decode_encode. by destruct salt, digest.
Qed.

Lemma Check_password_length plain email :
  Check_password plain email = None → checkLength plain = None.
Proof. unfold Check_password. by destruct (checkLength plain). Qed.

Lemma checkLength_None plain : checkLength plain = None ↔ MinLength ≤ RuneCount plain ≤ MaxLength.
Proof.
  unfold checkLength. destruct (Z.ltb_spec (RuneCount plain) MinLength); [split; [done|lia]|].
  destruct (Z.ltb_spec MaxLength (RuneCount plain)); split; done || lia.
Qed.

(** The policy accepts a password exactly when it has 12 to 128 characters, not all of
    them white space, and contains neither spelling of the product's name nor, if that has
    at least three characters, the local part of the address, in any case. *)
Theorem Check_password_iff plain email :
  Check_password plain email = None ↔
  12 ≤ RuneCount plain ≤ 128 ∧ blank plain = false ∧
  (∀ l name r, name ∈ [lit "go-route"; lit "goroute"] → map lower plain ≠ l ++ name ++ r) ∧
  (3 ≤ RuneCount (localPart email) → ∀ l r, map lower plain ≠ l ++ localPart email ++ r).
Proof.
  pose proof (checkLength_None plain) as Hlen. unfold MinLength, MaxLength in Hlen.
  unfold Check_password. destruct (checkLength plain) as [e|]; [naive_solver|].
  destruct (proj1 Hlen eq_refl) as [Hmin Hmax].
  destruct (blank plain); [naive_solver|].
  destruct (existsb _ productNames) eqn:Ep.
  { split; [done|]. intros (_ & _ & Hp & _). apply existsb_exists in Ep as (name & Hn & Hc).
    apply Contains_spec in Hc as (l & r & Hc). exfalso. apply (Hp l (lit name) r); [|done].
    simpl in Hn. destruct Hn as [<-|[<-|[]]]; [left|right; left]. }
  assert (Hnames : ∀ l name r, name ∈ [lit "go-route"; lit "goroute"] → map lower plain ≠ l ++ name ++ r).
  { intros l name r Hin Heq. assert (Hc : Contains (map lower plain) name = true)
      by (apply Contains_spec; eauto).
    cbn [existsb productNames] in Ep. bool_prop.
    repeat apply elem_of_cons in Hin as [->|Hin]; [congruence..|]. by apply elem_of_nil in Hin. }
  unfold minLocalPart. destruct (Z.leb_spec 3 (RuneCount (localPart email))) as [H3|H3]; cbn [andb].
  - destruct (Contains _ _) eqn:Ec.
    + split; [done|]. intros (_ & _ & _ & He). apply Contains_spec in Ec as (l & r & Hc). by apply He in Hc.
    + split; [|done]. intros _. split_and!; [done..|]. intros _ l r Heq.
      assert (Contains (map lower plain) (localPart email) = true) by (apply Contains_spec; eauto). congruence.
  - split; [|done]. intros _. split_and!; [done..|lia].
Qed.

Section Props.
Context (IDKey : bytes → bytes → Z → Z → Z → Z → bytes).
(** A key has the length asked for. *)
Hypothesis IDKey_length : ∀ plain salt t m p len, 0 ≤ len → blen (IDKey plain salt t m p len) = len.

Lemma Verify_encode salt plain plain' :
  salt ≠ [] →
  Verify IDKey (str (encode salt (derive IDKey plain salt timeCost memoryCost parallelism keyLength))) plain' =
  if bool_decide (IDKey plain' salt timeCost memoryCost parallelism keyLength =
                  IDKey plain salt timeCost memoryCost parallelism keyLength) then None else Some ErrMismatch.
Proof.
  intros Hs. unfold Verify, derive. rewrite lit_str.
  assert (Hl : blen (IDKey plain salt timeCost memoryCost parallelism keyLength) = keyLength)
    by by apply IDKey_length.
  rewrite decode_encode; [|done|].
  - cbn [d_t d_m d_p d_salt d_digest]. by rewrite Hl.
  - intros E. rewrite E in Hl. discriminate.
Qed.

Lemma Hash_Ok salt plain encoded :
  Hash IDKey (Ok salt) plain = Ok encoded →
  MinLength ≤ RuneCount plain ≤ MaxLength ∧
  encoded = str (encode salt (derive IDKey plain salt timeCost memoryCost parallelism keyLength)).
Proof.
  unfold Hash. destruct (checkLength plain) as [e|] eqn:Ec; [done|]. apply checkLength_None in Ec.
  intros He. apply (f_equal (λ r, match r with Ok e => e | Err _ => encoded end)) in He.
  cbv beta iota in He. by split.
Qed.

(** What [Hash] writes, [Verify] reads: a password verifies against its own hash, any
    other is refused as a mismatch unless the derivation itself gives it the same key, and a
    password that was ever hashed is within the policy's length, so one over the cap may be
    refused before anything is looked up. *)
Theorem Hash_then_Verify salt plain encoded :
  length salt = saltLength → Hash IDKey (Ok salt) plain = Ok encoded →
  Verify IDKey encoded plain = None ∧
  TooLong plain = false ∧
  ∀ other, Verify IDKey encoded other =
    if bool_decide (IDKey other salt timeCost memoryCost parallelism keyLength =
                    IDKey plain salt timeCost memoryCost parallelism keyLength)
    then None else Some ErrMismatch.
Proof.
  intros Hs Hh. apply Hash_Ok in Hh as [Ec ->]. assert (Hne : salt ≠ []) by by destruct salt.
  split_and!.
  - rewrite Verify_encode by done. by rewrite bool_decide_eq_true_2.
  - unfold TooLong. apply Z.ltb_ge. lia.
  - intros other. by apply Verify_encode.
Qed.
End Props.

(** A derivation that repeats the password's bytes. *)
Definition toy_key (plain salt : bytes) (t m p len : Z) : bytes :=
  take (Z.to_nat len) (plain ++ salt ++ replicate (Z.to_nat len) "x"%char).

Lemma toy_key_length plain salt t m p len : 0 ≤ len → blen (toy_key plain salt t m p len) = len.
Proof. intros. unfold toy_key, blen. rewrite length_take, !length_app, length_replicate. lia. Qed.

Lemma Hash_then_Verify_witness :
  Verify toy_key (str (encode (replicate 16 "s"%char)
    (toy_key (lit "correct horse") (replicate 16 "s"%char) 3 65536 2 32))) (lit "correct horse") = None.
Proof.
  apply (Hash_then_Verify toy_key toy_key_length (replicate 16 "s"%char) (lit "correct horse")); reflexivity.
Defined.

(** ** Secrets

    Freshly minted secrets: [internal/usecases/admin/secret.go]. *)

(** [src/internal/usecases/admin/secret.go:10-16] secretEntropyBytes, displayChars *)
Definition secretEntropyBytes : nat := 32.
Definition displayChars : nat := 6.

(** [src/internal/usecases/admin/secret.go:18-20] secretEncoding *)
Definition secretEncoding : alphabet := mkAlphabet 5 (lit "abcdefghijklmnopqrstuvwxyz234567").

(** [src/internal/usecases/admin/secret.go:22-28] Minted *)
Record MintedSecret := mkMinted { Secret : string; Secret_Prefix : string; Secret_Hash : bytes }.

Section Sha256.
(** [sha256.Sum256] *)
Context (sha256 : bytes → bytes).

(** [src/internal/usecases/admin/secret.go:30-45] Mint

    [random] is what [io.ReadFull] reads. *)
Definition Mint (prefix : string) (random : result error bytes) : result error MintedSecret :=
  match random with
  | Err e => Err (Errorf "admin: generate secret: %w" [AWrap e])
  | Ok b =>
      let secret := lit prefix ++ radix_encode secretEncoding b in
      Ok (mkMinted (str secret) (str (take (length (lit prefix) + displayChars) secret)) (sha256 secret))
  end.

(** [src/internal/usecases/admin/secret.go:47-52] hashSecret *)
Definition hashSecret (secret : string) : bytes := sha256 (lit secret).
End Sha256.

(** ** What a secret looks like *)

Lemma secret_faithful : faithful secretEncoding = true.
Proof. by vm_compute. Qed.

Lemma secret_value g : length g = al_width secretEncoding → (value g < length (al_chars secretEncoding))%nat.
Proof.
  change (al_width secretEncoding) with 5%nat. intros Hg.
  destruct g as [|b0 [|b1 [|b2 [|b3 [|b4 [|]]]]]]; try discriminate Hg.
  apply Nat.ltb_lt. by destruct b0, b1, b2, b3, b4.
Qed.

Lemma secret_char b c : c ∈ radix_encode secretEncoding b → c ∈ al_chars secretEncoding.
Proof. apply radix_encode_chars; [apply secret_value|vm_compute; lia]. Qed.

Lemma secret_length b : length b = secretEntropyBytes → length (radix_encode secretEncoding b) = 52%nat.
Proof. intros Hb. rewrite radix_encode_length, Hb by (vm_compute; lia). done. Qed.

Lemma secret_inj b b' : radix_encode secretEncoding b = radix_encode secretEncoding b' → b = b'.
Proof.
  intros He. apply (inj Some).
  rewrite <- !(radix_roundtrip secretEncoding) by (apply secret_faithful || (vm_compute; lia)).
  by rewrite He.
Qed.

(** What every character of the alphabet satisfies, every character of a secret does. *)
Lemma secret_forall (P : ascii → bool) b :
  forallb P (al_chars secretEncoding) = true → Forall (λ c, P c = true) (radix_encode secretEncoding b).
Proof.
  intros HP. apply Forall_forall. intros c Hc%secret_char.
  rewrite forallb_forall in HP. by apply HP, list_elem_of_In.
Qed.

(** A minted secret is its prefix and 52 characters that are lower-case letters or
    digits, from which the 32 random bytes can be read back: two mints give one secret only
    if they drew the same bytes. What is stored beside it shows six of those characters, and
    its hash is the one a presented copy is looked up by. *)
Theorem Mint_secret sha256 prefix b m :
  length b = secretEntropyBytes → Mint sha256 prefix (Ok b) = Ok m →
  ∃ body, lit (Secret m) = lit prefix ++ body ∧ length body = 52%nat ∧
    Forall (λ c, (between 97 122 c || is_digit c) = true) body ∧
    radix_decode secretEncoding body = Some b ∧
    lit (Secret_Prefix m) = lit prefix ++ take 6 body ∧
    Secret_Hash m = hashSecret sha256 (Secret m).
Proof.
  intros Hb. unfold Mint. intros Hm. apply (f_equal (λ r, match r with Ok m => m | Err _ => m end)) in Hm.
  cbv beta iota in Hm. subst m. exists (radix_encode secretEncoding b). cbn [Secret Secret_Prefix Secret_Hash].
  unfold hashSecret, displayChars. rewrite !lit_str. split_and!; [done|by apply secret_length| | | |done].
  - by apply secret_forall.
  - apply radix_roundtrip; [apply secret_faithful|vm_compute; lia].
  - by rewrite take_app_add.
Qed.

Lemma Mint_secret_witness :
  let b := map byte (seqZ 0 32) in
  ∃ body, "gr_refresh_" +:+ str body = "gr_refresh_aaaqeayeaudaocajbifqydiob4ibceqtcqkrmfyydenbwha5dypq" ∧
          radix_decode secretEncoding body = Some b.
Proof.
  destruct (Mint_secret (λ b, b) "gr_refresh_" (map byte (seqZ 0 32)) _ eq_refl eq_refl)
    as (body & Hs & _ & _ & Hd & _).
  exists body. split; [|exact Hd].
  transitivity (str (lit "gr_refresh_" ++ body)); [reflexivity|]. rewrite <- Hs. reflexivity.
Defined.

(** A generated password is never refused for its length or as white space. *)
Lemma generated_password_length b :
  length b = secretEntropyBytes → checkLength (radix_encode secretEncoding b) = None.
Proof.
  intros Hb. apply checkLength_None. rewrite RuneCount_ascii.
  - unfold blen. rewrite secret_length by done. unfold MinLength, MaxLength. lia.
  - eapply Forall_impl; [by apply (secret_forall (λ c, code c <? 128))|]. intros c. apply Z.ltb_lt.
Qed.
