(* ===== verification/Tokens.v ===== *)
(** Access tokens: [internal/core/tokens/jwt.go]. Signing and parsing are
    [github.com/golang-jwt/jwt] and ids are [github.com/google/uuid], both given by what they
    promise. *)
From Stdlib Require Import Ascii.
From S2P Require Import Prelude Errors Bytes Accounts.

(** [src/internal/core/tokens/jwt.go:14-19] MinSecretBytes, MinAccessTTL, MaxAccessTTL *)
Definition MinSecretBytes : Z := 32.
Definition MinAccessTTL : duration := Minute.
Definition MaxAccessTTL : duration := 24 * Hour.

(** [src/internal/core/tokens/jwt.go:21-24] ErrInvalidToken, ErrExpired *)
Definition ErrInvalidToken : error := Sentinel "tokens: invalid access token".
Definition ErrExpired : error := Sentinel "tokens: access token expired".

(** [src/internal/core/tokens/jwt.go:26-33] Claims *)
Record Claims := mkClaims {
  cl_UserID : uuid;
  cl_Email : string;
  cl_Role : Role;
  cl_ID : string;
  cl_Issued : time;
  cl_Expiry : time;
}.

(** The registered claims a token carries, with the code's two.

    [src/internal/core/tokens/jwt.go:35-40] accessClaims *)
Record accessClaims := mkAccessClaims {
  rc_Subject : string;
  rc_Issuer : string;
  rc_ID : string;
  rc_IssuedAt : option time;
  rc_ExpiresAt : option time;
  xc_Email : string;
  xc_Role : Role;
}.

#[export] Instance Claims_eq_dec : EqDecision Claims.
Proof. solve_decision. Defined.
#[export] Instance accessClaims_eq_dec : EqDecision accessClaims.
Proof. solve_decision. Defined.

(** What a parser is asked to check. *)
Record parser_options := mkParserOptions {
  o_methods : list string;
  o_issuer : string;
  o_expiration_required : bool;
  o_issued_at : bool;
  o_now : time;
}.

Definition jwt_ErrTokenExpired : error := Sentinel "token is expired".

(** The two libraries. A token is text the code never looks into. *)
Class Jwt := {
  token : Type;
  HS256 : string;
  SignedString : bytes → accessClaims → result error token;
  ParseWithClaims : bytes → parser_options → token → result error accessClaims;
  uuid_String : uuid → string;
  uuid_Parse : string → result error uuid;
}.

Definition current (c : accessClaims) (o : parser_options) : bool :=
  match rc_ExpiresAt c with Some e => o_now o <? e | None => negb (o_expiration_required o) end.
Definition issued_by_now (c : accessClaims) (o : parser_options) : bool :=
  negb (o_issued_at o) || match rc_IssuedAt c with Some i => i <=? o_now o | None => true end.

(** What they promise: a token signed with the key parses to what was signed if the checks
    asked for hold, says so if it has expired, and no other token parses. *)
Class JwtLaws `{Jwt} : Prop := {
  parse_signed key c tok o :
    SignedString key c = Ok tok → HS256 ∈ o_methods o → rc_Issuer c = o_issuer o →
    issued_by_now c o = true → current c o = true → ParseWithClaims key o tok = Ok c;
  parse_expired key c tok o :
    SignedString key c = Ok tok → HS256 ∈ o_methods o → current c o = false → is_Some (rc_ExpiresAt c) →
    ∃ e, ParseWithClaims key o tok = Err e ∧ Is e jwt_ErrTokenExpired = true;
  parse_genuine key o tok c :
    ParseWithClaims key o tok = Ok c →
    SignedString key c = Ok tok ∧ rc_Issuer c = o_issuer o ∧ current c o = true;
  uuid_Parse_String u : uuid_Parse (uuid_String u) = Ok u;
}.

(** [src/internal/core/tokens/jwt.go:42-48] Issuer *)
Record Issuer := mkIssuer { is_secret : bytes; is_issuer : string; is_ttl : duration }.

(** [src/internal/core/tokens/jwt.go:50-65] NewIssuer *)
Definition NewIssuer (secret : bytes) (issuer : string) (ttl : duration) : result error Issuer :=
  if blen secret <? MinSecretBytes
  then Err (Errorf "tokens: secret must be at least %d bytes, got %d" [AInt MinSecretBytes; AInt (blen secret)])
  else if String.eqb issuer "" then Err (Sentinel "tokens: an issuer is required")
  else if (ttl <? MinAccessTTL) || (MaxAccessTTL <? ttl)
  then Err (Errorf "tokens: access token ttl must be between %s and %s, got %s"
              [AInt MinAccessTTL; AInt MaxAccessTTL; AInt ttl])
  else Ok (mkIssuer secret issuer ttl).

Section Issuing.
Context `{Jwt}.

(** [src/internal/core/tokens/jwt.go:71-103] Issuer.Issue

    [jti] is what [uuid.NewV7] gives. *)
Definition Issue (i : Issuer) (jti : result error uuid) (now : time) (user : AdminUser)
    : result error (token * Claims) :=
  match jti with
  | Err e => Err (Errorf "tokens: jti: %w" [AWrap e])
  | Ok jti =>
      let issued := Truncate now Second in
      let claims := mkClaims (au_ID user) (au_Email user) (au_Role user) (uuid_String jti)
                      issued (Add issued (is_ttl i)) in
      match SignedString (is_secret i)
              (mkAccessClaims (uuid_String (cl_UserID claims)) (is_issuer i) (cl_ID claims)
                 (Some (cl_Issued claims)) (Some (cl_Expiry claims)) (cl_Email claims) (cl_Role claims)) with
      | Err e => Err (Errorf "tokens: sign: %w" [AWrap e])
      | Ok signed => Ok (signed, claims)
      end
  end.

(** [src/internal/core/tokens/jwt.go:105-140] Issuer.Verify *)
Definition Issuer_Verify (i : Issuer) (now : time) (tok : token) : result error Claims :=
  match ParseWithClaims (is_secret i) (mkParserOptions [HS256] (is_issuer i) true true now) tok with
  | Err e =>
      if Is e jwt_ErrTokenExpired then Err ErrExpired
      else Err (Errorf "%w: %w" [AWrap ErrInvalidToken; AWrap e])
  | Ok claims =>
      match rc_ExpiresAt claims, rc_IssuedAt claims with
      | Some expiry, Some issued =>
          match uuid_Parse (rc_Subject claims) with
          | Err _ => Err (Errorf "%w: subject is not a user id" [AWrap ErrInvalidToken])
          | Ok userID =>
              Ok (mkClaims userID (xc_Email claims) (xc_Role claims) (rc_ID claims) issued expiry)
          end
      | _, _ => Err (Errorf "%w: incomplete claims" [AWrap ErrInvalidToken])
      end
  end.

Context `{!JwtLaws}.

(** An access token issued to a person is read back, by the same issuer, as the claims it
    was issued with from the second it was issued in until its lifetime is over, and as
    expired from then on; the lifetime is the one configured, a minute to a day. *)
Theorem Issue_then_Verify secret name ttl i jti t user tok c :
  NewIssuer secret name ttl = Ok i → Issue i jti t user = Ok (tok, c) →
  (cl_UserID c = au_ID user ∧ cl_Email c = au_Email user ∧ cl_Role c = au_Role user) ∧
  cl_Issued c ≤ t < cl_Issued c + Second ∧
  cl_Expiry c = cl_Issued c + ttl ∧ Minute ≤ ttl ≤ 24 * Hour ∧
  ∀ now, cl_Issued c ≤ now →
    Issuer_Verify i now tok = if now <? cl_Expiry c then Ok c else Err ErrExpired.
Proof.
  unfold NewIssuer, Issue. intros Hi Ht.
  destruct (blen secret <? MinSecretBytes); [done|]. destruct (String.eqb name ""); [done|].
  destruct ((ttl <? MinAccessTTL) || (MaxAccessTTL <? ttl)) eqn:El; simplify_eq/=. bool_prop.
  destruct jti as [jti|]; [|done]. destruct (SignedString _ _) as [signed|] eqn:Es; simplify_eq/=.
  split_and!; try done; try (apply Truncate_bounds; unfold Second; lia).
  intros now Hnow. unfold Issuer_Verify. cbn [is_secret is_issuer].
  destruct (Z.ltb_spec now (Add (Truncate t Second) ttl)) as [Hlt|Hge].
  - erewrite parse_signed; [|exact Es|by left|done|..].
    + cbn. by rewrite uuid_Parse_String.
    + unfold issued_by_now. cbn. by apply Z.leb_le.
    + unfold current. cbn. by apply Z.ltb_lt.
  - destruct (parse_expired _ _ _ (mkParserOptions [HS256] name true true now) Es) as (e & -> & ->);
      [by left| |done|done].
    unfold current. cbn. by apply Z.ltb_ge.
Qed.

(** A token is accepted only if it was signed with the issuer's secret over the claims it
    is read as, under the issuer's name, and has not expired. *)
Theorem Verify_genuine i now tok c :
  Issuer_Verify i now tok = Ok c →
  now < cl_Expiry c ∧
  ∃ w, SignedString (is_secret i) w = Ok tok ∧ rc_Issuer w = is_issuer i ∧
    uuid_Parse (rc_Subject w) = Ok (cl_UserID c) ∧
    rc_IssuedAt w = Some (cl_Issued c) ∧ rc_ExpiresAt w = Some (cl_Expiry c) ∧
    xc_Email w = cl_Email c ∧ xc_Role w = cl_Role c.
Proof.
  unfold Issuer_Verify. destruct (ParseWithClaims _ _ _) as [w|e] eqn:Ep; [|by destruct (Is _ _)].
  apply parse_genuine in Ep as (Hs & Hi & Hc). unfold current in Hc. cbn in Hi, Hc.
  destruct (rc_ExpiresAt w) as [x|] eqn:Ex, (rc_IssuedAt w) as [iss|] eqn:Ei; try done.
  destruct (uuid_Parse (rc_Subject w)) as [u|] eqn:Eu; simplify_eq/=; try done.
  intros [= <-]. bool_prop. split; [done|]. by exists w.
Qed.
End Issuing.

(** A library whose tokens are the claims and the key themselves. *)
#[export] Instance toy_Jwt : Jwt := {
  token := bytes * accessClaims;
  HS256 := "HS256"%string;
  SignedString key c := Ok (key, c);
  ParseWithClaims key o tok :=
    if negb (bool_decide (tok.1 = key)) then Err (Sentinel "signature is invalid")
    else if negb (current tok.2 o) then Err (Errorf "%w" [AWrap jwt_ErrTokenExpired])
    else if bool_decide ("HS256" ∈ o_methods o) && String.eqb (rc_Issuer tok.2) (o_issuer o) &&
            issued_by_now tok.2 o
    then Ok tok.2 else Err (Sentinel "token has invalid claims");
  uuid_String u := str (replicate (N.to_nat u) "u"%char);
  uuid_Parse s := Ok (N.of_nat (String.length s));
}.

Lemma str_length b : String.length (str b) = length b.
Proof. induction b as [|c b IH]; [done|]. unfold str in *. simpl. by rewrite IH. Qed.

#[export] Instance toy_JwtLaws : JwtLaws.
Proof.
  split; cbn -[In].
  - intros key c tok o [= <-] Hm Hi His Hc. cbn. rewrite bool_decide_eq_true_2, Hc by done. cbn.
    rewrite bool_decide_eq_true_2, Hi, String.eqb_refl, His by done. done.
  - intros key c tok o [= <-] Hm Hc Hx. cbn. rewrite bool_decide_eq_true_2, Hc by done. cbn. eauto.
  - intros key o [k c'] c. cbn. case_bool_decide; [|done]. subst. cbn.
    destruct (current c' o) eqn:Ec; [|done]. cbn.
    destruct (bool_decide _ && _ && _) eqn:E; [|done]. bool_prop. intros [= <-]. done.
  - intros u. by rewrite str_length, length_replicate, N2Nat.id.
Qed.

Definition ex_secret : bytes := replicate 32 "k"%char.
Definition ex_issuer : Issuer := mkIssuer ex_secret "go-route-admin" (15 * Minute).
Definition ex_user : AdminUser := mkAdminUser 1%N "ops@example.com" RoleReadonly 0 None None 0.
Definition ex_wire : accessClaims :=
  mkAccessClaims "u" "go-route-admin" "uu" (Some 0) (Some (15 * Minute)) "ops@example.com" RoleReadonly.
Definition ex_claims : Claims := mkClaims 1%N "ops@example.com" RoleReadonly "uu" 0 (15 * Minute).

Definition ex_token : @token toy_Jwt := (ex_secret, ex_wire).

Lemma Issue_then_Verify_witness :
  Issuer_Verify ex_issuer (14 * Minute) ex_token = Ok ex_claims ∧
  Issuer_Verify ex_issuer (15 * Minute) ex_token = Err ErrExpired.
Proof.
  destruct (Issue_then_Verify ex_secret "go-route-admin" (15 * Minute) ex_issuer (Ok 2%N)
    (Millisecond * 250) ex_user ex_token ex_claims)
    as (_ & _ & _ & _ & Hv); [vm_compute; reflexivity..|].
  split.
  - rewrite Hv; [reflexivity|vm_compute; discriminate].
  - rewrite Hv; [reflexivity|vm_compute; discriminate].
Defined.

Lemma Verify_genuine_witness :
  ∃ w, @SignedString toy_Jwt ex_secret w = Ok ex_token ∧ rc_Issuer w = "go-route-admin".
Proof.
  destruct (Verify_genuine ex_issuer 0 ex_token ex_claims) as (_ & w & Hs & Hi & _);
    [vm_compute; reflexivity|].
  exists w. by split.
Defined.

(** A token minted before a password change in the same second goes on speaking for the
    person: both times are compared as whole seconds. *)
Lemma same_second_token_survives :
  ∃ u issued, issued < au_PasswordChangedAt u ∧ TokenIssuedAfterPasswordChange u issued = true.
Proof.
  exists (mkAdminUser 1%N "ops@example.com" RoleAdmin 0 None None (900 * Millisecond)), (100 * Millisecond).
  split; by vm_compute.
Qed.

(** Any other token minted before the change is refused. *)
Lemma older_token_refused u issued :
  TokenIssuedAfterPasswordChange u issued = false ↔
  Truncate issued Second < Truncate (au_PasswordChangedAt u) Second.
Proof. unfold TokenIssuedAfterPasswordChange, Before. rewrite negb_false_iff. apply Z.ltb_lt. Qed.
