(* ===== verification/Email.v ===== *)
(** The addresses people log in with: [NormaliseEmail] and [ValidateEmail] of
    [internal/core/domains/admin_user.go], and as much of [net/mail] and [net] as decides
    whether an address is bare. *)
From Stdlib Require Import Ascii.
From S2P Require Import Prelude Errors Bytes Utf8 Accounts.

(** ** [net.ParseIP] *)

Definition hex_digit (c : ascii) : bool := is_digit c || between 97 102 c || between 65 70 c.
Fixpoint hex_run (b : bytes) : bytes * bytes :=
  match b with
  | c :: b' => if hex_digit c then let '(h, r) := hex_run b' in (c :: h, r) else ([], b)
  | [] => ([], [])
  end.

(** A decimal field of at most 255 without leading zeros. *)
Definition ip4_field (b : bytes) : bool :=
  match b with
  | [] => false
  | c :: r => forallb is_digit b && (decimal b <=? 255) && (bool_decide (r = []) || negb (Ascii.eqb c "0"))
  end.
Definition ParseIPv4 (b : bytes) : bool :=
  Nat.eqb (length (split_on "." b)) 4 && forallb ip4_field (split_on "." b).

(** [i] groups have been read; [gap] if a double colon stood among them. *)
Fixpoint ip6_groups (fuel : nat) (b : bytes) (i : nat) (gap : bool) : bool :=
  let done (i : nat) (gap : bool) (rest : bytes) :=
    bool_decide (rest = []) && (if gap then (i <? 8)%nat else (i =? 8)%nat) in
  match fuel with
  | O => done i gap b
  | S fuel =>
      if (8 <=? i)%nat then done i gap b
      else match hex_run b with
           | ([], _) => false
           | (h, r) =>
               match r with
               | "."%char :: _ =>
                   (gap || (i =? 6)%nat) && (i <=? 6)%nat && ParseIPv4 b && done (i + 2)%nat gap []
               | _ =>
                   if (4 <? length h)%nat then false
                   else match r with
                        | [] => done (S i) gap []
                        | ":"%char :: r =>
                            match r with
                            | [] => false
                            | ":"%char :: r =>
                                if gap then false
                                else match r with
                                     | [] => done (S i) true []
                                     | _ => ip6_groups fuel r (S i) true
                                     end
                            | _ => ip6_groups fuel r (S i) gap
                            end
                        | _ => false
                        end
               end
           end
  end.
Definition ParseIPv6 (b : bytes) : bool :=
  match b with
  | ":"%char :: ":"%char :: [] => true
  | ":"%char :: ":"%char :: r => ip6_groups 8 r 0 true
  | _ => ip6_groups 8 b 0 false
  end.
Definition ParseIP (b : bytes) : bool := ParseIPv4 b || ParseIPv6 b.

(** ** Bare addresses *)

(** A character of an atom, of a domain literal; bytes of longer runes count. *)
Definition specials : bytes := lit "()<>[]:;@\," ++ ["034"%char].
Definition atext (c : ascii) : bool :=
  (128 <=? code c) || between 33 126 c && negb (bool_decide (c ∈ specials)).
Definition dtext (c : ascii) : bool :=
  (128 <=? code c) || between 33 126 c && negb (bool_decide (c ∈ lit "[]\")).

(** Atoms joined by single dots. *)
Definition dot_atom (b : bytes) : bool :=
  ValidString b && forallb (λ a, negb (bool_decide (a = [])) && forallb atext a) (split_on "." b).
Definition domain_literal (b : bytes) : bool :=
  match b with
  | "["%char :: r =>
      match last r with
      | Some "]"%char =>
          let d := take (pred (length r)) r in
          ValidString d && forallb dtext d && ParseIP d
      | _ => false
      end
  | _ => false
  end.

(** [mail.ParseAddress] gives the text itself back as the address, and no name: quoting,
    comments, angle brackets and groups all make the address shorter than the text. *)
Definition bare_address (b : bytes) : bool :=
  match cut "@" b with
  | Some (loc, dom) => dot_atom loc && (dot_atom dom || domain_literal dom)
  | None => false
  end.

(** [src/internal/core/domains/admin_user.go:51-57] NormaliseEmail *)
Definition NormaliseEmail (email : string) : string := str (map lower (TrimSpace (lit email))).

(** [src/internal/core/domains/admin_user.go:59-74] ValidateEmail *)
Definition ValidateEmail (email : string) : option error :=
  if String.eqb email "" then Some (Errorf "%w: email is required" [AWrap ErrInvalidAdminUser])
  else if MaxEmailLen <? str_len email
  then Some (Errorf "%w: email must be at most %d characters" [AWrap ErrInvalidAdminUser; AInt MaxEmailLen])
  else if negb (bare_address (lit email))
  then Some (Errorf "%w: %q is not an email address" [AWrap ErrInvalidAdminUser; AStr email])
  else None.

Example some_addresses :
  map (λ s, bool_decide (ValidateEmail s = None))
    ["ops@example.com"; "ops.team@a-b.example"; "ops"; "ops@"; "@x"; "a..b@x"; "a b@x"; "Ops <ops@x>";
     "ops@[127.0.0.1]"; "ops@[::1]"; "ops@[::ffff:10.0.0.1]"; "ops@[1.2.3]"; "ops@[1:2:3:4:5:6:7:8]"] =
    [true; true; false; false; false; false; false; false; true; true; true; false; true].
Proof. by vm_compute. Qed.
