(* ===== verification/Throttle.v ===== *)
(** The login throttle of [internal/usecases/admin/throttle.go]: failures per client, kept in
    memory and swept now and then. Every method holds one lock from end to end, so a method
    is one step. *)
From S2P Require Import Prelude.

(** [src/internal/usecases/admin/throttle.go:8-13] MaxLoginFailures, LoginFailureWindow, maxThrottleTracked, throttleSweepEvery *)
Definition MaxLoginFailures : Z := 5.
Definition LoginFailureWindow : duration := 15 * Minute.
Definition maxThrottleTracked : Z := 4096.
Definition throttleSweepEvery : Z := 256.

(** [src/internal/usecases/admin/throttle.go:21-24] window *)
Record window := mkThrottleWindow { tw_failures : Z; tw_until : time }.
Definition zero_window : window := mkThrottleWindow 0 zero_time.

(** [src/internal/usecases/admin/throttle.go:15-19] throttle *)
Record throttle := mkThrottle { th_counts : gmap string window; th_writes : Z }.

(** [src/internal/usecases/admin/throttle.go:26-26] newThrottle *)
Definition newThrottle : throttle := mkThrottle ∅ 0.

(** [src/internal/usecases/admin/throttle.go:28-34] throttle.blocked *)
Definition blocked (t : throttle) (key : string) (now : time) : bool :=
  match th_counts t !! key with
  | Some w => Before now (tw_until w) && (MaxLoginFailures <=? tw_failures w)
  | None => false
  end.

(** [src/internal/usecases/admin/throttle.go:58-64] throttle.sweep *)
Definition sweep (counts : gmap string window) (now : time) : gmap string window :=
  filter (λ kw, After now (tw_until kw.2) = false) counts.

(** [src/internal/usecases/admin/throttle.go:36-50] throttle.fail *)
Definition throttle_fail (t : throttle) (key : string) (now : time) : throttle :=
  let w := default zero_window (th_counts t !! key) in
  let w := if After now (tw_until w) then zero_window else w in
  let counts := <[key := mkThrottleWindow (wrap64 (tw_failures w + 1)) (Add now LoginFailureWindow)]>
                  (th_counts t) in
  let writes := wrap64 (th_writes t + 1) in
  if (Z.rem writes throttleSweepEvery =? 0) || (maxThrottleTracked <? Z.of_nat (size counts))
  then mkThrottle (sweep counts now) writes
  else mkThrottle counts writes.

(** [src/internal/usecases/admin/throttle.go:52-56] throttle.succeed *)
Definition succeed (t : throttle) (key : string) : throttle :=
  mkThrottle (delete key (th_counts t)) (th_writes t).

(** ** One client's view

    What a client's own attempts amount to, whatever the others do and whenever the sweeps
    fall: a run of failures, each within a window of the one before. *)
Inductive attempt := Failed (key : string) (at_ : time) | Succeeded (key : string) (at_ : time).

Definition attempt_key (a : attempt) : string :=
  match a with Failed k _ | Succeeded k _ => k end.
Definition attempt_time (a : attempt) : time :=
  match a with Failed _ t | Succeeded _ t => t end.

Definition throttle_step (t : throttle) (a : attempt) : throttle :=
  match a with Failed k now => throttle_fail t k now | Succeeded k _ => succeed t k end.

(** The length of the client's current run and when it began to matter last. *)
Definition streak (s : option (Z * time)) (a : attempt) : option (Z * time) :=
  match a with
  | Succeeded _ _ => None
  | Failed _ now =>
      match s with
      | Some (n, last) => Some (if now <=? last + LoginFailureWindow then n + 1 else 1, now)
      | None => Some (1, now)
      end
  end.
Definition streak_of (key : string) (l : list attempt) : option (Z * time) :=
  fold_left streak (filter (λ a, attempt_key a = key) l) None.
Definition streak_blocks (s : option (Z * time)) (now : time) : bool :=
  match s with
  | Some (n, last) => (now <? last + LoginFailureWindow) && (MaxLoginFailures <=? n)
  | None => false
  end.

(** Attempts in the order of their times, none later than [now]. *)
Fixpoint in_order (since : time) (l : list attempt) (now : time) : Prop :=
  match l with
  | [] => since ≤ now
  | a :: l => since ≤ attempt_time a ∧ in_order (attempt_time a) l now
  end.

(** The entry of a key agrees with its streak, or has been swept once it had expired. *)
Definition agrees (t : throttle) (key : string) (s : option (Z * time)) (now : time) : Prop :=
  match th_counts t !! key, s with
  | Some w, Some (n, last) =>
      tw_failures w = n ∧ tw_until w = last + LoginFailureWindow ∧ 0 < n
  | None, Some (n, last) => last + LoginFailureWindow < now
  | None, None => True
  | Some _, None => False
  end.

Lemma sweep_lookup counts now key :
  sweep counts now !! key =
  match counts !! key with Some w => if After now (tw_until w) then None else Some w | None => None end.
Proof.
  unfold sweep. destruct (counts !! key) as [w|] eqn:E.
  - destruct (After now (tw_until w)) eqn:Ea.
    + apply map_lookup_filter_None. right. intros x Hx. simplify_eq/=. by rewrite Ea.
    + by apply map_lookup_filter_Some.
  - apply map_lookup_filter_None. by left.
Qed.

Lemma swept_agrees counts writes key s now now' :
  agrees (mkThrottle counts writes) key s now → now ≤ now' →
  agrees (mkThrottle (sweep counts now') writes) key s now'.
Proof.
  unfold agrees. simpl. rewrite sweep_lookup. intros Ha Hle.
  destruct (counts !! key) as [w|]; [|destruct s as [[n last]|]; [lia|done]].
  destruct s as [[n last]|]; [|done]. unfold After. destruct Ha as (? & Hu & ?).
  destruct (Z.ltb_spec (tw_until w) now'); [lia|done].
Qed.

Lemma agrees_later t key s now now' : agrees t key s now → now ≤ now' → agrees t key s now'.
Proof. unfold agrees. intros. destruct (th_counts t !! key), s as [[]|]; lia || done. Qed.

Lemma fail_agrees t key k now s :
  (∀ n last, s = Some (n, last) → 0 < n < max_int64) → agrees t key s now →
  agrees (throttle_fail t k now) key (if decide (k = key) then streak s (Failed k now) else s) now.
Proof.
  intros Hn Ha. unfold throttle_fail.
  set (w := default zero_window (th_counts t !! k)).
  set (w' := if After now (tw_until w) then zero_window else w).
  set (counts := <[k := mkThrottleWindow (wrap64 (tw_failures w' + 1)) (Add now LoginFailureWindow)]> (th_counts t)).
  assert (Hc : ∀ writes, agrees (mkThrottle counts writes) key
                (if decide (k = key) then streak s (Failed k now) else s) now).
  { intros writes. unfold agrees in *. simpl. unfold counts. case_decide as Hk; [subst k|].
    - rewrite lookup_insert_eq. unfold w', w. clear w w' counts.
      destruct (th_counts t !! key) as [w|], s as [[n last]|]; simpl; try done.
      + destruct Ha as (<- & -> & Hp). destruct (Hn _ _ eq_refl) as [_ Hmax].
        unfold After. destruct (Z.ltb_spec (last + LoginFailureWindow) now), (Z.leb_spec now (last + LoginFailureWindow));
          try lia; simpl; (split_and!; [rewrite wrap64_id; [done|unfold int64_range, max_int64 in *; lia]|done|lia]).
      + destruct (Z.leb_spec now (last + LoginFailureWindow)); [lia|].
        by destruct (After now zero_time).
      + by destruct (After now zero_time).
    - rewrite lookup_insert_ne by done. done. }
  destruct (_ || _); [eapply swept_agrees; [apply Hc|lia]|apply Hc].
Qed.

Lemma streak_count s a n last :
  streak s a = Some (n, last) →
  n = 1 ∨ (∃ m l, s = Some (m, l) ∧ n = m + 1).
Proof.
  destruct a as [k t|]; simpl; [|done]. destruct s as [[m l]|]; [|naive_solver].
  case_match; naive_solver.
Qed.

Lemma throttle_agrees t key s since l now :
  in_order since l now →
  (∀ n last, s = Some (n, last) → 0 < n ∧ n + Z.of_nat (length l) ≤ max_int64) →
  Z.of_nat (length l) < max_int64 →
  agrees t key s since →
  agrees (fold_left throttle_step l t) key
    (fold_left streak (filter (λ a, attempt_key a = key) l) s) now.
Proof.
  revert t s since. induction l as [|a l IH]; intros t s since Ho Hn Hl Ha; simpl.
  { by eapply agrees_later. }
  destruct Ho as [Hs Ho]. cbn [length] in Hn, Hl.
  assert (Ha' : agrees t key s (attempt_time a)) by by eapply agrees_later.
  assert (Hstep : agrees (throttle_step t a) key
     (if decide (attempt_key a = key) then streak s a else s) (attempt_time a)).
  { destruct a as [k at_|k at_]; simpl in *.
    - apply fail_agrees; [|done]. intros n last E. specialize (Hn n last E). lia.
    - case_decide as Hk; unfold agrees, succeed; simpl; [subst k; by rewrite lookup_delete_eq|].
      by rewrite lookup_delete_ne. }
  rewrite filter_cons. case_decide as Hk; simpl; eapply IH; try exact Hstep; try done; try lia.
  - intros n last E. apply streak_count in E as [->|(m & l' & E & ->)]; [lia|].
    specialize (Hn m l' E). lia.
  - intros n last E. specialize (Hn n last E). lia.
Qed.

(** The throttle is per client: as long as the clock does not run backwards, a client is
    blocked exactly when its own attempts end in a run of five failures, each within fifteen
    minutes of the one before and none followed by a success, and fewer than fifteen minutes
    have passed since the last. Neither other clients' attempts nor the sweeps that forget
    old entries make any difference. *)
Theorem throttle_is_per_client l key since now :
  in_order since l now → Z.of_nat (length l) < max_int64 →
  blocked (fold_left throttle_step l newThrottle) key now = streak_blocks (streak_of key l) now.
Proof.
  intros Ho Hl.
  pose proof (throttle_agrees newThrottle key None since l now Ho ltac:(done) Hl) as Ha.
  unfold agrees, blocked, streak_of, streak_blocks in *. simpl in Ha. specialize (Ha ltac:(by rewrite lookup_empty)).
  destruct (th_counts _ !! key) as [w|], (fold_left streak _ None) as [[n last]|]; try done.
  - destruct Ha as (-> & -> & _). done.
  - destruct (Z.ltb_spec now (last + LoginFailureWindow)); [lia|done].
Qed.

(** Five failures at one address, with a stranger's in between. *)
Definition ex_attempts : list attempt :=
  [Failed "ops" 0; Failed "ops" Minute; Failed "eve" Minute; Failed "ops" (2 * Minute);
   Failed "ops" (3 * Minute); Failed "ops" (4 * Minute)].

Lemma throttle_is_per_client_witness :
  blocked (fold_left throttle_step ex_attempts newThrottle) "ops" (18 * Minute) = true ∧
  blocked (fold_left throttle_step ex_attempts newThrottle) "eve" (18 * Minute) = false.
Proof.
  split; (etransitivity;
    [apply (throttle_is_per_client ex_attempts _ 0);
       [vm_compute; intuition discriminate|vm_compute; reflexivity]
    |vm_compute; reflexivity]).
Defined.

(** The number of entries is not bounded by [maxThrottleTracked]: entries younger than the
    window are never swept, so as many as there are addresses to fail from are kept. *)
Lemma throttle_unbounded n :
  ∃ l, length l = n ∧ size (th_counts (fold_left throttle_step l newThrottle)) = n.
Proof.
  exists (map (λ i, Failed (pretty i) 0) (seq 0 n)). split; [by rewrite length_map, length_seq|].
  assert (Hinv : ∀ m, let t := fold_left throttle_step (map (λ i, Failed (pretty i) 0) (seq 0 m)) newThrottle in
    (∀ k w, th_counts t !! k = Some w → (∃ i, (i < m)%nat ∧ k = pretty i) ∧ tw_until w = LoginFailureWindow) ∧
    size (th_counts t) = m).
  { induction m as [|m [IHk IHs]]; [split; [intros k w; simpl; by rewrite lookup_empty|apply map_size_empty]|].
    rewrite seq_S, map_app, fold_left_app. simpl.
    set (t := fold_left throttle_step (map (λ i, Failed (pretty i) 0) (seq 0 m)) newThrottle) in *.
    assert (Hnone : th_counts t !! pretty m = None).
    { destruct (th_counts t !! pretty m) as [w|] eqn:E; [|done].
      destruct (IHk _ _ E) as [(i & Hi & Hp) _]. apply (inj pretty) in Hp. lia. }
    unfold throttle_fail. rewrite Hnone. cbn [default].
    set (counts := <[pretty m := _]> (th_counts t)).
    assert (Hk : ∀ k w, counts !! k = Some w →
       (∃ i, (i < S m)%nat ∧ k = pretty i) ∧ tw_until w = LoginFailureWindow).
    { intros k w. unfold counts. destruct (decide (pretty m = k)) as [<-|Hne].
      - rewrite lookup_insert_eq. intros [= <-]. split; [exists m; split; [lia|done]|done].
      - rewrite lookup_insert_ne by done. intros Hw. destruct (IHk k w Hw) as [(i & ? & ->) ?].
        split; [|done]. exists i. split; [lia|done]. }
    assert (Hsize : size counts = S m).
    { unfold counts. rewrite map_size_insert_None by done. by rewrite IHs. }
    assert (Hsweep : sweep counts 0 = counts).
    { apply map_eq. intros k. rewrite sweep_lookup. destruct (counts !! k) as [w|] eqn:E; [|done].
      destruct (Hk k w E) as [_ ->]. done. }
    destruct (_ || _); simpl; rewrite ?Hsweep; by split. }
  apply Hinv.
Qed.
