(* ===== verification/AdminDb.v ===== *)
(** The store behind the people of the admin API: the tables of
    [db/migrations/0010_admin_users.sql], the statements of [db/gen/admin_users.sql.go] and
    the transactions [internal/adapters/repositories/admin_users.go] makes of them.

    A statement is a function of the tables that fails when it would break a constraint; a
    transaction is a sequence of statements of which the database keeps all or none.
    Timestamps are stored in microseconds. *)
From Stdlib Require Import Ascii.
From S2P Require Import Prelude Errors Accounts Bytes.

(** What [detail] an audit row of this store carries.

    [src/internal/usecases/admin/users.go:386-390] adminUserDetail
    [src/internal/usecases/admin/users.go:392-396] loginFailureDetail *)
Inductive user_detail :=
| adminUserDetail (UserID : uuid) (Email : string) (role : Role)
| loginFailureDetail (Email ClientIP Reason : string).

#[export] Instance user_detail_eq_dec : EqDecision user_detail.
Proof. solve_decision. Defined.

Definition audit_row := AuditEntry user_detail.
#[export] Instance audit_row_eq_dec : EqDecision audit_row.
Proof. solve_decision. Defined.

(** ** Tables *)

(** [src/db/gen/models.go:183-198] AdminUser *)
Record user_row := mkUserRow { ur_user : AdminUser; ur_hash : string }.

(** [src/db/gen/models.go:168-180] AdminRefreshToken *)
Record token_row := mkTokenRow { tr_token : AdminRefreshToken; tr_hash : bytes }.

Record AdminDb := mkAdminDb {
  db_users : gmap uuid user_row;
  db_tokens : gmap uuid token_row;
  db_audit : list audit_row;
}.

Definition empty_db : AdminDb := mkAdminDb ∅ ∅ [].

Definition set_users (db : AdminDb) us := mkAdminDb us (db_tokens db) (db_audit db).
Definition set_tokens (db : AdminDb) ts := mkAdminDb (db_users db) ts (db_audit db).
Definition set_audit (db : AdminDb) au := mkAdminDb (db_users db) (db_tokens db) au.

(** A [timestamptz] as pgx sends it. *)
Definition pg_time (t : time) : time := t / Microsecond * Microsecond.

Definition pgx_ErrNoRows : error := Sentinel "no rows in result set".
Definition constraint_violation (name : string) : error :=
  Errorf "ERROR: violates constraint %s" [AStr name].

(** ** Statements *)

Definition find_user (db : AdminDb) (p : user_row → bool) : option user_row :=
  List.find p ((map_to_list (db_users db)).*2).
Definition find_token (db : AdminDb) (p : token_row → bool) : option token_row :=
  List.find p ((map_to_list (db_tokens db)).*2).

(** [src/db/gen/admin_users.sql.go:175-200] GetAdminUserByEmail *)
Definition GetAdminUserByEmail (db : AdminDb) (email : string) : result error user_row :=
  match find_user db (λ r, String.eqb (au_Email (ur_user r)) email) with
  | Some r => Ok r | None => Err pgx_ErrNoRows
  end.

(** [src/db/gen/admin_users.sql.go:202-220] GetAdminUserByID *)
Definition GetAdminUserByID (db : AdminDb) (id : uuid) : result error user_row :=
  match db_users db !! id with Some r => Ok r | None => Err pgx_ErrNoRows end.

(** [src/db/gen/admin_users.sql.go:222-253] ListAdminUsers, unordered *)
Definition all_users (db : AdminDb) : list user_row := (map_to_list (db_users db)).*2.

(** [src/db/gen/admin_users.sql.go:50-88] CreateAdminUser

    [now] is the database's clock, for [created_at]. *)
Definition Sql_CreateAdminUser (db : AdminDb) (now : time) (id : uuid) (email hash : string)
    (role : Role) (changed : time) : AdminDb * result error user_row :=
  if String.eqb email "" || negb (String.eqb email (ToLower email)) || String.eqb hash "" ||
     negb (Role_Valid role)
  then (db, Err (constraint_violation "admin_users_check"))
  else if is_ok (GetAdminUserByEmail db email) then (db, Err pgx_ErrNoRows)
  else match db_users db !! id with
       | Some _ => (db, Err (constraint_violation "admin_users_pkey"))
       | None =>
           let r := mkUserRow (mkAdminUser id email role (pg_time now) None None (pg_time changed)) hash in
           (set_users db (<[id := r]> (db_users db)), Ok r)
       end.

Definition map_user (f : AdminUser → AdminUser) (r : user_row) : user_row :=
  mkUserRow (f (ur_user r)) (ur_hash r).

(** [src/db/gen/admin_users.sql.go:109-134] DisableAdminUser *)
Definition disable_user (at_ : time) (u : AdminUser) : AdminUser :=
  mkAdminUser (au_ID u) (au_Email u) (au_Role u) (au_CreatedAt u) (Some (pg_time at_))
    (au_LastLoginAt u) (au_PasswordChangedAt u).
Definition Sql_DisableAdminUser (db : AdminDb) (id : uuid) (at_ : time) : AdminDb * result error user_row :=
  match db_users db !! id with
  | Some r =>
      if AdminUser_Disabled (ur_user r) then (db, Err pgx_ErrNoRows)
      else let r := map_user (disable_user at_) r in
           (set_users db (<[id := r]> (db_users db)), Ok r)
  | None => (db, Err pgx_ErrNoRows)
  end.

(** [src/db/gen/admin_users.sql.go:302-329] SetAdminUserPassword *)
Definition change_password (at_ : time) (u : AdminUser) : AdminUser :=
  mkAdminUser (au_ID u) (au_Email u) (au_Role u) (au_CreatedAt u) (au_DisabledAt u)
    (au_LastLoginAt u) (pg_time at_).
Definition Sql_SetAdminUserPassword (db : AdminDb) (id : uuid) (hash : string) (at_ : time)
    : AdminDb * result error user_row :=
  match db_users db !! id with
  | Some r =>
      if String.eqb hash "" then (db, Err (constraint_violation "admin_users_password_hash_not_blank"))
      else let r := mkUserRow (change_password at_ (ur_user r)) hash in
           (set_users db (<[id := r]> (db_users db)), Ok r)
  | None => (db, Err pgx_ErrNoRows)
  end.

(** [src/db/gen/admin_users.sql.go:331-344] TouchAdminUserLogin *)
Definition touch_login (at_ : time) (u : AdminUser) : AdminUser :=
  mkAdminUser (au_ID u) (au_Email u) (au_Role u) (au_CreatedAt u) (au_DisabledAt u)
    (Some (match au_LastLoginAt u with Some t => Z.max t (pg_time at_) | None => pg_time at_ end))
    (au_PasswordChangedAt u).
Definition Sql_TouchAdminUserLogin (db : AdminDb) (id : uuid) (at_ : time) : AdminDb :=
  match db_users db !! id with
  | Some r => set_users db (<[id := map_user (touch_login at_) r]> (db_users db))
  | None => db
  end.

(** [src/internal/ports/admin_users.go:88-96] NewAdminSession *)
Record NewAdminSession := mkNewAdminSession {
  ns_ID : uuid;
  ns_UserID : uuid;
  ns_TokenHash : bytes;
  ns_IssuedAt : time;
  ns_ExpiresAt : time;
}.

(** [src/internal/ports/admin_users.go:98-103] AdminSession *)
Record AdminSession := mkAdminSession { as_Token : AdminRefreshToken; as_User : AdminUser }.

(** [src/db/gen/admin_users.sql.go:15-48] CreateAdminRefreshToken *)
Definition Sql_CreateAdminRefreshToken (db : AdminDb) (s : NewAdminSession) : AdminDb * option error :=
  if negb (Nat.eqb (length (ns_TokenHash s)) 32) ||
     negb (pg_time (ns_IssuedAt s) <? pg_time (ns_ExpiresAt s))
  then (db, Some (constraint_violation "admin_refresh_tokens_check"))
  else match db_tokens db !! ns_ID s, db_users db !! ns_UserID s,
             find_token db (λ r, bool_decide (tr_hash r = ns_TokenHash s)) with
       | None, Some _, None =>
           let t := mkAdminRefreshToken (ns_ID s) (ns_UserID s) (pg_time (ns_IssuedAt s))
                      (pg_time (ns_ExpiresAt s)) None None in
           (set_tokens db (<[ns_ID s := mkTokenRow t (ns_TokenHash s)]> (db_tokens db)), None)
       | Some _, _, _ => (db, Some (constraint_violation "admin_refresh_tokens_pkey"))
       | _, None, _ => (db, Some (constraint_violation "admin_refresh_tokens_user_id_fkey"))
       | _, _, _ => (db, Some (constraint_violation "admin_refresh_tokens_token_hash_key"))
       end.

(** [src/db/gen/admin_users.sql.go:136-173] GetAdminRefreshTokenByHash *)
Definition GetAdminRefreshTokenByHash (db : AdminDb) (hash : bytes) : result error AdminSession :=
  match find_token db (λ r, bool_decide (tr_hash r = hash)) with
  | Some r =>
      match db_users db !! rt_UserID (tr_token r) with
      | Some u => Ok (mkAdminSession (tr_token r) (ur_user u))
      | None => Err pgx_ErrNoRows
      end
  | None => Err pgx_ErrNoRows
  end.

Definition revoke_token (at_ : time) (replacement : option uuid) (t : AdminRefreshToken)
    : AdminRefreshToken :=
  mkAdminRefreshToken (rt_ID t) (rt_UserID t) (rt_IssuedAt t) (rt_ExpiresAt t)
    (Some (pg_time at_)) replacement.
Definition map_token (f : AdminRefreshToken → AdminRefreshToken) (r : token_row) : token_row :=
  mkTokenRow (f (tr_token r)) (tr_hash r).

(** [src/db/gen/admin_users.sql.go:255-285] RevokeAdminRefreshToken *)
Definition Sql_RevokeAdminRefreshToken (db : AdminDb) (id : uuid) (at_ : time) (replacement : option uuid)
    : AdminDb * option error :=
  match db_tokens db !! id with
  | Some r =>
      if RefreshToken_Revoked (tr_token r) then (db, Some pgx_ErrNoRows)
      else if match replacement with
              | Some s => negb (bool_decide (is_Some (db_tokens db !! s)))
              | None => false
              end
      then (db, Some (constraint_violation "admin_refresh_tokens_replaced_by_fkey"))
      else (set_tokens db (<[id := map_token (revoke_token at_ replacement) r]> (db_tokens db)), None)
  | None => (db, Some pgx_ErrNoRows)
  end.

(** Of one person and not revoked. *)
Definition live_of (user : uuid) (r : token_row) : bool :=
  N.eqb (rt_UserID (tr_token r)) user && negb (RefreshToken_Revoked (tr_token r)).

(** [src/db/gen/admin_users.sql.go:287-300] RevokeAdminUserRefreshTokens

    [replaced_by] is left alone. *)
Definition revoke_if_live (user : uuid) (at_ : time) (r : token_row) : token_row :=
  if live_of user r then map_token (λ t, revoke_token at_ (rt_ReplacedBy t) t) r else r.
Definition Sql_RevokeAdminUserRefreshTokens (db : AdminDb) (user : uuid) (at_ : time) : AdminDb :=
  set_tokens db (revoke_if_live user at_ <$> db_tokens db).

(** [src/db/gen/admin_users.sql.go:90-107] DeleteExpiredAdminRefreshTokens

    Refused when a row that stays was replaced by one that would go. *)
Definition swept (user : uuid) (before : time) (r : token_row) : bool :=
  N.eqb (rt_UserID (tr_token r)) user && (rt_ExpiresAt (tr_token r) <? pg_time before).
Definition dangling (ts : gmap uuid token_row) (r : token_row) : bool :=
  match rt_ReplacedBy (tr_token r) with
  | Some s => bool_decide (ts !! s = None)
  | None => false
  end.
Definition Sql_DeleteExpiredAdminRefreshTokens (db : AdminDb) (user : uuid) (before : time)
    : AdminDb * option error :=
  let ts := filter (λ kr, swept user before kr.2 = false) (db_tokens db) in
  if existsb (dangling ts) ((map_to_list ts).*2)
  then (db, Some (constraint_violation "admin_refresh_tokens_replaced_by_fkey"))
  else (set_tokens db ts, None).

(** An audit row as it is stored. *)
Definition stored_audit (e : audit_row) : audit_row :=
  mkAuditEntry (ae_ID e) (pg_time (ae_At e)) (ae_TenantID e) (ae_KeyID e) (ae_Actor e)
    (ae_Action e) (ae_Detail e).

(** [src/internal/adapters/repositories/admin.go:272-294] insertAudit *)
Definition insertAudit (db : AdminDb) (e : audit_row) : AdminDb * option error :=
  if String.eqb (ae_Actor e) "" || String.eqb (ae_Action e) "" ||
     existsb (λ r, N.eqb (ae_ID r) (ae_ID e) && (ae_At r =? pg_time (ae_At e))) (db_audit db)
  then (db, Some (Errorf "postgres: audit %s: %w"
                    [AStr (ae_Action e); AWrap (constraint_violation "audit_log")]))
  else (set_audit db (db_audit db ++ [stored_audit e]), None).

(** ** Transactions *)

(** [src/internal/adapters/repositories/admin.go:80-89] found *)
Definition found (err : error) (what : string) : error :=
  if Is err pgx_ErrNoRows then ErrNotFound else Errorf "postgres: %s: %w" [AStr what; AWrap err].

(** [src/internal/adapters/repositories/admin_users.go:259-275] AdminUserRepo.inTx

    The body's state is kept only when it succeeds. *)
Definition inTx {A} (db : AdminDb) (fn : AdminDb → AdminDb * result error A) : AdminDb * result error A :=
  match fn db with (db', Ok a) => (db', Ok a) | (_, Err e) => (db, Err e) end.

(** Run a statement; give its error up wrapped. *)
Definition stmt {A} (r : AdminDb * option error) (wrap : error → error)
    (k : AdminDb → AdminDb * result error A) : AdminDb * result error A :=
  match r with (db, Some e) => (db, Err (wrap e)) | (db, None) => k db end.
Definition postgres (what : string) (e : error) : error :=
  Errorf "postgres: %s: %w" [AStr what; AWrap e].
Definition audited {A} (db : AdminDb) (e : audit_row) (a : A) : AdminDb * result error A :=
  stmt (insertAudit db e) id (λ db, (db, Ok a)).

Section Methods.
Implicit Types (db : AdminDb).

(** [src/internal/adapters/repositories/admin_users.go:31-34] AdminUserRepo.AdminUserByID *)
Definition AdminUserByID db (id : uuid) : result error AdminUser :=
  match GetAdminUserByID db id with Ok r => Ok (ur_user r) | Err e => Err (found e "get admin user") end.

(** [src/internal/adapters/repositories/admin_users.go:36-39] AdminUserRepo.AdminUserByEmail *)
Definition AdminUserByEmail db (email : string) : result error AdminUser :=
  match GetAdminUserByEmail db email with
  | Ok r => Ok (ur_user r) | Err e => Err (found e "get admin user") end.

(** [src/internal/adapters/repositories/admin_users.go:41-49] AdminUserRepo.AdminUserForLogin *)
Definition AdminUserForLogin db (email : string) : result error (AdminUser * string) :=
  match GetAdminUserByEmail db email with
  | Ok r => Ok (ur_user r, ur_hash r) | Err e => Err (found e "get admin user") end.

(** [src/internal/adapters/repositories/admin_users.go:51-61] AdminUserRepo.ListAdminUsers

    In some order of rows created at the same time. *)
Definition ListAdminUsers db : list AdminUser := map ur_user (all_users db).

(** [src/internal/adapters/repositories/admin_users.go:63-90] AdminUserRepo.CreateAdminUser *)
Definition CreateAdminUser db (now : time) (u : AdminUser) (hash : string) (e : audit_row)
    : AdminDb * result error AdminUser :=
  inTx db (λ db,
    match Sql_CreateAdminUser db now (au_ID u) (au_Email u) hash (au_Role u) (au_PasswordChangedAt u) with
    | (db, Err err) =>
        (db, Err (if Is err pgx_ErrNoRows
                  then Errorf "%w: admin user %q already exists" [AWrap ErrConflict; AStr (au_Email u)]
                  else postgres "create admin user" err))
    | (db, Ok row) => audited db e (ur_user row)
    end).

(** [src/internal/adapters/repositories/admin_users.go:92-122] AdminUserRepo.DisableAdminUser *)
Definition DisableAdminUser db (id : uuid) (at_ : time) (e : audit_row) : AdminDb * result error AdminUser :=
  inTx db (λ db,
    match Sql_DisableAdminUser db id at_ with
    | (db, Err err) =>
        if Is err pgx_ErrNoRows then (db, AdminUserByID db id)
        else (db, Err (postgres "disable admin user" err))
    | (db, Ok row) =>
        let db := Sql_RevokeAdminUserRefreshTokens db id at_ in
        audited db e (ur_user row)
    end).

(** [src/internal/adapters/repositories/admin_users.go:124-152] AdminUserRepo.SetAdminUserPassword *)
Definition SetAdminUserPassword db (id : uuid) (hash : string) (at_ : time) (e : audit_row)
    : AdminDb * result error AdminUser :=
  inTx db (λ db,
    match Sql_SetAdminUserPassword db id hash at_ with
    | (db, Err err) => (db, Err (found err "set admin user password"))
    | (db, Ok row) =>
        let db := Sql_RevokeAdminUserRefreshTokens db id at_ in
        audited db e (ur_user row)
    end).

(** [src/internal/adapters/repositories/admin_users.go:245-257] insertSession *)
Definition insertSession {A} db (s : NewAdminSession) (k : AdminDb → AdminDb * result error A)
    : AdminDb * result error A :=
  stmt (Sql_CreateAdminRefreshToken db s) (postgres "create admin session") k.

(** [src/internal/adapters/repositories/admin_users.go:154-173] AdminUserRepo.StartAdminSession *)
Definition StartAdminSession db (s : NewAdminSession) (e : audit_row) : AdminDb * result error unit :=
  inTx db (λ db,
    stmt (Sql_DeleteExpiredAdminRefreshTokens db (ns_UserID s) (ns_IssuedAt s))
      (postgres "sweep admin sessions") (λ db,
    insertSession db s (λ db,
    let db := Sql_TouchAdminUserLogin db (ns_UserID s) (ns_IssuedAt s) in
    audited db e tt))).

(** [src/internal/adapters/repositories/admin_users.go:175-186] AdminUserRepo.AdminSessionByTokenHash *)
Definition AdminSessionByTokenHash db (hash : bytes) : result error AdminSession :=
  match GetAdminRefreshTokenByHash db hash with
  | Ok s => Ok s | Err e => Err (found e "get admin session") end.

(** [src/internal/adapters/repositories/admin_users.go:188-211] AdminUserRepo.RotateAdminSession *)
Definition RotateAdminSession db (presented : uuid) (s : NewAdminSession) : AdminDb * result error unit :=
  inTx db (λ db,
    insertSession db s (λ db,
    stmt (Sql_RevokeAdminRefreshToken db presented (ns_IssuedAt s) (Some (ns_ID s)))
      (λ err, if Is err pgx_ErrNoRows
              then Errorf "%w: admin refresh token already revoked" [AWrap ErrConflict]
              else postgres "rotate admin session" err)
      (λ db, (db, Ok tt)))).

(** [src/internal/adapters/repositories/admin_users.go:213-226] AdminUserRepo.EndAdminSession *)
Definition EndAdminSession db (id : uuid) (at_ : time) (e : audit_row) : AdminDb * result error unit :=
  inTx db (λ db,
    match Sql_RevokeAdminRefreshToken db id at_ None with
    | (db, Some err) => if Is err pgx_ErrNoRows then (db, Ok tt)
                        else (db, Err (postgres "end admin session" err))
    | (db, None) => audited db e tt
    end).

(** [src/internal/adapters/repositories/admin_users.go:228-239] AdminUserRepo.RevokeAdminSessions *)
Definition RevokeAdminSessions db (user : uuid) (at_ : time) (e : audit_row) : AdminDb * result error unit :=
  inTx db (λ db, audited (Sql_RevokeAdminUserRefreshTokens db user at_) e tt).

(** [src/internal/adapters/repositories/admin_users.go:241-243] AdminUserRepo.WriteAudit *)
Definition WriteAudit db (e : audit_row) : AdminDb * result error unit := audited db e tt.
End Methods.
