(* ===== verification/Users.v ===== *)
(** Logging people in and out: [internal/usecases/admin/users.go].

    Each method is a program of actions on the world it shares with the others: the store,
    the throttle, the clock, the id and random generators. The repository's transactions and
    the throttle's methods are atomic; everything between two actions may interleave. *)
From Stdlib Require Import Ascii.
From stdpp Require Import gmap infinite.
From S2P Require Import Prelude Errors Bytes Utf8 Password Accounts Tokens Email Throttle Programs AdminDb.

(** ** Data *)

(** [src/internal/ports/admin_users.go:105-113] NewAdminUser *)
Record NewAdminUser := mkNewAdminUser { nu_Email : string; nu_Role : Role; nu_Password : string }.

(** [src/internal/ports/admin_users.go:115-120] CreatedAdminUser *)
Record CreatedAdminUser := mkCreatedAdminUser { cu_User : AdminUser; cu_Password : string }.

(** [src/internal/ports/admin_users.go:122-132] Credentials *)
Record Credentials := mkCredentials { cr_Email : string; cr_Password : string; cr_ClientIP : string }.

(** [src/internal/usecases/admin/users.go:20-21] RefreshTokenPrefix, DefaultRefreshTTL *)
Definition RefreshTokenPrefix : string := "gr_refresh_".
Definition DefaultRefreshTTL : duration := 30 * 24 * Hour.

(** ** Actions *)

Inductive user_action :=
| ANow | ANewID | ARandom
| AHash (plain : bytes) | AVerify (encoded : string) (plain : bytes)
| ABlocked (key : string) (now : time) | AFail (key : string) (now : time) | ASucceed (key : string)
| AUserForLogin (email : string) | AUserByEmail (email : string) | AListUsers
| ACreateUser (u : AdminUser) (hash : string) (e : audit_row)
| ADisableUser (id : uuid) (at_ : time) (e : audit_row)
| ASetPassword (id : uuid) (hash : string) (at_ : time) (e : audit_row)
| AStartSession (s : NewAdminSession) (e : audit_row)
| ASessionByHash (hash : bytes)
| ARotateSession (presented : uuid) (s : NewAdminSession)
| AEndSession (id : uuid) (at_ : time) (e : audit_row)
| ARevokeSessions (user : uuid) (at_ : time) (e : audit_row)
| AWriteAudit (e : audit_row).

#[export] Instance user_interface : Interface user_action := {
  answer a :=
    match a with
    | ANow => time
    | ANewID => result error uuid
    | ARandom => result error bytes
    | AHash _ => result error string
    | AVerify _ _ => option error
    | ABlocked _ _ => bool
    | AFail _ _ | ASucceed _ => unit
    | AUserForLogin _ => result error (AdminUser * string)
    | AUserByEmail _ => result error AdminUser
    | AListUsers => result error (list AdminUser)
    | ACreateUser _ _ _ | ADisableUser _ _ _ | ASetPassword _ _ _ _ => result error AdminUser
    | ASessionByHash _ => result error AdminSession
    | AStartSession _ _ | ARotateSession _ _ | AEndSession _ _ _ | ARevokeSessions _ _ _
    | AWriteAudit _ => result error unit
    end;
}.

Notation uprog := (prog user_action).

(** [src/internal/usecases/admin/service.go:97-103] newID *)
Definition newID : uprog (result error uuid) :=
  wrap_error (λ e, Errorf "admin: new id: %w" [AWrap e]) (call ANewID).

Section Users.
Context `{Jwt} (sha256 : bytes → bytes) (dummy : string).

(** [src/internal/ports/admin_users.go:153-160] AdminSessionTokens *)
Record AdminSessionTokens := mkAdminSessionTokens {
  st_AccessToken : token;
  st_ExpiresAt : time;
  st_RefreshToken : string;
  st_User : AdminUser;
}.

(** The clock, the random source, the store and the throttle are the world's.

    [src/internal/usecases/admin/users.go:23-32] Users *)
Record Users := mkUsers { us_issuer : option Issuer; us_refreshTTL : duration }.

(** [src/internal/usecases/admin/users.go:36-56] NewUsers *)
Definition NewUsers (issuer : option Issuer) (refreshTTL : duration) : Users :=
  mkUsers issuer (if refreshTTL <=? 0 then DefaultRefreshTTL else refreshTTL).

Implicit Types (u : Users).

(** [src/internal/usecases/admin/users.go:382-384] userDetail *)
Definition userDetail (u : AdminUser) : user_detail := adminUserDetail (au_ID u) (au_Email u) (au_Role u).

(** [src/internal/usecases/admin/users.go:370-380] Users.auditEntry

    These details always encode. *)
Definition auditEntry (actor action : string) (detail : user_detail) : uprog (result error audit_row) :=
  try id <- wrap_error (λ e, Errorf "admin: audit id: %w" [AWrap e]) (call ANewID);
  do now <- call ANow;
  Ret (Ok (mkAuditEntry id now None None actor action detail)).

(** [src/internal/usecases/admin/users.go:348-358] Users.auditLoginFailure

    A failure to write it is only logged. *)
Definition auditLoginFailure (email clientIP reason : string) : uprog unit :=
  do _ <- (try entry <- auditEntry ("user:" +:+ email) "user.login_failed"
                          (loginFailureDetail email clientIP reason);
           call (AWriteAudit entry));
  Ret tt.

(** [src/internal/usecases/admin/users.go:360-368] Users.auditSessionReuse *)
Definition auditSessionReuse (session : AdminSession) (now : time) : uprog unit :=
  do _ <- (try entry <- auditEntry (AdminUser_Actor (as_User session)) "user.refresh_reuse"
                          (userDetail (as_User session));
           call (ARevokeSessions (au_ID (as_User session)) now entry));
  Ret tt.

(** [src/internal/usecases/admin/users.go:340-346] Users.byEmail *)
Definition byEmail (email : string) : uprog (result error AdminUser) :=
  wrap_error (λ e, if Is e ErrNotFound
                   then Errorf "%w: admin user %q" [AWrap ErrNotFound; AStr email] else e)
    (call (AUserByEmail (NormaliseEmail email))).

(** [src/internal/usecases/admin/users.go:154-178] Users.choosePassword *)
Definition choosePassword (supplied email : string) : uprog (result error (string * string)) :=
  if String.eqb supplied ""
  then do b <- call ARandom;
       Ret (let! m := Mint sha256 "" b in Ok (Secret m, Secret m))
  else Ret (match Check_password (lit supplied) (lit email) with
            | Some policy => Err (invalid "password %s" [AStr (Rule policy)])
            | None => Ok (supplied, "")
            end).

(** [src/internal/usecases/admin/users.go:58-98] Users.Create *)
Definition Create u (w : Write) (spec : NewAdminUser) : uprog (result error CreatedAdminUser) :=
  let email := NormaliseEmail (nu_Email spec) in
  match ValidateEmail email with
  | Some err => Ret (Err (invalid "%s" match Unwrap err with Some e => [AErr e] | None => [] end))
  | None =>
      if negb (Role_Valid (nu_Role spec))
      then Ret (Err (invalid "role must be admin or readonly, got %q" [AStr (nu_Role spec)]))
      else
        try (plain, generated) <- choosePassword (nu_Password spec) email;
        try hash <- wrap_error (λ e, Errorf "admin: hash password: %w" [AWrap e]) (call (AHash (lit plain)));
        try id <- newID;
        do now <- call ANow;
        let user := mkAdminUser id email (nu_Role spec) zero_time None None now in
        try entry <- auditEntry (w_Actor w) "user.create" (userDetail user);
        try user <- call (ACreateUser user hash entry);
        Ret (Ok (mkCreatedAdminUser user generated))
  end.

(** [src/internal/usecases/admin/users.go:100-102] Users.List *)
Definition List_users : uprog (result error (list AdminUser)) := call AListUsers.

(** [src/internal/usecases/admin/users.go:104-120] Users.Disable *)
Definition Disable (w : Write) (email : string) : uprog (result error AdminUser) :=
  try user <- byEmail email;
  if AdminUser_Disabled user then Ret (Ok user)
  else try entry <- auditEntry (w_Actor w) "user.disable" (userDetail user);
       do now <- call ANow;
       call (ADisableUser (au_ID user) now entry).

(** [src/internal/usecases/admin/users.go:122-152] Users.SetPassword *)
Definition SetPassword (w : Write) (email plain : string) : uprog (result error CreatedAdminUser) :=
  try user <- byEmail email;
  try (plain, generated) <- choosePassword plain (au_Email user);
  try hash <- wrap_error (λ e, Errorf "admin: hash password: %w" [AWrap e]) (call (AHash (lit plain)));
  try entry <- auditEntry (w_Actor w) "user.password_change" (userDetail user);
  do now <- call ANow;
  try user <- call (ASetPassword (au_ID user) hash now entry);
  Ret (Ok (mkCreatedAdminUser user generated)).

(** [src/internal/usecases/admin/users.go:309-318] Users.issue *)
Definition issue u (user : AdminUser) : uprog (result error (token * time)) :=
  match us_issuer u with
  | None => Ret (Err (Sentinel "admin: no access token issuer configured"))
  | Some i =>
      do jti <- call ANewID;
      match jti with
      | Err _ => Ret (let! (access, claims) := Issue i jti 0 user in Ok (access, cl_Expiry claims))
      | Ok _ =>
          do now <- call ANow;
          Ret (let! (access, claims) := Issue i jti now user in Ok (access, cl_Expiry claims))
      end
  end.

(** [src/internal/usecases/admin/users.go:320-338] Users.mintSession *)
Definition mintSession u (userID : uuid) (now : time) : uprog (result error (MintedSecret * NewAdminSession)) :=
  try minted <- (do b <- call ARandom; Ret (Mint sha256 RefreshTokenPrefix b));
  try id <- newID;
  Ret (Ok (minted, mkNewAdminSession id userID (Secret_Hash minted) now (Add now (us_refreshTTL u)))).

(** [src/internal/usecases/admin/users.go:283-307] Users.startSession *)
Definition startSession u (user : AdminUser) (now : time) : uprog (result error AdminSessionTokens) :=
  try (access, expiry) <- issue u user;
  try (minted, session) <- mintSession u (au_ID user) now;
  try entry <- auditEntry (AdminUser_Actor user) "user.login" (userDetail user);
  try _ <- call (AStartSession session entry);
  Ret (Ok (mkAdminSessionTokens access expiry (Secret minted) user)).

Definition zero_AdminUser : AdminUser := mkAdminUser uuid_Nil "" "" zero_time None None zero_time.

(** The throttle's key: the address and the client, with a NUL between. *)
Definition throttle_key (email clientIP : string) : string := email +:+ String "000" clientIP.

(** [src/internal/usecases/admin/users.go:197-199] a refused attempt *)
Definition refuse (key : string) (now : time) (email clientIP reason : string)
    : uprog (result error AdminSessionTokens) :=
  do _ <- call (AFail key now);
  do _ <- auditLoginFailure email clientIP reason;
  Ret (Err ErrUnauthenticated).

(** [src/internal/usecases/admin/users.go:209-217] the password check of Login *)
Definition check_password u (key : string) (now : time) (email : string) (c : Credentials)
    (user : AdminUser) (hash : string) : uprog (result error AdminSessionTokens) :=
  do bad <- call (AVerify hash (lit (cr_Password c)));
  if bool_decide (is_Some bad) || N.eqb (au_ID user) uuid_Nil || AdminUser_Disabled user
  then refuse key now email (cr_ClientIP c) "invalid_credentials"
  else do _ <- call (ASucceed key);
       startSession u user now.

(** [src/internal/usecases/admin/users.go:180-218] Users.Login *)
Definition Login u (c : Credentials) : uprog (result error AdminSessionTokens) :=
  let email := NormaliseEmail (cr_Email c) in
  do now <- call ANow;
  let key := throttle_key email (cr_ClientIP c) in
  do blocked <- call (ABlocked key now);
  if blocked : bool
  then do _ <- auditLoginFailure email (cr_ClientIP c) "throttled";
       Ret (Err ErrUnauthenticated)
  else if TooLong (lit (cr_Password c))
  then refuse key now email (cr_ClientIP c) "password_over_cap"
  else
    do found <- call (AUserForLogin email);
    match found with
    | Ok (user, hash) => check_password u key now email c user hash
    | Err err =>
        if Is err ErrNotFound
        then check_password u key now email c zero_AdminUser dummy
        else Ret (Err err)
    end.

(** [src/internal/usecases/admin/users.go:220-261] Users.Refresh *)
Definition Refresh u (refreshToken : string) : uprog (result error AdminSessionTokens) :=
  do now <- call ANow;
  do found <- call (ASessionByHash (hashSecret sha256 refreshToken));
  match found with
  | Err err => Ret (Err (if Is err ErrNotFound then ErrUnauthenticated else err))
  | Ok session =>
      if RefreshToken_Revoked (as_Token session)
      then do _ <- auditSessionReuse session now; Ret (Err ErrUnauthenticated)
      else if RefreshToken_Expired (as_Token session) now || AdminUser_Disabled (as_User session)
      then Ret (Err ErrUnauthenticated)
      else
        try (access, expiry) <- issue u (as_User session);
        try (minted, next) <- mintSession u (au_ID (as_User session)) now;
        do rotated <- call (ARotateSession (rt_ID (as_Token session)) next);
        match rotated with
        | Err err =>
            if Is err ErrConflict
            then do _ <- auditSessionReuse session now; Ret (Err ErrUnauthenticated)
            else Ret (Err err)
        | Ok _ => Ret (Ok (mkAdminSessionTokens access expiry (Secret minted) (as_User session)))
        end
  end.

(** [src/internal/usecases/admin/users.go:263-281] Users.Logout *)
Definition Logout (actor refreshToken : string) : uprog (result error unit) :=
  do found <- call (ASessionByHash (hashSecret sha256 refreshToken));
  match found with
  | Err err => Ret (if Is err ErrNotFound then Ok tt else Err err)
  | Ok session =>
      let actor := if String.eqb actor "" then AdminUser_Actor (as_User session) else actor in
      try entry <- auditEntry actor "user.logout" (userDetail (as_User session));
      do now <- call ANow;
      call (AEndSession (rt_ID (as_Token session)) now entry)
  end.
End Users.
