(* ===== verification/UserWorld.v ===== *)
(** The world the programs of [Users] run in, and what every action keeps true of its store. *)
From Stdlib Require Import Ascii.
From stdpp Require Import gmap infinite.
From S2P Require Import Prelude Errors Bytes Password Accounts Tokens Email Throttle Programs Env AdminDb Users.

(** ** The world *)

Record user_world := mkUserWorld {
  uw_db : AdminDb;
  uw_throttle : throttle;
  uw_ids : gset uuid;  (** every id handed out *)
}.

Definition with_db (w : user_world) (db : AdminDb) := mkUserWorld db (uw_throttle w) (uw_ids w).
Definition with_throttle (w : user_world) (t : throttle) := mkUserWorld (uw_db w) t (uw_ids w).

Definition reading {A} (ch : moment) (w : user_world) (r : result error A) : user_world * result error A :=
  (w, match mo_fault ch with Fine => r | _ => Err ErrDatabase end).
Definition writing {A} (ch : moment) (w : user_world) (r : AdminDb * result error A)
    : user_world * result error A :=
  match mo_fault ch with
  | Fine => (with_db w r.1, r.2)
  | Refused => (w, Err ErrDatabase)
  | Lost => (with_db w r.1, Err ErrDatabase)
  end.

Definition new_uuid (w : user_world) (r : result error uuid) : user_world * result error uuid :=
  let '(ids, r) := hand_out (uw_ids w) r in (mkUserWorld (uw_db w) (uw_throttle w) ids, r).

Section World.
Context (IDKey : bytes → bytes → Z → Z → Z → Z → bytes).

Definition perform (ch : moment) (a : user_action) (w : user_world) : user_world * answer a :=
  let db := uw_db w in
  match a return user_world * answer a with
  | ANow => (w, mo_now ch)
  | ANewID => new_uuid w (mo_id ch)
  | ARandom => (w, read_full 32 (mo_random ch))
  | AHash plain => (w, Hash IDKey (read_full saltLength (mo_random ch)) plain)
  | AVerify encoded plain => (w, Verify IDKey encoded plain)
  | ABlocked key now => (w, blocked (uw_throttle w) key now)
  | AFail key now => (with_throttle w (throttle_fail (uw_throttle w) key now), tt)
  | ASucceed key => (with_throttle w (succeed (uw_throttle w) key), tt)
  | AUserForLogin email => reading ch w (AdminUserForLogin db email)
  | AUserByEmail email => reading ch w (AdminUserByEmail db email)
  | AListUsers => reading ch w (Ok (ListAdminUsers db))
  | ASessionByHash hash => reading ch w (AdminSessionByTokenHash db hash)
  | ACreateUser u hash e => writing ch w (CreateAdminUser db (mo_now ch) u hash e)
  | ADisableUser id at_ e => writing ch w (DisableAdminUser db id at_ e)
  | ASetPassword id hash at_ e => writing ch w (SetAdminUserPassword db id hash at_ e)
  | AStartSession s e => writing ch w (StartAdminSession db s e)
  | ARotateSession presented s => writing ch w (RotateAdminSession db presented s)
  | AEndSession id at_ e => writing ch w (EndAdminSession db id at_ e)
  | ARevokeSessions user at_ e => writing ch w (RevokeAdminSessions db user at_ e)
  | AWriteAudit e => writing ch w (WriteAudit db e)
  end.
End World.

(** ** Relations between stores

    What a transaction makes of a store holds of the store it leaves, whether it succeeds or
    is rolled back, once it holds of each of its statements. *)
Section Transactions.
Context (R : relation AdminDb) `{!PreOrder R}.
Hypothesis R_users : ∀ db id r f, db_users db !! id = Some r →
  (∀ u, au_ID (f u) = au_ID u ∧ au_Email (f u) = au_Email u ∧ au_Role (f u) = au_Role u ∧
        (AdminUser_Disabled u = true → AdminUser_Disabled (f u) = true)) →
  ∀ hash, hash = ur_hash r ∨ hash ≠ "" → R db (set_users db (<[id := mkUserRow (f (ur_user r)) hash]> (db_users db))).
Hypothesis R_create : ∀ db now id email hash role changed r db',
  Sql_CreateAdminUser db now id email hash role changed = (db', Ok r) → R db db'.
Hypothesis R_token : ∀ db s db', Sql_CreateAdminRefreshToken db s = (db', None) → R db db'.
Hypothesis R_revoke : ∀ db id at_ db', Sql_RevokeAdminRefreshToken db id at_ None = (db', None) → R db db'.
Hypothesis R_rotate : ∀ db s db' id at_ db'', Sql_CreateAdminRefreshToken db s = (db', None) →
  Sql_RevokeAdminRefreshToken db' id at_ (Some (ns_ID s)) = (db'', None) → R db db''.
Hypothesis R_revoke_all : ∀ db u at_, R db (Sql_RevokeAdminUserRefreshTokens db u at_).
Hypothesis R_sweep : ∀ db u before db', Sql_DeleteExpiredAdminRefreshTokens db u before = (db', None) → R db db'.
Hypothesis R_audit : ∀ db e db', insertAudit db e = (db', None) → R db db'.

(** A transaction body relates its start to its end when it succeeds. *)
Definition keeps {A} (db0 : AdminDb) (p : AdminDb * result error A) : Prop :=
  ∀ a, p.2 = Ok a → R db0 p.1.

Lemma inTx_R {A} db (f : AdminDb → AdminDb * result error A) : keeps db (f db) → R db (inTx db f).1.
Proof. unfold inTx, keeps. destruct (f db) as [db' [a|e]]; simpl; [eauto|intros; reflexivity]. Qed.

Lemma keeps_stmt {A} db0 (r : AdminDb * option error) wrap (k : AdminDb → AdminDb * result error A) :
  (r.2 = None → R db0 r.1 ∧ keeps db0 (k r.1)) → keeps db0 (stmt r wrap k).
Proof. unfold stmt, keeps. destruct r as [db [e|]]; simpl; [done|]. intros H. by apply H. Qed.

Lemma keeps_audited {A} db0 db e (a : A) : R db0 db → keeps db0 (audited db e a).
Proof.
  intros HR. apply keeps_stmt. intros E. destruct (insertAudit db e) as [db' o] eqn:Ei. simpl in *. subst o.
  assert (R db0 db') by (trans db; [done|by eapply R_audit]). split; [done|]. by intros ? _.
Qed.

Lemma keeps_insertSession {A} db0 db s (k : AdminDb → AdminDb * result error A) :
  R db0 db → (∀ db', Sql_CreateAdminRefreshToken db s = (db', None) → R db0 db' → keeps db0 (k db')) →
  keeps db0 (insertSession db s k).
Proof.
  intros HR Hk. apply keeps_stmt. intros E. destruct (Sql_CreateAdminRefreshToken db s) as [db' o] eqn:Ei.
  simpl in *. subst o. assert (R db0 db') by (trans db; [done|by eapply R_token]). split; [done|]. by apply Hk.
Qed.

Lemma touch_R db id at_ : R db (Sql_TouchAdminUserLogin db id at_).
Proof.
  unfold Sql_TouchAdminUserLogin. destruct (db_users db !! id) as [r|] eqn:E; [|reflexivity].
  apply (R_users db id r (touch_login at_)); [done|done|by left].
Qed.

Lemma CreateAdminUser_R db now u hash e : R db (CreateAdminUser db now u hash e).1.
Proof.
  apply inTx_R. destruct (Sql_CreateAdminUser _ _ _ _ _ _ _) as [db' [r|err]] eqn:E; [|by intros ?].
  apply keeps_audited. by eapply R_create.
Qed.

Lemma DisableAdminUser_R db id at_ e : R db (DisableAdminUser db id at_ e).1.
Proof.
  apply inTx_R. unfold Sql_DisableAdminUser. destruct (db_users db !! id) as [r|] eqn:E.
  2: { destruct (Is _ _); intros ?; simpl; [intros _; reflexivity|done]. }
  destruct (AdminUser_Disabled (ur_user r)) eqn:Ed.
  { destruct (Is _ _); intros ?; simpl; [intros _; reflexivity|done]. }
  apply keeps_audited. trans (set_users db (<[id:=map_user (disable_user at_) r]> (db_users db)));
    [|apply R_revoke_all].
  apply (R_users db id r (disable_user at_)); [done|done|by left].
Qed.

Lemma SetAdminUserPassword_R db id hash at_ e : R db (SetAdminUserPassword db id hash at_ e).1.
Proof.
  apply inTx_R. unfold Sql_SetAdminUserPassword. destruct (db_users db !! id) as [r|] eqn:E; [|by intros ?].
  destruct (String.eqb_spec hash ""); [by intros ?|].
  apply keeps_audited. etrans; [|apply R_revoke_all].
  apply (R_users db id r (change_password at_)); [done|done|by right].
Qed.

Lemma StartAdminSession_R db s e : R db (StartAdminSession db s e).1.
Proof.
  apply inTx_R. apply keeps_stmt. intros E.
  destruct (Sql_DeleteExpiredAdminRefreshTokens _ _ _) as [db1 o] eqn:Ed. simpl in *. subst o.
  assert (R db db1) by by eapply R_sweep. split; [done|].
  apply keeps_insertSession; [done|]. intros db2 _ Hdb2. apply keeps_audited.
  trans db2; [done|apply touch_R].
Qed.

Lemma RotateAdminSession_R db id s : R db (RotateAdminSession db id s).1.
Proof.
  apply inTx_R. apply keeps_insertSession; [reflexivity|]. intros db1 Hc Hdb1.
  apply keeps_stmt. intros E. destruct (Sql_RevokeAdminRefreshToken _ _ _ _) as [db2 o] eqn:Er.
  simpl in *. subst o. assert (R db db2) by by eapply R_rotate.
  split; [done|]. by intros ? _.
Qed.

Lemma EndAdminSession_R db id at_ e : R db (EndAdminSession db id at_ e).1.
Proof.
  apply inTx_R. destruct (Sql_RevokeAdminRefreshToken _ _ _ _) as [db1 [err|]] eqn:Er.
  - assert (db1 = db) as ->.
    { unfold Sql_RevokeAdminRefreshToken in Er. repeat case_match; by simplify_eq. }
    destruct (Is _ _); intros ?; simpl; [intros _; reflexivity|done].
  - apply keeps_audited. by eapply R_revoke.
Qed.

Lemma RevokeAdminSessions_R db u at_ e : R db (RevokeAdminSessions db u at_ e).1.
Proof. apply inTx_R, keeps_audited, R_revoke_all. Qed.

Lemma WriteAudit_R db e : R db (WriteAudit db e).1.
Proof.
  unfold WriteAudit, audited, stmt. destruct (insertAudit db e) as [db' [err|]] eqn:E; simpl.
  - unfold insertAudit in E. case_match; simplify_eq; reflexivity.
  - by eapply R_audit.
Qed.

Lemma writing_R {A} ch w (r : AdminDb * result error A) : R (uw_db w) r.1 → R (uw_db w) (uw_db (writing ch w r).1).
Proof. unfold writing. destruct (mo_fault ch); simpl; [done|reflexivity|done]. Qed.

(** Every action stays within the relation. *)
Lemma perform_R IDKey ch a w : R (uw_db w) (uw_db (perform IDKey ch a w).1).
Proof.
  destruct a; simpl; try reflexivity; try apply writing_R.
  - unfold new_uuid, hand_out. destruct (mo_id ch); simpl; reflexivity.
  - apply CreateAdminUser_R.
  - apply DisableAdminUser_R.
  - apply SetAdminUserPassword_R.
  - apply StartAdminSession_R.
  - apply RotateAdminSession_R.
  - apply EndAdminSession_R.
  - apply RevokeAdminSessions_R.
  - apply WriteAudit_R.
Qed.
End Transactions.

(** ** Well-formed stores *)

Record db_wf (db : AdminDb) : Prop := {
  wf_user id r : db_users db !! id = Some r →
    au_ID (ur_user r) = id ∧ au_Email (ur_user r) ≠ "" ∧
    ToLower (au_Email (ur_user r)) = au_Email (ur_user r) ∧
    Role_Valid (au_Role (ur_user r)) = true ∧ ur_hash r ≠ "";
  wf_email id id' r r' : db_users db !! id = Some r → db_users db !! id' = Some r' →
    au_Email (ur_user r) = au_Email (ur_user r') → id = id';
  wf_token id r : db_tokens db !! id = Some r →
    rt_ID (tr_token r) = id ∧ is_Some (db_users db !! rt_UserID (tr_token r)) ∧
    length (tr_hash r) = 32%nat ∧ rt_IssuedAt (tr_token r) < rt_ExpiresAt (tr_token r);
  wf_hash id id' r r' : db_tokens db !! id = Some r → db_tokens db !! id' = Some r' →
    tr_hash r = tr_hash r' → id = id';
  wf_replaced id r s : db_tokens db !! id = Some r → rt_ReplacedBy (tr_token r) = Some s →
    RefreshToken_Revoked (tr_token r) = true ∧ is_Some (db_tokens db !! s);
  wf_chain id id' r r' s : db_tokens db !! id = Some r → db_tokens db !! id' = Some r' →
    rt_ReplacedBy (tr_token r) = Some s → rt_ReplacedBy (tr_token r') = Some s → id = id';
}.

Lemma empty_wf : db_wf empty_db.
Proof. split; simpl; intros; by rewrite lookup_empty in *. Qed.

Lemma find_user_Some db p r : find_user db p = Some r → p r = true ∧ ∃ id, db_users db !! id = Some r.
Proof.
  intros Hf. apply find_some in Hf as [Hin Hp]. split; [done|].
  apply list_elem_of_In, list_elem_of_fmap in Hin as ([id r'] & -> & Hin).
  exists id. by apply elem_of_map_to_list.
Qed.
Lemma find_user_None db p id r : find_user db p = None → db_users db !! id = Some r → p r = false.
Proof.
  intros Hf Hr. eapply find_none; [exact Hf|]. apply list_elem_of_In, list_elem_of_fmap.
  exists (id, r). split; [done|]. by apply elem_of_map_to_list.
Qed.
Lemma find_token_Some db p r : find_token db p = Some r → p r = true ∧ ∃ id, db_tokens db !! id = Some r.
Proof.
  intros Hf. apply find_some in Hf as [Hin Hp]. split; [done|].
  apply list_elem_of_In, list_elem_of_fmap in Hin as ([id r'] & -> & Hin).
  exists id. by apply elem_of_map_to_list.
Qed.
Lemma find_token_None db p id r : find_token db p = None → db_tokens db !! id = Some r → p r = false.
Proof.
  intros Hf Hr. eapply find_none; [exact Hf|]. apply list_elem_of_In, list_elem_of_fmap.
  exists (id, r). split; [done|]. by apply elem_of_map_to_list.
Qed.

Definition keeps_wf (db db' : AdminDb) : Prop := db_wf db → db_wf db'.

#[export] Instance keeps_wf_preorder : PreOrder keeps_wf.
Proof. split; [by intros ? ?|intros a b c Hab Hbc Ha; by apply Hbc, Hab]. Qed.

(** Changing one row of one table. *)
Lemma users_wf db us :
  (∀ id r, us !! id = Some r →
    au_ID (ur_user r) = id ∧ au_Email (ur_user r) ≠ "" ∧
    ToLower (au_Email (ur_user r)) = au_Email (ur_user r) ∧
    Role_Valid (au_Role (ur_user r)) = true ∧ ur_hash r ≠ "") →
  (∀ id id' r r', us !! id = Some r → us !! id' = Some r' →
    au_Email (ur_user r) = au_Email (ur_user r') → id = id') →
  (∀ id, is_Some (db_users db !! id) → is_Some (us !! id)) →
  keeps_wf db (set_users db us).
Proof.
  intros H1 H2 H3 [_ _ Ht Hh Hr Hc]. split; simpl; eauto.
  intros id r Hid. destruct (Ht id r Hid) as (? & ? & ? & ?). eauto.
Qed.

Lemma update_user_wf db id r f hash :
  db_users db !! id = Some r →
  (∀ u, au_ID (f u) = au_ID u ∧ au_Email (f u) = au_Email u ∧ au_Role (f u) = au_Role u ∧
        (AdminUser_Disabled u = true → AdminUser_Disabled (f u) = true)) →
  hash = ur_hash r ∨ hash ≠ "" →
  keeps_wf db (set_users db (<[id := mkUserRow (f (ur_user r)) hash]> (db_users db))).
Proof.
  intros Hid Hf Hh Hwf. destruct (Hf (ur_user r)) as (Ei & Ee & Er & _).
  assert (Hkey : ∀ k q, <[id := mkUserRow (f (ur_user r)) hash]> (db_users db) !! k = Some q →
    ∃ q', db_users db !! k = Some q' ∧ au_ID (ur_user q) = au_ID (ur_user q') ∧
      au_Email (ur_user q) = au_Email (ur_user q') ∧ au_Role (ur_user q) = au_Role (ur_user q') ∧
      (ur_hash q' ≠ "" → ur_hash q ≠ "")).
  { intros k q. destruct (decide (id = k)) as [<-|Hne].
    - rewrite lookup_insert_eq. intros [= <-]. exists r. simpl. split_and!; try done. destruct Hh; congruence.
    - rewrite lookup_insert_ne by done. intros Hq. by exists q. }
  apply users_wf; [| | |done].
  - intros k q Hq. destruct (Hkey k q Hq) as (q' & Hq' & -> & -> & -> & ?).
    destruct (wf_user db Hwf k q' Hq') as (? & ? & ? & ? & ?). split_and!; auto.
  - intros k k' q q' Hq Hq' He. destruct (Hkey k q Hq) as (p & Hp & _ & E1 & _).
    destruct (Hkey k' q' Hq') as (p' & Hp' & _ & E2 & _).
    eapply (wf_email db Hwf); [exact Hp|exact Hp'|congruence].
  - intros k Hk. destruct (decide (id = k)) as [<-|Hne]; [rewrite lookup_insert_eq; eauto|].
    by rewrite lookup_insert_ne.
Qed.

Lemma create_user_wf db now id email hash role changed r db' :
  Sql_CreateAdminUser db now id email hash role changed = (db', Ok r) → keeps_wf db db'.
Proof.
  unfold Sql_CreateAdminUser. destruct (_ || _) eqn:Ec; [done|].
  destruct (is_ok _) eqn:Ee; [done|]. destruct (db_users db !! id) eqn:Ei; [done|].
  intros [= <- <-] Hwf. bool_prop.
  assert (Hfree : ∀ k q, db_users db !! k = Some q → au_Email (ur_user q) ≠ email).
  { intros k q Hq He. unfold GetAdminUserByEmail in Ee. destruct (find_user _ _) eqn:Ef; [done|].
    eapply find_user_None in Hq; [|exact Ef]. cbv beta in Hq. by rewrite He, String.eqb_refl in Hq. }
  apply users_wf; [| | |done]; simpl.
  - intros k q. destruct (decide (id = k)) as [<-|Hne].
    + rewrite lookup_insert_eq. intros [= <-]. simpl. by split_and!.
    + rewrite lookup_insert_ne by done. apply Hwf.
  - intros k k' q q'. destruct (decide (id = k)) as [<-|Hne], (decide (id = k')) as [<-|Hne'];
      rewrite ?lookup_insert_eq, ?lookup_insert_ne by done; [done| | |by apply Hwf].
    + intros [= <-] Hq' He. by destruct (Hfree k' q' Hq').
    + intros Hq [= <-] He. by destruct (Hfree k q Hq).
  - intros k Hk. destruct (decide (id = k)) as [<-|Hne]; [rewrite lookup_insert_eq; eauto|].
    by rewrite lookup_insert_ne.
Qed.

(** Tokens changed in place: same owner, same times, same hash; revoked if they were. *)
Definition same_session (r r' : token_row) : Prop :=
  rt_ID (tr_token r') = rt_ID (tr_token r) ∧ rt_UserID (tr_token r') = rt_UserID (tr_token r) ∧
  rt_IssuedAt (tr_token r') = rt_IssuedAt (tr_token r) ∧
  rt_ExpiresAt (tr_token r') = rt_ExpiresAt (tr_token r) ∧ tr_hash r' = tr_hash r ∧
  (RefreshToken_Revoked (tr_token r) = true → RefreshToken_Revoked (tr_token r') = true).

Lemma revoke_session at_ s r : same_session r (map_token (revoke_token at_ s) r).
Proof. by split_and!. Qed.

Lemma tokens_wf db ts :
  (∀ id r', ts !! id = Some r' → ∃ r, db_tokens db !! id = Some r ∧ same_session r r') →
  (∀ id r s, ts !! id = Some r → rt_ReplacedBy (tr_token r) = Some s →
     RefreshToken_Revoked (tr_token r) = true ∧ is_Some (ts !! s)) →
  (∀ id id' r r' s, ts !! id = Some r → ts !! id' = Some r' →
     rt_ReplacedBy (tr_token r) = Some s → rt_ReplacedBy (tr_token r') = Some s → id = id') →
  keeps_wf db (set_tokens db ts).
Proof.
  intros Hs Hr Hc Hwf. split; simpl; try apply Hwf; try done.
  - intros id r' Hr'. destruct (Hs id r' Hr') as (r & Hr0 & -> & -> & -> & -> & -> & _).
    by eapply wf_token.
  - intros id id' r r' H1 H2 He. destruct (Hs id r H1) as (q & Hq & _ & _ & _ & _ & E1 & _).
    destruct (Hs id' r' H2) as (q' & Hq' & _ & _ & _ & _ & E2 & _).
    eapply (wf_hash db Hwf); [exact Hq|exact Hq'|congruence].
Qed.

Lemma create_token_wf db s db' : Sql_CreateAdminRefreshToken db s = (db', None) → keeps_wf db db'.
Proof.
  unfold Sql_CreateAdminRefreshToken. destruct (_ || _) eqn:Ec; [done|].
  destruct (db_tokens db !! ns_ID s) eqn:Ei; [done|].
  destruct (db_users db !! ns_UserID s) as [u|] eqn:Eu; [|done].
  destruct (find_token _ _) eqn:Ef; [done|]. intros [= <-] Hwf. bool_prop.
  assert (Hfree : ∀ k q, db_tokens db !! k = Some q → tr_hash q ≠ ns_TokenHash s).
  { intros k q Hq. eapply find_token_None in Hq; [|exact Ef]. by apply bool_decide_eq_false in Hq. }
  split; simpl; try apply Hwf.
  - intros k q. destruct (decide (ns_ID s = k)) as [<-|Hne].
    + rewrite lookup_insert_eq. intros [= <-]. simpl. apply Nat.eqb_eq in H. split_and!; eauto.
    + rewrite lookup_insert_ne by done. apply Hwf.
  - intros k k' q q'. destruct (decide (ns_ID s = k)) as [<-|Hne], (decide (ns_ID s = k')) as [<-|Hne'];
      rewrite ?lookup_insert_eq, ?lookup_insert_ne by done; [done| | |by apply Hwf].
    + intros [= <-] Hq' He. by destruct (Hfree k' q' Hq').
    + intros Hq [= <-] He. by destruct (Hfree k q Hq).
  - intros k q n. destruct (decide (ns_ID s = k)) as [<-|Hne].
    + rewrite lookup_insert_eq. by intros [= <-].
    + rewrite lookup_insert_ne by done. intros Hq Hn. destruct (wf_replaced db Hwf k q n Hq Hn) as [? Hs].
      split; [done|]. destruct (decide (ns_ID s = n)) as [<-|]; [rewrite lookup_insert_eq; eauto|].
      by rewrite lookup_insert_ne.
  - intros k k' q q' n. destruct (decide (ns_ID s = k)) as [<-|Hne], (decide (ns_ID s = k')) as [<-|Hne'];
      rewrite ?lookup_insert_eq, ?lookup_insert_ne by done; [done|by intros [= <-]|by intros _ [= <-]|by apply Hwf].
Qed.

Lemma lookup_revoked db id at_ rep r k r' :
  db_tokens db !! id = Some r →
  <[id := map_token (revoke_token at_ rep) r]> (db_tokens db) !! k = Some r' →
  (k = id ∧ r' = map_token (revoke_token at_ rep) r) ∨ (k ≠ id ∧ db_tokens db !! k = Some r').
Proof.
  intros Hr. destruct (decide (id = k)) as [<-|Hne].
  - rewrite lookup_insert_eq. intros [= <-]. by left.
  - rewrite lookup_insert_ne by done. intros. by right.
Qed.

(** Revoking one session, with a successor no other session has. *)
Lemma revoke_one_wf db id at_ rep r :
  db_tokens db !! id = Some r →
  (∀ s, rep = Some s → is_Some (db_tokens db !! s) ∧
     ∀ k q, db_tokens db !! k = Some q → rt_ReplacedBy (tr_token q) ≠ Some s) →
  keeps_wf db (set_tokens db (<[id := map_token (revoke_token at_ rep) r]> (db_tokens db))).
Proof.
  intros Hr Hrep Hwf.
  assert (Hdom : ∀ s, is_Some (db_tokens db !! s) →
     is_Some (<[id := map_token (revoke_token at_ rep) r]> (db_tokens db) !! s)).
  { intros s Hs. destruct (decide (id = s)) as [<-|]; [rewrite lookup_insert_eq; eauto|].
    by rewrite lookup_insert_ne. }
  apply tokens_wf; [| | |done].
  - intros k q Hq. apply (lookup_revoked _ _ _ _ _ _ _ Hr) in Hq as [[-> ->]|[_ Hq]];
      [exists r|exists q]; (split; [done|]); [apply revoke_session|by split_and!].
  - intros k q s Hq Hs. apply (lookup_revoked _ _ _ _ _ _ _ Hr) in Hq as [[-> ->]|[_ Hq]]; simpl in *.
    + split; [done|]. by apply Hdom, Hrep.
    + destruct (wf_replaced db Hwf k q s Hq Hs). auto.
  - intros k k' q q' s Hq Hq' Hs Hs'.
    apply (lookup_revoked _ _ _ _ _ _ _ Hr) in Hq as [[-> ->]|[? Hq]];
      apply (lookup_revoked _ _ _ _ _ _ _ Hr) in Hq' as [[-> ->]|[? Hq']]; simpl in *; try done.
    + by destruct (Hrep s Hs) as [_ Hn]; apply Hn in Hq'.
    + by destruct (Hrep s Hs') as [_ Hn]; apply Hn in Hq.
    + by eapply (wf_chain db Hwf).
Qed.

Lemma revoke_sql_inv db id at_ rep db' :
  Sql_RevokeAdminRefreshToken db id at_ rep = (db', None) →
  ∃ r, db_tokens db !! id = Some r ∧ RefreshToken_Revoked (tr_token r) = false ∧
    (∀ s, rep = Some s → is_Some (db_tokens db !! s)) ∧
    db' = set_tokens db (<[id := map_token (revoke_token at_ rep) r]> (db_tokens db)).
Proof.
  unfold Sql_RevokeAdminRefreshToken. destruct (db_tokens db !! id) as [r|]; [|done].
  destruct (RefreshToken_Revoked _) eqn:Er; [done|]. intros Hq. exists r. split_and!; try done.
  - intros s ->. destruct (negb _) eqn:En; [done|]. by bool_prop.
  - destruct rep as [s|]; [destruct (negb _); [done|]|]; by simplify_eq.
Qed.

Lemma create_token_inv db s db' :
  Sql_CreateAdminRefreshToken db s = (db', None) →
  db_tokens db !! ns_ID s = None ∧ is_Some (db_users db !! ns_UserID s) ∧
  db' = set_tokens db (<[ns_ID s := mkTokenRow (mkAdminRefreshToken (ns_ID s) (ns_UserID s)
    (pg_time (ns_IssuedAt s)) (pg_time (ns_ExpiresAt s)) None None) (ns_TokenHash s)]> (db_tokens db)).
Proof.
  unfold Sql_CreateAdminRefreshToken. destruct (_ || _); [done|].
  destruct (db_tokens db !! ns_ID s) eqn:Ei; [done|].
  destruct (db_users db !! ns_UserID s) as [u|]; [|done]. destruct (find_token _ _); [done|].
  intros [= <-]. eauto.
Qed.

Lemma rotate_wf db s db' id at_ db'' :
  Sql_CreateAdminRefreshToken db s = (db', None) →
  Sql_RevokeAdminRefreshToken db' id at_ (Some (ns_ID s)) = (db'', None) → keeps_wf db db''.
Proof.
  intros Hc Hr Hwf. assert (Hwf' : db_wf db') by by eapply create_token_wf.
  apply revoke_sql_inv in Hr as (r & Hr & _ & Hrep & ->).
  apply revoke_one_wf; [done| |done]. intros s' [= <-]. split; [by apply Hrep|].
  intros k q Hq Hs. apply create_token_inv in Hc as (Hn & _ & ->). simpl in Hq.
  destruct (decide (ns_ID s = k)) as [<-|Hne].
  - rewrite lookup_insert_eq in Hq. by simplify_eq.
  - rewrite lookup_insert_ne in Hq by done. destruct (wf_replaced db Hwf k q _ Hq Hs) as [_ [? ?]]. congruence.
Qed.

Lemma revoke_if_live_session user at_ r : same_session r (revoke_if_live user at_ r).
Proof. unfold revoke_if_live. destruct (live_of user r); [apply revoke_session|by split_and!]. Qed.

Lemma revoke_if_live_replaced user at_ r :
  rt_ReplacedBy (tr_token (revoke_if_live user at_ r)) = rt_ReplacedBy (tr_token r).
Proof. unfold revoke_if_live. by destruct (live_of user r). Qed.

Lemma revoke_all_wf db user at_ : keeps_wf db (Sql_RevokeAdminUserRefreshTokens db user at_).
Proof.
  intros Hwf. apply tokens_wf; [| | |done].
  - intros id r' Hr'. rewrite lookup_fmap in Hr'. destruct (db_tokens db !! id) as [r|]; simplify_eq/=.
    exists r. split; [done|apply revoke_if_live_session].
  - intros id r' s Hr' Hs. rewrite lookup_fmap in Hr'.
    destruct (db_tokens db !! id) as [r|] eqn:Er; simplify_eq/=.
    rewrite revoke_if_live_replaced in Hs. destruct (wf_replaced db Hwf id r s Er Hs) as [Hrev [q Hq]].
    split; [by apply revoke_if_live_session|]. rewrite lookup_fmap, Hq. by eexists.
  - intros id id' r1 r2 s H1 H2. rewrite lookup_fmap in H1, H2.
    destruct (db_tokens db !! id) as [r|] eqn:Er, (db_tokens db !! id') as [r'|] eqn:Er'; simplify_eq/=.
    rewrite !revoke_if_live_replaced. by apply (wf_chain db Hwf).
Qed.

Lemma sweep_wf db user before db' :
  Sql_DeleteExpiredAdminRefreshTokens db user before = (db', None) → keeps_wf db db'.
Proof.
  unfold Sql_DeleteExpiredAdminRefreshTokens. set (ts := filter _ _).
  destruct (existsb _ _) eqn:Ed; [done|]. intros [= <-] Hwf.
  assert (Hsub : ∀ k r, ts !! k = Some r → db_tokens db !! k = Some r)
    by (intros k r Hk; by apply map_lookup_filter_Some in Hk as [? _]).
  apply tokens_wf; [| | |done].
  - intros id r Hr. exists r. split; [by apply Hsub|by split_and!].
  - intros id r s Hr Hs. split; [by eapply (wf_replaced db Hwf); [apply Hsub|]|].
    destruct (ts !! s) eqn:Es; [done|]. exfalso. rewrite <- not_true_iff_false in Ed. apply Ed.
    apply existsb_exists. exists r. split.
    + apply list_elem_of_In, list_elem_of_fmap. exists (id, r). split; [done|]. by apply elem_of_map_to_list.
    + unfold dangling. rewrite Hs. by apply bool_decide_eq_true_2.
  - intros id id' r r' s H1 H2. apply (wf_chain db Hwf); by apply Hsub.
Qed.

Lemma audit_wf db e db' : insertAudit db e = (db', None) → keeps_wf db db'.
Proof.
  unfold insertAudit. destruct (_ || _); [done|]. intros [= <-] [H1 H2 H3 H4 H5 H6]. by split.
Qed.

(** Every action leaves a well-formed store well-formed. *)
Lemma perform_wf IDKey ch a w : db_wf (uw_db w) → db_wf (uw_db (perform IDKey ch a w).1).
Proof.
  apply (perform_R keeps_wf).
  - intros. by apply update_user_wf.
  - intros. by eapply create_user_wf.
  - apply create_token_wf.
  - intros db id at_ db' H. apply revoke_sql_inv in H as (r & Hr & _ & _ & ->). by apply revoke_one_wf.
  - apply rotate_wf.
  - apply revoke_all_wf.
  - apply sweep_wf.
  - apply audit_wf.
Qed.

Lemma run_wf {A} IDKey chs (p : uprog A) w w' x tr :
  run (perform IDKey) chs p w = Some (w', x, tr) → db_wf (uw_db w) → db_wf (uw_db w').
Proof.
  revert chs w w' tr. induction p as [y|a k IH]; intros chs w w' tr Hrun Hwf; simpl in Hrun; [by simplify_eq|].
  destruct chs as [|ch chs]; [done|]. pose proof (perform_wf IDKey ch a w Hwf) as Hwf1.
  destruct (perform IDKey ch a w) as [w1 r]. destruct (run _ chs (k r) w1) as [[[w2 z] tr2]|] eqn:E; [|done].
  simplify_eq. by eapply IH.
Qed.
