(* ===== verification/UserProps.v ===== *)
(** What holds of the people of the admin API and their sessions: of one call alone, and of
    any calls interleaved. *)
From Stdlib Require Import Ascii.
From stdpp Require Import gmap infinite.
From S2P Require Import Prelude Errors Bytes Utf8 Password Accounts Tokens Email Throttle Programs Env AdminDb Users UserWorld.

(** C20. The store of the people and their sessions stays well-formed however the calls of any
    number of clients interleave and whichever store calls fail or lose their answer: people
    are filed under their id with a lower-case address of their own, a valid role and a
    password hash; sessions under theirs, with an owner, a 32-byte hash of their own and a
    positive lifetime; a session that was replaced is revoked, its replacement is there, and
    no session replaces two. *)
Theorem store_stays_well_formed IDKey A (started : uprog A → Prop) (s s' : pool user_action user_world A) :
  db_wf (uw_db (p_world s)) → rtc (pool_step (perform IDKey) started) s s' → db_wf (uw_db (p_world s')).
Proof.
  intros Hwf Hsteps. induction Hsteps as [s|s1 s2 s3 Hstep _ IH]; [done|].
  apply IH. destruct Hstep; simpl; [by apply perform_wf|done].
Qed.

(** ** Those locked out stay out *)

Definition locked_out (id : uuid) (db : AdminDb) : Prop :=
  db_wf db ∧ ∃ r, db_users db !! id = Some r ∧ AdminUser_Disabled (ur_user r) = true.
Definition keeps_out (id : uuid) (db db' : AdminDb) : Prop := locked_out id db → locked_out id db'.
Definition rely_out (id : uuid) (w w' : user_world) : Prop := keeps_out id (uw_db w) (uw_db w').

#[export] Instance keeps_out_preorder id : PreOrder (keeps_out id).
Proof. split; [by intros ? ?|intros a b c Hab Hbc Ha; by apply Hbc, Hab]. Qed.
#[export] Instance rely_out_preorder id : PreOrder (rely_out id).
Proof. split; [by intros ? ?|intros a b c Hab Hbc Ha; by apply Hbc, Hab]. Qed.

(** A statement that leaves the people alone. *)
Lemma same_users_out id db db' : db_users db' = db_users db → keeps_wf db db' → keeps_out id db db'.
Proof. intros He Hwf [Hdb Hr]. split; [by apply Hwf|]. by rewrite He. Qed.

Lemma perform_out IDKey id ch a w : rely_out id w (perform IDKey ch a w).1.
Proof.
  apply (perform_R (keeps_out id)).
  - intros db k r f Hk Hf hash Hh [Hwf (q & Hq & Hd)]. split; [by eapply update_user_wf|]. simpl.
    destruct (decide (k = id)) as [->|Hne].
    + rewrite lookup_insert_eq. simplify_eq. eexists. split; [done|]. simpl. by apply Hf.
    + rewrite lookup_insert_ne by done. eauto.
  - intros db now k email hash role changed r db' Hc [Hwf (q & Hq & Hd)].
    split; [by eapply create_user_wf|]. unfold Sql_CreateAdminUser in Hc.
    repeat case_match; simplify_eq. simpl. exists q. split; [|done].
    rewrite lookup_insert_ne; [done|]. intros ->. congruence.
  - intros db s db' Hc. apply same_users_out; [|by eapply create_token_wf].
    by apply create_token_inv in Hc as (_ & _ & ->).
  - intros db k at_ db' Hr. apply revoke_sql_inv in Hr as (r & Hr & _ & _ & ->).
    apply same_users_out; [done|]. by apply revoke_one_wf.
  - intros db s db' k at_ db'' Hc Hr. apply same_users_out; [|by eapply rotate_wf].
    apply create_token_inv in Hc as (_ & _ & ->). by apply revoke_sql_inv in Hr as (r & _ & _ & _ & ->).
  - intros. apply same_users_out; [done|apply revoke_all_wf].
  - intros db u before db' Hs. apply same_users_out; [|by eapply sweep_wf].
    unfold Sql_DeleteExpiredAdminRefreshTokens in Hs. case_match; by simplify_eq.
  - intros db e db' Ha. apply same_users_out; [|by eapply audit_wf].
    unfold insertAudit in Ha. case_match; by simplify_eq.
Qed.

Section Out.
Context `{Jwt} (sha256 : bytes → bytes) (dummy : string).

(** The tokens handed out, if any, are not this person's. *)
Definition not_for (id : uuid) (r : result error AdminSessionTokens) : Prop :=
  match r with Ok t => au_ID (st_User t) ≠ id | Err _ => True end.

Lemma refuse_returns Q key now email ip reason :
  Q (Err ErrUnauthenticated) → returns Q (refuse key now email ip reason).
Proof. intros HQ. do 2 (apply returns_bind_any; intros []). exact HQ. Qed.

Lemma startSession_returns id u user now :
  au_ID user ≠ id → returns (not_for id) (startSession sha256 u user now).
Proof.
  intros Hne. unfold startSession.
  do 4 (apply and_then_returns; [done|]; intros ?; repeat case_match). done.
Qed.

Lemma AdminUserForLogin_Ok db email user hash :
  AdminUserForLogin db email = Ok (user, hash) →
  ∃ id r, db_users db !! id = Some r ∧ user = ur_user r ∧ hash = ur_hash r ∧ au_Email user = email.
Proof.
  unfold AdminUserForLogin, GetAdminUserByEmail. destruct (find_user _ _) as [r|] eqn:Ef; [|done].
  intros [= <- <-]. apply find_user_Some in Ef as [He [id Hr]]. apply String.eqb_eq in He. eauto 10.
Qed.

Lemma reading_Ok {A} ch w (r : result error A) a : (reading ch w r).2 = Ok a → r = Ok a.
Proof. unfold reading. simpl. by destruct (mo_fault ch). Qed.

Lemma Login_out IDKey id u c w :
  locked_out id (uw_db w) → safe (perform IDKey) (rely_out id) (not_for id) (Login sha256 dummy u c) w.
Proof.
  intros Hout. unfold Login. cbv zeta. apply safe_call. intros w1 Hr1 ch1.
  apply safe_call. intros w2 Hr2 ch2. case_match.
  { apply safe_returns, returns_bind_any. by intros []. }
  destruct (TooLong _); [by apply safe_returns, refuse_returns|].
  apply safe_call. intros w3 Hr3 ch3.
  assert (Hout3 : locked_out id (uw_db w3)).
  { apply Hr3, perform_out, Hr2, perform_out, Hr1, Hout. }
  apply safe_returns. destruct (perform _ _ (AUserForLogin _) _).2 as [[user hash]|err] eqn:Ef.
  - apply (reading_Ok ch3 w3) in Ef. apply AdminUserForLogin_Ok in Ef as (k & r & Hk & -> & -> & _).
    apply returns_call. intros bad. destruct (_ || _) eqn:Eb; [by apply refuse_returns|].
    apply returns_call. intros _. apply startSession_returns.
    intros He. destruct Hout3 as [Hwf (q & Hq & Hd)]. destruct (wf_user _ Hwf k r Hk) as (Hid & _).
    bool_prop. assert (k = id) as -> by congruence. congruence.
  - destruct (Is err ErrNotFound); [|done]. apply returns_call. intros bad.
    rewrite orb_true_r. by apply refuse_returns.
Qed.

Lemma GetByHash_Ok db hash s :
  AdminSessionByTokenHash db hash = Ok s →
  ∃ id r u, db_tokens db !! id = Some r ∧ tr_hash r = hash ∧ as_Token s = tr_token r ∧
    db_users db !! rt_UserID (tr_token r) = Some u ∧ as_User s = ur_user u.
Proof.
  unfold AdminSessionByTokenHash, GetAdminRefreshTokenByHash.
  destruct (find_token _ _) as [r|] eqn:Ef; [|done].
  destruct (db_users db !! rt_UserID (tr_token r)) as [u|] eqn:Eu; [|done]. intros [= <-].
  apply find_token_Some in Ef as [He [id Hr]]. bool_prop. eauto 10.
Qed.

Lemma Refresh_out IDKey id u refreshToken w :
  locked_out id (uw_db w) → safe (perform IDKey) (rely_out id) (not_for id) (Refresh sha256 u refreshToken) w.
Proof.
  intros Hout. unfold Refresh. apply safe_call. intros w1 Hr1 ch1. apply safe_call. intros w2 Hr2 ch2.
  assert (Hout2 : locked_out id (uw_db w2)) by (apply Hr2, perform_out, Hr1, Hout).
  apply safe_returns.
  destruct (perform _ _ (ASessionByHash _) _).2 as [s|err] eqn:Ef; [|done].
  apply (reading_Ok ch2 w2) in Ef. apply GetByHash_Ok in Ef as (k & r & q & Hk & _ & _ & Hq & Hs).
  destruct (RefreshToken_Revoked _); [apply returns_bind_any; by intros []|].
  destruct (_ || _) eqn:Ed; [done|]. bool_prop.
  assert (Hne : au_ID (as_User s) ≠ id).
  { intros He. destruct Hout2 as [Hwf (q' & Hq' & Hd)].
    destruct (wf_user _ Hwf _ _ Hq) as (Hid & _). rewrite Hs in *. congruence. }
  do 2 (apply and_then_returns; [done|]; intros [? ?]). apply returns_call. intros [[]|err]; [done|].
  destruct (Is err ErrConflict); [apply returns_bind_any; by intros []|done].
Qed.
End Out.

(** C19. Once a person is disabled, no login and no refresh that begins afterwards hands out
    tokens for them, whatever address, password or refresh token it presents, and however its
    steps interleave with any other calls. *)
Theorem disabled_gets_no_tokens `{Jwt} IDKey sha256 dummy id u p started
    (s s' : pool user_action user_world (result error AdminSessionTokens)) i r :
  locked_out id (uw_db (p_world s)) → p_threads s !! i = Some p →
  (∃ c, p = Login sha256 dummy u c) ∨ (∃ refreshToken, p = Refresh sha256 u refreshToken) →
  rtc (pool_step (perform IDKey) started) s s' → p_threads s' !! i = Some (Ret r) →
  ∀ t, r = Ok t → au_ID (st_User t) ≠ id.
Proof.
  intros Hout Hi Hp Hsteps Hr t ->.
  destruct (pool_safe (perform IDKey) (rely_out id) (not_for id) started s s' i p) as (p' & Hp' & Hs');
    [intros; apply perform_out|done| |done|].
  - destruct Hp as [[c ->]|[rt ->]]; [by apply Login_out|by apply Refresh_out].
  - rewrite Hr in Hp'. by simplify_eq.
Qed.

(** ** Quiet programs

    Actions that leave the store and the throttle alone. *)
Definition quiet (a : user_action) : Prop :=
  match a with
  | ANow | ANewID | ARandom | AHash _ | AVerify _ _ | ABlocked _ _
  | AUserForLogin _ | AUserByEmail _ | AListUsers | ASessionByHash _ => True
  | _ => False
  end.
Definition unchanged (w w' : user_world) : Prop := uw_db w' = uw_db w ∧ uw_throttle w' = uw_throttle w.

#[export] Instance unchanged_preorder : PreOrder unchanged.
Proof. split; [by split|]. intros a b c [? ?] [? ?]. split; congruence. Qed.

Lemma quiet_unchanged IDKey ch a w : quiet a → unchanged w (perform IDKey ch a w).1.
Proof.
  destruct a; simpl; intros Hq; try done. unfold new_uuid, hand_out. by destruct (mo_id ch).
Qed.

Lemma wp_quiet {A} IDKey ok (P : A → Prop) (p : uprog A) Q w :
  only quiet p → returns P p → (∀ x w' tr, unchanged w w' → P x → Q x w' tr) →
  wp (perform IDKey) ok p Q w.
Proof. apply (wp_only _ _ quiet unchanged). intros. by apply quiet_unchanged. Qed.

Lemma auditEntry_quiet actor action detail : only quiet (auditEntry actor action detail).
Proof. unfold auditEntry. by repeat (apply only_and_then || apply only_bind || intros ?). Qed.

Lemma auditEntry_returns actor action detail :
  returns (λ r, ∀ e, r = Ok e → ∃ id now, e = mkAuditEntry id now None None actor action detail)
    (auditEntry actor action detail).
Proof.
  unfold auditEntry. apply (returns_and_then (λ _, True)); [by apply returns_any|done|].
  intros id _. apply returns_call. intros now e [= <-]. eauto.
Qed.

(** ** What the store is left with *)

Lemma inTx_Ok {A} db (f : AdminDb → AdminDb * result error A) db' a : inTx db f = (db', Ok a) → f db = (db', Ok a).
Proof. unfold inTx. destruct (f db) as [d [x|e]]; by intros [= <- <-]. Qed.

Lemma stmt_Ok {A} (r : AdminDb * option error) wrap (k : AdminDb → AdminDb * result error A) db' a :
  stmt r wrap k = (db', Ok a) → ∃ db1, r = (db1, None) ∧ k db1 = (db', Ok a).
Proof. unfold stmt. destruct r as [db1 [e|]]; [done|]. eauto. Qed.

Lemma audited_Ok {A} db e (a : A) db' b :
  audited db e a = (db', Ok b) → a = b ∧ db' = set_audit db (db_audit db ++ [stored_audit e]).
Proof.
  intros H. apply stmt_Ok in H as (db1 & Hi & [= <- <-]). unfold insertAudit in Hi.
  destruct (_ || _); by simplify_eq.
Qed.

(** The row a session is opened with. *)
Definition session_row (s : NewAdminSession) : token_row :=
  mkTokenRow (mkAdminRefreshToken (ns_ID s) (ns_UserID s) (pg_time (ns_IssuedAt s))
    (pg_time (ns_ExpiresAt s)) None None) (ns_TokenHash s).

Lemma StartAdminSession_Ok db s e db' :
  StartAdminSession db s e = (db', Ok tt) →
  db_tokens db' !! ns_ID s = Some (session_row s) ∧
  db_audit db' = db_audit db ++ [stored_audit e].
Proof.
  unfold StartAdminSession. intros H. apply inTx_Ok, stmt_Ok in H as (db1 & Hd & H). apply stmt_Ok in H as (db2 & Hc & H).
  apply audited_Ok in H as [_ ->]. apply create_token_inv in Hc as (_ & _ & ->).
  assert (Ha : db_audit db1 = db_audit db).
  { unfold Sql_DeleteExpiredAdminRefreshTokens in Hd. case_match; by simplify_eq. }
  unfold Sql_TouchAdminUserLogin. simpl. destruct (db_users db1 !! ns_UserID s); simpl;
    rewrite lookup_insert_eq, Ha; done.
Qed.

Lemma RotateAdminSession_Ok db presented s r0 db' :
  db_tokens db !! presented = Some r0 → RotateAdminSession db presented s = (db', Ok tt) →
  RefreshToken_Revoked (tr_token r0) = false ∧
  db_tokens db' !! ns_ID s = Some (session_row s) ∧
  db_tokens db' !! presented = Some (map_token (revoke_token (ns_IssuedAt s) (Some (ns_ID s))) r0) ∧
  db_users db' = db_users db.
Proof.
  unfold RotateAdminSession. intros H0 H. apply inTx_Ok, stmt_Ok in H as (db1 & Hc & H). apply stmt_Ok in H as (db2 & Hr & [= <-]).
  apply create_token_inv in Hc as (Hn & _ & ->). apply revoke_sql_inv in Hr as (r & Hr & Hrev & _ & ->).
  simpl in *. assert (Hne : ns_ID s ≠ presented) by congruence.
  rewrite lookup_insert_ne in Hr by done. simplify_eq. split_and!; [done| | |done].
  - by rewrite lookup_insert_ne, lookup_insert_eq.
  - by rewrite lookup_insert_eq.
Qed.

(** No session of the person can be refreshed any more. *)
Definition sessions_cut (user : uuid) (db : AdminDb) : Prop :=
  ∀ id r, db_tokens db !! id = Some r → rt_UserID (tr_token r) = user → RefreshToken_Revoked (tr_token r) = true.

Lemma revoke_all_cuts db user at_ : sessions_cut user (Sql_RevokeAdminUserRefreshTokens db user at_).
Proof.
  intros id r Hr Hu. simpl in Hr. rewrite lookup_fmap in Hr.
  destruct (db_tokens db !! id) as [r0|]; [|done]. simpl in Hr. injection Hr as <-.
  unfold revoke_if_live in *. destruct (live_of user r0) eqn:El; [done|]. unfold live_of in El.
  rewrite Hu, N.eqb_refl in El. simpl in El. by apply negb_false_iff in El.
Qed.

(** The result a program goes on with. *)
Ltac on_result tac :=
  match goal with |- context [match ?x with Ok _ => _ | Err _ => _ end] => tac x end.

(** ** Calls taken one at a time *)
Section Alone.
Context `{Jwt} (sha256 : bytes → bytes) (dummy : string) (IDKey : bytes → bytes → Z → Z → Z → Z → bytes).

Lemma issue_quiet u user : only quiet (issue u user).
Proof.
  unfold issue. destruct (us_issuer u); [|done]. apply only_bind; [done|]. intros [jti|e]; [|done].
  by apply only_bind.
Qed.

Lemma mintSession_quiet u userID now : only quiet (mintSession sha256 u userID now).
Proof. unfold mintSession. by repeat (apply only_and_then || apply only_bind || intros ?). Qed.

(** What a minted session is. *)
Definition minted_for u (userID : uuid) (now : time) (r : result error (MintedSecret * NewAdminSession)) : Prop :=
  ∀ m s, r = Ok (m, s) →
    s = mkNewAdminSession (ns_ID s) userID (hashSecret sha256 (Secret m)) now (Add now (us_refreshTTL u)).

Lemma mintSession_returns u userID now : returns (minted_for u userID now) (mintSession sha256 u userID now).
Proof.
  unfold mintSession, minted_for.
  apply (returns_and_then (λ m, Secret_Hash m = hashSecret sha256 (Secret m))).
  - apply returns_call. intros [b|e] m; simpl; [|done]. intros E.
    assert (m = mkMinted _ _ _) as -> by (symmetry; injection E; intros; subst; by f_equal).
    unfold hashSecret. simpl. by rewrite lit_str.
  - done.
  - intros m Hm. apply (returns_and_then (λ _, True)); [by apply returns_any|done|].
    intros id _ m' s [= <- <-]. simpl. by rewrite Hm.
Qed.

Lemma wp_startSession ok u user now Q w :
  (∀ e w' tr, uw_throttle w' = uw_throttle w → Q (Err e) w' tr) →
  (∀ access expiry m s w' tr,
     minted_for u (au_ID user) now (Ok (m, s)) → uw_throttle w' = uw_throttle w →
     db_tokens (uw_db w') !! ns_ID s = Some (session_row s) →
     Q (Ok (mkAdminSessionTokens access expiry (Secret m) user)) w' tr) →
  wp (perform IDKey) ok (startSession sha256 u user now) Q w.
Proof.
  intros He Hs. unfold startSession. apply wp_and_then.
  apply (wp_quiet IDKey ok (λ _, True)); [apply issue_quiet|by apply returns_any|].
  intros [[access expiry]|e] w1 tr1 [_ Ht1] _; [|by apply He]. apply wp_and_then.
  eapply wp_quiet; [apply mintSession_quiet|apply mintSession_returns|].
  intros [[m s]|e] w2 tr2 [_ Ht2] Hm; [|apply He; congruence]. apply wp_and_then.
  apply (wp_quiet IDKey ok (λ _, True)); [apply auditEntry_quiet|by apply returns_any|].
  intros [entry|e] w3 tr3 [_ Ht3] _; [|apply He; congruence]. apply wp_and_then.
  intros ch _. cbn [perform]. unfold writing.
  destruct (StartAdminSession (uw_db w3) s entry) as [db' r] eqn:Es.
  destruct (mo_fault ch); cbn; [|apply He; cbn; congruence..].
  destruct r as [[]|e]; cbn; [|apply He; simpl; congruence].
  eapply Hs; [exact Hm|simpl; congruence|]. by apply StartAdminSession_Ok in Es as [? _].
Qed.

Lemma auditLoginFailure_wp ok email ip reason Q w :
  (∀ w' tr, uw_throttle w' = uw_throttle w → Q tt w' tr) →
  wp (perform IDKey) ok (auditLoginFailure email ip reason) Q w.
Proof.
  intros HQ. unfold auditLoginFailure. apply wp_bind, wp_and_then.
  apply (wp_quiet IDKey ok (λ _, True)); [apply auditEntry_quiet|by apply returns_any|].
  intros [e|e] w1 tr1 [_ Ht] _; simpl; [|by apply HQ].
  intros ch _. unfold writing. destruct (mo_fault ch); cbn; by apply HQ.
Qed.

Lemma refuse_wp ok key now email ip reason Q w :
  (∀ w' tr, Q (Err ErrUnauthenticated) w' tr) →
  wp (perform IDKey) ok (refuse key now email ip reason) Q w.
Proof.
  intros HQ. unfold refuse. apply wp_call. intros ch _. apply wp_bind, auditLoginFailure_wp.
  intros w' tr _. simpl. apply HQ.
Qed.

(** Who the credentials are of, as the store stands. *)
Definition right_credentials (db : AdminDb) (c : Credentials) (user : AdminUser) : Prop :=
  ∃ r, db_users db !! au_ID user = Some r ∧ user = ur_user r ∧
    au_Email user = NormaliseEmail (cr_Email c) ∧ AdminUser_Disabled user = false ∧
    Verify IDKey (ur_hash r) (lit (cr_Password c)) = None.

(** C21. A login taken by itself succeeds only for a client that is not throttled and presents
    the address and password of a person who is not disabled; the client's failures are then
    forgotten, and the store holds a live session of that person, filed under the hash of the
    refresh token handed out and expiring the configured time from now. *)
Theorem Login_sound u c ch chs w w' t tr :
  db_wf (uw_db w) →
  run (perform IDKey) (ch :: chs) (Login sha256 dummy u c) w = Some (w', Ok t, tr) →
  let key := throttle_key (NormaliseEmail (cr_Email c)) (cr_ClientIP c) in
  blocked (uw_throttle w) key (mo_now ch) = false ∧
  TooLong (lit (cr_Password c)) = false ∧
  right_credentials (uw_db w) c (st_User t) ∧
  uw_throttle w' = succeed (uw_throttle w) key ∧
  ∃ id, db_tokens (uw_db w') !! id =
    Some (mkTokenRow (mkAdminRefreshToken id (au_ID (st_User t)) (pg_time (mo_now ch))
            (pg_time (Add (mo_now ch) (us_refreshTTL u))) None None)
          (hashSecret sha256 (st_RefreshToken t))).
Proof.
  intros Hwf Hrun key. revert Hrun. remember (Ok t) as r eqn:Er. intros Hrun.
  revert t Er. pattern r, w', tr. eapply (wp_run_call _ (λ _, True)); [by apply Forall_true| |exact Hrun]. clear Hrun r w' tr.
  cbn [perform fst snd]. apply wp_call. intros ch1 _. cbn [perform fst snd].
  destruct (blocked _ _ _) eqn:Eb.
  { apply wp_bind, auditLoginFailure_wp. intros w' tr _ t [=]. }
  destruct (TooLong _) eqn:El; [apply refuse_wp; intros w' tr t [=]|].
  apply wp_call. intros ch2 _. cbn [perform].
  on_result ltac:(fun x => destruct x as [[user hash]|err] eqn:Ef).
  2: { destruct (Is err ErrNotFound); [|intros t [=]]. unfold check_password. apply wp_call. intros ch3 _.
       rewrite orb_true_r. apply refuse_wp. intros w' tr t [=]. }
  apply reading_Ok, AdminUserForLogin_Ok in Ef as (id & r & Hr & -> & -> & He).
  unfold check_password. apply wp_call. intros ch3 _. cbn [perform fst snd reading].
  destruct (_ || _) eqn:Ec; [apply refuse_wp; intros w' tr t [=]|]. bool_prop.
  apply wp_call. intros ch4 _. apply wp_startSession; [intros e w' tr _ t [=]|].
  intros access expiry m s w' tr Hm Ht Hs t [= <-]. cbn [st_User st_RefreshToken].
  destruct (wf_user _ Hwf id r Hr) as (Hid & _).
  split_and!; [done|done| |done|].
  - exists r. split_and!; [by rewrite Hid|done|done|done|]. apply eq_None_not_Some. done.
  - exists (ns_ID s). rewrite Hs. unfold session_row. by rewrite (Hm m s eq_refl).
Qed.

Lemma auditSessionReuse_wp ok session now Q w :
  (∀ w' tr, Q tt w' tr) → wp (perform IDKey) ok (auditSessionReuse session now) Q w.
Proof.
  intros HQ. unfold auditSessionReuse. apply wp_bind, wp_and_then.
  apply (wp_quiet IDKey ok (λ _, True)); [apply auditEntry_quiet|by apply returns_any|].
  intros [e|e] w1 tr1 _ _; simpl; [|by apply HQ]. intros ch _. by apply HQ.
Qed.

(** C22. A refresh taken by itself succeeds only for a token that is filed, not revoked, not
    expired and of a person who is not disabled; afterwards that session is revoked and
    replaced by a live one of the same person, filed under the hash of the new refresh token
    and expiring the configured time from now. *)
Theorem Refresh_sound u presented ch chs w w' t tr :
  db_wf (uw_db w) →
  run (perform IDKey) (ch :: chs) (Refresh sha256 u presented) w = Some (w', Ok t, tr) →
  let now := mo_now ch in
  ∃ id r next,
    db_tokens (uw_db w) !! id = Some r ∧ tr_hash r = hashSecret sha256 presented ∧
    RefreshToken_Usable (tr_token r) now = true ∧
    rt_UserID (tr_token r) = au_ID (st_User t) ∧ AdminUser_Disabled (st_User t) = false ∧
    db_tokens (uw_db w') !! id = Some (map_token (revoke_token now (Some next)) r) ∧
    db_tokens (uw_db w') !! next =
      Some (mkTokenRow (mkAdminRefreshToken next (au_ID (st_User t)) (pg_time now)
              (pg_time (Add now (us_refreshTTL u))) None None)
            (hashSecret sha256 (st_RefreshToken t))).
Proof.
  intros Hwf Hrun now. revert Hrun. remember (Ok t) as r eqn:Er. intros Hrun.
  revert t Er. pattern r, w', tr. eapply (wp_run_call _ (λ _, True)); [by apply Forall_true| |exact Hrun]. clear Hrun r w' tr.
  cbn [perform fst snd]. apply wp_call. intros ch1 _. cbn [perform].
  on_result ltac:(fun x => destruct x as [s|err] eqn:Ef); [|intros t [=]].
  apply reading_Ok, GetByHash_Ok in Ef as (id & r & q & Hr & Hh & Hs & Hq & Hu).
  destruct (RefreshToken_Revoked _) eqn:Erev; [apply wp_bind, auditSessionReuse_wp; intros w' tr t [=]|].
  destruct (_ || _) eqn:Ed; [intros t [=]|]. bool_prop. apply wp_and_then.
  apply (wp_quiet IDKey _ (λ _, True)); [apply issue_quiet|by apply returns_any|].
  intros [[access expiry]|e] w1 tr1 [Hdb1 _] _; [|intros t [=]]. apply wp_and_then.
  eapply wp_quiet; [apply mintSession_quiet|apply mintSession_returns|].
  intros [[m n]|e] w2 tr2 [Hdb2 _] Hm; [|intros t [=]].
  apply wp_call. intros ch2 _. cbn [perform]. unfold writing.
  destruct (RotateAdminSession (uw_db w2) (rt_ID (as_Token s)) n) as [db' [[]|e]] eqn:Erot.
  2: { destruct (mo_fault ch2); cbn [fst snd]; (destruct (Is _ ErrConflict);
         [apply wp_bind, auditSessionReuse_wp; intros w' tr t [=]|intros t [=]]). }
  destruct (mo_fault ch2); cbn [fst snd];
    [|destruct (Is _ ErrConflict); [apply wp_bind, auditSessionReuse_wp; intros w' tr t [=]|intros t [=]]..].
  intros t [= <-]. cbn [st_User st_RefreshToken].
  destruct (wf_token _ Hwf id r Hr) as (Hid & _). rewrite Hs in *.
  assert (Hr2 : db_tokens (uw_db w2) !! rt_ID (tr_token r) = Some r) by (cbn in Hdb1; rewrite Hid; congruence).
  destruct (RotateAdminSession_Ok _ _ _ _ _ Hr2 Erot) as (_ & Hn & Hp & _).
  rewrite (Hm m n eq_refl) in Hn, Hp. rewrite Hid in Hp. simpl in Hn, Hp.
  destruct (wf_user _ Hwf _ _ Hq) as (Huid & _).
  exists id, r, (ns_ID n). split_and!; try done.
  - unfold RefreshToken_Usable, now. by rewrite Erev, H0.
  - by rewrite Hu.
Qed.

Lemma fine_id ch w :
  fine ch → ∃ id w', new_uuid w (mo_id ch) = (w', Ok id) ∧ unchanged w w' ∧ id ∉ uw_ids w.
Proof.
  intros (_ & [id Hid] & _). unfold new_uuid. destruct (hand_out _ _) as [ids [i|e]] eqn:E.
  - apply hand_out_Ok in E as [? ->]. by eexists _, _.
  - unfold hand_out in E. by destruct (mo_id ch).
Qed.

Lemma auditEntry_fine actor action detail Q w :
  (∀ id at_ w', unchanged w w' → id ∉ uw_ids w →
     Q (Ok (mkAuditEntry id at_ None None actor action detail)) w' [ANewID; ANow]) →
  wp (perform IDKey) fine (auditEntry actor action detail) Q w.
Proof.
  intros HQ ch1 H1. cbn [perform]. destruct (fine_id ch1 w H1) as (id & w1 & -> & Hw1 & Hid).
  intros ch2 _. cbn. by apply HQ.
Qed.

Lemma auditLoginFailure_fine email ip reason Q w :
  (∀ id at_ w', uw_throttle w' = uw_throttle w →
     Q tt w' [ANewID; ANow; AWriteAudit (mkAuditEntry id at_ None None ("user:" +:+ email)
                                          "user.login_failed" (loginFailureDetail email ip reason))]) →
  wp (perform IDKey) fine (auditLoginFailure email ip reason) Q w.
Proof.
  intros HQ. unfold auditLoginFailure. apply wp_bind, wp_and_then, auditEntry_fine.
  intros id at_ w1 [_ Ht] _ ch [Hf _]. cbn [perform]. unfold writing. rewrite Hf.
  apply HQ. exact Ht.
Qed.

Definition wrong_credentials (db : AdminDb) (c : Credentials) : Prop :=
  match AdminUserForLogin db (NormaliseEmail (cr_Email c)) with
  | Ok (user, hash) => Verify IDKey hash (lit (cr_Password c)) ≠ None ∨ AdminUser_Disabled user = true
  | Err _ => True
  end.

(** An unknown address, a wrong password and a disabled person are refused alike: one
    lookup, one derivation over a stored or a dummy hash, one more failure counted against
    the client, one audit row with the same reason, and the same error, in the same order. *)
Theorem login_refusals_alike u c ch chs w w' r tr :
  let email := NormaliseEmail (cr_Email c) in
  let key := throttle_key email (cr_ClientIP c) in
  Forall fine chs →
  blocked (uw_throttle w) key (mo_now ch) = false → TooLong (lit (cr_Password c)) = false →
  wrong_credentials (uw_db w) c →
  run (perform IDKey) (ch :: chs) (Login sha256 dummy u c) w = Some (w', r, tr) →
  r = Err ErrUnauthenticated ∧
  uw_throttle w' = throttle_fail (uw_throttle w) key (mo_now ch) ∧
  ∃ encoded id at_,
    tr = [ANow; ABlocked key (mo_now ch); AUserForLogin email; AVerify encoded (lit (cr_Password c));
          AFail key (mo_now ch); ANewID; ANow;
          AWriteAudit (mkAuditEntry id at_ None None ("user:" +:+ email) "user.login_failed"
            (loginFailureDetail email (cr_ClientIP c) "invalid_credentials"))].
Proof.
  intros email key Hok Hb Hl Hwrong Hrun. pattern r, w', tr.
  eapply wp_run_call; [exact Hok| |exact Hrun]. clear Hrun r w' tr.
  cbn [perform fst snd]. apply wp_call. intros ch1 _. cbn [perform fst snd].
  fold email. fold key. rewrite Hb, Hl. apply wp_call. intros ch2 [Hf _]. cbn [perform]. unfold reading. rewrite Hf.
  cbn [fst snd]. unfold wrong_credentials in Hwrong. fold email in Hwrong.
  assert (Hrefuse : ∀ bad user enc,
    bool_decide (is_Some bad) || N.eqb (au_ID user) uuid_Nil || AdminUser_Disabled user = true →
    Verify IDKey enc (lit (cr_Password c)) = bad →
    wp (perform IDKey) fine (check_password sha256 u key (mo_now ch) email c user enc)
      (λ r w' tr, r = Err ErrUnauthenticated ∧ uw_throttle w' = throttle_fail (uw_throttle w) key (mo_now ch) ∧
        ∃ encoded id at_, ANow :: ABlocked key (mo_now ch) :: AUserForLogin email :: tr =
          [ANow; ABlocked key (mo_now ch); AUserForLogin email; AVerify encoded (lit (cr_Password c));
           AFail key (mo_now ch); ANewID; ANow;
           AWriteAudit (mkAuditEntry id at_ None None ("user:" +:+ email) "user.login_failed"
             (loginFailureDetail email (cr_ClientIP c) "invalid_credentials"))]) w).
  { intros bad user enc Hbad Hv. unfold check_password. apply wp_call. intros ch3 _. cbn [perform fst snd].
    rewrite Hv, Hbad. unfold refuse. apply wp_call. intros ch4 _. cbn [perform fst snd].
    apply wp_bind, auditLoginFailure_fine. intros id at_ w1 Ht. split_and!; [done|exact Ht|]. by eexists _, _, _. }
  destruct (AdminUserForLogin (uw_db w) email) as [[user hash]|err] eqn:Ef.
  - eapply Hrefuse; [|reflexivity]. destruct Hwrong as [Hv|Hd]; [|rewrite Hd; by rewrite orb_true_r].
    destruct (Verify _ _ _); [done|]. by destruct Hv.
  - unfold AdminUserForLogin, GetAdminUserByEmail in Ef. destruct (find_user _ _); [done|].
    injection Ef as <-. eapply Hrefuse; [|reflexivity]. by rewrite orb_true_r.
Qed.

(** The ids of the audit rows were all handed out. *)
Definition audit_ids (w : user_world) : Prop := ∀ e, e ∈ db_audit (uw_db w) → ae_ID e ∈ uw_ids w.

Lemma insertAudit_fresh db e :
  ae_Actor e ≠ "" → ae_Action e ≠ "" → (∀ e', e' ∈ db_audit db → ae_ID e' ≠ ae_ID e) →
  insertAudit db e = (set_audit db (db_audit db ++ [stored_audit e]), None).
Proof.
  intros Ha Hc Hf. unfold insertAudit. destruct (_ || _) eqn:E; [|done]. exfalso.
  apply orb_true_iff in E as [E|E].
  - apply orb_true_iff in E as [E|E]; by apply String.eqb_eq in E.
  - apply existsb_exists in E as (e' & Hin & He). apply list_elem_of_In in Hin.
    apply andb_true_iff in He as [He _]. apply N.eqb_eq in He. by apply (Hf e').
Qed.

Lemma auditSessionReuse_fine session now Q w :
  audit_ids w →
  (∀ w', sessions_cut (au_ID (as_User session)) (uw_db w') → Q tt w') →
  wp (perform IDKey) fine (auditSessionReuse session now) (λ x w' _, Q x w') w.
Proof.
  intros Hids HQ. unfold auditSessionReuse. apply wp_bind, wp_and_then, auditEntry_fine.
  intros id at_ w1 [Hdb _] Hid ch [Hf _]. cbn [perform]. unfold writing, RevokeAdminSessions, inTx, audited, stmt.
  rewrite insertAudit_fresh; [|done|done|].
  - rewrite Hf. apply HQ. apply revoke_all_cuts.
  - simpl. intros e He Heq. rewrite Hdb in He. apply Hids in He. by rewrite Heq in He.
Qed.

(** The session a filed token is found by. *)
Lemma session_found w id row presented :
  db_wf (uw_db w) → db_tokens (uw_db w) !! id = Some row → tr_hash row = hashSecret sha256 presented →
  ∃ q, db_users (uw_db w) !! rt_UserID (tr_token row) = Some q ∧
    AdminSessionByTokenHash (uw_db w) (hashSecret sha256 presented) = Ok (mkAdminSession (tr_token row) (ur_user q)).
Proof.
  intros Hwf Hid Hh. destruct (wf_token _ Hwf id row Hid) as (_ & [q Hq] & _ & _). exists q. split; [done|].
  unfold AdminSessionByTokenHash, GetAdminRefreshTokenByHash. destruct (find_token _ _) as [row'|] eqn:Ef.
  - apply find_token_Some in Ef as [He [id' Hid']]. bool_prop.
    assert (id' = id) as -> by (eapply (wf_hash _ Hwf); [done..|congruence]). simplify_eq. by rewrite Hq.
  - eapply find_token_None in Hid; [|exact Ef]. by apply bool_decide_eq_false in Hid.
Qed.

(** C24. Presenting a refresh token that has already been used or revoked is taken for theft. It is
    refused, whatever fails on the way: nothing is handed out. And when no call of the store fails
    and the ids of the audit log were all handed out by the generator, so that the entry's is new,
    every session of its owner is revoked. A revocation that does fail is only logged, and leaves
    the sessions as they were. *)
Theorem refresh_reuse_cuts_sessions u presented ch chs w w' r tr id row :
  db_wf (uw_db w) →
  db_tokens (uw_db w) !! id = Some row → tr_hash row = hashSecret sha256 presented →
  RefreshToken_Revoked (tr_token row) = true →
  run (perform IDKey) (ch :: chs) (Refresh sha256 u presented) w = Some (w', r, tr) →
  is_ok r = false ∧
  (audit_ids w → Forall fine chs → r = Err ErrUnauthenticated ∧ sessions_cut (rt_UserID (tr_token row)) (uw_db w')).
Proof.
  intros Hwf Hid Hh Hrev Hrun. destruct (session_found _ _ _ _ Hwf Hid Hh) as (q & Hq & Hs). split; [|intros Hids Hok].
  - clear Hid Hh Hq. pattern r, w', tr. eapply (wp_run_call _ (λ _, True)); [by apply Forall_true| |exact Hrun].
    clear Hrun r w' tr. cbn [perform fst snd]. apply wp_call. intros ch1 _. cbn [perform]. unfold reading. rewrite Hs.
    destruct (mo_fault ch1); cbn [fst snd]; [|by destruct (Is _ _)..]. cbn [as_Token as_User]. rewrite Hrev.
    apply wp_bind, auditSessionReuse_wp. done.
  - pattern r, w', tr. eapply wp_run_call; [exact Hok| |exact Hrun]. clear Hrun r w' tr.
    cbn [perform fst snd]. apply wp_call. intros ch1 [Hf _]. cbn [perform]. unfold reading. rewrite Hf, Hs.
    cbn [fst snd as_Token as_User]. rewrite Hrev. apply wp_bind, (auditSessionReuse_fine _ _ _ _ Hids).
    intros w' Hc. split; [done|]. destruct (wf_user _ Hwf _ _ Hq) as (He & _). simpl in Hc. by rewrite He in Hc.
Qed.

Lemma choosePassword_quiet supplied email : only quiet (choosePassword sha256 supplied email).
Proof. unfold choosePassword. by destruct (String.eqb supplied ""). Qed.

Lemma choosePassword_returns supplied email :
  returns (λ r, ∀ pl gen, r = Ok (pl, gen) → pl = if String.eqb supplied "" then gen else supplied)
    (choosePassword sha256 supplied email).
Proof.
  unfold choosePassword. destruct (String.eqb supplied ""); simpl.
  - intros [b|e] pl gen; simpl; [by intros [= <- <-]|done].
  - intros pl gen. by destruct (Check_password _ _); intros [= <- <-].
Qed.

Lemma read_full_length n r b : read_full n r = Ok b → length b = n.
Proof. destruct r as [b'|e]; simpl; [|done]. intros [= <-]. apply length_resize. Qed.

Lemma SetAdminUserPassword_Ok db id hash at_ e db' user :
  SetAdminUserPassword db id hash at_ e = (db', Ok user) →
  ∃ r, db_users db !! id = Some r ∧ user = change_password at_ (ur_user r) ∧
    db_users db' !! id = Some (mkUserRow user hash) ∧ sessions_cut id db'.
Proof.
  unfold SetAdminUserPassword. intros Hp. apply inTx_Ok in Hp. unfold Sql_SetAdminUserPassword in Hp.
  destruct (db_users db !! id) as [r|] eqn:Er; [|done]. destruct (String.eqb hash ""); [done|].
  apply audited_Ok in Hp as [<- ->]. exists r. split_and!; [done|done| |apply revoke_all_cuts].
  simpl. by rewrite lookup_insert_eq.
Qed.

(** A password change that succeeds revokes every session opened under the old password
    and files a hash the new one, chosen or generated, verifies against. *)
Theorem SetPassword_replaces wr email plain chs w w' created tr :
  (∀ p s t m pl n, 0 ≤ n → blen (IDKey p s t m pl n) = n) →
  db_wf (uw_db w) →
  run (perform IDKey) chs (SetPassword sha256 wr email plain) w = Some (w', Ok created, tr) →
  let user := au_ID (cu_User created) in
  let chosen := if String.eqb plain "" then cu_Password created else plain in
  sessions_cut user (uw_db w') ∧
  ∃ r, db_users (uw_db w') !! user = Some r ∧ cu_User created = ur_user r ∧
    au_Email (ur_user r) = NormaliseEmail email ∧ Verify IDKey (ur_hash r) (lit chosen) = None.
Proof.
  intros Hkey Hwf Hrun. revert Hrun. remember (Ok created) as r eqn:Er. intros Hrun.
  revert created Er. pattern r, w', tr.
  eapply (wp_run _ (λ _, True)); [by apply Forall_true| |exact Hrun]. clear Hrun r w' tr.
  unfold SetPassword. apply wp_and_then. unfold byEmail, wrap_error. apply wp_call. intros ch1 _. cbn [perform].
  unfold reading. cbn [fst snd]. destruct (mo_fault ch1); [|intros c [=]..].
  destruct (AdminUserByEmail _ _) as [user|e] eqn:Eu; [|intros c [=]].
  assert (Hu : ∃ id r, db_users (uw_db w) !! id = Some r ∧ user = ur_user r ∧ au_Email user = NormaliseEmail email).
  { unfold AdminUserByEmail, GetAdminUserByEmail in Eu. destruct (find_user _ _) as [r|] eqn:Ef; [|done].
    injection Eu as <-. apply find_user_Some in Ef as [He [id Hr]]. bool_prop. eauto. }
  destruct Hu as (id & r & Hr & Hu & Hemail). destruct (wf_user _ Hwf id r Hr) as (Hid & _).
  simpl. apply wp_and_then.
  eapply wp_quiet; [apply choosePassword_quiet|apply choosePassword_returns|].
  intros [[pl gen]|e] w1 tr1 [Hdb1 _] Hpl; [|intros c [=]]. specialize (Hpl pl gen eq_refl).
  apply wp_and_then, wp_call. intros ch2 _. cbn [perform fst snd].
  destruct (Hash IDKey _ (lit pl)) as [hash|e] eqn:Eh; [|intros c [=]].
  destruct (read_full saltLength (mo_random ch2)) as [salt|e] eqn:Es.
  2: { unfold Hash in Eh. destruct (checkLength (lit pl)); discriminate. }
  apply read_full_length in Es. apply Hash_Ok in Eh as [_ ->].
  apply wp_and_then. apply (wp_quiet IDKey _ (λ _, True)); [apply auditEntry_quiet|by apply returns_any|].
  intros [entry|e] w2 tr2 [Hdb2 _] _; [|intros c [=]].
  apply wp_call. intros ch3 _. cbn [perform fst snd]. apply wp_and_then. intros ch4 _. cbn [perform].
  unfold writing. destruct (SetAdminUserPassword _ _ _ _ _) as [db' [user'|e]] eqn:Ew;
    destruct (mo_fault ch4); cbn [fst snd]; intros c; try done. intros [= <-]. cbn [cu_User cu_Password].
  apply SetAdminUserPassword_Ok in Ew as (r' & Hr' & -> & Hnew & Hcut).
  rewrite Hdb2, Hdb1, Hu, Hid in Hr'. simplify_eq. cbn [au_ID change_password]. split; [done|].
  eexists. split; [exact Hnew|]. split_and!; [done|done|].
  cbn [ur_hash]. rewrite Verify_encode; [|done|by destruct salt].
  by rewrite bool_decide_eq_true_2.
Qed.

Lemma CreateAdminUser_row db now user hash e db' row :
  CreateAdminUser db now user hash e = (db', Ok row) →
  db_users db' !! au_ID user = Some (mkUserRow row hash) ∧ au_ID row = au_ID user ∧
  au_Email row = au_Email user ∧ AdminUser_Disabled row = false ∧
  db_users db !! au_ID user = None ∧ db_tokens db' = db_tokens db.
Proof.
  unfold CreateAdminUser. intros Hc. apply inTx_Ok in Hc. unfold Sql_CreateAdminUser in Hc.
  destruct (_ || negb (Role_Valid _)); [done|]. destruct (is_ok _); [done|].
  destruct (db_users db !! au_ID user) eqn:En; [done|]. apply audited_Ok in Hc as [<- ->]. cbn.
  by rewrite lookup_insert_eq.
Qed.

Definition no_sessions (db : AdminDb) (user : uuid) : Prop :=
  ∀ id row, db_tokens db !! id = Some row → rt_UserID (tr_token row) ≠ user.

Lemma no_sessions_of_nobody db db' user :
  db_wf db → db_users db !! user = None → db_tokens db' = db_tokens db → no_sessions db' user.
Proof.
  intros Hwf Hn Ht id row Hid <-. rewrite Ht in Hid. destruct (wf_token _ Hwf _ _ Hid) as (_ & [q Hq] & _). congruence.
Qed.

(** The password an account was made with: the one printed, or the one supplied. *)
Definition account_password (spec : NewAdminUser) (created : CreatedAdminUser) : string :=
  if String.eqb (nu_Password spec) "" then cu_Password created else nu_Password spec.

Lemma Create_wp u wr spec w :
  (∀ p s t m pl n, 0 ≤ n → blen (IDKey p s t m pl n) = n) → db_wf (uw_db w) →
  wp (perform IDKey) (λ _, True) (Create sha256 u wr spec)
    (λ r w' _, ∀ created, r = Ok created →
       TooLong (lit (account_password spec created)) = false ∧
       (∀ ip, right_credentials (uw_db w') (mkCredentials (nu_Email spec) (account_password spec created) ip)
               (cu_User created)) ∧
       no_sessions (uw_db w') (au_ID (cu_User created))) w.
Proof.
  intros Hkey Hwf. unfold Create. destruct (ValidateEmail _); [intros c [=]|]. destruct (negb _); [intros c [=]|].
  apply wp_and_then. eapply wp_quiet; [apply choosePassword_quiet|apply choosePassword_returns|].
  intros [[pl gen]|e] w1 tr1 [Hdb1 _] Hpl; [|intros c [=]]. specialize (Hpl pl gen eq_refl).
  apply wp_and_then. unfold wrap_error. apply wp_call. intros ch1 _. cbn [perform fst snd].
  destruct (Hash IDKey _ (lit pl)) as [hash|e] eqn:Eh; [|intros c [=]].
  destruct (read_full saltLength (mo_random ch1)) as [salt|e] eqn:Es.
  2: { unfold Hash in Eh. destruct (checkLength (lit pl)); discriminate. }
  apply read_full_length in Es. destruct (Hash_then_Verify IDKey Hkey salt (lit pl) hash Es Eh) as (Hver & Hlong & _).
  apply wp_and_then, (wp_quiet IDKey _ (λ _, True)); [done|by apply returns_any|].
  intros [id|e] w2 tr2 [Hdb2 _] _; [|intros c [=]]. apply wp_call. intros ch2 _. cbn [perform fst snd].
  apply wp_and_then, (wp_quiet IDKey _ (λ _, True)); [apply auditEntry_quiet|by apply returns_any|].
  intros [entry|e] w3 tr3 [Hdb3 _] _; [|intros c [=]]. apply wp_and_then. intros ch3 _. cbn [perform].
  unfold writing. destruct (CreateAdminUser _ _ _ _ _) as [db' [user|e]] eqn:Ew;
    destruct (mo_fault ch3); cbn [fst snd]; intros c; try done. intros [= <-].
  apply CreateAdminUser_row in Ew as (Hrow & Hid & Hmail & Hdis & Hnone & Htok). cbn [cu_User] in *.
  assert (Hpw : account_password spec (mkCreatedAdminUser user gen) = pl) by (by rewrite Hpl).
  rewrite Hpw. split; [done|]. split.
  2:{ rewrite Hid. apply (no_sessions_of_nobody (uw_db w)); [done| |].
      - by rewrite <- Hdb1, <- Hdb2, <- Hdb3.
      - cbn [uw_db with_db]. by rewrite Htok, Hdb3, Hdb2, Hdb1. }
  intros ip. eexists. cbn [au_ID] in Hrow. rewrite Hid. split_and!; [exact Hrow|done..].
Qed.

(** What is looked up under the address is the person the credentials are of. *)
Lemma right_credentials_found db c user :
  db_wf db → right_credentials db c user →
  ∃ hash, AdminUserForLogin db (NormaliseEmail (cr_Email c)) = Ok (user, hash) ∧
    Verify IDKey hash (lit (cr_Password c)) = None.
Proof.
  intros Hwf (r & Hr & -> & He & _ & Hv). exists (ur_hash r). split; [|done].
  unfold AdminUserForLogin, GetAdminUserByEmail. destruct (find_user _ _) as [q|] eqn:Ef.
  - apply find_user_Some in Ef as [Hq [id Hid]]. apply String.eqb_eq in Hq.
    assert (id = au_ID (ur_user r)) as -> by (eapply (wf_email _ Hwf); [done..|congruence]). by simplify_eq.
  - eapply find_user_None in Hr; [|exact Ef]. cbv beta in Hr. by rewrite He, String.eqb_refl in Hr.
Qed.

(** *** Starting a session, when nothing fails *)

Definition token_ids (w : user_world) : Prop := ∀ id, is_Some (db_tokens (uw_db w) !! id) → id ∈ uw_ids w.

(** A refresh token made from this randomness is none that is filed. *)
Definition new_secret (db : AdminDb) (ch : moment) : Prop :=
  ∀ m id row, Mint sha256 RefreshTokenPrefix (read_full 32 (mo_random ch)) = Ok m →
    db_tokens db !! id = Some row → tr_hash row ≠ Secret_Hash m.

Lemma nothing_to_sweep db user before :
  db_wf db → no_sessions db user → Sql_DeleteExpiredAdminRefreshTokens db user before = (db, None).
Proof.
  intros Hwf Hno. unfold Sql_DeleteExpiredAdminRefreshTokens.
  assert (E : filter (λ kr : uuid * token_row, swept user before kr.2 = false) (db_tokens db) = db_tokens db).
  { apply map_filter_id. intros id row Hid. unfold swept. simpl. apply Hno in Hid. by apply N.eqb_neq in Hid as ->. }
  rewrite E. destruct (existsb _ _) eqn:Ex; [|by destruct db].
  apply existsb_exists in Ex as (row & Hin & Hd). apply list_elem_of_In, list_elem_of_fmap in Hin as ([id row'] & -> & Hin).
  apply elem_of_map_to_list in Hin. unfold dangling in Hd. simpl in Hd. destruct (rt_ReplacedBy _) as [s|] eqn:Er; [|done].
  destruct (wf_replaced _ Hwf _ _ _ Hin Er) as [_ [x Hx]]. apply bool_decide_eq_true in Hd. congruence.
Qed.

Lemma StartAdminSession_new db s e r :
  db_wf db → no_sessions db (ns_UserID s) → db_users db !! ns_UserID s = Some r →
  db_tokens db !! ns_ID s = None → (∀ id row, db_tokens db !! id = Some row → tr_hash row ≠ ns_TokenHash s) →
  length (ns_TokenHash s) = 32%nat → pg_time (ns_IssuedAt s) < pg_time (ns_ExpiresAt s) →
  ae_Actor e ≠ "" → ae_Action e ≠ "" → (∀ e', e' ∈ db_audit db → ae_ID e' ≠ ae_ID e) →
  ∃ db', StartAdminSession db s e = (db', Ok tt).
Proof.
  intros Hwf Hno Hr Hid Hhash Hlen Htime Ha Hc Hids. unfold StartAdminSession, inTx, stmt.
  rewrite nothing_to_sweep by done. unfold insertSession, stmt, Sql_CreateAdminRefreshToken.
  rewrite Hlen, (proj2 (Z.ltb_lt _ _) Htime), Hid, Hr. simpl.
  destruct (find_token _ _) as [row|] eqn:Ef.
  { apply find_token_Some in Ef as [He [i Hi]]. apply bool_decide_eq_true in He. by destruct (Hhash i row Hi). }
  unfold audited, stmt. rewrite insertAudit_fresh; [eauto|done|done|].
  unfold Sql_TouchAdminUserLogin. cbn [db_users set_tokens]. by rewrite Hr.
Qed.

Lemma later_in_store t d : Microsecond ≤ d → pg_time t < pg_time (Add t d).
Proof.
  intros Hd. unfold pg_time, Add. apply Z.mul_lt_mono_pos_r; [done|].
  assert (t / Microsecond + 1 ≤ (t + d) / Microsecond); [|lia].
  rewrite <- (Z.div_add t 1) by done. apply Z.div_le_mono; [done|lia].
Qed.

(** The issuer signs, and a session lasts at least as long as the store can tell. *)
Definition able u : Prop :=
  (∃ i, us_issuer u = Some i ∧ ∀ c, is_ok (SignedString (is_secret i) c) = true) ∧ Microsecond ≤ us_refreshTTL u.

Lemma startSession_fine u user now w r Q :
  (∀ b, length (sha256 b) = 32%nat) → able u → db_wf (uw_db w) → audit_ids w → token_ids w →
  no_sessions (uw_db w) (au_ID user) → db_users (uw_db w) !! au_ID user = Some r →
  (∀ t w' id tr, st_User t = user → uw_throttle w' = uw_throttle w →
     db_tokens (uw_db w') !! id = Some (mkTokenRow (mkAdminRefreshToken id (au_ID user) (pg_time now)
       (pg_time (Add now (us_refreshTTL u))) None None) (hashSecret sha256 (st_RefreshToken t))) → Q (Ok t) w' tr) →
  wp (perform IDKey) (λ ch, fine ch ∧ new_secret (uw_db w) ch) (startSession sha256 u user now) Q w.
Proof.
  intros Hsha ((i & Hi & Hsign) & Httl) Hwf Hau Htk Hno Hr HQ. unfold startSession, issue. rewrite Hi.
  apply wp_and_then, wp_call. intros ch1 [F1 _]. cbn [perform].
  destruct (fine_id ch1 w F1) as (j & w1 & E1 & [Hdb1 Hth1] & _). rewrite E1. cbn [fst snd].
  assert (Hw1 : uw_ids w ⊆ uw_ids w1).
  { unfold new_uuid in E1. destruct (hand_out _ _) as [ids r1] eqn:Eh. injection E1 as <- ->. apply hand_out_Ok in Eh as [_ ->]. set_solver. }
  apply wp_call. intros ch2 _. cbn [perform fst snd]. unfold Issue.
  match goal with |- context [SignedString ?k ?c] => pose proof (Hsign c) as Hs; destruct (SignedString k c) as [access|e]; [|done] end.
  cbn [wp result_bind]. cbv zeta. apply wp_and_then. unfold mintSession. apply wp_and_then, wp_call. intros ch3 [F3 N3]. cbn [perform fst snd].
  unfold new_secret in N3. destruct (read_full 32 (mo_random ch3)) as [b|e] eqn:Eb.
  2:{ destruct F3 as (_ & _ & [b Hb]). unfold read_full in Eb. by destruct (mo_random ch3). }
  destruct (Mint sha256 RefreshTokenPrefix (Ok b)) as [m|e] eqn:Em; [|done].
  assert (Hm : Secret_Hash m = hashSecret sha256 (Secret m)).
  { unfold Mint in Em. injection Em as <-. unfold hashSecret. simpl. by rewrite lit_str. }
  apply wp_and_then. unfold newID, wrap_error. apply wp_call. intros ch4 [F4 _]. cbn [perform].
  destruct (fine_id ch4 w1 F4) as (sid & w2 & E2 & [Hdb2 Hth2] & Hsid). rewrite E2. cbn [wp fst snd].
  assert (Hw2 : uw_ids w1 ⊆ uw_ids w2).
  { unfold new_uuid in E2. destruct (hand_out _ _) as [ids r1] eqn:Eh. injection E2 as <- ->. apply hand_out_Ok in Eh as [_ ->]. set_solver. }
  apply wp_and_then. eapply (wp_weaken _ fine); [by intros ch [? _]|]. apply auditEntry_fine.
  intros aid at_ w3 [Hdb3 Hth3] Haid. apply wp_and_then. intros ch5 [[F5 _] _]. cbn [perform]. unfold writing. rewrite F5.
  set (sess := mkNewAdminSession sid (au_ID user) (Secret_Hash m) now (Add now (us_refreshTTL u))).
  set (entry := mkAuditEntry aid at_ None None (AdminUser_Actor user) "user.login" (userDetail user)).
  assert (Hdb : uw_db w3 = uw_db w) by congruence.
  destruct (StartAdminSession_new (uw_db w3) sess entry r) as [db' Es]; rewrite ?Hdb; try done.
  - apply eq_None_not_Some. intros Hs'. apply Hsid, Hw1, Htk, Hs'.
  - intros id row Hid. exact (N3 m id row eq_refl Hid).
  - cbn. rewrite Hm. apply Hsha.
  - by apply later_in_store.
  - intros e' He' Heq. apply Haid, Hw2, Hw1. apply Hau in He'. cbn in Heq. by rewrite <- Heq.
  - rewrite Hdb in Es. rewrite Es. cbn. apply (HQ _ _ sid); [done|simpl; congruence|].
    apply StartAdminSession_Ok in Es as [Es _]. cbn in *. rewrite Es. unfold session_row. cbn. by rewrite Hm.
Qed.

(** C23. A person that was created can log in with what they were created with: the address as it
    was typed, and the password supplied or, if none was, the one printed. Straight after their
    creation, when the client is not throttled, nothing fails (the store, the random source, the
    ids, signing the access token), the ids in the store came from the generator, the refresh
    token made is not one that is filed already and sessions last at least a microsecond, the
    login succeeds: the client's failures are forgotten, the tokens are that person's, and the
    store holds their session, filed under the hash of the refresh token handed out. *)
Theorem created_person_logs_in u wr spec chs w w1 created tr1 ip u' ch chs' w2 r tr2 :
  (∀ p s t m pl n, 0 ≤ n → blen (IDKey p s t m pl n) = n) → (∀ b, length (sha256 b) = 32%nat) →
  db_wf (uw_db w) →
  run (perform IDKey) chs (Create sha256 u wr spec) w = Some (w1, Ok created, tr1) →
  au_ID (cu_User created) ≠ uuid_Nil → audit_ids w1 → token_ids w1 → able u' →
  Forall (λ ch, fine ch ∧ new_secret (uw_db w1) ch) chs' →
  let c := mkCredentials (nu_Email spec) (account_password spec created) ip in
  let key := throttle_key (NormaliseEmail (nu_Email spec)) ip in
  blocked (uw_throttle w1) key (mo_now ch) = false →
  run (perform IDKey) (ch :: chs') (Login sha256 dummy u' c) w1 = Some (w2, r, tr2) →
  ∃ t id, r = Ok t ∧ st_User t = cu_User created ∧ uw_throttle w2 = succeed (uw_throttle w1) key ∧
    db_tokens (uw_db w2) !! id = Some (mkTokenRow (mkAdminRefreshToken id (au_ID (cu_User created)) (pg_time (mo_now ch))
      (pg_time (Add (mo_now ch) (us_refreshTTL u'))) None None) (hashSecret sha256 (st_RefreshToken t))).
Proof.
  intros Hkey Hsha Hwf Hcreate Hnil Hau Htk Hable Hok c key Hb Hlogin.
  assert (Hwf1 : db_wf (uw_db w1)) by (by apply (run_wf _ _ _ _ _ _ _ Hcreate)).
  destruct (wp_run _ (λ _, True) _ _ _ _ _ _ _ ltac:(by apply Forall_true) (Create_wp u wr spec w Hkey Hwf) Hcreate
              created eq_refl) as (Hlong & Hright & Hno).
  specialize (Hright ip). destruct (right_credentials_found _ _ _ Hwf1 Hright) as (hash & Hfound & Hver).
  destruct Hright as (row & Hrow & _ & _ & Hdis & _). cbn [cr_Email cr_Password c] in Hfound, Hver.
  pattern r, w2, tr2. eapply wp_run_call; [exact Hok| |exact Hlogin]. clear Hcreate Hlogin r w2 tr2.
  cbn [perform fst snd]. apply wp_call. intros ch1 _. cbn [perform fst snd]. cbn [cr_Email cr_Password cr_ClientIP c].
  fold key. rewrite Hb, Hlong. apply wp_call. intros ch2 [[Hf _] _]. cbn [perform]. unfold reading. rewrite Hf, Hfound.
  cbn [fst snd]. unfold check_password. apply wp_call. intros ch3 _. cbn [perform fst snd cr_Password].
  change (cr_Password c) with (account_password spec created). rewrite Hver, Hdis, (proj2 (N.eqb_neq _ _) Hnil). cbn [orb bool_decide].
  rewrite bool_decide_eq_false_2 by (by intros [? [=]]). cbn [orb].
  apply wp_call. intros ch4 _. cbn [perform fst snd].
  apply (startSession_fine u' _ _ (with_throttle w1 (succeed (uw_throttle w1) key)) row); [done..|].
  intros t w' id tr Ht Hth Hid. exists t, id. by split_and!.
Qed.
End Alone.
