(* ===== verification/UserExamples.v ===== *)
(** Calls of [Users] on a concrete world: that the theorems about them have instances, and
    what goes wrong where it does. *)
From Stdlib Require Import Ascii.
From stdpp Require Import gmap infinite.
From S2P Require Import Prelude Errors Bytes Utf8 Password Accounts Tokens Email Throttle Programs Env AdminDb Users UserWorld UserProps.

(** ** A world with one person *)

Definition toy_sha (b : bytes) : bytes := resize 32 "000"%char (reverse b).
Lemma toy_sha_length b : length (toy_sha b) = 32%nat.
Proof. apply length_resize. Qed.
Definition ex_moment (now : time) (n : N) : moment :=
  mkMoment Fine now (Ok n) (Ok (replicate 32 (ascii_of_N n))).
(** Twelve moments a millisecond apart, with ids from [n]. *)
Definition ex_rest (now : time) (n : nat) : list moment :=
  map (λ i, ex_moment (now + Z.of_nat i * Millisecond) (N.of_nat (n + i))) (seq 1 11).
Definition ex_moments (now : time) (n : nat) : list moment := ex_moment now (N.of_nat n) :: ex_rest now n.
Definition ex_run {A} (chs : list moment) (p : uprog A) (w : user_world) : option (user_world * A) :=
  match run (perform toy_key) chs p w with Some (w, x, _) => Some (w, x) | None => None end.
Definition after {A} (chs : list moment) (p : uprog A) (w : user_world) : user_world :=
  match ex_run chs p w with Some (w, _) => w | None => w end.

Definition empty_world : user_world := mkUserWorld empty_db newThrottle {[uuid_Nil]}.
Definition ex_dummy : string := Dummy toy_key (replicate 16 "d"%char).
Definition ex_users : Users := NewUsers (Some ex_issuer) 0.
Definition cli : Write := mkWrite "cli".
Definition ex_world : user_world :=
  after (ex_moments 0 1) (Create toy_sha ex_users cli
    (mkNewAdminUser " Ops@Example.com" RoleAdmin "correct horse battery")) empty_world.
Definition ex_person : uuid := 2%N.
Definition ex_creds (password : string) : Credentials := mkCredentials "ops@example.com" password "10.0.0.1".
Definition ex_login (password : string) := Login toy_sha ex_dummy ex_users (ex_creds password).


Lemma after_wf {A} chs (p : uprog A) w : db_wf (uw_db w) → db_wf (uw_db (after chs p w)).
Proof.
  unfold after, ex_run. destruct (run (perform toy_key) chs p w) as [[[w' x] tr]|] eqn:E; [|done].
  by apply (run_wf _ _ _ _ _ _ _ E).
Qed.

Lemma ex_world_wf : db_wf (uw_db ex_world).
Proof. apply after_wf, empty_wf. Qed.

(** What a run ends with, by evaluation. *)
Definition ends {A} chs (p : uprog A) w : bool :=
  match run (perform toy_key) chs p w with Some _ => true | None => false end.
Definition ends_ok {A} chs (p : uprog (result error A)) w : bool :=
  match run (perform toy_key) chs p w with Some (_, Ok _, _) => true | _ => false end.

Lemma run_ends {A} chs (p : uprog A) w :
  ends chs p w = true →
  ∃ w' x tr, run (perform toy_key) chs p w = Some (w', x, tr).
Proof. unfold ends. destruct (run _ _ _ _) as [[[w' x] tr]|]; [eauto|done]. Qed.

Lemma run_ends_ok {A} chs (p : uprog (result error A)) w :
  ends_ok chs p w = true →
  ∃ w' x tr, run (perform toy_key) chs p w = Some (w', Ok x, tr).
Proof. unfold ends_ok. destruct (run _ _ _ _) as [[[w' [x|e]] tr]|]; [eauto|done..]. Qed.

(** Two people made at once, by two calls that interleave. *)
Lemma store_stays_well_formed_witness :
  let p := Create toy_sha ex_users cli in
  let s := mkPool empty_world [p (mkNewAdminUser "a@x.org" RoleAdmin ""); p (mkNewAdminUser "b@x.org" RoleReadonly "")] in
  let s' := schedule (perform toy_key)
              (concat (map (λ ch, [(0%nat, ch); (1%nat, ch)]) (ex_moments 0 1))) s in
  db_wf (uw_db (p_world s')) ∧ size (db_users (uw_db (p_world s'))) = 2%nat.
Proof.
  intros p s s'. split; [|by vm_compute].
  apply (store_stays_well_formed toy_key _ (λ _, False) s s'); [apply empty_wf|apply schedule_steps].
Defined.

Definition disabled_world : user_world := after (ex_moments Hour 30) (Disable cli "ops@example.com") ex_world.

Lemma disabled_locked_out : locked_out ex_person (uw_db disabled_world).
Proof.
  split; [apply after_wf, ex_world_wf|]. eexists. split; [vm_compute; reflexivity|]. by vm_compute.
Qed.

(** The right password of a disabled person. *)
Definition disabled_start : pool user_action user_world (result error AdminSessionTokens) :=
  mkPool disabled_world [ex_login "correct horse battery"].
Definition disabled_end := schedule (perform toy_key) (map (λ ch, (0%nat, ch)) (ex_moments (2 * Hour) 50)) disabled_start.

Lemma disabled_gets_no_tokens_witness :
  ∃ r, p_threads disabled_end !! 0%nat = Some (Ret r) ∧ ∀ t, r = Ok t → au_ID (st_User t) ≠ ex_person.
Proof.
  exists (Err ErrUnauthenticated). split; [vm_compute; reflexivity|].
  apply (disabled_gets_no_tokens toy_key toy_sha ex_dummy ex_person ex_users
    (ex_login "correct horse battery") (λ _, False) disabled_start disabled_end 0 (Err ErrUnauthenticated)).
  - exact disabled_locked_out.
  - reflexivity.
  - left. exists (ex_creds "correct horse battery"). reflexivity.
  - apply schedule_steps.
  - vm_compute. reflexivity.
Defined.

(** Right credentials, presented after one failure. *)
Definition failed_world : user_world := after (ex_moments Minute 30) (ex_login "a wrong password") ex_world.

Lemma ex_ends_ok_1 : ends_ok (ex_moments Hour 50) (ex_login "correct horse battery") failed_world = true.
Proof. by vm_compute. Qed.

Lemma Login_sound_witness :
  blocked (uw_throttle failed_world) (throttle_key "ops@example.com" "10.0.0.1") Hour = false ∧
  uw_throttle (after (ex_moments Hour 50) (ex_login "correct horse battery") failed_world) =
    succeed (uw_throttle failed_world) (throttle_key "ops@example.com" "10.0.0.1").
Proof.
  destruct (run_ends_ok _ _ _ ex_ends_ok_1) as (w' & t & tr & E).
  destruct (Login_sound toy_sha ex_dummy toy_key ex_users (ex_creds "correct horse battery")
    (ex_moment Hour 50) (ex_rest Hour 50) failed_world w' t tr
    (after_wf _ _ _ ex_world_wf) E) as (Hb & _ & _ & Ht & _).
  split; [exact Hb|]. unfold after, ex_run. rewrite E. exact Ht.
Defined.

Definition logged_in : option (user_world * result error AdminSessionTokens) :=
  ex_run (ex_moments Hour 50) (ex_login "correct horse battery") ex_world.
Definition login_world : user_world := match logged_in with Some (w, _) => w | None => ex_world end.
Definition login_token : string :=
  match logged_in with Some (_, Ok t) => st_RefreshToken t | _ => "" end.

Lemma login_world_wf : db_wf (uw_db login_world).
Proof. exact (after_wf (ex_moments Hour 50) (ex_login "correct horse battery") ex_world ex_world_wf). Qed.

Lemma ex_ends_ok_2 : ends_ok (ex_moments (2 * Hour) 70) (Refresh toy_sha ex_users login_token) login_world = true.
Proof. by vm_compute. Qed.

Lemma Refresh_sound_witness :
  ∃ id r, db_tokens (uw_db login_world) !! id = Some r ∧ tr_hash r = hashSecret toy_sha login_token ∧
    RefreshToken_Usable (tr_token r) (2 * Hour) = true.
Proof.
  destruct (run_ends_ok _ _ _ ex_ends_ok_2) as (w' & t & tr & E).
  destruct (Refresh_sound toy_sha toy_key ex_users login_token
    (ex_moment (2 * Hour) 70) (ex_rest (2 * Hour) 70) login_world w' t tr
    login_world_wf E) as (id & r & next & Hr & Hh & Hu & _).
  exists id, r. split; [exact Hr|]. split; [exact Hh|exact Hu].
Defined.

Lemma rest_fine now n : Forall fine (ex_rest now n).
Proof. apply Forall_forall. intros ch Hin. apply list_elem_of_fmap in Hin as (i & -> & _). split_and!; [done|by eexists..]. Qed.

Definition stranger : Credentials := mkCredentials "eve@example.com" "whatever it takes" "10.0.0.1".
Definition mistaken : Credentials := ex_creds "a wrong password".

Lemma not_blocked c : blocked (uw_throttle ex_world) (throttle_key (NormaliseEmail (cr_Email c)) (cr_ClientIP c)) Hour = false.
Proof. done. Qed.
Lemma not_long : TooLong (lit (cr_Password stranger)) = false ∧ TooLong (lit (cr_Password mistaken)) = false.
Proof. by vm_compute. Qed.
Lemma wrong_stranger : wrong_credentials toy_key (uw_db ex_world) stranger.
Proof. by vm_compute. Qed.
Lemma wrong_mistaken : wrong_credentials toy_key (uw_db ex_world) mistaken.
Proof. vm_compute. by left. Qed.

Lemma ex_ends_3 : ends (ex_moments Hour 50) (Login toy_sha ex_dummy ex_users stranger) ex_world = true.
Proof. by vm_compute. Qed.
Lemma ex_ends_4 : ends (ex_moments Hour 50) (Login toy_sha ex_dummy ex_users mistaken) ex_world = true.
Proof. by vm_compute. Qed.

(** A stranger's address and a wrong password are refused alike. *)
Lemma login_refusals_alike_witness :
  (∃ w' tr, run (perform toy_key) (ex_moments Hour 50) (Login toy_sha ex_dummy ex_users stranger) ex_world
     = Some (w', Err ErrUnauthenticated, tr)) ∧
  (∃ w' tr, run (perform toy_key) (ex_moments Hour 50) (Login toy_sha ex_dummy ex_users mistaken) ex_world
     = Some (w', Err ErrUnauthenticated, tr)).
Proof.
  split.
  - destruct (run_ends _ _ _ ex_ends_3) as (w' & r & tr & E). exists w', tr. rewrite E.
    destruct (login_refusals_alike toy_sha ex_dummy toy_key ex_users stranger
      (ex_moment Hour 50) (ex_rest Hour 50) ex_world w' r tr (rest_fine _ _)
      (not_blocked _) (proj1 not_long) wrong_stranger E) as [-> _].
    reflexivity.
  - destruct (run_ends _ _ _ ex_ends_4) as (w' & r & tr & E). exists w', tr. rewrite E.
    destruct (login_refusals_alike toy_sha ex_dummy toy_key ex_users mistaken
      (ex_moment Hour 50) (ex_rest Hour 50) ex_world w' r tr (rest_fine _ _)
      (not_blocked _) (proj2 not_long) wrong_mistaken E) as [-> _].
    reflexivity.
Defined.

Definition ops : NewAdminUser := mkNewAdminUser " Ops@Example.com" RoleAdmin "correct horse battery".

Lemma ex_created : ∃ w created tr,
  run (perform toy_key) (ex_moments 0 1) (Create toy_sha ex_users cli ops) empty_world = Some (w, Ok created, tr) ∧
  w = ex_world ∧ au_ID (cu_User created) = ex_person ∧ cu_Password created = "".
Proof.
  destruct (run_ends_ok (ex_moments 0 1) (Create toy_sha ex_users cli ops) empty_world) as (w & c & tr & E);
    [by vm_compute|].
  exists w, c, tr. split; [exact E|].
  assert (Hw : ex_world = w) by (unfold ex_world, after, ex_run; fold ops; by rewrite E).
  split; [done|]. revert E. vm_compute. by intros [= <- <- <-].
Qed.

Lemma audit_ids_check w :
  forallb (λ e, bool_decide (ae_ID e ∈ uw_ids w)) (db_audit (uw_db w)) = true → audit_ids w.
Proof.
  intros Hf e He. rewrite forallb_forall in Hf. apply list_elem_of_In, Hf in He. by apply bool_decide_eq_true in He.
Qed.

Lemma ex_no_tokens id : db_tokens (uw_db ex_world) !! id = None.
Proof.
  assert (E : map_to_list (db_tokens (uw_db ex_world)) = []) by by vm_compute.
  apply map_to_list_empty_iff in E. rewrite E. apply lookup_empty.
Qed.

Lemma ex_able : able ex_users.
Proof. split; [eexists; split; [reflexivity|done]|by vm_compute]. Qed.

(** The person made first logs in with the address as it was typed. *)
Lemma created_person_logs_in_witness :
  ∃ w2 t tr created,
    run (perform toy_key) (ex_moments Hour 50)
      (Login toy_sha ex_dummy ex_users (mkCredentials (nu_Email ops) (account_password ops created) "10.0.0.1")) ex_world
      = Some (w2, Ok t, tr) ∧ st_User t = cu_User created.
Proof.
  destruct ex_created as (w & c & tr1 & E1 & -> & Hid & Hpw).
  destruct (run_ends (ex_moments Hour 50) (Login toy_sha ex_dummy ex_users
    (mkCredentials (nu_Email ops) (account_password ops c) "10.0.0.1")) ex_world) as (w2 & r & tr2 & E2);
    [by vm_compute|].
  destruct (created_person_logs_in toy_sha ex_dummy toy_key ex_users cli ops (ex_moments 0 1) empty_world
    ex_world c tr1 "10.0.0.1" ex_users (ex_moment Hour 50) (ex_rest Hour 50) w2 r tr2
    toy_key_length toy_sha_length empty_wf E1) as (t & id & -> & Ht & _).
  - rewrite Hid. by vm_compute.
  - apply audit_ids_check. by vm_compute.
  - intros id [row Hr]. by rewrite ex_no_tokens in Hr.
  - exact ex_able.
  - eapply Forall_impl; [apply rest_fine|]. intros ch Hf. split; [done|]. intros m id row _ Hr. by rewrite ex_no_tokens in Hr.
  - by vm_compute.
  - exact E2.
  - exists w2, t, tr2, c. by split.
Defined.

Definition rotated_world : user_world := after (ex_moments (2 * Hour) 70) (Refresh toy_sha ex_users login_token) login_world.

Lemma rotated_world_wf : db_wf (uw_db rotated_world).
Proof. apply after_wf, login_world_wf. Qed.

Lemma rotated_audit_ids : audit_ids rotated_world.
Proof. apply audit_ids_check. by vm_compute. Qed.

Lemma rotated_row : ∃ row, db_tokens (uw_db rotated_world) !! 58%N = Some row ∧
  tr_hash row = hashSecret toy_sha login_token ∧ RefreshToken_Revoked (tr_token row) = true ∧
  rt_UserID (tr_token row) = ex_person.
Proof. eexists. split; [vm_compute; reflexivity|]. by vm_compute. Qed.

Lemma ex_ends_5 : ends (ex_moments (3 * Hour) 90) (Refresh toy_sha ex_users login_token) rotated_world = true.
Proof. by vm_compute. Qed.

(** The token that was rotated away, presented again. *)
Lemma refresh_reuse_cuts_sessions_witness :
  sessions_cut ex_person
    (uw_db (after (ex_moments (3 * Hour) 90) (Refresh toy_sha ex_users login_token) rotated_world)).
Proof.
  destruct (run_ends _ _ _ ex_ends_5) as (w' & r & tr & E).
  destruct rotated_row as (row & Er & Hh & Hrev & Howner).
  destruct (refresh_reuse_cuts_sessions toy_sha toy_key ex_users login_token
    (ex_moment (3 * Hour) 90) (ex_rest (3 * Hour) 90) rotated_world w' r tr 58%N row
    rotated_world_wf Er Hh Hrev E) as [_ Hcuts].
  destruct (Hcuts rotated_audit_ids (rest_fine _ _)) as [_ Hcut]. unfold after, ex_run. rewrite E. rewrite Howner in Hcut. exact Hcut.
Defined.

Lemma ex_ends_ok_6 : ends_ok (ex_moments (3 * Hour) 90) (SetPassword toy_sha cli "ops@example.com" "") login_world = true.
Proof. by vm_compute. Qed.

Lemma SetPassword_replaces_witness :
  ∃ user, sessions_cut user
    (uw_db (after (ex_moments (3 * Hour) 90) (SetPassword toy_sha cli "ops@example.com" "") login_world)).
Proof.
  destruct (run_ends_ok _ _ _ ex_ends_ok_6) as (w' & created & tr & E).
  destruct (SetPassword_replaces toy_sha toy_key cli "ops@example.com" "" (ex_moments (3 * Hour) 90)
    login_world w' created tr toy_key_length login_world_wf E) as [Hcut _].
  exists (au_ID (cu_User created)). unfold after, ex_run. rewrite E. exact Hcut.
Defined.

(** ** What goes wrong *)

Definition done_ok {A} (p : uprog (result error A)) : uprog bool := do r <- p; Ret (is_ok r).

(** A login that read the old password hash before a password change, and opens its session
    after it. *)
Definition race_start : pool user_action user_world bool :=
  mkPool ex_world [done_ok (ex_login "correct horse battery");
                   done_ok (SetPassword toy_sha cli "ops@example.com" "staple battery horse")].
Definition race_schedule : list (nat * moment) :=
  map (λ ch, (0%nat, ch)) (take 4 (ex_moments Hour 50)) ++
  map (λ ch, (1%nat, ch)) (ex_moments (Hour + Second) 70) ++
  map (λ ch, (0%nat, ch)) (ex_moments (Hour + 2 * Second) 90).

Definition live_sessions (db : AdminDb) (user : uuid) : list uuid :=
  omap (λ kr, if live_of user kr.2 then Some kr.1 else None) (map_to_list (db_tokens db)).
Definition opens (db : AdminDb) (user : uuid) (password : string) : bool :=
  match db_users db !! user with
  | Some r => bool_decide (Verify toy_key (ur_hash r) (lit password) = None)
  | None => false
  end.

(** Changing a password does not end every session opened under the old one: a login that
    checked the old password just before opens its session just after. *)
Lemma login_outlives_password_change :
  ∃ s, rtc (pool_step (perform toy_key) (λ _, False)) race_start s ∧
    map (λ p, match p with Ret b => b | Act _ _ => false end) (p_threads s) = [true; true] ∧
    opens (uw_db (p_world s)) ex_person "correct horse battery" = false ∧
    opens (uw_db (p_world s)) ex_person "staple battery horse" = true ∧
    length (live_sessions (uw_db (p_world s)) ex_person) = 1%nat.
Proof.
  exists (schedule (perform toy_key) race_schedule race_start).
  split; [apply schedule_steps|]. by vm_compute.
Qed.

(** A service that was restarted with a shorter refresh lifetime. *)
Definition short_users : Users := NewUsers (Some ex_issuer) Hour.
Definition refreshed_world : user_world :=
  match ex_run (ex_moments Hour 50) (ex_login "correct horse battery") ex_world with
  | Some (w, Ok t) => after (ex_moments (2 * Hour) 70) (Refresh toy_sha short_users (st_RefreshToken t)) w
  | _ => ex_world
  end.

(** A replacement that expires before what it replaced makes the sweep at login hit the
    reference between them: the person is locked out until the older session expires. *)
Lemma short_replacement_blocks_login :
  match ex_run (ex_moments (4 * Hour) 90) (ex_login "correct horse battery") refreshed_world with
  | Some (_, r) => r = Err (postgres "sweep admin sessions"
                              (constraint_violation "admin_refresh_tokens_replaced_by_fkey"))
  | None => False
  end.
Proof. by vm_compute. Qed.

(** The reason an address was refused for is lost: unwrapping the error leaves its sentinel. *)
Lemma email_refusal_loses_reason :
  ex_run [] (Create toy_sha ex_users cli (mkNewAdminUser "" RoleAdmin "correct horse battery")) empty_world =
  ex_run [] (Create toy_sha ex_users cli (mkNewAdminUser "not an address" RoleAdmin "correct horse battery")) empty_world.
Proof. by vm_compute. Qed.
