(* ===== verification/AccountStore.v ===== *)
(** The store behind the tenants, their keys and quotas, and the admin credentials: the
    tables of [db/migrations], the statements of [db/gen] and the repositories of
    [internal/adapters/repositories/admin.go], [admin_credentials.go] and [auth.go] over them.

    A statement is a function of the tables. What [jsonb] makes of a JSON text, and how ids
    are written and read as text, are parameters. *)
From Stdlib Require Import Ascii.
From S2P Require Import Prelude Errors Bytes Utf8 Quota Sorting Records Accounts AdminDb.

(** What an audit row of a tenant, key, quota or credential change carries. *)
Inductive account_detail :=
| TenantDetail (external_id name metadata : string) (disabled : bool)
| KeyDetail (prefix : string) (allowlist : option (list string)) (revoked : bool)
| QuotaDetails (set : list (WindowKind * option time * option time * USD * QuotaAction))
| QuotaDeleted (kind : WindowKind)
| CredentialDetail (id : uuid) (name prefix : string) (role : Role) (expires : option time).

#[export] Instance account_detail_eq_dec : EqDecision account_detail.
Proof. solve_decision. Defined.
Definition change := AuditEntry account_detail.

(** [src/db/gen/models.go:201-215] ApiKey *)
Record key_row := mkKeyRow { kr_key : APIKey; kr_hash : bytes }.
(** [src/db/gen/models.go:148-165] AdminCredential *)
Record credential_row := mkCredentialRow { cr_cred : AdminCredential; cr_hash : bytes }.

Record AccountDb := mkAccountDb {
  t_tenants : gmap uuid TenantAccount;
  t_keys : gmap uuid key_row;
  t_quotas : gmap (uuid * WindowKind) Quota;
  t_credentials : gmap uuid credential_row;
  t_audit : list change;
}.

Definition no_accounts : AccountDb := mkAccountDb ∅ ∅ ∅ ∅ [].
Definition put_tenant (db : AccountDb) (t : TenantAccount) : AccountDb :=
  mkAccountDb (<[ta_ID t := t]> (t_tenants db)) (t_keys db) (t_quotas db) (t_credentials db) (t_audit db).
Definition put_key (db : AccountDb) (k : key_row) : AccountDb :=
  mkAccountDb (t_tenants db) (<[ak_ID (kr_key k) := k]> (t_keys db)) (t_quotas db) (t_credentials db) (t_audit db).
Definition set_quotas (db : AccountDb) qs : AccountDb :=
  mkAccountDb (t_tenants db) (t_keys db) qs (t_credentials db) (t_audit db).
Definition put_credential (db : AccountDb) (c : credential_row) : AccountDb :=
  mkAccountDb (t_tenants db) (t_keys db) (t_quotas db) (<[ac_ID (cr_cred c) := c]> (t_credentials db)) (t_audit db).
Definition add_change (db : AccountDb) (e : change) : AccountDb :=
  mkAccountDb (t_tenants db) (t_keys db) (t_quotas db) (t_credentials db) (t_audit db ++ [e]).

(** A [text] value: UTF-8 without NUL. *)
Definition pg_text (s : string) : bool :=
  ValidString (lit s) && negb (bool_decide ("000"%char ∈ lit s)).
Definition encoding_error : error := Errorf "ERROR: invalid byte sequence for encoding" [].
Definition json_error : error := Errorf "ERROR: unsupported Unicode escape sequence" [].

Definition rows {K} `{Countable K} {A} (m : gmap K A) : list A := (map_to_list m).*2.

Section Store.
Context (jsonb : string → option string) (uuid_String : uuid → string).
Implicit Types (db : AccountDb).

(** ** Tenants *)

(** [src/db/gen/tenants.sql.go:111-127] GetTenantByExternalID *)
Definition Sql_GetTenantByExternalID db (ext : string) : result error TenantAccount :=
  match List.find (λ t, String.eqb (ta_ExternalID t) ext) (rows (t_tenants db)) with
  | Some t => Ok t | None => Err pgx_ErrNoRows
  end.

(** [src/db/gen/tenants.sql.go:93-109] GetTenant *)
Definition Sql_GetTenant db (id : uuid) : result error TenantAccount :=
  match t_tenants db !! id with Some t => Ok t | None => Err pgx_ErrNoRows end.

(** [src/db/gen/tenants.sql.go:129-166] ListTenants, newest first *)
Definition newer (a b : TenantAccount) : bool := ta_CreatedAt b <? ta_CreatedAt a.
Definition Sql_ListTenants db (include_disabled : bool) (limit : Z) : list TenantAccount :=
  take (Z.to_nat limit)
    (sort_slice newer (List.filter (λ t, include_disabled || negb (TenantAccount_Disabled t))
                         (rows (t_tenants db)))).

(** [src/db/gen/tenants.sql.go:14-49] CreateTenant *)
Definition Sql_CreateTenant db (now : time) (id : uuid) (ext name metadata : string)
    : AccountDb * result error TenantAccount :=
  if negb (pg_text ext && pg_text name) then (db, Err encoding_error)
  else match jsonb metadata with
       | None => (db, Err json_error)
       | Some m =>
           if String.eqb ext "" then (db, Err (constraint_violation "tenants_external_id_not_blank"))
           else if is_ok (Sql_GetTenantByExternalID db ext) then (db, Err pgx_ErrNoRows)
           else match t_tenants db !! id with
                | Some _ => (db, Err (constraint_violation "tenants_pkey"))
                | None =>
                    let t := mkTenantAccount id ext name m (pg_time now) None in
                    (put_tenant db t, Ok t)
                end
       end.

(** An update of one tenant's row, where it matches. *)
Definition update_tenant db (id : uuid) (f : TenantAccount → option TenantAccount)
    : AccountDb * result error TenantAccount :=
  match t_tenants db !! id with
  | Some t => match f t with Some t' => (put_tenant db t', Ok t') | None => (db, Err pgx_ErrNoRows) end
  | None => (db, Err pgx_ErrNoRows)
  end.

Definition patched (t : TenantAccount) (name metadata : option string) : TenantAccount :=
  mkTenantAccount (ta_ID t) (ta_ExternalID t) (default (ta_Name t) name)
    (default (ta_Metadata t) metadata) (ta_CreatedAt t) (ta_DisabledAt t).
Definition disabled_at (d : option time) (t : TenantAccount) : TenantAccount :=
  mkTenantAccount (ta_ID t) (ta_ExternalID t) (ta_Name t) (ta_Metadata t) (ta_CreatedAt t) d.

(** [src/db/gen/tenants.sql.go:192-220] UpdateTenant *)
Definition Sql_UpdateTenant db (id : uuid) (p : TenantPatch) : AccountDb * result error TenantAccount :=
  if match tp_Name p with Some n => negb (pg_text n) | None => false end then (db, Err encoding_error)
  else match tp_Metadata p with
       | Some m =>
           match jsonb m with
           | Some m' => update_tenant db id (λ t, Some (patched t (tp_Name p) (Some m')))
           | None => (db, Err json_error)
           end
       | None => update_tenant db id (λ t, Some (patched t (tp_Name p) None))
       end.

(** [src/db/gen/tenants.sql.go:51-69] DisableTenant *)
Definition Sql_DisableTenant db (now : time) (id : uuid) : AccountDb * result error TenantAccount :=
  update_tenant db id (λ t, if TenantAccount_Disabled t then None
                            else Some (disabled_at (Some (pg_time now)) t)).

(** [src/db/gen/tenants.sql.go:71-91] EnableTenant *)
Definition Sql_EnableTenant db (id : uuid) : AccountDb * result error TenantAccount :=
  update_tenant db id (λ t, if TenantAccount_Disabled t then Some (disabled_at None t) else None).

(** [src/internal/adapters/repositories/admin.go:97-100] tenantRepo.Get *)
Definition tenantRepo_Get db (id : uuid) : result error TenantAccount :=
  match Sql_GetTenant db id with Ok t => Ok t | Err e => Err (found e "get tenant") end.

(** [src/internal/adapters/repositories/admin.go:102-105] tenantRepo.GetByExternalID *)
Definition tenantRepo_GetByExternalID db (ext : string) : result error TenantAccount :=
  match Sql_GetTenantByExternalID db ext with Ok t => Ok t | Err e => Err (found e "get tenant") end.

(** [src/internal/adapters/repositories/admin.go:107-120] tenantRepo.List *)
Definition tenantRepo_List db (f : TenantFilter) : list TenantAccount :=
  Sql_ListTenants db (tf_IncludeDisabled f) (tf_Limit f).

(** That writers of one tenant take turns is [Service]'s.

    [src/db/gen/tenants.sql.go:168-190] LockTenant *)
Definition Sql_LockTenant db (id : uuid) : result error TenantAccount :=
  match t_tenants db !! id with Some t => Ok t | None => Err pgx_ErrNoRows end.
(** [src/internal/adapters/repositories/admin.go:122-125] tenantRepo.Lock *)
Definition tenantRepo_Lock db (id : uuid) : result error TenantAccount :=
  match Sql_LockTenant db id with Ok t => Ok t | Err e => Err (found e "lock tenant") end.

(** [src/internal/adapters/repositories/admin.go:127-145] tenantRepo.Create *)
Definition tenantRepo_Create db (now : time) (t : TenantAccount)
    : AccountDb * result error (TenantAccount * bool) :=
  match Sql_CreateTenant db now (ta_ID t) (ta_ExternalID t) (ta_Name t) (ta_Metadata t) with
  | (db, Ok row) => (db, Ok (row, true))
  | (db, Err err) =>
      if negb (Is err pgx_ErrNoRows) then (db, Err (postgres "create tenant" err))
      else match Sql_GetTenantByExternalID db (ta_ExternalID t) with
           | Err err => (db, Err (postgres "read existing tenant" err))
           | Ok existing => (db, Ok (existing, false))
           end
  end.

Definition finding {A} (p : AccountDb * result error A) (what : string) : AccountDb * result error A :=
  match p with (db, Ok a) => (db, Ok a) | (db, Err e) => (db, Err (found e what)) end.

(** [src/internal/adapters/repositories/admin.go:147-150] tenantRepo.Update *)
Definition tenantRepo_Update db (id : uuid) (p : TenantPatch) := finding (Sql_UpdateTenant db id p) "update tenant".
(** [src/internal/adapters/repositories/admin.go:152-155] tenantRepo.Disable *)
Definition tenantRepo_Disable db (now : time) (id : uuid) := finding (Sql_DisableTenant db now id) "disable tenant".
(** [src/internal/adapters/repositories/admin.go:157-160] tenantRepo.Enable *)
Definition tenantRepo_Enable db (id : uuid) := finding (Sql_EnableTenant db id) "enable tenant".

(** ** Keys *)

(** [src/db/gen/api_keys.sql.go:51-69] GetAPIKey *)
Definition Sql_GetAPIKey db (id : uuid) : result error APIKey :=
  match t_keys db !! id with Some k => Ok (kr_key k) | None => Err pgx_ErrNoRows end.

(** [src/db/gen/api_keys.sql.go:107-140] ListAPIKeysByTenant *)
Definition newer_key (a b : APIKey) : bool := ak_CreatedAt b <? ak_CreatedAt a.
Definition Sql_ListAPIKeysByTenant db (tenant : uuid) : list APIKey :=
  sort_slice newer_key (List.filter (λ k, N.eqb (ak_TenantID k) tenant) (map kr_key (rows (t_keys db)))).

Definition key_by_hash db (hash : bytes) : option key_row :=
  List.find (λ k, bool_decide (kr_hash k = hash)) (rows (t_keys db)).

(** [src/db/gen/api_keys.sql.go:15-49] CreateAPIKey *)
Definition Sql_CreateAPIKey db (now : time) (k : APIKey) (hash : bytes) : AccountDb * result error APIKey :=
  if negb (Nat.eqb (length hash) 32) || String.eqb (ak_Prefix k) ""
  then (db, Err (constraint_violation "api_keys_check"))
  else if negb (forallb pg_text (default [] (ak_ModelAllowlist k))) then (db, Err encoding_error)
  else match t_keys db !! ak_ID k, t_tenants db !! ak_TenantID k, key_by_hash db hash with
       | None, Some _, None =>
           let row := mkAPIKey (ak_ID k) (ak_TenantID k) (ak_Prefix k) (ak_ModelAllowlist k)
                        (pg_time now) None None in
           (put_key db (mkKeyRow row hash), Ok row)
       | Some _, _, _ => (db, Err (constraint_violation "api_keys_pkey"))
       | _, None, _ => (db, Err (constraint_violation "api_keys_tenant_id_fkey"))
       | _, _, _ => (db, Err (constraint_violation "api_keys_key_hash_key"))
       end.

(** An update of one key that is not revoked. *)
Definition update_key db (id : uuid) (f : APIKey → APIKey) : AccountDb * result error APIKey :=
  match t_keys db !! id with
  | Some k =>
      if APIKey_Revoked (kr_key k) then (db, Err pgx_ErrNoRows)
      else let k' := f (kr_key k) in (put_key db (mkKeyRow k' (kr_hash k)), Ok k')
  | None => (db, Err pgx_ErrNoRows)
  end.
Definition with_allowlist (l : option (list string)) (k : APIKey) : APIKey :=
  mkAPIKey (ak_ID k) (ak_TenantID k) (ak_Prefix k) l (ak_CreatedAt k) (ak_LastUsedAt k) (ak_RevokedAt k).
Definition revoked_key (now : time) (k : APIKey) : APIKey :=
  mkAPIKey (ak_ID k) (ak_TenantID k) (ak_Prefix k) (ak_ModelAllowlist k) (ak_CreatedAt k)
    (ak_LastUsedAt k) (Some (pg_time now)).

(** [src/db/gen/api_keys.sql.go:229-256] UpdateAPIKeyAllowlist *)
Definition Sql_UpdateAPIKeyAllowlist db (id : uuid) (l : option (list string)) : AccountDb * result error APIKey :=
  if negb (forallb pg_text (default [] l)) then (db, Err encoding_error)
  else update_key db id (with_allowlist l).

(** [src/db/gen/api_keys.sql.go:190-210] RevokeAPIKey *)
Definition Sql_RevokeAPIKey db (now : time) (id : uuid) : AccountDb * result error APIKey :=
  update_key db id (revoked_key now).

(** [src/internal/adapters/repositories/admin.go:168-171] apiKeyRepo.Get *)
Definition apiKeyRepo_Get db (id : uuid) : result error APIKey :=
  match Sql_GetAPIKey db id with Ok k => Ok k | Err e => Err (found e "get api key") end.
(** [src/internal/adapters/repositories/admin.go:173-183] apiKeyRepo.ListByTenant *)
Definition apiKeyRepo_ListByTenant db (tenant : uuid) : list APIKey := Sql_ListAPIKeysByTenant db tenant.
(** [src/internal/adapters/repositories/admin.go:185-197] apiKeyRepo.Create *)
Definition apiKeyRepo_Create db (now : time) (k : APIKey) (hash : bytes) : AccountDb * result error APIKey :=
  match Sql_CreateAPIKey db now k hash with
  | (db, Ok row) => (db, Ok row)
  | (db, Err e) => (db, Err (postgres "create api key" e))
  end.
(** [src/internal/adapters/repositories/admin.go:199-202] apiKeyRepo.UpdateAllowlist *)
Definition apiKeyRepo_UpdateAllowlist db (id : uuid) (l : option (list string)) :=
  finding (Sql_UpdateAPIKeyAllowlist db id l) "update api key".
(** [src/internal/adapters/repositories/admin.go:204-207] apiKeyRepo.Revoke *)
Definition apiKeyRepo_Revoke db (now : time) (id : uuid) := finding (Sql_RevokeAPIKey db now id) "revoke api key".

(** [src/db/gen/api_keys.sql.go:71-105] GetAPIKeyByHash *)
Definition Sql_GetAPIKeyByHash db (hash : bytes) : result error (APIKey * TenantAccount) :=
  match key_by_hash db hash with
  | Some k => match t_tenants db !! ak_TenantID (kr_key k) with
              | Some t => Ok (kr_key k, t) | None => Err pgx_ErrNoRows end
  | None => Err pgx_ErrNoRows
  end.

(** [src/internal/adapters/repositories/auth.go:29-56] Auth.Authenticate

    [fault] is a failure of the query. *)
Definition Authenticate (sha256 : bytes → bytes) db (fault : option error) (presented : string)
    : result error Identity :=
  if String.eqb presented "" then Err ErrNoCredentials
  else match (match fault with Some e => Err e | None => Sql_GetAPIKeyByHash db (sha256 (lit presented)) end) with
       | Err err => Err (if Is err pgx_ErrNoRows then ErrUnknownKey else postgres "authenticate" err)
       | Ok (k, t) =>
           if APIKey_Revoked k then Err ErrKeyRevoked
           else if TenantAccount_Disabled t
           then Err (Errorf "%w: %s" [AWrap ErrTenantDisabled; AStr (ta_ExternalID t)])
           else Ok (mkIdentity (ta_ExternalID t) (ak_ID k) (ak_ModelAllowlist k))
       end.

(** ** Quotas *)

(** [src/db/gen/quotas.sql.go:44-66] GetQuota *)
Definition Sql_GetQuota db (tenant : uuid) (kind : WindowKind) : result error Quota :=
  match t_quotas db !! (tenant, kind) with Some q => Ok q | None => Err pgx_ErrNoRows end.

(** One row per kind, in the order of the enum.

    [src/db/gen/quotas.sql.go:136-166] ListQuotas *)
Definition Sql_ListQuotas db (tenant : uuid) : list Quota :=
  omap (λ kind, t_quotas db !! (tenant, kind)) WindowKinds.

Definition stored_quota (now : time) (q : Quota) : Quota :=
  mkQuota (q_WindowKind q) (pg_time <$> q_PeriodStart q) (pg_time <$> q_PeriodEnd q)
    (q_MaxCost q) (q_OnExceed q) (pg_time now).
(** The constraints of the table, on the row as stored. *)
Definition quota_row_ok (q : Quota) : bool :=
  WindowKind_Valid (q_WindowKind q) &&
  Bool.eqb (String.eqb (q_WindowKind q) WindowPeriod)
    (bool_decide (is_Some (q_PeriodStart q)) && bool_decide (is_Some (q_PeriodEnd q))) &&
  match q_PeriodStart q, q_PeriodEnd q with Some s, Some e => s <? e | _, _ => true end &&
  (0 <=? q_MaxCost q) &&
  (String.eqb (q_OnExceed q) QuotaBlock || String.eqb (q_OnExceed q) QuotaAllow).

(** [src/db/gen/quotas.sql.go:168-211] UpsertQuota *)
Definition Sql_UpsertQuota db (now : time) (tenant : uuid) (q : Quota) : AccountDb * result error Quota :=
  let row := stored_quota now q in
  if negb (quota_row_ok row) then (db, Err (constraint_violation "quotas_check"))
  else match t_tenants db !! tenant with
       | None => (db, Err (constraint_violation "quotas_tenant_id_fkey"))
       | Some _ => (set_quotas db (<[(tenant, q_WindowKind q) := row]> (t_quotas db)), Ok row)
       end.

(** [src/internal/adapters/repositories/admin.go:215-218] quotaRepo.Get *)
Definition quotaRepo_Get db (tenant : uuid) (kind : WindowKind) : result error Quota :=
  match Sql_GetQuota db tenant kind with Ok q => Ok q | Err e => Err (found e "get quota") end.
(** [src/internal/adapters/repositories/admin.go:220-230] quotaRepo.List *)
Definition quotaRepo_List db (tenant : uuid) : list Quota := Sql_ListQuotas db tenant.
(** [src/internal/adapters/repositories/admin.go:232-245] quotaRepo.Upsert *)
Definition quotaRepo_Upsert db (now : time) (tenant : uuid) (q : Quota) : AccountDb * result error Quota :=
  match Sql_UpsertQuota db now tenant q with
  | (db, Ok row) => (db, Ok row)
  | (db, Err e) => (db, Err (Errorf "postgres: upsert %s quota: %w" [AStr (q_WindowKind q); AWrap e]))
  end.
(** Whether the row was there: the count of rows affected is 0 or 1.

    [src/db/gen/quotas.sql.go:15-30] DeleteQuota *)
Definition Sql_DeleteQuota db (tenant : uuid) (kind : WindowKind) : AccountDb * bool :=
  (set_quotas db (delete (tenant, kind) (t_quotas db)),
   bool_decide (is_Some (t_quotas db !! (tenant, kind)))).
(** [src/internal/adapters/repositories/admin.go:247-253] quotaRepo.Delete *)
Definition quotaRepo_Delete db (tenant : uuid) (kind : WindowKind) : AccountDb * bool := Sql_DeleteQuota db tenant kind.

(** [src/db/gen/quotas.sql.go:32-42] DeleteQuotasForTenant *)
Definition Sql_DeleteQuotasForTenant db (tenant : uuid) : AccountDb :=
  set_quotas db (filter (λ kq, kq.1.1 ≠ tenant) (t_quotas db)).
(** [src/internal/adapters/repositories/admin.go:255-260] quotaRepo.DeleteAll *)
Definition quotaRepo_DeleteAll db (tenant : uuid) : AccountDb := Sql_DeleteQuotasForTenant db tenant.

(** ** Audit *)

(** An administrative row of [audit_log]; its ladders are empty and its other columns null.

    [src/db/gen/audit_log.sql.go:15-76] CreateAuditEntry *)
Definition Sql_CreateAuditEntry db (e : change) : AccountDb * option error :=
  if String.eqb (ae_Actor e) "" || String.eqb (ae_Action e) "" ||
     existsb (λ r, N.eqb (ae_ID r) (ae_ID e) && (ae_At r =? pg_time (ae_At e))) (t_audit db)
  then (db, Some (constraint_violation "audit_log"))
  else (add_change db (mkAuditEntry (ae_ID e) (pg_time (ae_At e)) (ae_TenantID e) (ae_KeyID e)
                         (ae_Actor e) (ae_Action e) (ae_Detail e)), None).
(** [src/internal/adapters/repositories/admin.go:268-294] auditRepo.Write and insertAudit *)
Definition auditRepo_Write db (e : change) : AccountDb * option error :=
  match Sql_CreateAuditEntry db e with
  | (db, Some err) => (db, Some (Errorf "postgres: audit %s: %w" [AStr (ae_Action e); AWrap err]))
  | (db, None) => (db, None)
  end.

(** ** Credentials *)

(** [src/internal/adapters/repositories/admin_credentials.go:138-149] adminCredential *)
Definition adminCredential (r : credential_row) : AdminCredential := cr_cred r.

Definition credential_where db (p : credential_row → bool) : result error credential_row :=
  match List.find p (rows (t_credentials db)) with Some r => Ok r | None => Err pgx_ErrNoRows end.

(** [src/db/gen/admin_credentials.sql.go:83-112] GetAdminCredentialByTokenHash *)
Definition Sql_GetAdminCredentialByTokenHash db (hash : bytes) : result error credential_row :=
  credential_where db (λ c, bool_decide (cr_hash c = hash)).

(** [src/db/gen/admin_credentials.sql.go:58-81] GetAdminCredentialByRef *)
Definition Sql_GetAdminCredentialByRef db (ref : string) : result error credential_row :=
  credential_where db (λ c, String.eqb (ac_Name (cr_cred c)) ref ||
                            String.eqb (uuid_String (ac_ID (cr_cred c))) ref).

Definition older_credential (a b : credential_row) : bool := ac_CreatedAt (cr_cred a) <? ac_CreatedAt (cr_cred b).
(** [src/db/gen/admin_credentials.sql.go:114-146] ListAdminCredentials *)
Definition Sql_ListAdminCredentials db : list credential_row :=
  sort_slice older_credential (rows (t_credentials db)).

Definition used_at (at_ : time) (c : AdminCredential) : AdminCredential :=
  mkAdminCredential (ac_ID c) (ac_Name c) (ac_Prefix c) (ac_Role c) (ac_ExpiresAt c) (ac_CreatedAt c)
    (Some (match ac_LastUsedAt c with Some t => Z.max t (pg_time at_) | None => pg_time at_ end)) (ac_RevokedAt c).
(** [src/db/gen/admin_credentials.sql.go:171-187] TouchAdminCredential *)
Definition Sql_TouchAdminCredential db (id : uuid) (at_ : time) : AccountDb :=
  match t_credentials db !! id with
  | Some c => put_credential db (mkCredentialRow (used_at at_ (cr_cred c)) (cr_hash c))
  | None => db
  end.

(** [src/db/gen/admin_credentials.sql.go:15-56] CreateAdminCredential *)
Definition Sql_CreateAdminCredential db (now : time) (c : AdminCredential) (hash : bytes)
    : AccountDb * result error credential_row :=
  if String.eqb (ac_Name c) "" || negb (Nat.eqb (length hash) 32) || String.eqb (ac_Prefix c) "" ||
     negb (Role_Valid (ac_Role c))
  then (db, Err (constraint_violation "admin_credentials_check"))
  else if existsb (λ r, String.eqb (ac_Name (cr_cred r)) (ac_Name c)) (rows (t_credentials db))
  then (db, Err pgx_ErrNoRows)
  else if bool_decide (is_Some (t_credentials db !! ac_ID c)) ||
          existsb (λ r, bool_decide (cr_hash r = hash)) (rows (t_credentials db))
  then (db, Err (constraint_violation "admin_credentials_key"))
  else
    let row := mkCredentialRow (mkAdminCredential (ac_ID c) (ac_Name c) (ac_Prefix c) (ac_Role c)
                                  (pg_time <$> ac_ExpiresAt c) (pg_time now) None None) hash in
    (put_credential db row, Ok row).

Definition revoked_credential (now : time) (c : AdminCredential) : AdminCredential :=
  mkAdminCredential (ac_ID c) (ac_Name c) (ac_Prefix c) (ac_Role c) (ac_ExpiresAt c) (ac_CreatedAt c)
    (ac_LastUsedAt c) (Some (pg_time now)).
(** [src/db/gen/admin_credentials.sql.go:148-169] RevokeAdminCredential *)
Definition Sql_RevokeAdminCredential db (now : time) (id : uuid) : AccountDb * result error credential_row :=
  match t_credentials db !! id with
  | Some c =>
      if AdminCredential_Revoked (cr_cred c) then (db, Err pgx_ErrNoRows)
      else let row := mkCredentialRow (revoked_credential now (cr_cred c)) (cr_hash c) in
           (put_credential db row, Ok row)
  | None => (db, Err pgx_ErrNoRows)
  end.

(** [src/internal/adapters/repositories/admin_credentials.go:31-36] AdminCredentialRepo.AdminCredentialByTokenHash *)
Definition AdminCredentialByTokenHash db (hash : bytes) : result error AdminCredential :=
  match Sql_GetAdminCredentialByTokenHash db hash with
  | Ok r => Ok (adminCredential r) | Err e => Err (found e "get admin credential") end.

(** [src/internal/adapters/repositories/admin_credentials.go:38-41] AdminCredentialRepo.AdminCredentialByRef *)
Definition AdminCredentialByRef db (ref : string) : result error AdminCredential :=
  match Sql_GetAdminCredentialByRef db ref with
  | Ok r => Ok (adminCredential r) | Err e => Err (found e "get admin credential") end.

(** [src/internal/adapters/repositories/admin_credentials.go:43-53] AdminCredentialRepo.ListAdminCredentials *)
Definition ListAdminCredentials db : list AdminCredential := map adminCredential (Sql_ListAdminCredentials db).

(** [src/internal/adapters/repositories/admin_credentials.go:55-61] AdminCredentialRepo.TouchAdminCredential *)
Definition TouchAdminCredential db (id : uuid) (at_ : time) : AccountDb := Sql_TouchAdminCredential db id at_.

(** All of a transaction or nothing. *)
Definition all_or_nothing {A} db (p : AccountDb * result error A) : AccountDb * result error A :=
  match p with (db', Ok a) => (db', Ok a) | (_, Err e) => (db, Err e) end.
Definition then_audit {A} db (e : change) (a : A) : AccountDb * result error A :=
  match auditRepo_Write db e with (db, None) => (db, Ok a) | (db, Some err) => (db, Err err) end.

(** [src/internal/adapters/repositories/admin_credentials.go:63-91] AdminCredentialRepo.CreateAdminCredential *)
Definition CreateAdminCredential db (now : time) (c : AdminCredential) (hash : bytes) (e : change)
    : AccountDb * result error AdminCredential :=
  all_or_nothing db
    match Sql_CreateAdminCredential db now c hash with
    | (db, Err err) =>
        (db, Err (if Is err pgx_ErrNoRows
                  then Errorf "%w: admin credential %q already exists" [AWrap ErrConflict; AStr (ac_Name c)]
                  else postgres "create admin credential" err))
    | (db, Ok row) => then_audit db e (adminCredential row)
    end.

(** [src/internal/adapters/repositories/admin_credentials.go:93-119] AdminCredentialRepo.RevokeAdminCredential *)
Definition RevokeAdminCredential db (now : time) (id : uuid) (e : change) : AccountDb * result error AdminCredential :=
  all_or_nothing db
    match Sql_RevokeAdminCredential db now id with
    | (db, Err err) =>
        (db, if Is err pgx_ErrNoRows then AdminCredentialByRef db (uuid_String id)
             else Err (postgres "revoke admin credential" err))
    | (db, Ok row) => then_audit db e (adminCredential row)
    end.
End Store.
