(* ===== verification/UsageCounters.v ===== *)
(** The durable counters: [internal/adapters/repositories/usage_counters.go] over the table
    [usage_counters] of [db/migrations/0002_policy.sql], as the store the flusher writes to,
    and what the two come to together; and the whole database as the enforcer reads it, the limits
    it then holds a tenant to among it. *)
From AAC_tactics Require Import AAC.
From S2P Require Import Prelude Sorting Channel Errors Env Quota Records Accounts Flusher FlusherProps Counters Enforcer EnforcerProps AdminDb AccountStore.

(** ** The table *)

Definition counter_row : Type := uuid * WindowKind * time.

(** [ud_tenants] are the tenants there are, [ud_faults] what becomes of the calls to come,
    the beginning and the commit of a transaction among them: when they run out nothing fails.

    [src/db/migrations/0002_policy.sql:52-63] usage_counters *)
Record UsageDb := mkUsageDb {
  ud_rows : gmap counter_row QuotaUsage;
  ud_tenants : uuid → bool;
  ud_faults : list db_fault;
}.

Definition row_of (d : WindowUsage) : counter_row :=
  (wu_TenantID d, Window_Kind (wu_Window d), pg_time (Window_Start (wu_Window d))).

(** A [bigint] sum is checked. *)
Definition checked_Add (u v : QuotaUsage) : result error QuotaUsage :=
  let s := mkQuotaUsage (Requests u + Requests v) (Tokens u + Tokens v) (Cost u + Cost v) in
  if bool_decide (int64_range (Requests s) ∧ int64_range (Tokens s) ∧ int64_range (Cost s)) then Ok s
  else Err (Sentinel "ERROR: bigint out of range").

(** [src/db/gen/usage_counters.sql.go:15-46] AddUsageCounterDelta *)
Definition AddUsageCounterDelta (tenants : uuid → bool) (rows : gmap counter_row QuotaUsage) (d : WindowUsage)
    : result error (gmap counter_row QuotaUsage) :=
  if negb (WindowKind_Valid (Window_Kind (wu_Window d))) then Err (Sentinel "ERROR: invalid input value for enum window_kind")
  else match rows !! row_of d with
       | Some u => match checked_Add u (wu_Usage d) with Ok s => Ok (<[row_of d := s]> rows) | Err e => Err e end
       | None =>
           if tenants (wu_TenantID d) then Ok (<[row_of d := wu_Usage d]> rows)
           else Err (constraint_violation "usage_counters_tenant_id_fkey")
       end.

(** [src/db/gen/usage_counters.sql.go:63-87] GetUsageCounter *)
Definition GetUsageCounter (db : UsageDb) (tenant : uuid) (w : Window) : option QuotaUsage :=
  ud_rows db !! (tenant, Window_Kind w, pg_time (Window_Start w)).

Definition next_fault (db : UsageDb) : db_fault * UsageDb :=
  match ud_faults db with
  | f :: fs => (f, mkUsageDb (ud_rows db) (ud_tenants db) fs)
  | [] => (Fine, db)
  end.

(** ** The repository *)

Definition set_rows (db : UsageDb) (rows : gmap counter_row QuotaUsage) : UsageDb :=
  mkUsageDb rows (ud_tenants db) (ud_faults db).

(** [src/internal/adapters/repositories/usage_counters.go:30-47] Get *)
Definition UsageCounterRepo_Get (db : UsageDb) (tenant : uuid) (w : Window) : UsageDb * result error QuotaUsage :=
  let '(f, db) := next_fault db in
  (db, match f with
       | Fine => Ok (default zero_QuotaUsage (GetUsageCounter db tenant w))
       | _ => Err (Errorf "postgres: get usage counter: %w" [AWrap ErrDatabase])
       end).

(** The statements of a batch, over the rows as the transaction sees them. *)
Fixpoint add_all (db : UsageDb) (rows : gmap counter_row QuotaUsage) (deltas : list WindowUsage)
    : UsageDb * result error (gmap counter_row QuotaUsage) :=
  match deltas with
  | [] => (db, Ok rows)
  | d :: deltas =>
      let '(f, db) := next_fault db in
      match f with
      | Fine =>
          match AddUsageCounterDelta (ud_tenants db) rows d with
          | Ok rows => add_all db rows deltas
          | Err err => (db, Err (Errorf "postgres: add usage delta: %w" [AWrap err]))
          end
      | _ => (db, Err (Errorf "postgres: add usage delta: %w" [AWrap ErrDatabase]))
      end
  end.

(** [src/internal/adapters/repositories/usage_counters.go:49-82] AddDeltas *)
Definition UsageCounterRepo_AddDeltas (db : UsageDb) (deltas : list WindowUsage) : UsageDb * option error :=
  match deltas with
  | [] => (db, None)
  | _ =>
      let '(f, db) := next_fault db in
      match f with
      | Fine =>
          match add_all db (ud_rows db) deltas with
          | (db, Err err) => (db, Some err)
          | (db, Ok rows) =>
              let '(f, db) := next_fault db in
              let failed := Errorf "postgres: commit %d usage deltas: %w" [AInt (Z.of_nat (length deltas)); AWrap ErrDatabase] in
              match f with
              | Fine => (set_rows db rows, None)
              | Refused => (db, Some failed)
              | Lost => (set_rows db rows, Some failed)
              end
          end
      | _ => (db, Some (Errorf "postgres: begin: %w" [AWrap ErrDatabase]))
      end
  end.

#[export] Instance usage_db_repo : UsageCounterRepository UsageDb := {
  durable_Get := UsageCounterRepo_Get;
  AddDeltas := UsageCounterRepo_AddDeltas;
}.

(** ** The database of the enforcer

    The tables of the accounts and of the counters, as the proxy reads them: the reader halves
    of the repositories [internal/bootstrap/quota.go] hands the enforcer, which share one pool of
    connections and so one sequence of faults. *)

(** [src/internal/adapters/repositories/admin.go:18-21] AdminRepo *)
Record postgres_world := mkPg {
  pg_accounts : AccountDb;
  pg_rows : gmap counter_row QuotaUsage;
  pg_faults : list db_fault;
}.

Definition usage_table (w : postgres_world) : UsageDb :=
  mkUsageDb (pg_rows w) (λ t, bool_decide (is_Some (t_tenants (pg_accounts w) !! t))) (pg_faults w).
Definition with_usage (w : postgres_world) (u : UsageDb) : postgres_world :=
  mkPg (pg_accounts w) (ud_rows u) (ud_faults u).

(** A statement that only reads. *)
Definition queried {A} (what : string) (read : AccountDb → result error A) (w : postgres_world)
    : postgres_world * result error A :=
  let '(f, u) := next_fault (usage_table w) in
  (with_usage w u, match f with Fine => read (pg_accounts w) | _ => Err (postgres what ErrDatabase) end).

(** [AdminRepo.Tenants], [AdminRepo.Quotas] and [NewUsageCounterRepo]. *)
#[export] Instance postgres_tenants : TenantReader postgres_world := {
  Tenants_Get w id := queried "get tenant" (λ db, tenantRepo_Get db id) w;
  Tenants_GetByExternalID w ext := queried "get tenant" (λ db, tenantRepo_GetByExternalID db ext) w;
  Tenants_List w f := queried "list tenants" (λ db, Ok (tenantRepo_List db f)) w;
}.

#[export] Instance postgres_quotas : QuotaReader postgres_world := {
  Quotas_Get w tenant kind := queried "get quota" (λ db, quotaRepo_Get db tenant kind) w;
  Quotas_List w tenant := queried "list quotas" (λ db, Ok (quotaRepo_List db tenant)) w;
}.

#[export] Instance postgres_usage : UsageCounterRepository postgres_world := {
  durable_Get w tenant win := let '(u, r) := durable_Get (usage_table w) tenant win in (with_usage w u, r);
  AddDeltas w deltas := let '(u, err) := AddDeltas (usage_table w) deltas in (with_usage w u, err);
}.

Lemma queried_Fine {A} what (read : AccountDb → result error A) w :
  Forall (eq Fine) (take 1 (pg_faults w)) →
  queried what read w = (mkPg (pg_accounts w) (pg_rows w) (tail (pg_faults w)), read (pg_accounts w)).
Proof. destruct w as [db rows [|f fs]]; [done|]. intros Hf. inversion_clear Hf. by subst f. Qed.

Section Limits.
Context {C : Type} `{QuotaCountersSpec C} (pricing : option PricingTable).

(** The limits of a tenant are not cached, or no longer fresh. *)
Definition due (e : Enforcer C postgres_world) (now : time) (tenant : Tenant) : Prop :=
  ∀ c, e_limits e !! tenant = Some c → (Sub now (tl_fetched c) <? cfg_LimitsTTL (e_cfg e)) = false.

(** When the limits are due and the database answers, what it holds is what is enforced. *)
Lemma limits_read (e : Enforcer C postgres_world) now tenant t :
  let w := e_store e in
  due e now tenant → Forall (eq Fine) (take 2 (pg_faults w)) →
  Sql_GetTenantByExternalID (pg_accounts w) tenant = Ok t →
  ∃ e1, get_tenantLimits e now tenant =
          (e1, Ok (mkTenantLimits (ta_ID t) (Sql_ListQuotas (pg_accounts w) (ta_ID t)) now)) ∧
    e_counters e1 = e_counters e ∧ e_cfg e1 = e_cfg e.
Proof.
  intros w Hdue Hf Ht. unfold get_tenantLimits, loadLimits. simpl. fold w.
  rewrite queried_Fine by (destruct (pg_faults w); [done|]; inversion_clear Hf; by repeat constructor).
  unfold tenantRepo_GetByExternalID. rewrite Ht.
  rewrite queried_Fine by (destruct (pg_faults w) as [|? [|]]; [done..|]; inversion_clear Hf as [|? ? ? Hf1];
    inversion_clear Hf1; by repeat constructor).
  simpl. unfold due in Hdue. destruct (e_limits e !! tenant) as [c|] eqn:Ec; [rewrite (Hdue c) by done|];
    (eexists; split_and!; reflexivity).
Qed.

(** What a tenant with these quotas may still spend: the cost fits each quota whose action is not to
    let it through, in the window it has at the instant; with no such window the quota asks nothing. *)
Definition affords (lv : Window → option QuotaUsage) (cost : USD) (quotas : list Quota) (at_ : time) : Prop :=
  ∀ q win, q ∈ quotas → q_OnExceed q ≠ "allow" → WindowAt q at_ = Some win →
    ∃ u, lv win = Some u ∧ Cost u + cost ≤ q_MaxCost q.

Lemma fits_affords lv amount quotas at_ :
  fits lv amount (ApplicableLimits quotas at_) ↔ affords lv (Cost amount) quotas at_.
Proof.
  induction quotas as [|q quotas IH]; simpl.
  { split; [by intros _ q w ?%elem_of_nil|by intros _ l ?%elem_of_nil]. }
  assert (Hb : ∀ q, Blocks q = true ↔ q_OnExceed q ≠ "allow").
  { intros r. unfold Blocks, QuotaAllow. by destruct (String.eqb_spec (q_OnExceed r) "allow"). }
  destruct (WindowAt q at_) as [w|] eqn:Ew; cycle 1.
  { rewrite IH. split; intros Ha r win Hr; [|apply Ha; by right].
    apply elem_of_cons in Hr as [->|Hr]; [congruence|by apply Ha]. }
  unfold fits in *. split.
  - intros Hf r win Hr Ho Hw. apply elem_of_cons in Hr as [->|Hr].
    + rewrite Ew in Hw. injection Hw as <-.
      apply (Hf (mkWindowLimit w (q_MaxCost q) (Blocks q))); [by left|by apply Hb].
    + eapply (proj1 IH); [|done..]. intros l Hl. apply Hf. by right.
  - intros Ha l [->|Hl]%elem_of_cons Hbl; simpl in *.
    + apply (Ha q w); [by left|by apply Hb|done].
    + apply (proj2 IH); [|done..]. intros r win Hr. apply Ha. by right.
Qed.

Lemma affords_perm lv cost quotas quotas' at_ : quotas ≡ₚ quotas' → affords lv cost quotas at_ → affords lv cost quotas' at_.
Proof. intros Hp Ha q win Hq. apply Ha. by rewrite Hp. Qed.

(** The quotas a tenant is held to by an enforcer on these tables: when its limits are due and
    the database answers, they are the ones found; and a request that can be priced is then let
    through exactly when the tenant can afford its worst case. *)
Definition held_to (db : AccountDb) (account : TenantAccount) (quotas : list Quota) : Prop :=
  ∀ (e : Enforcer C postgres_world) now req,
    pg_accounts (e_store e) = db → qr_Tenant req = ta_ExternalID account → due e now (qr_Tenant req) →
    Forall (eq Fine) (take 2 (pg_faults (e_store e))) →
    ∃ e1 tl, get_tenantLimits e now (qr_Tenant req) = (e1, Ok tl) ∧ tl_tenantID tl = ta_ID account ∧
      tl_quotas tl ≡ₚ quotas ∧
      ∀ amount c, request_amount pricing (e_cfg e) req = Some amount →
        counters_answer e1 (ta_ID account) (ApplicableLimits (tl_quotas tl) (qr_At req)) amount c →
        is_ok (Reserve pricing e now req).2 = true ↔
          affords (live c (ta_ID account)) (Cost amount) quotas (qr_At req).

Lemma stored_held_to db account quotas :
  Sql_GetTenantByExternalID db (ta_ExternalID account) = Ok account →
  Sql_ListQuotas db (ta_ID account) ≡ₚ quotas → held_to db account quotas.
Proof.
  intros Hacc Hset e now req <- Hreq Hdue Hf. rewrite <- Hreq in Hacc.
  destruct (limits_read e now _ account Hdue Hf Hacc) as (e1 & Hget & _ & Hcfg).
  eexists e1, _. split; [exact Hget|]. split_and!; [done|done|]. intros amount c Ha Hc.
  rewrite <- Hcfg in Ha. rewrite (Reserve_admits _ _ _ _ _ _ _ _ Hget Ha Hc), fits_affords.
  split; by apply affords_perm.
Qed.
End Limits.

(** ** What a batch adds *)

(** What a row counts; one that is not there counts nothing. *)
Definition counted (rows : gmap counter_row QuotaUsage) (r : counter_row) : QuotaUsage := default zero_QuotaUsage (rows !! r).












(** ** Flusher and table together *)




















(** ** An answer that is lost *)

Definition ex_day_delta : WindowUsage := ex_delta 7%N 100.
Definition ex_usage_db (faults : list db_fault) : UsageDb := mkUsageDb ∅ (λ t, N.eqb t 7%N) faults.

(** When the commit of a batch succeeds and its answer is lost, the batch stays pending, is written
    again with the next tick, and is counted twice. *)
Lemma retry_counts_twice :
  let f := merge (NewFlusher (ex_usage_db [Fine; Fine; Lost]) 0 0) ex_day_delta in
  let f := write f (pending_values f) in
  let f := write f (pending_values f) in
  wu_Usage ex_day_delta = mkQuotaUsage 1 10 100 ∧ pending_values f = [] ∧
  counted (ud_rows (fl_store f)) (row_of ex_day_delta) = mkQuotaUsage 2 20 200.
Proof. by vm_compute. Qed.


