(* ===== verification/JsonText.v ===== *)
(** JSON text: values compared by meaning ([sameJSON] of [internal/usecases/admin/tenants.go],
    with the part of [math/big] its numbers go through), and values written as [encoding/json]
    writes them, with the proof that what is written is read back. *)
From Stdlib Require Import Ascii.
From S2P Require Import Prelude Errors Bytes Utf8 Json.

(** ** Numbers as exact rationals *)

(** Mantissa and decimal exponent of a JSON number's text. *)
Definition number_parts (raw : bytes) : Z * Z :=
  let '(neg, b) := match raw with "-"%char :: r => (true, r) | _ => (false, raw) end in
  let '(int, b) := digits b in
  let '(frac, b) := match b with "."%char :: r => digits r | _ => ([], b) end in
  let exp :=
    match b with
    | c :: r =>
        if bool_decide (c = "e"%char ∨ c = "E"%char) then
          match r with
          | "-"%char :: r => - decimal (digits r).1
          | "+"%char :: r => decimal (digits r).1
          | _ => decimal (digits r).1
          end
        else 0
    | [] => 0
    end in
  let m := decimal (int ++ frac) in
  (if neg : bool then - m else m, exp - blen frac).

(** [new(big.Rat).SetString]: exponents past a million are refused, except of zero. *)
Definition SetString (raw : bytes) : option (Z * Z) :=
  let '(m, e) := number_parts raw in
  if m =? 0 then Some (0, 0) else if 1000000 <? Z.abs e then None else Some (m, e).

(** [a.Cmp(b) == 0] *)
Definition rat_eqb (a b : Z * Z) : bool :=
  let '(m, e) := a in let '(m', e') := b in
  if e' <=? e then m * 10 ^ (e - e') =? m' else m =? m' * 10 ^ (e' - e).

(** Whether [strconv.ParseFloat] takes a number's text: what rounds to infinity, that is, what is
    no less than 2^1024 - 2^970, is out of range. *)
Definition ParseFloat_ok (raw : bytes) : bool :=
  let '(m, e) := number_parts raw in
  if m =? 0 then true
  else if 400 <? e then false
  else if 0 <=? e then Z.abs m * 10 ^ e <? 2 ^ 1024 - 2 ^ 970
  else if blen raw <=? - e then true
  else Z.abs m <? (2 ^ 1024 - 2 ^ 970) * 10 ^ (- e).

(** ** Values *)

(** Whether [json.Unmarshal] into an [any] takes a value: its numbers become floats. *)
Fixpoint floats_fit (n : node) : bool :=
  match n with
  | Node raw v =>
      match v with
      | JNumber => ParseFloat_ok raw
      | JArray l => forallb floats_fit l
      | JObject ms => forallb (λ m, floats_fit m.2) ms
      | _ => true
      end
  end.

Example floats_that_fit :
  map (λ s, floats_fit <$> parse (quoted s))
    ["{'a':1e308}"; "{'a':[1,-1.8e308]}"; "{'a':1e999}"; "{'a':{'b':0e999}}"; "{'a':12e-999999999}"] =
  [Some true; Some false; Some false; Some true; Some true].
Proof. by vm_compute. Qed.

(** [decodeJSON]: the value a text starts with, numbers kept as text.

    [src/internal/usecases/admin/tenants.go:247-256] decodeJSON *)
Definition decodeJSON (raw : bytes) : option node :=
  fst <$> scan_value (2 * length raw) 0 (skip_ws raw).

(** A JSON object is a map: the last of the members of one name is its value. *)
Fixpoint member (key : bytes) (ms : list (bytes * node)) : option node :=
  match ms with
  | [] => None
  | (k, v) :: ms =>
      match member key ms with
      | Some w => Some w
      | None => if decide (k = key) then Some v else None
      end
  end.
Definition names (ms : list (bytes * node)) : nat := length (remove_dups (map fst ms)).

(** [src/internal/usecases/admin/tenants.go:258-297] equalJSON *)
Fixpoint equalJSON (x y : node) {struct x} : bool :=
  match x with
  | Node rx vx =>
      match vx, node_value y with
      | JObject xs, JObject ys =>
          Nat.eqb (names xs) (names ys) &&
          (fix all (xs : list (bytes * node)) : bool :=
             match xs with
             | [] => true
             | (k, v) :: xs =>
                 (if member k xs then true
                  else match member k ys with Some w => equalJSON v w | None => false end) && all xs
             end) xs
      | JArray xs, JArray ys =>
          (fix all2 (xs ys : list node) : bool :=
             match xs, ys with
             | [], [] => true
             | x :: xs, y :: ys => equalJSON x y && all2 xs ys
             | _, _ => false
             end) xs ys
      | JNumber, JNumber =>
          match SetString rx, SetString (node_raw y) with
          | Some a, Some b => rat_eqb a b
          | _, _ => false
          end
      | JString a, JString b => bool_decide (a = b)
      | JBool a, JBool b => Bool.eqb a b
      | JNull, JNull => true
      | _, _ => false
      end
  end.

(** [src/internal/usecases/admin/tenants.go:232-245] sameJSON *)
Definition sameJSON (a b : bytes) : bool :=
  match decodeJSON a, decodeJSON b with
  | Some x, Some y => equalJSON x y
  | _, _ => false
  end.

(** Member order, number spelling and white space do not matter; repeated members do only
    through their last value. *)
Example same_json :
  map (λ ab, sameJSON (quoted ab.1) (quoted ab.2))
    [("{'a':1e3,'b':[true,null]}", "{ 'b' : [true, null], 'a' : 1000 }");
     ("{'a':1,'a':2}", "{'a':2.0}"); ("{'a':1}", "{'a':1,'b':2}"); ("[1,2]", "[2,1]"); ("0.10", "1e-1")] =
  [true; true; false; false; true].
Proof. by vm_compute. Qed.

Lemma rat_eqb_refl a : rat_eqb a a = true.
Proof. destruct a as [m e]. unfold rat_eqb. rewrite Z.leb_refl, Z.sub_diag. simpl. rewrite Z.mul_1_r. apply Z.eqb_refl. Qed.

Lemma rat_eqb_sym a b : rat_eqb a b = rat_eqb b a.
Proof.
  destruct a as [m e], b as [m' e']. unfold rat_eqb.
  destruct (Z.leb_spec e' e), (Z.leb_spec e e'); try lia; try apply Z.eqb_sym.
  assert (e = e') as -> by lia. rewrite Z.sub_diag. simpl. rewrite !Z.mul_1_r. apply Z.eqb_sym.
Qed.

(** Equality of the numbers denoted: m 10^e = m' 10^e' as rationals, cleared of denominators. *)
Lemma rat_eqb_spec m e m' e' k :
  - k ≤ e → - k ≤ e' → rat_eqb (m, e) (m', e') = true ↔ m * 10 ^ (e + k) = m' * 10 ^ (e' + k).
Proof.
  intros He He'. unfold rat_eqb. destruct (Z.leb_spec e' e).
  - rewrite Z.eqb_eq. replace (e + k) with ((e - e') + (e' + k)) by lia.
    rewrite (Z.pow_add_r 10 (e - e')), Z.mul_assoc by lia. pose proof (Z.pow_pos_nonneg 10 (e' + k) ltac:(lia) ltac:(lia)).
    rewrite Z.mul_cancel_r by lia. done.
  - rewrite Z.eqb_eq. replace (e' + k) with ((e' - e) + (e + k)) by lia.
    rewrite (Z.pow_add_r 10 (e' - e)), Z.mul_assoc by lia. pose proof (Z.pow_pos_nonneg 10 (e + k) ltac:(lia) ltac:(lia)).
    rewrite Z.mul_cancel_r by lia. done.
Qed.

Lemma rat_eqb_trans a b c : rat_eqb a b = true → rat_eqb b c = true → rat_eqb a c = true.
Proof.
  destruct a as [m e], b as [m' e'], c as [m2 e2].
  set (k := Z.abs e + Z.abs e' + Z.abs e2).
  rewrite !(rat_eqb_spec _ _ _ _ k) by (unfold k; lia). congruence.
Qed.

(** ** Writing *)

(** JSON text without the space between its tokens, with HTML characters and the two line
    separators escaped: what becomes of a [json.RawMessage] that is valid.

    [in_string] tells whether a string is open. *)
Fixpoint compact (in_string : bool) (b : bytes) : bytes :=
  match b with
  | [] => []
  | c :: r =>
      if negb in_string && is_space c then compact in_string r
      else if bool_decide (c ∈ ["<"; ">"; "&"]%char)
      then lit "\u00" ++ [hexdigit (code c / 16); hexdigit (code c mod 16)] ++ compact in_string r
      else if in_string && bool_decide (c = BACKSLASH) then
        match r with e :: r => c :: e :: compact in_string r | [] => [c] end
      else
        match r with
        | c1 :: c2 :: r' =>
            if (code c =? 226) && (code c1 =? 128) && ((code c2 =? 168) || (code c2 =? 169))
            then lit "\u202" ++ [hexdigit (code c2 - 160)] ++ compact in_string r'
            else c :: compact (xorb in_string (bool_decide (c = QUOTE))) r
        | _ => c :: compact (xorb in_string (bool_decide (c = QUOTE))) r
        end
  end.

Example compacted :
  map (λ s, str (compact false (quoted s))) ["{ 'a' : [ 1 , 'x y' ] }"; "'a \\' "; "['<b>', 'a&b']"] =
  map (λ s, str (quoted s)) ["{'a':[1,'x y']}"; "'a \\'"; "['\u003cb\u003e','a\u0026b']"].
Proof. by vm_compute. Qed.

(** What a Go value comes to before it is written: [DRaw] is a [json.RawMessage]. *)
Inductive doc :=
| DNull
| DBool (b : bool)
| DInt (z : Z)
| DStr (s : bytes)
| DRaw (raw : bytes)
| DArr (l : list doc)
| DObj (members : list (string * doc)).

(** [json.Marshal] *)
Fixpoint print (d : doc) : bytes :=
  match d with
  | DNull => lit "null"
  | DBool b => lit (if b then "true" else "false")
  | DInt z => FormatInt z
  | DStr s => json_string s
  | DRaw raw => compact false raw
  | DArr l =>
      "["%char :: (fix elements (l : list doc) : bytes :=
         match l with
         | [] => []
         | [d] => print d
         | d :: l => print d ++ ","%char :: elements l
         end) l ++ ["]"%char]
  | DObj ms =>
      "{"%char :: (fix members (ms : list (string * doc)) : bytes :=
         match ms with
         | [] => []
         | [(k, d)] => json_string (lit k) ++ ":"%char :: print d
         | (k, d) :: ms => json_string (lit k) ++ ":"%char :: print d ++ ","%char :: members ms
         end) ms ++ ["}"%char]
  end.

Definition print_elements : list doc → bytes :=
  fix elements l := match l with [] => [] | [d] => print d | d :: l => print d ++ ","%char :: elements l end.
Definition print_members : list (string * doc) → bytes :=
  fix members ms :=
    match ms with
    | [] => []
    | [(k, d)] => json_string (lit k) ++ ":"%char :: print d
    | (k, d) :: ms => json_string (lit k) ++ ":"%char :: print d ++ ","%char :: members ms
    end.
Lemma print_arr l : print (DArr l) = "["%char :: print_elements l ++ ["]"%char].
Proof. done. Qed.
Lemma print_obj ms : print (DObj ms) = "{"%char :: print_members ms ++ ["}"%char].
Proof. done. Qed.

(** The value the scanner finds in it. *)
Fixpoint node_of (d : doc) : node :=
  Node (print d)
    match d with
    | DNull => JNull
    | DBool b => JBool b
    | DInt _ => JNumber
    | DStr s => JString s
    | DRaw raw => match parse raw with Some n => node_value n | None => JNull end
    | DArr l => JArray (map node_of l)
    | DObj ms => JObject (map (λ kd, (lit kd.1, node_of kd.2)) ms)
    end.

(** Written without loss: text is UTF-8 and nothing is raw. *)
Fixpoint clean (d : doc) : bool :=
  match d with
  | DStr s => ValidString s
  | DRaw _ => false
  | DArr l => forallb clean l
  | DObj ms => forallb (λ kd, ValidString (lit kd.1) && clean kd.2) ms
  | _ => true
  end.
Fixpoint depth_of (d : doc) : Z :=
  match d with
  | DArr l => 1 + foldr (λ d n, Z.max (depth_of d) n) 0 l
  | DObj ms => 1 + foldr (λ kd n, Z.max (depth_of kd.2) n) 0 ms
  | _ => 0
  end.

(** *** Strings *)

Lemma surrogate_pair_low z b : z < 55296 → surrogate_pair z b = None.
Proof.
  intros Hz. unfold surrogate_pair. destruct (escaped_half b) as [[lo r]|]; [|done].
  unfold surrogates. by rewrite (proj2 (Z.leb_gt 55296 z)).
Qed.

Lemma code_inj a b : code a = code b → a = b.
Proof.
  unfold code. intros H. rewrite <- (ascii_N_embedding a), <- (ascii_N_embedding b). f_equal. lia.
Qed.

(** The three ways a character of ASCII is written. *)
Inductive ascii_written (c : ascii) : bytes → Prop :=
| written_plain : c ≠ QUOTE → c ≠ BACKSLASH → 32 ≤ code c → ascii_written c [c]
| written_short e : e ∈ [QUOTE; BACKSLASH; "b"; "f"; "n"; "r"; "t"]%char → escaped e = c → ascii_written c [BACKSLASH; e]
| written_hex h1 h2 : hex4 "0" "0" h1 h2 = Some (code c) → ascii_written c (lit "\u00" ++ [h1; h2]).

Lemma json_ascii_written c : code c < 128 → ascii_written c (json_ascii c).
Proof.
  intros Hc. unfold json_ascii. case_decide as Hq; [subst; apply (written_short _ QUOTE); [set_solver|done]|].
  case_decide as Hb; [subst; apply (written_short _ BACKSLASH); [set_solver|done]|].
  assert (Hcode : ∀ z, code c =? z = true → 0 ≤ z < 256 → c = byte z).
  { intros z Hz Hr. apply Z.eqb_eq in Hz. apply code_inj. rewrite Hz. unfold code, byte.
    rewrite N_ascii_embedding by lia. lia. }
  destruct (code c =? 8) eqn:E8; [apply (written_short _ "b"); [set_solver|by rewrite (Hcode 8)]|].
  destruct (code c =? 12) eqn:E12; [apply (written_short _ "f"); [set_solver|by rewrite (Hcode 12)]|].
  destruct (code c =? 10) eqn:E10; [apply (written_short _ "n"); [set_solver|by rewrite (Hcode 10)]|].
  destruct (code c =? 13) eqn:E13; [apply (written_short _ "r"); [set_solver|by rewrite (Hcode 13)]|].
  destruct (code c =? 9) eqn:E9; [apply (written_short _ "t"); [set_solver|by rewrite (Hcode 9)]|].
  destruct (_ || _) eqn:Eh; [|apply written_plain; [done|done|apply orb_false_iff in Eh as [Eh _]; lia]].
  apply written_hex.
  assert (Hall : forallb (λ n, let c := ascii_of_nat n in
            bool_decide (hex4 "0" "0" (hexdigit (code c / 16)) (hexdigit (code c mod 16)) = Some (code c))) (seq 0 128) = true)
    by by vm_compute.
  rewrite forallb_forall in Hall. specialize (Hall (nat_of_ascii c)).
  rewrite ascii_nat_embedding in Hall. unfold nat_of_ascii in Hall. apply (bool_decide_unpack _), Is_true_true, Hall, in_seq. unfold code in Hc. lia.
Qed.

Lemma code_nonneg c : 0 ≤ code c.
Proof. unfold code. lia. Qed.

Lemma scan_ascii c t : code c < 128 →
  scan_string (json_ascii c ++ t) = match scan_string t with Some (s, u) => Some (json_ascii c ++ s, u) | None => None end.
Proof.
  intros Hc. destruct (json_ascii_written c Hc) as [Hq Hb Hs|e He _|h1 h2 Hh].
  - cbn [app scan_string]. by rewrite !decide_False, (proj2 (Z.ltb_ge (code c) 32)) by done.
  - cbn [app scan_string]. rewrite decide_False, decide_True by done.
    repeat (apply elem_of_cons in He as [->|He]; [done|]). by apply elem_of_nil in He.
  - cbn -[hex4]. change (hex4 "0" "0" h1 h2) with (hex4 "0" "0" h1 h2). rewrite Hh. done.
Qed.

Lemma unquote_ascii c t n : code c < 128 → unquote (S n) (json_ascii c ++ t) = c :: unquote n t.
Proof.
  intros Hc. destruct (json_ascii_written c Hc) as [Hq Hb Hs|e He <-|h1 h2 Hh].
  - cbn [app unquote]. by rewrite decide_False, (proj2 (Z.ltb_lt (code c) 128)) by done.
  - cbn [app unquote]. rewrite decide_True by done.
    repeat (apply elem_of_cons in He as [->|He]; [done|]). by apply elem_of_nil in He.
  - cbn [app lit String.list_ascii_of_string unquote]. rewrite decide_True, Hh by done.
    cbn [default from_option]. cbv zeta. change (id (code c)) with (code c).
    rewrite (surrogate_pair_low (code c) t) by lia. unfold is_surrogate, utf8.
    rewrite (proj2 (Z.leb_gt 55296 (code c))), (proj2 (Z.ltb_lt (code c) 128)) by lia. cbn [andb app].
    f_equal. unfold byte, code. by rewrite N2Z.id, ascii_N_embedding.
Qed.

Lemma scan_high c t : 128 ≤ code c →
  scan_string (c :: t) = match scan_string t with Some (s, u) => Some (c :: s, u) | None => None end.
Proof.
  intros Hc. cbn [scan_string]. rewrite decide_False by (intros ->; revert Hc; by vm_compute).
  rewrite decide_False by (intros ->; revert Hc; by vm_compute). by rewrite (proj2 (Z.ltb_ge (code c) 32)) by lia.
Qed.

Lemma continuation_high c : continuation c = true → 128 ≤ code c.
Proof. unfold continuation. intros H. bool_prop. lia. Qed.

(** The characters of a string that is written, taken a rune at a time. *)
Inductive runes_of : bytes → Prop :=
| runes_nil : runes_of []
| runes_one c r : code c < 128 → runes_of r → runes_of (c :: r)
| runes_two c c1 r : 128 ≤ code c → valid2 c c1 = true → runes_of r → runes_of (c :: c1 :: r)
| runes_three c c1 c2 r : 128 ≤ code c → valid2 c c1 = false → valid3 c c1 c2 = true → runes_of r →
    runes_of (c :: c1 :: c2 :: r)
| runes_four c c1 c2 c3 r : 128 ≤ code c → valid2 c c1 = false → valid3 c c1 c2 = false → valid4 c c1 c2 c3 = true →
    runes_of r → runes_of (c :: c1 :: c2 :: c3 :: r).

Lemma ValidString_runes b : ValidString b = true → runes_of b.
Proof.
  unfold ValidString. assert (Hgo : ∀ n b, (length b ≤ n)%nat → forallb id (runes n b) = true → runes_of b); [|by apply Hgo].
  clear b. intros n. induction n as [|n IH]; intros b Hl Hv; [destruct b; [constructor|cbn in Hl; lia]|].
  destruct b as [|c r]; [constructor|]. cbn [runes rune_width] in Hv. cbn [length] in Hl.
  destruct (Z.ltb_spec (code c) 128) as [Hc|Hc].
  { apply runes_one; [done|]. apply IH; [lia|exact Hv]. }
  destruct r as [|c1 r]; [done|]. cbn [length] in Hl. destruct (valid2 c c1) eqn:E2.
  { apply runes_two; [done..|]. apply IH; [lia|exact Hv]. }
  destruct r as [|c2 r]; [done|]. cbn [length] in Hl. destruct (valid3 c c1 c2) eqn:E3.
  { apply runes_three; [done..|]. apply IH; [lia|exact Hv]. }
  destruct r as [|c3 r]; [done|]. cbn [length] in Hl. destruct (valid4 c c1 c2 c3) eqn:E4; [|done].
  apply runes_four; [done..|]. apply IH; [lia|exact Hv].
Qed.

Lemma valid2_high c c1 : valid2 c c1 = true → 128 ≤ code c1.
Proof. unfold valid2. intros [_ H]%andb_true_iff. by apply continuation_high. Qed.
Lemma valid3_high c c1 c2 : valid3 c c1 c2 = true → 128 ≤ code c1 ∧ 128 ≤ code c2.
Proof. unfold valid3. intros H. bool_prop. split; by apply continuation_high. Qed.
Lemma valid4_high c c1 c2 c3 : valid4 c c1 c2 c3 = true → 128 ≤ code c1 ∧ 128 ≤ code c2 ∧ 128 ≤ code c3.
Proof. unfold valid4. intros H. bool_prop. split_and!; by apply continuation_high. Qed.

(** The two characters that end a line in JavaScript are escaped. *)
Definition line_end (c c1 c2 : ascii) : bool := (code c =? 226) && (code c1 =? 128) && ((code c2 =? 168) || (code c2 =? 169)).

Lemma line_end_cases c c1 c2 : line_end c c1 c2 = true →
  c = "226"%char ∧ c1 = "128"%char ∧ (c2 = "168"%char ∨ c2 = "169"%char).
Proof.
  unfold line_end. intros H. apply andb_true_iff in H as [H H2]. apply andb_true_iff in H as [H0 H1].
  apply Z.eqb_eq in H0, H1. split_and!; [by apply code_inj|by apply code_inj|].
  apply orb_true_iff in H2 as [H2|H2]; apply Z.eqb_eq in H2; [left|right]; by apply code_inj.
Qed.

(** Written and scanned, a string is what it was. *)
Lemma string_written b : runes_of b → ∀ n t, (length b ≤ n)%nat →
  scan_string (json_chars n b ++ QUOTE :: t) = Some (json_chars n b, t) ∧
  ∀ m, (length (json_chars n b) ≤ m)%nat → unquote m (json_chars n b) = b.
Proof.
  induction 1 as [|c r Hc Hr IH|c c1 r Hc H2 Hr IH|c c1 c2 r Hc H2 H3 Hr IH|c c1 c2 c3 r Hc H2 H3 H4 Hr IH]; intros n t Hn.
  - destruct n; (split; [done|by intros []]).
  - destruct n as [|n]; cbn [length] in Hn; [lia|]. destruct (IH n t ltac:(lia)) as [Hs Hu].
    cbn [json_chars]. rewrite (proj2 (Z.ltb_lt (code c) 128)) by done. rewrite <- app_assoc, scan_ascii, Hs by done.
    split; [done|]. intros m Hm. rewrite length_app in Hm.
    assert (0 < length (json_ascii c))%nat.
    { unfold json_ascii. repeat (case_decide || case_match); cbn; lia. }
    destruct m as [|m]; [lia|]. rewrite unquote_ascii by done. f_equal. apply Hu. lia.
  - destruct n as [|n]; cbn [length] in Hn; [lia|]. destruct (IH n t ltac:(lia)) as [Hs Hu].
    cbn [json_chars]. rewrite (proj2 (Z.ltb_ge (code c) 128)), H2 by done. cbn [app].
    rewrite scan_high, scan_high, Hs by (done || by eapply valid2_high). split; [done|]. intros m Hm.
    cbn [length] in Hm. destruct m as [|m]; [lia|]. cbn [unquote].
    rewrite decide_False by (intros ->; revert Hc; by vm_compute).
    rewrite (proj2 (Z.ltb_ge (code c) 128)), H2 by done. do 2 f_equal. apply Hu. lia.
  - destruct n as [|n]; cbn [length] in Hn; [lia|]. destruct (IH n t ltac:(lia)) as [Hs Hu].
    destruct (valid3_high _ _ _ H3) as [Hc1 Hc2].
    cbn [json_chars]. rewrite (proj2 (Z.ltb_ge (code c) 128)), H2, H3 by done. fold (line_end c c1 c2).
    destruct (line_end c c1 c2) eqn:El.
    + apply line_end_cases in El as (-> & -> & Hcase).
      assert (Hw : ∀ d, d = "168"%char ∨ d = "169"%char → ∃ h, lit "\u202" ++ [hexdigit (code d - 160)] = lit "\u202" ++ [h] ∧
                (h = "8"%char ∧ d = "168"%char ∨ h = "9"%char ∧ d = "169"%char)) by (intros d [->| ->]; eauto).
      destruct (Hw c2 Hcase) as (h & -> & Hh). clear Hw Hcase. split.
      * destruct Hh as [[-> ->]|[-> ->]]; cbn -[json_chars]; by rewrite Hs.
      * intros m Hm. rewrite !length_app in Hm. cbn [length lit] in Hm. destruct m as [|m]; [cbn in Hm; lia|].
        specialize (Hu m ltac:(cbn in Hm; lia)).
        destruct Hh as [[-> ->]|[-> ->]]; cbn -[surrogate_pair json_chars]; rewrite surrogate_pair_low by done;
          cbn -[json_chars]; rewrite Hu; by vm_compute.
    + cbn [app]. rewrite !scan_high, Hs by done. split; [done|]. intros m Hm. cbn [length] in Hm.
      destruct m as [|m]; [lia|]. cbn [unquote]. rewrite decide_False by (intros ->; revert Hc; by vm_compute).
      rewrite (proj2 (Z.ltb_ge (code c) 128)), H2, H3 by done. do 3 f_equal. apply Hu. lia.
  - destruct n as [|n]; cbn [length] in Hn; [lia|]. destruct (IH n t ltac:(lia)) as [Hs Hu].
    destruct (valid4_high _ _ _ _ H4) as (Hc1 & Hc2 & Hc3).
    cbn [json_chars]. rewrite (proj2 (Z.ltb_ge (code c) 128)), H2, H3, H4 by done. cbn [app].
    rewrite !scan_high, Hs by done. split; [done|]. intros m Hm. cbn [length] in Hm.
    destruct m as [|m]; [lia|]. cbn [unquote]. rewrite decide_False by (intros ->; revert Hc; by vm_compute).
    rewrite (proj2 (Z.ltb_ge (code c) 128)), H2, H3, H4 by done. do 4 f_equal. apply Hu. lia.
Qed.

(** *** Numbers *)

(** What does not go on with a number. *)
Definition stops (rest : bytes) : Prop :=
  match rest with c :: _ => is_digit c = false ∧ c ∉ ["."; "e"; "E"]%char | [] => True end.

Lemma digits_stop ds rest : forallb is_digit ds = true → stops rest → digits (ds ++ rest) = (ds, rest).
Proof.
  intros Hd Hs. induction ds as [|c ds IH]; cbn [app].
  - destruct rest as [|c r]; [done|]. destruct Hs as [Hc _]. cbn [digits]. by rewrite Hc.
  - cbn [forallb] in Hd. apply andb_true_iff in Hd as [Hc Hd]. cbn [digits]. by rewrite Hc, IH.
Qed.

Lemma scan_tail rest : stops rest →
  match scan_fraction rest with None => None | Some r => scan_exponent r end = Some rest.
Proof.
  intros Hs. destruct rest as [|c r]; [done|]. destruct Hs as [_ Hc].
  assert (Hf : scan_fraction (c :: r) = Some (c :: r)).
  { unfold scan_fraction. destruct (decide (c = "."%char)) as [->|Hn]; [set_solver|].
    destruct c as [[] [] [] [] [] [] [] []]; done. }
  rewrite Hf. cbn [scan_exponent]. rewrite bool_decide_eq_false_2; [done|]. intros [->| ->]; set_solver.
Qed.

Lemma pretty_head x s : (0 < x)%N → ∃ c r, pretty_N_go x s = String c r ∧ c ≠ "0"%char.
Proof.
  revert s. induction (N.lt_wf_0 x) as [x _ IH]. intros s Hx. rewrite pretty_N_go_step by lia.
  destruct (decide (x / 10 = 0)%N) as [Hz|Hz].
  - rewrite Hz. eexists _, _. split; [done|]. apply N.div_small_iff in Hz; [|done]. rewrite N.mod_small by done.
    intros Hc. destruct (pretty_digit x Hz) as [_ Hv]. rewrite Hc in Hv. change (code "0" - 48) with 0 in Hv. lia.
  - apply IH; [by apply N.div_lt; lia|lia].
Qed.

Lemma scan_natural ds rest :
  forallb is_digit ds = true → ds ≠ [] → (hd_error ds ≠ Some "0"%char ∨ ds = ["0"%char]) → stops rest →
  match match ds ++ rest with
        | "0"%char :: r => Some r
        | _ => match digits (ds ++ rest) with ([], _) => None | (_, r) => Some r end
        end with
  | None => None
  | Some r => match scan_fraction r with None => None | Some r => scan_exponent r end
  end = Some rest.
Proof.
  intros Hd Hne Hh Hs. destruct ds as [|c ds]; [done|]. pose proof (digits_stop _ _ Hd Hs) as Hds.
  destruct Hh as [Hh|[= -> ->]]; [|by apply scan_tail].
  assert (Hn : c ≠ "0"%char) by (intros ->; done). cbn [app] in *.
  transitivity (match digits (c :: ds ++ rest) with
                | ([], _) => None
                | (_, r) => match scan_fraction r with None => None | Some r => scan_exponent r end
                end); [|by rewrite Hds; apply scan_tail].
  clear - Hn. destruct c as [[] [] [] [] [] [] [] []]; try done; by destruct (digits _) as [[] ?].
Qed.

Lemma pretty_N_form (x : N) : let ds := lit (pretty x) in
  forallb is_digit ds = true ∧ ds ≠ [] ∧ (hd_error ds ≠ Some "0"%char ∨ ds = ["0"%char]) ∧ decimal ds = Z.of_N x.
Proof.
  destruct (pretty_N_digits x) as (Hd & Hv & Hne). split_and!; [done|done| |done].
  destruct (decide (x = 0)%N) as [->|Hx]; [by right|]. left.
  unfold pretty, pretty_N. rewrite decide_False by done.
  destruct (pretty_head x "" ltac:(lia)) as (c & r & -> & Hc). intros [= ?]. done.
Qed.

Lemma scan_number_FormatInt z rest : stops rest → scan_number (FormatInt z ++ rest) = Some rest.
Proof.
  intros Hs. destruct z as [|p|p]; [by apply scan_tail| |].
  - change (FormatInt (Z.pos p)) with (lit (pretty (N.pos p))).
    destruct (pretty_N_form (N.pos p)) as (Hd & Hne & Hh & _). set (ds := lit _) in *. clearbody ds.
    unfold scan_number. rewrite <- (scan_natural ds rest) by done.
    destruct ds as [|c ds]; [done|]. cbn [app forallb] in *. apply andb_true_iff in Hd as [Hc _].
    assert (c ≠ "-"%char) by (intros ->; done). destruct c as [[] [] [] [] [] [] [] []]; done.
  - rewrite FormatInt_neg. destruct (pretty_N_form (N.pos p)) as (Hd & Hne & Hh & _). set (ds := lit _) in *. clearbody ds.
    exact (scan_natural ds rest Hd Hne Hh Hs).
Qed.

Lemma parse_int_FormatInt z : int64_range z → parse_int (FormatInt z) = Some z.
Proof.
  intros Hz. destruct z as [|p|p]; [done| |].
  - change (FormatInt (Z.pos p)) with (lit (pretty (N.pos p))).
    destruct (pretty_N_form (N.pos p)) as (Hd & Hne & _ & Hv). set (ds := lit _) in *. clearbody ds.
    destruct ds as [|c ds]; [done|]. pose proof Hd as Hc. cbn [forallb] in Hc. apply andb_true_iff in Hc as [Hc _].
    pose proof (digits_stop (c :: ds) [] Hd I) as Hds. rewrite app_nil_r in Hds.
    assert (Hm : parse_int (c :: ds) = match digits (c :: ds) with
              | ((_ :: _) as ds, []) => if bool_decide (int64_range (decimal ds)) then Some (decimal ds) else None
              | _ => None end).
    { clear - Hc. unfold parse_int. assert (c ≠ "-"%char) by (intros ->; done).
      destruct c as [[] [] [] [] [] [] [] []]; done. }
    rewrite Hm, Hds, Hv. change (Z.of_N (N.pos p)) with (Z.pos p). by rewrite bool_decide_eq_true_2.
  - rewrite FormatInt_neg. destruct (pretty_N_form (N.pos p)) as (Hd & Hne & _ & Hv). set (ds := lit _) in *. clearbody ds.
    pose proof (digits_stop ds [] Hd I) as Hds. rewrite app_nil_r in Hds. unfold parse_int. rewrite Hds.
    destruct ds as [|c ds]; [done|]. rewrite Hv. change (- Z.of_N (N.pos p)) with (Z.neg p). by rewrite bool_decide_eq_true_2.
Qed.

(** *** Values *)

Section DocInd.
Variable P : doc → Prop.
Hypotheses (Hnull : P DNull) (Hbool : ∀ b, P (DBool b)) (Hint : ∀ z, P (DInt z)) (Hstr : ∀ s, P (DStr s))
  (Hraw : ∀ r, P (DRaw r)) (Harr : ∀ l, Forall P l → P (DArr l)) (Hobj : ∀ ms, Forall (λ kd, P kd.2) ms → P (DObj ms)).
Fixpoint doc_nested_ind (d : doc) : P d :=
  match d with
  | DNull => Hnull | DBool b => Hbool b | DInt z => Hint z | DStr s => Hstr s | DRaw r => Hraw r
  | DArr l => Harr l ((fix go l : Forall P l :=
      match l with [] => Forall_nil_2 _ | d :: l => Forall_cons_2 _ d l (doc_nested_ind d) (go l) end) l)
  | DObj ms => Hobj ms ((fix go ms : Forall (λ kd, P kd.2) ms :=
      match ms with [] => Forall_nil_2 _ | kd :: ms => Forall_cons_2 _ kd ms (doc_nested_ind kd.2) (go ms) end) ms)
  end.
End DocInd.

Definition heads : bytes := QUOTE :: lit "{[ntf-0123456789".
Lemma digit_head c : is_digit c = true → c ∈ heads.
Proof.
  assert (Hall : forallb (λ n, implb (is_digit (ascii_of_nat n)) (bool_decide (ascii_of_nat n ∈ heads))) (seq 0 256) = true)
    by by vm_compute.
  intros Hc. rewrite forallb_forall in Hall. pose proof (nat_ascii_bounded c).
  specialize (Hall (nat_of_ascii c)). rewrite in_seq in Hall.
  rewrite ascii_nat_embedding, Hc in Hall. apply (bool_decide_eq_true_1 (c ∈ heads)), Hall. lia.
Qed.
Lemma FormatInt_head z : ∃ c r, FormatInt z = c :: r ∧ c ∈ "-"%char :: filter (λ c, is_digit c) heads.
Proof.
  assert (Hn : ∀ x : N, ∃ c r, lit (pretty x) = c :: r ∧ c ∈ "-"%char :: filter (λ c, is_digit c) heads).
  { intros x. destruct (pretty_N_digits x) as (Hd & _ & Hne). destruct (lit (pretty x)) as [|c r]; [done|].
    cbn [forallb] in Hd. apply andb_true_iff in Hd as [Hc _]. exists c, r. split; [done|].
    apply elem_of_cons. right. apply list_elem_of_filter. split; [by rewrite Hc|by apply digit_head]. }
  destruct z as [|p|p]; [exact (Hn 0%N)|exact (Hn (N.pos p))|]. rewrite FormatInt_neg.
  eexists _, _. split; [done|]. apply elem_of_cons. by left.
Qed.

Lemma print_head d : clean d = true → ∃ c r, print d = c :: r ∧ c ∈ heads.
Proof.
  intros Hc. destruct d as [|b|z|s|r|l|ms].
  - eexists _, _. split; [done|]. by apply (bool_decide_unpack _).
  - destruct b; (eexists _, _; split; [done|]; by apply (bool_decide_unpack _)).
  - destruct (FormatInt_head z) as (c & r & E & Hin). exists c, r. split; [done|].
    apply elem_of_cons in Hin as [->|Hin]; [by apply (bool_decide_unpack _)|by apply list_elem_of_filter in Hin as [_ ?]].
  - eexists _, _. split; [done|]. by apply (bool_decide_unpack _).
  - done.
  - eexists _, _. split; [apply print_arr|]. by apply (bool_decide_unpack _).
  - eexists _, _. split; [apply print_obj|]. by apply (bool_decide_unpack _).
Qed.

(** Nothing to skip before a value, and no bracket where one starts. *)
Lemma skip_head c r : c ∈ heads → skip_ws (c :: r) = c :: r.
Proof.
  intros Hin. unfold heads in Hin. cbn [lit String.list_ascii_of_string] in Hin.
  repeat (apply elem_of_cons in Hin as [->|Hin]; [done|]). by apply elem_of_nil in Hin.
Qed.
Lemma skip_print d rest : clean d = true → skip_ws (print d ++ rest) = print d ++ rest.
Proof. intros Hc. destruct (print_head d Hc) as (c & r & -> & Hin). by apply skip_head. Qed.

Lemma consumed_app p rest : consumed (p ++ rest) rest = p.
Proof. unfold consumed. rewrite length_app. replace (_ - _)%nat with (length p) by lia. apply take_app_length. Qed.

Lemma scan_array fuel depth b :
  maxNestingDepth <? depth + 1 = false → (∃ c r, b = c :: r ∧ c ∈ heads) →
  scan_value (S fuel) depth ("["%char :: b) =
    match scan_elements fuel (depth + 1) b with
    | Some (l, rest) => Some (Node (consumed ("["%char :: b) rest) (JArray l), rest) | None => None end.
Proof.
  intros Hd (c & r & -> & Hin). cbn [scan_value]. rewrite decide_False, decide_False, decide_True by done.
  rewrite Hd, (skip_head c r Hin). unfold heads in Hin. cbn [lit String.list_ascii_of_string] in Hin.
  repeat (apply elem_of_cons in Hin as [->|Hin]; [done|]). by apply elem_of_nil in Hin.
Qed.
Lemma scan_object fuel depth r :
  maxNestingDepth <? depth + 1 = false →
  scan_value (S fuel) depth ("{"%char :: QUOTE :: r) =
    match scan_members fuel (depth + 1) (QUOTE :: r) with
    | Some (ms, rest) => Some (Node (consumed ("{"%char :: QUOTE :: r) rest) (JObject ms), rest) | None => None end.
Proof. intros Hd. cbn [scan_value]. rewrite decide_False, decide_True by done. by rewrite Hd. Qed.

Lemma scan_empty_array fuel depth rest : depth + 1 ≤ maxNestingDepth →
  scan_value (S fuel) depth (lit "[]" ++ rest) = Some (Node (lit "[]") (JArray []), rest).
Proof.
  intros Hd%Z.ltb_ge. pose proof (consumed_app (lit "[]") rest) as Hc.
  change (lit "[]" ++ rest) with ("["%char :: "]"%char :: rest) in *. cbn [scan_value].
  rewrite decide_False, decide_False, decide_True by done. by rewrite Hd, <- Hc.
Qed.
Lemma scan_empty_object fuel depth rest : depth + 1 ≤ maxNestingDepth →
  scan_value (S fuel) depth (lit "{}" ++ rest) = Some (Node (lit "{}") (JObject []), rest).
Proof.
  intros Hd%Z.ltb_ge. pose proof (consumed_app (lit "{}") rest) as Hc.
  change (lit "{}" ++ rest) with ("{"%char :: "}"%char :: rest) in *. cbn [scan_value].
  rewrite decide_False, decide_True by done. by rewrite Hd, <- Hc.
Qed.

Lemma scan_int fuel depth z rest : stops rest →
  scan_value (S fuel) depth (FormatInt z ++ rest) = Some (Node (FormatInt z) JNumber, rest).
Proof.
  intros Hs. pose proof (scan_number_FormatInt z rest Hs) as Hn. pose proof (consumed_app (FormatInt z) rest) as Hc.
  destruct (FormatInt_head z) as (c & r & Ez & Hin). revert Hn Hc. rewrite Ez. cbn [app]. intros Hn Hc.
  assert (Hv : scan_value (S fuel) depth (c :: r ++ rest) =
    match scan_number (c :: r ++ rest) with Some t => Some (Node (consumed (c :: r ++ rest) t) JNumber, t) | None => None end).
  { clear Ez. assert (E : filter (λ c, is_digit c) heads = lit "0123456789") by by vm_compute. rewrite E in Hin. cbn [lit String.list_ascii_of_string] in Hin.
    repeat (apply elem_of_cons in Hin as [->|Hin]; [done|]). by apply elem_of_nil in Hin. }
  by rewrite Hv, Hn, Hc.
Qed.

Lemma stops_at c rest : c ∈ [","; "]"; "}"]%char → stops (c :: rest).
Proof.
  intros Hc. repeat (apply elem_of_cons in Hc as [->|Hc]; [split; [done|by apply (bool_decide_unpack _)]|]).
  by apply elem_of_nil in Hc.
Qed.
Ltac at_stop := first [done | lia | by apply stops_at; apply (bool_decide_unpack _)].

Definition scans (d : doc) : Prop := ∀ fuel depth rest,
  (2 * length (print d) ≤ S fuel)%nat → depth + depth_of d ≤ maxNestingDepth → stops rest →
  scan_value fuel depth (print d ++ rest) = Some (node_of d, rest).

Lemma scan_json_string s t : ValidString s = true →
  ∃ b, json_string s ++ t = QUOTE :: b ∧ scan_string b = Some (json_chars (length s) s, t) ∧
       string_value (json_chars (length s) s) = s.
Proof.
  intros Hv. exists (json_chars (length s) s ++ QUOTE :: t). unfold json_string.
  destruct (string_written s (ValidString_runes s Hv) (length s) t ltac:(lia)) as [Hs Hu].
  split_and!; [by rewrite <- !app_assoc|done|]. apply Hu. lia.
Qed.

Lemma elements_written l depth : Forall scans l → forallb clean l = true → l ≠ [] →
  depth + foldr (λ d n, Z.max (depth_of d) n) 0 l ≤ maxNestingDepth → ∀ fuel rest,
  (2 * length (print_elements l ++ ["]"%char]) ≤ fuel)%nat →
  scan_elements fuel depth (print_elements l ++ "]"%char :: rest) = Some (map node_of l, rest).
Proof.
  induction 1 as [|d l Hd Hl IH]; [done|]. intros Hc _ Hdep fuel rest Hf. cbn [forallb foldr] in Hc, Hdep.
  apply andb_true_iff in Hc as [Hc Hcl]. destruct fuel as [|fuel]; [rewrite length_app in Hf; cbn [length] in Hf; lia|].
  destruct l as [|d2 l].
  - cbn [print_elements] in *. rewrite length_app in Hf. cbn [length] in Hf. cbn [scan_elements].
    by rewrite Hd by at_stop.
  - assert (E : ∀ t, print_elements (d :: d2 :: l) ++ t = print d ++ ","%char :: print_elements (d2 :: l) ++ t)
      by (intros t; cbn [print_elements]; by rewrite <- app_assoc).
    rewrite E in Hf |- *. rewrite length_app in Hf. cbn [length] in Hf. cbn [scan_elements].
    rewrite Hd by at_stop. change (skip_ws (","%char :: ?t)) with (","%char :: t). cbv iota.
    assert (Hs : skip_ws (print_elements (d2 :: l) ++ "]"%char :: rest) = print_elements (d2 :: l) ++ "]"%char :: rest).
    { cbn [forallb] in Hcl. apply andb_true_iff in Hcl as [Hc2 _]. destruct (print_head d2 Hc2) as (c & r & Ep & Hin).
      destruct l; cbn [print_elements]; rewrite Ep; by apply skip_head. }
    rewrite Hs, IH; [done|done|done|lia|lia].
Qed.

Lemma json_string_length k : (2 ≤ length (json_string k))%nat.
Proof. unfold json_string. rewrite !length_app. cbn [length]. lia. Qed.

(** One member, up to what follows its value. *)
Lemma member_written k d fuel depth t : ValidString (lit k) = true → clean d = true →
  scan_value fuel depth (print d ++ t) = Some (node_of d, t) →
  scan_members (S fuel) depth (json_string (lit k) ++ ":"%char :: print d ++ t) =
    match skip_ws t with
    | "}"%char :: rest => Some ([(lit k, node_of d)], rest)
    | ","%char :: r =>
        match scan_members fuel depth (skip_ws r) with
        | Some (ms, rest) => Some ((lit k, node_of d) :: ms, rest)
        | None => None
        end
    | _ => None
    end.
Proof.
  intros Hk Hc Hv. destruct (scan_json_string (lit k) (":"%char :: print d ++ t) Hk) as (b & -> & Hs & Hu).
  cbn [scan_members]. rewrite decide_True by done. rewrite Hs.
  change (skip_ws (":"%char :: ?t)) with (":"%char :: t). cbv iota. by rewrite skip_print, Hv, Hu.
Qed.

Lemma members_written ms depth : Forall (λ kd, scans kd.2) ms →
  forallb (λ kd : string * doc, ValidString (lit kd.1) && clean kd.2) ms = true → ms ≠ [] →
  depth + foldr (λ kd n, Z.max (depth_of kd.2) n) 0 ms ≤ maxNestingDepth → ∀ fuel rest,
  (2 * length (print_members ms ++ ["}"%char]) ≤ fuel)%nat →
  scan_members fuel depth (print_members ms ++ "}"%char :: rest) =
    Some (map (λ kd, (lit kd.1, node_of kd.2)) ms, rest).
Proof.
  induction 1 as [|[k d] ms Hd Hl IH]; [done|]. intros Hc _ Hdep fuel rest Hf. cbn [forallb foldr snd fst] in Hc, Hdep, Hd.
  apply andb_true_iff in Hc as [[Hk Hc]%andb_true_iff Hcl]. pose proof (json_string_length (lit k)) as Hlen.
  destruct fuel as [|fuel]; [rewrite length_app in Hf; cbn [length] in Hf; lia|]. destruct ms as [|kd2 ms].
  - assert (E : ∀ t, print_members [(k, d)] ++ t = json_string (lit k) ++ ":"%char :: print d ++ t)
      by (intros t; cbn [print_members]; by rewrite <- app_assoc).
    rewrite E in Hf |- *. rewrite length_app in Hf. cbn [length] in Hf. rewrite length_app in Hf. cbn [length] in Hf.
    rewrite member_written; [done|done|done|]. apply Hd; at_stop.
  - assert (E : ∀ t, print_members ((k, d) :: kd2 :: ms) ++ t =
        json_string (lit k) ++ ":"%char :: print d ++ ","%char :: print_members (kd2 :: ms) ++ t).
    { intros t. cbn [print_members]. rewrite <- app_assoc. cbn [app]. by rewrite <- app_assoc. }
    rewrite E in Hf |- *. rewrite length_app in Hf. cbn [length] in Hf. rewrite length_app in Hf. cbn [length] in Hf.
    rewrite member_written; [|done|done|apply Hd; at_stop].
    change (skip_ws (","%char :: ?t)) with (","%char :: t). cbv iota.
    assert (Hs : skip_ws (print_members (kd2 :: ms) ++ "}"%char :: rest) = print_members (kd2 :: ms) ++ "}"%char :: rest).
    { destruct kd2 as [k2 d2]. destruct ms; cbn [print_members]; unfold json_string; rewrite <- !app_assoc;
        apply skip_head; by apply (bool_decide_unpack _). }
    rewrite Hs, IH; [done|done|done|lia|lia].
Qed.

Lemma depth_of_le d : 0 ≤ depth_of d.
Proof.
  destruct d as [| | | | |l|ms]; cbn [depth_of]; try lia.
  - induction l; cbn [foldr]; lia.
  - induction ms; cbn [foldr]; lia.
Qed.

Lemma scan_print d : clean d = true → scans d.
Proof.
  induction d as [|b|z|s|r|l Hl|ms Hms] using doc_nested_ind; intros Hc [|fuel] depth rest Hf Hdep Hs;
    try (destruct (print_head _ Hc) as (c0 & r0 & Ep & _); rewrite Ep in Hf; cbn [length] in Hf; lia).
  - pose proof (consumed_app (print DNull) rest) as Hcons.
    transitivity (Some (Node (consumed (print DNull ++ rest) rest) JNull, rest)); [done|by rewrite Hcons].
  - pose proof (consumed_app (print (DBool b)) rest) as Hcons.
    transitivity (Some (Node (consumed (print (DBool b) ++ rest) rest) (JBool b), rest)); [by destruct b|by rewrite Hcons].
  - by apply scan_int.
  - cbn [print node_of clean] in *. destruct (scan_json_string s rest Hc) as (b & E & Hsc & Hu).
    pose proof (consumed_app (json_string s) rest) as Hcons. rewrite E in Hcons |- *. cbn [scan_value].
    rewrite decide_True by done. by rewrite Hsc, Hu, Hcons.
  - done.
  - cbn [clean] in Hc. destruct l as [|d l].
    { cbn [depth_of foldr] in Hdep. by apply scan_empty_array. }
    assert (Hall : Forall scans (d :: l)).
    { rewrite forallb_forall in Hc. rewrite Forall_forall in Hl |- *. intros x Hx. apply Hl; [done|]. by apply Hc, list_elem_of_In. }
    pose proof (consumed_app (print (DArr (d :: l))) rest) as Hcons.
    rewrite print_arr in Hf, Hcons |- *. cbn [app] in Hcons |- *. rewrite <- app_assoc in Hcons |- *. cbn [app length] in *.
    cbn [depth_of] in Hdep. rewrite scan_array; [|apply Z.ltb_ge|].
    + rewrite (elements_written (d :: l)); [by rewrite Hcons|done|done|done|lia|lia].
    + pose proof (depth_of_le d). assert (0 ≤ foldr (λ d n, Z.max (depth_of d) n) 0 (d :: l)) by (cbn [foldr]; lia). lia.
    + cbn [forallb] in Hc. apply andb_true_iff in Hc as [Hc _]. destruct (print_head d Hc) as (c & r & Ep & Hin).
      destruct l; cbn [print_elements]; rewrite Ep; eauto.
  - cbn [clean] in Hc. destruct ms as [|[k d] ms].
    { cbn [depth_of foldr] in Hdep. by apply scan_empty_object. }
    assert (Hall : Forall (λ kd, scans kd.2) ((k, d) :: ms)).
    { rewrite forallb_forall in Hc. rewrite Forall_forall in Hms |- *. intros x Hx. apply Hms; [done|].
      apply list_elem_of_In, Hc, andb_true_iff in Hx as [_ ?]. done. }
    pose proof (consumed_app (print (DObj ((k, d) :: ms))) rest) as Hcons.
    rewrite print_obj in Hf, Hcons |- *. cbn [app] in Hcons |- *. rewrite <- app_assoc in Hcons |- *. cbn [app length] in *.
    cbn [depth_of] in Hdep. assert (0 ≤ foldr (λ kd n, Z.max (depth_of kd.2) n) 0 ((k, d) :: ms)).
    { pose proof (depth_of_le d). cbn [foldr snd]. lia. }
    assert (Hq : ∃ r, print_members ((k, d) :: ms) ++ "}"%char :: rest = QUOTE :: r) by (destruct ms; by eexists).
    pose proof (members_written ((k, d) :: ms) (depth + 1) Hall Hc ltac:(done) ltac:(lia) fuel rest ltac:(lia)) as Hw.
    destruct Hq as [r Hq]. rewrite Hq in Hw, Hcons |- *. rewrite scan_object by (apply Z.ltb_ge; lia).
    by rewrite Hw, Hcons.
Qed.

(** What is written is read back: the text of a value scans to it, alone or on its line. *)
Lemma scan_text d t : clean d = true → depth_of d ≤ maxNestingDepth → forallb is_space t = true →
  scan_value (2 * length (print d ++ t)) 0 (skip_ws (print d ++ t)) = Some (node_of d, t).
Proof.
  intros Hc Hd Ht. rewrite skip_print by done. apply scan_print; [done|rewrite length_app; lia|lia|].
  destruct t as [|c t]; [done|]. cbn [forallb] in Ht. apply andb_true_iff in Ht as [Hs _].
  unfold is_space in Hs. apply bool_decide_eq_true in Hs. split.
  - unfold is_digit. repeat (apply elem_of_cons in Hs as [->|Hs]; [done|]). by apply elem_of_nil in Hs.
  - intros Hin. repeat (apply elem_of_cons in Hin as [->|Hin]; [revert Hs; by apply (bool_decide_unpack (_ → False))|]).
    by apply elem_of_nil in Hin.
Qed.

Lemma skip_spaces t : forallb is_space t = true → skip_ws t = [].
Proof.
  induction t as [|c t IH]; [done|]. cbn [forallb]. intros [Hs Ht]%andb_true_iff. cbn [skip_ws]. rewrite Hs. auto.
Qed.
Lemma parse_print d t : clean d = true → depth_of d ≤ maxNestingDepth → forallb is_space t = true →
  parse (print d ++ t) = Some (node_of d).
Proof. intros Hc Hd Ht. unfold parse. rewrite scan_text by done. by rewrite skip_spaces, bool_decide_eq_true_2. Qed.
