(* ===== verification/Service.v ===== *)
(** The admin API's business: [internal/usecases/admin] service.go, tenants.go, keys.go,
    quotas.go and credentials.go.

    A transaction is a program of the calls it makes on the repositories. It runs on its own
    copy of the store, which replaces the store when it succeeds: every writer of one tenant
    holds that tenant's lock from its first read that matters, so transactions take turns. *)
From Stdlib Require Import Ascii.
From stdpp Require Import gmap.
From S2P Require Import Prelude Sorting Errors Env Bytes Utf8 Json JsonText Quota Records Accounts Programs AdminDb AccountStore Password.

(** [src/internal/ports/admin_credentials.go:50-58] NewAdminCredential *)
Record NewAdminCredential := mkNewAdminCredential {
  nc_Name : string; nc_Role : Role; nc_ExpiresAt : option time }.
(** [src/internal/ports/admin_credentials.go:60-65] IssuedAdminCredential *)
Record IssuedAdminCredential := mkIssuedAdminCredential {
  ic_Credential : AdminCredential; ic_Secret : string }.

(** ** The calls *)

Inductive svc_action :=
| SNow | SNewID | SRandom
| SGetTenant (id : uuid) | SGetByExternalID (ext : string) | SListTenants (f : TenantFilter)
| SLock (id : uuid) | SCreateTenant (t : TenantAccount) | SUpdateTenant (id : uuid) (p : TenantPatch)
| SDisable (id : uuid) | SEnable (id : uuid)
| SGetKey (id : uuid) | SListKeys (tenant : uuid) | SCreateKey (k : APIKey) (hash : bytes)
| SUpdateAllowlist (id : uuid) (l : option (list string)) | SRevokeKey (id : uuid)
| SGetQuota (tenant : uuid) (kind : WindowKind) | SListQuotas (tenant : uuid)
| SUpsert (tenant : uuid) (q : Quota) | SDeleteQuota (tenant : uuid) (kind : WindowKind)
| SDeleteAll (tenant : uuid)
| SAudit (e : change)
| SCreateCredential (c : AdminCredential) (hash : bytes) (e : change)
| SListCredentials | SCredentialByRef (ref : string) | SRevokeCredential (id : uuid) (e : change).

#[export] Instance svc_interface : Interface svc_action := {
  answer a :=
    match a with
    | SNow => time
    | SNewID => result error uuid
    | SRandom => result error bytes
    | SGetTenant _ | SGetByExternalID _ | SLock _ | SUpdateTenant _ _ | SDisable _ | SEnable _ =>
        result error TenantAccount
    | SListTenants _ => result error (list TenantAccount)
    | SCreateTenant _ => result error (TenantAccount * bool)
    | SGetKey _ | SCreateKey _ _ | SUpdateAllowlist _ _ | SRevokeKey _ => result error APIKey
    | SListKeys _ => result error (list APIKey)
    | SGetQuota _ _ | SUpsert _ _ => result error Quota
    | SListQuotas _ => result error (list Quota)
    | SDeleteQuota _ _ => result error bool
    | SDeleteAll _ | SAudit _ => result error unit
    | SCreateCredential _ _ _ | SCredentialByRef _ | SRevokeCredential _ _ => result error AdminCredential
    | SListCredentials => result error (list AdminCredential)
    end;
}.

Notation svc := (prog svc_action).
Notation call_svc a := (call (action := svc_action) a) (only parsing).

Section Service.
Context (sha256 : bytes → bytes) (uuid_Parse : string → result error uuid) (uuid_String : uuid → string).

(** ** Shared steps *)

(** [src/internal/usecases/admin/service.go:97-103] newID *)
Definition svc_newID : svc (result error uuid) :=
  wrap_error (λ e, Errorf "admin: new id: %w" [AWrap e]) (call SNewID).

(** The details these changes carry always encode.

    [src/internal/usecases/admin/service.go:59-84] Service.audit *)
Definition audit (w : Write) (action : string) (tenantID keyID : option uuid) (detail : account_detail)
    : svc (result error unit) :=
  try id <- wrap_error (λ e, Errorf "admin: audit id: %w" [AWrap e]) (call SNewID);
  do now <- call SNow;
  call (SAudit (mkAuditEntry id now tenantID keyID (w_Actor w) action detail)).

(** [src/internal/usecases/admin/tenants.go:163-183] resolveTenant *)
Definition resolveTenant (ref : string) : svc (result error TenantAccount) :=
  let by_external :=
    wrap_error (λ e, if Is e ErrNotFound then Errorf "%w: tenant %q" [AWrap ErrNotFound; AStr ref] else e)
      (call (SGetByExternalID ref)) in
  if String.eqb ref "" then Ret (Err (invalid "tenant is required" []))
  else match uuid_Parse ref with
       | Ok id =>
           do t <- call (SGetTenant id);
           match t with
           | Ok t => Ret (Ok t)
           | Err e => if Is e ErrNotFound then by_external else Ret (Err e)
           end
       | Err _ => by_external
       end.

(** [src/internal/usecases/admin/tenants.go:185-191] lockTenant *)
Definition lockTenant (ref : string) : svc (result error TenantAccount) :=
  try t <- resolveTenant ref;
  call (SLock (ta_ID t)).

(** ** Tenants *)

(** [src/internal/usecases/admin/tenants.go:20-20] maxNameLen *)
Definition maxNameLen : Z := 256.

(** White space is that of ASCII.

    [src/internal/usecases/admin/tenants.go:193-207] validExternalID *)
Definition validExternalID (id : string) : option error :=
  if bool_decide (TrimSpace (lit id) = []) then Some (invalid "external_id is required" [])
  else if negb (bool_decide (TrimSpace (lit id) = lit id))
  then Some (invalid "external_id must not start or end with whitespace" [])
  else if MaxTenantLen <? str_len id
  then Some (invalid "external_id must be at most %d bytes" [AInt MaxTenantLen])
  else if negb (ValidString (lit id)) then Some (invalid "external_id must be valid UTF-8" [])
  else None.

(** [src/internal/usecases/admin/tenants.go:209-217] validName *)
Definition validName (name : string) : option error :=
  if bool_decide (TrimSpace (lit name) = []) then Some (invalid "name is required" [])
  else if maxNameLen <? RuneCount (lit name)
  then Some (invalid "name must be at most %d characters" [AInt maxNameLen])
  else None.

(** [src/internal/usecases/admin/tenants.go:219-230] metadataObject *)
Definition metadataObject (raw : string) : result error string :=
  if bool_decide (TrimSpace (lit raw) = []) then Ok "{}"
  else match parse (lit raw) with
       | Some n => match node_value n with
                   | JObject _ => if floats_fit n then Ok raw else Err (invalid "metadata must be a JSON object" [])
                   | _ => Err (invalid "metadata must be a JSON object" [])
                   end
       | None => Err (invalid "metadata must be a JSON object" [])
       end.

(** [src/internal/usecases/admin/tenants.go:299-313] tenantDetail *)
Definition tenantDetail (t : TenantAccount) : account_detail :=
  TenantDetail (ta_ExternalID t) (ta_Name t)
    (if String.eqb (ta_Metadata t) "" then "{}" else ta_Metadata t) (TenantAccount_Disabled t).

Definition audit_tenant (w : Write) (action : string) (t : TenantAccount) : svc (result error TenantAccount) :=
  try _ <- audit w action (Some (ta_ID t)) None (tenantDetail t);
  Ret (Ok t).

(** [src/internal/usecases/admin/tenants.go:34-66] the transaction of CreateTenant *)
Definition create_tenant_tx (w : Write) (i : NewTenant) (metadata : string) : svc (result error TenantCreated) :=
  try id <- svc_newID;
  try (t, created) <- call (SCreateTenant
    (mkTenantAccount id (nt_ExternalID i) (nt_Name i) metadata zero_time None));
  if negb created
  then if negb (String.eqb (ta_Name t) (nt_Name i)) ||
          negb (sameJSON (lit (ta_Metadata t)) (lit metadata))
       then Ret (Err (Errorf "%w: tenant %q already exists with a different name or metadata"
                        [AWrap ErrConflict; AStr (nt_ExternalID i)]))
       else Ret (Ok (mkTenantCreated t false))
  else
    try t <- audit_tenant w "tenant.create" t;
    Ret (Ok (mkTenantCreated t true)).

(** What a mutation checks before its transaction, and the transaction. *)
Definition prepared (A : Type) := result error (svc (result error A)).

(** [src/internal/usecases/admin/tenants.go:22-67] Service.CreateTenant *)
Definition CreateTenant (w : Write) (i : NewTenant) : prepared TenantCreated :=
  match validExternalID (nt_ExternalID i), validName (nt_Name i), metadataObject (nt_Metadata i) with
  | Some e, _, _ => Err e
  | None, Some e, _ => Err e
  | None, None, Err e => Err e
  | None, None, Ok metadata => Ok (create_tenant_tx w i metadata)
  end.

(** [src/internal/usecases/admin/tenants.go:69-77] Service.ListTenants *)
Definition ListTenants (f : TenantFilter) : svc (result error (list TenantAccount)) :=
  if tf_Limit f =? 0
  then call (SListTenants (mkTenantFilter (tf_IncludeDisabled f) DefaultTenantLimit))
  else if (tf_Limit f <? 0) || (MaxTenantLimit <? tf_Limit f)
  then Ret (Err (invalid "limit must be between 1 and %d" [AInt MaxTenantLimit]))
  else call (SListTenants f).

(** [src/internal/usecases/admin/tenants.go:79-81] Service.GetTenant *)
Definition GetTenant (ref : string) : svc (result error TenantAccount) := resolveTenant ref.

(** [src/internal/usecases/admin/tenants.go:102-122] the transaction of UpdateTenant *)
Definition update_tenant_tx (w : Write) (ref : string) (p : TenantPatch) : svc (result error TenantAccount) :=
  try t <- lockTenant ref;
  let nameSame := match tp_Name p with None => true | Some n => String.eqb n (ta_Name t) end in
  let metaSame := match tp_Metadata p with
                  | None => true | Some m => sameJSON (lit m) (lit (ta_Metadata t)) end in
  if nameSame && metaSame then Ret (Ok t)
  else try t <- call (SUpdateTenant (ta_ID t) p);
       audit_tenant w "tenant.update" t.

(** [src/internal/usecases/admin/tenants.go:83-123] Service.UpdateTenant *)
Definition UpdateTenant (w : Write) (ref : string) (p : TenantPatch) : prepared TenantAccount :=
  match tp_Name p, tp_Metadata p with
  | None, None => Err (invalid "nothing to update: set name, metadata or both" [])
  | _, _ =>
      match match tp_Name p with Some n => validName n | None => None end with
      | Some e => Err e
      | None =>
          match tp_Metadata p with
          | None => Ok (update_tenant_tx w ref p)
          | Some m =>
              match metadataObject m with
              | Err e => Err e
              | Ok m => Ok (update_tenant_tx w ref (mkTenantPatch (tp_Name p) (Some m)))
              end
          end
      end
  end.

(** [src/internal/usecases/admin/tenants.go:125-143] Service.DisableTenant *)
Definition DisableTenant (w : Write) (ref : string) : svc (result error TenantAccount) :=
  try t <- lockTenant ref;
  if TenantAccount_Disabled t then Ret (Ok t)
  else try t <- call (SDisable (ta_ID t));
       audit_tenant w "tenant.disable" t.

(** [src/internal/usecases/admin/tenants.go:145-161] Service.EnableTenant *)
Definition EnableTenant (w : Write) (ref : string) : svc (result error TenantAccount) :=
  try t <- lockTenant ref;
  if negb (TenantAccount_Disabled t) then Ret (Ok t)
  else try t <- call (SEnable (ta_ID t));
       audit_tenant w "tenant.enable" t.

(** ** Keys *)

(** [src/internal/usecases/admin/keys.go:18-25] KeyPrefix, maxAllowlistLen, maxAliasLen *)
Definition KeyPrefix : string := "gr_live_".
Definition maxAllowlistLen : Z := 256.
Definition maxAliasLen : Z := 256.

(** [src/internal/usecases/admin/keys.go:168-192] validAllowlist *)
Fixpoint valid_aliases (seen : list string) (l : list string) : option error :=
  match l with
  | [] => None
  | alias :: l =>
      if bool_decide (TrimSpace (lit alias) = [])
      then Some (invalid "model_allowlist must not contain blank aliases" [])
      else if maxAliasLen <? str_len alias
      then Some (invalid "model_allowlist aliases must be at most %d bytes" [AInt maxAliasLen])
      else if existsb (String.eqb alias) seen
      then Some (invalid "model_allowlist names %q twice" [AStr alias])
      else valid_aliases (alias :: seen) l
  end.
Definition validAllowlist (list : option (list string)) : result error (option (List.list string)) :=
  match list with
  | None => Ok None
  | Some l =>
      if maxAllowlistLen <? Z.of_nat (length l)
      then Err (invalid "model_allowlist may name at most %d aliases" [AInt maxAllowlistLen])
      else match valid_aliases [] l with Some e => Err e | None => Ok (Some l) end
  end.

(** [src/internal/usecases/admin/keys.go:194-199] sameAllowlist *)
Definition sameAllowlist (a b : option (list string)) : bool := bool_decide (a = b).

(** [src/internal/usecases/admin/keys.go:201-211] keyDetail *)
Definition keyDetail (k : APIKey) : account_detail :=
  KeyDetail (ak_Prefix k) (ak_ModelAllowlist k) (APIKey_Revoked k).

(** [src/internal/usecases/admin/keys.go:161-166] keyErr *)
Definition keyErr (id : uuid) (e : error) : error :=
  if Is e ErrNotFound then Errorf "%w: api key %s" [AWrap ErrNotFound; AStr (uuid_String id)] else e.

Definition audit_key (w : Write) (action : string) (k : APIKey) : svc (result error APIKey) :=
  try _ <- audit w action (Some (ak_TenantID k)) (Some (ak_ID k)) (keyDetail k);
  Ret (Ok k).

(** [src/internal/usecases/admin/keys.go:37-71] the transaction of CreateAPIKey *)
Definition create_key_tx (w : Write) (ref : string) (allowlist : option (list string))
    : svc (result error IssuedAPIKey) :=
  try t <- lockTenant ref;
  if TenantAccount_Disabled t
  then Ret (Err (Errorf "%w: tenant %q is disabled; enable it before issuing keys"
                   [AWrap ErrConflict; AStr (ta_ExternalID t)]))
  else
    try minted <- (do b <- call SRandom; Ret (Mint sha256 KeyPrefix b));
    try id <- svc_newID;
    try key <- call (SCreateKey
      (mkAPIKey id (ta_ID t) (Secret_Prefix minted) allowlist zero_time None None) (Secret_Hash minted));
    try _ <- audit w "key.create" (Some (ta_ID t)) (Some (ak_ID key)) (keyDetail key);
    Ret (Ok (mkIssuedAPIKey key (Secret minted))).

(** [src/internal/usecases/admin/keys.go:27-72] Service.CreateAPIKey *)
Definition CreateAPIKey (w : Write) (ref : string) (i : NewAPIKey) : prepared IssuedAPIKey :=
  match validAllowlist (nk_ModelAllowlist i) with
  | Err e => Err e
  | Ok allowlist => Ok (create_key_tx w ref allowlist)
  end.

(** [src/internal/usecases/admin/keys.go:74-80] Service.ListAPIKeys *)
Definition ListAPIKeys (ref : string) : svc (result error (list APIKey)) :=
  try t <- resolveTenant ref;
  call (SListKeys (ta_ID t)).

(** [src/internal/usecases/admin/keys.go:82-88] Service.GetAPIKey *)
Definition GetAPIKey (id : uuid) : svc (result error APIKey) := wrap_error (keyErr id) (call (SGetKey id)).

(** [src/internal/usecases/admin/keys.go:143-159] lockKey *)
Definition lockKey (id : uuid) : svc (result error APIKey) :=
  try k <- wrap_error (keyErr id) (call (SGetKey id));
  try _ <- call (SLock (ak_TenantID k));
  wrap_error (keyErr id) (call (SGetKey id)).

(** [src/internal/usecases/admin/keys.go:98-120] the transaction of UpdateAPIKey *)
Definition update_key_tx (w : Write) (id : uuid) (allowlist : option (list string)) : svc (result error APIKey) :=
  try k <- lockKey id;
  if APIKey_Revoked k
  then Ret (Err (Errorf "%w: api key %s is revoked" [AWrap ErrConflict; AStr (uuid_String id)]))
  else if sameAllowlist (ak_ModelAllowlist k) allowlist then Ret (Ok k)
  else try k <- call (SUpdateAllowlist id allowlist);
       audit_key w "key.update" k.

(** [src/internal/usecases/admin/keys.go:90-121] Service.UpdateAPIKey *)
Definition UpdateAPIKey (w : Write) (id : uuid) (p : APIKeyPatch) : prepared APIKey :=
  match validAllowlist (kp_ModelAllowlist p) with
  | Err e => Err e
  | Ok allowlist => Ok (update_key_tx w id allowlist)
  end.

(** [src/internal/usecases/admin/keys.go:123-141] Service.RevokeAPIKey *)
Definition RevokeAPIKey (w : Write) (id : uuid) : svc (result error APIKey) :=
  try k <- lockKey id;
  if APIKey_Revoked k then Ret (Ok k)
  else try k <- call (SRevokeKey id);
       audit_key w "key.revoke" k.

(** ** Quotas *)

(** [src/internal/usecases/admin/quotas.go:139-149] validQuota *)
Definition validQuota (q : Quota) : result error Quota :=
  let q := if String.eqb (q_OnExceed q) ""
           then mkQuota (q_WindowKind q) (q_PeriodStart q) (q_PeriodEnd q) (q_MaxCost q) QuotaBlock (q_UpdatedAt q)
           else q in
  match Quota_Validate q with
  | Some err => Err (Errorf "%w: %w" [AWrap ErrInvalid; AWrap err])
  | None => Ok q
  end.

(** [src/internal/usecases/admin/quotas.go:151-172] validQuotaSet *)
Fixpoint valid_quotas (seen : list WindowKind) (set : list Quota) : result error (list Quota) :=
  match set with
  | [] => Ok []
  | q :: set =>
      let! q := validQuota q in
      if existsb (String.eqb (q_WindowKind q)) seen
      then Err (invalid "window_kind %q appears more than once" [AStr (q_WindowKind q)])
      else let! out := valid_quotas (q_WindowKind q :: seen) set in Ok (q :: out)
  end.
Definition by_rank (a b : Quota) : bool := WindowKind_Rank (q_WindowKind a) <? WindowKind_Rank (q_WindowKind b).
Definition validQuotaSet (set : list Quota) : result error (list Quota) :=
  let! out := valid_quotas [] set in Ok (sort_slice by_rank out).

(** [src/internal/usecases/admin/quotas.go:174-189] sameQuotaSet *)
Definition sameQuotaSet (current desired : list Quota) : bool :=
  Nat.eqb (length current) (length desired) &&
  forallb (λ q, match List.find (λ c, String.eqb (q_WindowKind c) (q_WindowKind q)) (reverse current) with
                | Some c => SameLimits c q
                | None => false
                end) desired.

(** [src/internal/usecases/admin/quotas.go:191-204] quotaDetails *)
Definition quotaDetails (set : list Quota) : account_detail :=
  QuotaDetails (map (λ q, (q_WindowKind q, q_PeriodStart q, q_PeriodEnd q, q_MaxCost q, q_OnExceed q)) set).

(** [src/internal/usecases/admin/quotas.go:14-20] Service.ListQuotas *)
Definition ListQuotas (ref : string) : svc (result error (list Quota)) :=
  try t <- resolveTenant ref;
  call (SListQuotas (ta_ID t)).

(** [src/internal/usecases/admin/quotas.go:22-35] Service.GetQuota *)
Definition GetQuota (ref : string) (kind : WindowKind) : svc (result error Quota) :=
  if negb (WindowKind_Valid kind) then Ret (Err (invalid "unknown window_kind %q" [AStr kind]))
  else try t <- resolveTenant ref;
       wrap_error (λ e, if Is e ErrNotFound
                        then Errorf "%w: tenant %q has no %s quota" [AWrap ErrNotFound; AStr ref; AStr kind] else e)
         (call (SGetQuota (ta_ID t) kind)).

(** [src/internal/usecases/admin/quotas.go:67-74] the writes of ReplaceQuotas *)
Fixpoint upsert_all (tenant : uuid) (set : list Quota) : svc (result error (list Quota)) :=
  match set with
  | [] => Ret (Ok [])
  | q :: set =>
      try stored <- call (SUpsert tenant q);
      try written <- upsert_all tenant set;
      Ret (Ok (stored :: written))
  end.

(** [src/internal/usecases/admin/quotas.go:49-80] the transaction of ReplaceQuotas *)
Definition replace_quotas_tx (w : Write) (ref : string) (set : list Quota) : svc (result error (list Quota)) :=
  try t <- lockTenant ref;
  try current <- call (SListQuotas (ta_ID t));
  if sameQuotaSet current set then Ret (Ok current)
  else
    try _ <- call (SDeleteAll (ta_ID t));
    try written <- upsert_all (ta_ID t) set;
    try _ <- audit w "quota.replace" (Some (ta_ID t)) None (quotaDetails written);
    Ret (Ok written).

(** [src/internal/usecases/admin/quotas.go:37-81] Service.ReplaceQuotas *)
Definition ReplaceQuotas (w : Write) (ref : string) (set : list Quota) : prepared (list Quota) :=
  match validQuotaSet set with
  | Err e => Err e
  | Ok set => Ok (replace_quotas_tx w ref set)
  end.

(** [src/internal/usecases/admin/quotas.go:91-113] the transaction of PutQuota *)
Definition put_quota_tx (w : Write) (ref : string) (q : Quota) : svc (result error Quota) :=
  try t <- lockTenant ref;
  do current <- call (SGetQuota (ta_ID t) (q_WindowKind q));
  let upsert :=
    try stored <- call (SUpsert (ta_ID t) q);
    try _ <- audit w "quota.upsert" (Some (ta_ID t)) None (quotaDetails [stored]);
    Ret (Ok stored) in
  match current with
  | Ok current => if SameLimits current q then Ret (Ok current) else upsert
  | Err e => if negb (Is e ErrNotFound) then Ret (Err e) else upsert
  end.

(** [src/internal/usecases/admin/quotas.go:83-114] Service.PutQuota *)
Definition PutQuota (w : Write) (ref : string) (q : Quota) : prepared Quota :=
  match validQuota q with
  | Err e => Err e
  | Ok q => Ok (put_quota_tx w ref q)
  end.

(** [src/internal/usecases/admin/quotas.go:123-135] the transaction of DeleteQuota *)
Definition delete_quota_tx (w : Write) (ref : string) (kind : WindowKind) : svc (result error unit) :=
  try t <- lockTenant ref;
  try deleted <- call (SDeleteQuota (ta_ID t) kind);
  if negb deleted then Ret (Ok tt)
  else audit w "quota.delete" (Some (ta_ID t)) None (QuotaDeleted kind).

(** [src/internal/usecases/admin/quotas.go:116-137] Service.DeleteQuota *)
Definition DeleteQuota (w : Write) (ref : string) (kind : WindowKind) : prepared unit :=
  if negb (WindowKind_Valid kind) then Err (invalid "unknown window_kind %q" [AStr kind])
  else Ok (delete_quota_tx w ref kind).

(** ** Credentials *)

(** [src/internal/usecases/admin/credentials.go:19-24] AdminKeyPrefix, MaxCredentialNameLen *)
Definition AdminKeyPrefix : string := "gr_admin_".
Definition MaxCredentialNameLen : Z := 128.

(** The characters of the expression; its end matches no line break.

    [src/internal/usecases/admin/credentials.go:26-28] validCredentialName *)
Definition credential_char (c : ascii) : bool :=
  between 65 90 c || between 97 122 c || is_digit c || bool_decide (c ∈ lit "._@:+-").
Definition validCredentialName (name : string) : bool :=
  (1 <=? str_len name) && (str_len name <=? 128) && forallb credential_char (lit name).

(** [src/internal/usecases/admin/credentials.go:143-153] credentialDetail *)
Definition credentialDetail (c : AdminCredential) : account_detail :=
  CredentialDetail (ac_ID c) (ac_Name c) (ac_Prefix c) (ac_Role c) (ac_ExpiresAt c).

(** [src/internal/usecases/admin/credentials.go:115-141] Credentials.auditEntry *)
Definition credential_entry (w : Write) (action : string) (c : AdminCredential) : svc (result error change) :=
  try id <- wrap_error (λ e, Errorf "admin: audit id: %w" [AWrap e]) (call SNewID);
  do now <- call SNow;
  Ret (Ok (mkAuditEntry id now None None (w_Actor w) action (credentialDetail c))).

(** [src/internal/usecases/admin/credentials.go:155-160] credentialErr *)
Definition credentialErr (ref : string) (e : error) : error :=
  if Is e ErrNotFound then Errorf "%w: admin credential %q" [AWrap ErrNotFound; AStr ref] else e.

(** [src/internal/usecases/admin/credentials.go:50-89] Credentials.Create *)
Definition Credentials_Create (w : Write) (spec : NewAdminCredential) : svc (result error IssuedAdminCredential) :=
  if negb (validCredentialName (nc_Name spec))
  then Ret (Err (invalid "name must be 1-%d characters of letters, digits and ._@:+-" [AInt MaxCredentialNameLen]))
  else if negb (Role_Valid (nc_Role spec))
  then Ret (Err (invalid "role must be admin or readonly, got %q" [AStr (nc_Role spec)]))
  else
    try minted <- (do b <- call SRandom; Ret (Mint sha256 AdminKeyPrefix b));
    try id <- svc_newID;
    let cred := mkAdminCredential id (nc_Name spec) (Secret_Prefix minted) (nc_Role spec)
                  (nc_ExpiresAt spec) zero_time None None in
    try entry <- credential_entry w "admin_credential.create" cred;
    try cred <- call (SCreateCredential cred (Secret_Hash minted) entry);
    Ret (Ok (mkIssuedAdminCredential cred (Secret minted))).

(** [src/internal/usecases/admin/credentials.go:91-93] Credentials.List *)
Definition Credentials_List : svc (result error (list AdminCredential)) := call SListCredentials.

(** [src/internal/usecases/admin/credentials.go:95-113] Credentials.Revoke *)
Definition Credentials_Revoke (w : Write) (ref : string) : svc (result error AdminCredential) :=
  try cred <- wrap_error (credentialErr ref) (call (SCredentialByRef ref));
  if AdminCredential_Revoked cred then Ret (Ok cred)
  else try entry <- credential_entry w "admin_credential.revoke" cred;
       call (SRevokeCredential (ac_ID cred) entry).
End Service.
