(* ===== verification/ServiceWorld.v ===== *)
(** Running the transactions of [Service], and the discipline they keep: every change is
    followed by one audit row, and a row by no further change. *)
From Stdlib Require Import Ascii.
From stdpp Require Import gmap.
From S2P Require Import Prelude Errors Env Bytes Quota Records Accounts Programs AdminDb AccountStore Service.

Record svc_world := mkSvcWorld { sw_db : AccountDb; sw_ids : gset uuid }.

Definition sv_db (w : svc_world) (db : AccountDb) : svc_world := mkSvcWorld db (sw_ids w).
Definition answered {A} (ch : moment) (w : svc_world) (r : result error A) : svc_world * result error A :=
  (w, match mo_fault ch with Fine => r | _ => Err ErrDatabase end).
(** A statement inside a transaction: without its answer the transaction is lost anyway. *)
Definition executed {A} (ch : moment) (w : svc_world) (r : AccountDb * result error A) : svc_world * result error A :=
  match mo_fault ch with Fine => (sv_db w r.1, r.2) | _ => (w, Err ErrDatabase) end.
(** A transaction of its own. *)
Definition committed {A} (ch : moment) (w : svc_world) (r : AccountDb * result error A) : svc_world * result error A :=
  match mo_fault ch with
  | Fine => (sv_db w r.1, r.2)
  | Refused => (w, Err ErrDatabase)
  | Lost => (sv_db w r.1, Err ErrDatabase)
  end.

Section World.
Context (jsonb : string → option string) (uuid_String : uuid → string).

Definition svc_perform (ch : moment) (a : svc_action) (w : svc_world) : svc_world * answer a :=
  let db := sw_db w in
  match a return svc_world * answer a with
  | SNow => (w, mo_now ch)
  | SNewID => let '(ids, r) := hand_out (sw_ids w) (mo_id ch) in (mkSvcWorld db ids, r)
  | SRandom => (w, read_full 32 (mo_random ch))
  | SGetTenant id => answered ch w (tenantRepo_Get db id)
  | SGetByExternalID ext => answered ch w (tenantRepo_GetByExternalID db ext)
  | SListTenants f => answered ch w (Ok (tenantRepo_List db f))
  | SLock id => answered ch w (tenantRepo_Lock db id)
  | SCreateTenant t => executed ch w (tenantRepo_Create jsonb db (mo_now ch) t)
  | SUpdateTenant id p => executed ch w (tenantRepo_Update jsonb db id p)
  | SDisable id => executed ch w (tenantRepo_Disable db (mo_now ch) id)
  | SEnable id => executed ch w (tenantRepo_Enable db id)
  | SGetKey id => answered ch w (apiKeyRepo_Get db id)
  | SListKeys tenant => answered ch w (Ok (apiKeyRepo_ListByTenant db tenant))
  | SCreateKey k hash => executed ch w (apiKeyRepo_Create db (mo_now ch) k hash)
  | SUpdateAllowlist id l => executed ch w (apiKeyRepo_UpdateAllowlist db id l)
  | SRevokeKey id => executed ch w (apiKeyRepo_Revoke db (mo_now ch) id)
  | SGetQuota tenant kind => answered ch w (quotaRepo_Get db tenant kind)
  | SListQuotas tenant => answered ch w (Ok (quotaRepo_List db tenant))
  | SUpsert tenant q => executed ch w (quotaRepo_Upsert db (mo_now ch) tenant q)
  | SDeleteQuota tenant kind =>
      executed ch w ((quotaRepo_Delete db tenant kind).1, Ok (quotaRepo_Delete db tenant kind).2)
  | SDeleteAll tenant => executed ch w (quotaRepo_DeleteAll db tenant, Ok tt)
  | SAudit e => executed ch w (match auditRepo_Write db e with
                               | (db, None) => (db, Ok tt) | (db, Some err) => (db, Err err) end)
  | SCreateCredential c hash e => committed ch w (CreateAdminCredential db (mo_now ch) c hash e)
  | SListCredentials => answered ch w (Ok (ListAdminCredentials db))
  | SCredentialByRef ref => answered ch w (AdminCredentialByRef uuid_String db ref)
  | SRevokeCredential id e => committed ch w (RevokeAdminCredential uuid_String db (mo_now ch) id e)
  end.

(** [commit] is what becomes of the commit.

    [src/internal/usecases/admin/service.go:38-57] mutate
    [src/internal/adapters/repositories/admin.go:38-52] AdminRepo.InTx *)
Definition mutate {A} (commit : db_fault) (chs : list moment) (p : svc (result error A)) (w : svc_world)
    : option (svc_world * result error A) :=
  match run svc_perform chs p w with
  | None => None
  | Some (w', Err e, _) => Some (mkSvcWorld (sw_db w) (sw_ids w'), Err e)
  | Some (w', Ok a, _) =>
      let failed := Errorf "postgres: commit: %w" [AWrap ErrDatabase] in
      Some match commit with
           | Fine => (w', Ok a)
           | Refused => (mkSvcWorld (sw_db w) (sw_ids w'), Err failed)
           | Lost => (w', Err failed)
           end
  end.

(** What a mutation refuses before its transaction. *)
Definition mutate_prepared {A} (commit : db_fault) (chs : list moment) (p : prepared A) (w : svc_world)
    : option (svc_world * result error A) :=
  match p with Err e => Some (w, Err e) | Ok p => mutate commit chs p w end.
End World.

(** ** The discipline *)

Inductive stage := Untouched | Changed | Audited.

(** Whether an answer says that its call changed something. *)
Definition changed_by (a : svc_action) : answer a → bool :=
  match a return answer a → bool with
  | SCreateTenant _ => λ r, match r with Ok (_, created) => created | Err _ => false end
  | SDeleteQuota _ _ => λ r, match r with Ok deleted => deleted | Err _ => false end
  | SUpdateTenant _ _ | SDisable _ | SEnable _ => λ r, is_ok r
  | SCreateKey _ _ | SUpdateAllowlist _ _ | SRevokeKey _ => λ r, is_ok r
  | SUpsert _ _ => λ r, is_ok r
  | SDeleteAll _ => λ r, is_ok r
  | _ => λ _, false
  end.

(** Calls that audit for themselves have no place in such a transaction. *)
Definition self_auditing (a : svc_action) : bool :=
  match a with SCreateCredential _ _ _ | SRevokeCredential _ _ => true | _ => false end.

Section Discipline.
Context (actor : string).

Fixpoint disciplined {A} (st : stage) (p : svc (result error A)) : Prop :=
  match p with
  | Ret (Ok _) => st ≠ Changed
  | Ret (Err _) => True
  | Act a k =>
      match a as a' return (answer a' → svc (result error A)) → Prop with
      | SAudit e => λ k, st = Changed ∧ ae_Actor e = actor ∧
                         ∀ r, disciplined (if is_ok r then Audited else st) (k r)
      | a' => λ k, self_auditing a' = false ∧
                   ∀ r, (changed_by a' r = true → st ≠ Audited) ∧
                        disciplined (if changed_by a' r then Changed else st) (k r)
      end k
  end.

(** Where a transaction stands, from the store it began with. *)
Definition at_stage (st : stage) (db0 db : AccountDb) : Prop :=
  match st with
  | Untouched => db = db0
  | Changed => t_audit db = t_audit db0
  | Audited => ∃ e, t_audit db = t_audit db0 ++ [e] ∧ ae_Actor e = actor
  end.
End Discipline.

(** No repository call but the audit touches the audit log, and one that says it changed
    nothing did not. *)
Definition quiet_unless (db : AccountDb) (changed : bool) (db' : AccountDb) : Prop :=
  t_audit db' = t_audit db ∧ (changed = false → db' = db).

Lemma finding_quiet {A} db (p : AccountDb * result error A) what :
  quiet_unless db (is_ok p.2) p.1 → quiet_unless db (is_ok (finding p what).2) (finding p what).1.
Proof. by destruct p as [db' [a|e]]. Qed.

Lemma update_tenant_quiet db id f :
  quiet_unless db (is_ok (update_tenant db id f).2) (update_tenant db id f).1.
Proof. unfold update_tenant, quiet_unless. destruct (t_tenants db !! id) as [t|]; [destruct (f t)|]; done. Qed.

Lemma update_key_quiet db id f : quiet_unless db (is_ok (update_key db id f).2) (update_key db id f).1.
Proof. unfold update_key, quiet_unless. destruct (t_keys db !! id) as [k|]; [destruct (APIKey_Revoked _)|]; done. Qed.

Lemma set_same_quotas db : set_quotas db (t_quotas db) = db.
Proof. by destruct db. Qed.

Lemma answered_quiet {A} ch w (r : result error A) : (answered ch w r).1 = w.
Proof. done. Qed.

Lemma executed_quiet {A} ch w (r : AccountDb * result error A) (f : result error A → bool) :
  (∀ e, f (Err e) = false) → quiet_unless (sw_db w) (f r.2) r.1 →
  quiet_unless (sw_db w) (f (executed ch w r).2) (sw_db (executed ch w r).1).
Proof.
  intros Hf Hq. unfold executed. destruct (mo_fault ch); simpl; [done|..]; by rewrite Hf.
Qed.

Lemma perform_quiet jsonb uuid_String ch a w :
  self_auditing a = false → (∀ e, a ≠ SAudit e) →
  quiet_unless (sw_db w) (changed_by a (svc_perform jsonb uuid_String ch a w).2)
    (sw_db (svc_perform jsonb uuid_String ch a w).1).
Proof.
  intros Hs Ha. destruct a; try discriminate Hs; try (by destruct (Ha e)); cbn [svc_perform changed_by];
    try (by split); try (apply executed_quiet; [done|]).
  - by destruct (hand_out _ _).
  - apply (executed_quiet _ _ _ (λ r, match r with Ok (_, created) => created | Err _ => false end)); [done|].
    unfold tenantRepo_Create, Sql_CreateTenant. destruct (negb _); [done|]. destruct (jsonb _); [|done].
    destruct (String.eqb _ _); [done|]. destruct (is_ok _); [destruct (negb _); [done|]; by destruct (Sql_GetTenantByExternalID _ _)|].
    by destruct (t_tenants _ !! _).
  - apply finding_quiet. unfold Sql_UpdateTenant. destruct (match tp_Name p with Some _ => _ | None => _ end); [done|].
    destruct (tp_Metadata p) as [m|]; [destruct (jsonb m); [|done]|]; apply update_tenant_quiet.
  - apply finding_quiet, update_tenant_quiet.
  - apply finding_quiet, update_tenant_quiet.
  - unfold apiKeyRepo_Create, Sql_CreateAPIKey. destruct (_ || _); [done|]. destruct (negb _); [done|].
    destruct (t_keys _ !! _); [done|]. destruct (t_tenants _ !! _); [|done]. by destruct (key_by_hash _ _).
  - apply finding_quiet. unfold Sql_UpdateAPIKeyAllowlist. destruct (negb _); [done|apply update_key_quiet].
  - apply finding_quiet, update_key_quiet.
  - unfold quotaRepo_Upsert, Sql_UpsertQuota. destruct (negb _); [done|]. by destruct (t_tenants _ !! _).
  - apply (executed_quiet _ _ _ (λ r, match r with Ok deleted => deleted | Err _ => false end)); [done|].
    split; [done|]. intros Hd. apply bool_decide_eq_false in Hd. unfold quotaRepo_Delete. simpl.
    rewrite delete_id; [apply set_same_quotas|]. by apply eq_None_not_Some.
  - by split.
Qed.

Lemma audit_stage jsonb uuid_String ch e w :
  match (svc_perform jsonb uuid_String ch (SAudit e) w).2 with
  | Ok _ => ∃ e', t_audit (sw_db (svc_perform jsonb uuid_String ch (SAudit e) w).1) = t_audit (sw_db w) ++ [e'] ∧
                  ae_Actor e' = ae_Actor e
  | Err _ => (svc_perform jsonb uuid_String ch (SAudit e) w).1 = w
  end.
Proof.
  cbn [svc_perform]. unfold executed, auditRepo_Write, Sql_CreateAuditEntry.
  destruct (mo_fault ch); [|done..]. destruct (_ || _); simpl; [by destruct w|]. eexists. split; [done|done].
Qed.

Lemma audit_or_not (a : svc_action) : (∃ e, a = SAudit e) ∨ (∀ e, a ≠ SAudit e).
Proof. destruct a; try (by right); left; eauto. Qed.

(** A disciplined program that succeeds leaves the store as it was or with one more audit row. *)
Lemma disciplined_run {A} jsonb uuid_String actor chs (p : svc (result error A)) st db0 w w' a tr :
  disciplined actor st p → at_stage actor st db0 (sw_db w) →
  run (svc_perform jsonb uuid_String) chs p w = Some (w', Ok a, tr) →
  at_stage actor Untouched db0 (sw_db w') ∨ at_stage actor Audited db0 (sw_db w').
Proof.
  revert chs st w tr. induction p as [[x|e]|act k IH]; intros chs st w tr Hd Hat Hrun; simpl in Hrun; simplify_eq.
  { simpl in Hd. destruct st; [by left|done|by right]. }
  destruct chs as [|ch chs]; [done|].
  destruct (svc_perform jsonb uuid_String ch act w) as [w1 r] eqn:Ep.
  destruct (run _ chs (k r) w1) as [[[w2 z] tr2]|] eqn:E; [|done]. simplify_eq.
  destruct (audit_or_not act) as [[e ->]|Hne].
  - simpl in Hd. destruct Hd as (-> & He & Hk). specialize (Hk r).
    pose proof (audit_stage jsonb uuid_String ch e w) as Hs. rewrite Ep in Hs. cbn [fst snd] in Hs.
    refine (IH _ _ _ _ _ Hk _ E). simpl in Hat. destruct r as [[]|err]; simpl.
    + destruct Hs as (e' & -> & ?). exists e'. rewrite Hat. split; [done|congruence].
    + by rewrite Hs.
  - assert (Hd' : self_auditing act = false ∧ ∀ r, (changed_by act r = true → st ≠ Audited) ∧
                  disciplined actor (if changed_by act r then Changed else st) (k r)).
    { destruct act; try exact Hd. by destruct (Hne e). }
    destruct Hd' as [Hs Hk]. destruct (Hk r) as [Hst Hkr].
    destruct (perform_quiet jsonb uuid_String ch act w Hs Hne) as [Ha Hsame].
    rewrite Ep in Ha, Hsame. cbn [fst snd] in Ha, Hsame.
    refine (IH _ _ _ _ _ Hkr _ E). destruct (changed_by act r) eqn:Ec.
    + destruct st; simpl in *; [congruence..|]. by destruct Hst.
    + rewrite Hsame by done. done.
Qed.
