(* ===== verification/ServiceProps.v ===== *)
(** What holds of the admin API's transactions: what they leave in the store, what they
    audit, and what their keys are good for. *)
From Stdlib Require Import Ascii.
From stdpp Require Import gmap.
From S2P Require Import Prelude Errors Env Bytes Quota Records Accounts Programs AdminDb AccountStore Service ServiceWorld Password.

(** ** Every change is audited *)

Definition reads (a : svc_action) : Prop :=
  match a with
  | SNow | SNewID | SRandom | SGetTenant _ | SGetByExternalID _ | SListTenants _ | SLock _ | SGetKey _
  | SListKeys _ | SGetQuota _ _ | SListQuotas _ | SListCredentials | SCredentialByRef _ => True
  | _ => False
  end.

Lemma disciplined_read {A B} actor st (p : svc A) (f : A → svc (result error B)) :
  only reads p → (∀ x, disciplined actor st (f x)) → disciplined actor st (bind p f).
Proof.
  intros Hp Hf. induction p as [x|a k IH]; simpl; [done|]. destruct Hp as [Ha Hk].
  destruct a; try done; by (split; [done|]; intros r; split; [done|apply IH, Hk]).
Qed.

Lemma disciplined_try {A B} actor st (p : svc (result error A)) (f : A → svc (result error B)) :
  only reads p → (∀ x, disciplined actor st (f x)) → disciplined actor st (and_then p f).
Proof. intros Hp Hf. apply disciplined_read; [done|]. by intros [x|e]. Qed.

Lemma disciplined_audit {A} w action tenantID keyID detail (f : unit → svc (result error A)) :
  (∀ x, disciplined (w_Actor w) Audited (f x)) →
  disciplined (w_Actor w) Changed (and_then (audit w action tenantID keyID detail) f).
Proof.
  intros Hf. split; [done|]. intros [id|e]; (split; [done|]); [|done].
  split; [done|]. intros now. split; [done|]. split; [done|]. split; [done|]. intros [[]|e]; [apply Hf|done].
Qed.

Lemma disciplined_last w action tenantID keyID detail :
  disciplined (w_Actor w) Changed (audit w action tenantID keyID detail).
Proof.
  split; [done|]. intros [id|e]; (split; [done|]); [|done].
  split; [done|]. intros now. split; [done|]. split; [done|]. split; [done|]. by intros [[]|e].
Qed.

Lemma resolveTenant_reads parse ref : only reads (resolveTenant parse ref).
Proof.
  unfold resolveTenant. destruct (String.eqb ref ""); [done|]. destruct (parse ref) as [id|e].
  - apply only_bind; [done|]. intros [t|e]; [done|]. destruct (Is e ErrNotFound); [|done].
    by apply only_bind; [done|].
  - by apply only_bind; [done|].
Qed.

Lemma lockTenant_reads parse ref : only reads (lockTenant parse ref).
Proof. apply only_and_then; [apply resolveTenant_reads|done]. Qed.

Lemma lockKey_reads to_string id : only reads (lockKey to_string id).
Proof.
  apply only_and_then; [by apply only_bind|]. intros k. apply only_and_then; [done|]. intros _. by apply only_bind.
Qed.

Lemma disciplined_ext {A B C} actor st (p : svc A) (f : A → svc (result error B)) (g : A → svc (result error C)) :
  (∀ st x, disciplined actor st (f x) → disciplined actor st (g x)) →
  disciplined actor st (bind p f) → disciplined actor st (bind p g).
Proof.
  intros Hfg. revert st. induction p as [x|a k IH]; simpl; intros st; [apply Hfg|].
  destruct a; naive_solver.
Qed.

Lemma disciplined_assoc {A B C} actor st (p : svc (result error A)) (f : A → svc (result error B))
    (g : B → svc (result error C)) :
  disciplined actor st (try x <- p; try y <- f x; g y) →
  disciplined actor st (try y <- (try x <- p; f x); g y).
Proof.
  unfold and_then at 1 3. revert st. induction p as [[x|e]|a k IH]; simpl; intros st; [done..|].
  destruct a; naive_solver.
Qed.

Lemma upsert_all_disciplined {B} actor tenant set (f : list Quota → svc (result error B)) :
  (∀ qs, disciplined actor Changed (f qs)) → disciplined actor Changed (and_then (upsert_all tenant set) f).
Proof.
  revert f. induction set as [|q set IH]; intros f Hf; [apply Hf|]. simpl upsert_all.
  apply disciplined_assoc. split; [done|]. intros [stored|e]; (split; [done|]); [|done].
  apply disciplined_assoc, IH. intros qs. apply Hf.
Qed.

Section Mutations.
Context (sha256 : bytes → bytes) (uuid_Parse : string → result error uuid) (uuid_String : uuid → string).

(** The mutations of the admin API. *)
Inductive mutation (w : Write) : ∀ A, prepared A → Prop :=
| m_CreateTenant i : mutation w _ (CreateTenant w i)
| m_UpdateTenant ref p : mutation w _ (UpdateTenant uuid_Parse w ref p)
| m_DisableTenant ref : mutation w _ (Ok (DisableTenant uuid_Parse w ref))
| m_EnableTenant ref : mutation w _ (Ok (EnableTenant uuid_Parse w ref))
| m_CreateAPIKey ref i : mutation w _ (CreateAPIKey sha256 uuid_Parse w ref i)
| m_UpdateAPIKey id p : mutation w _ (UpdateAPIKey uuid_String w id p)
| m_RevokeAPIKey id : mutation w _ (Ok (RevokeAPIKey uuid_String w id))
| m_ReplaceQuotas ref set : mutation w _ (ReplaceQuotas uuid_Parse w ref set)
| m_PutQuota ref q : mutation w _ (PutQuota uuid_Parse w ref q)
| m_DeleteQuota ref kind : mutation w _ (DeleteQuota uuid_Parse w ref kind).

(** A read, a change with its audit row after it, or the end. *)
Ltac disciplined_step :=
  match goal with
  | |- disciplined _ _ (match ?x with _ => _ end) => destruct x
  | |- disciplined _ _ (let _ := _ in _) => cbv zeta
  | |- disciplined _ _ (Ret _) => done
  | |- disciplined _ Changed (and_then (audit _ _ _ _ _) _) => apply disciplined_audit; intros []
  | |- disciplined _ Changed (and_then (upsert_all _ _) _) => apply upsert_all_disciplined; intros ?
  | |- disciplined _ Changed (audit _ _ _ _ _) => apply disciplined_last
  | |- disciplined _ _ (and_then (Ret _) _) => cbn [and_then bind]
  | |- disciplined _ Untouched (and_then (call (SCreateTenant _)) _) =>
      split; [done|]; intros [[? []]|?]; (split; [done|]); [..|done]; cbn [changed_by negb bind]
  | |- disciplined _ Untouched (and_then (call (SDeleteQuota _ _)) _) =>
      split; [done|]; intros [[]|?]; (split; [done|]); [..|done]; cbn [changed_by negb bind]
  | |- disciplined _ _ (and_then (and_then _ _) _) => apply disciplined_assoc
  | |- disciplined _ _ (and_then _ _) =>
      apply disciplined_try; [first [apply lockTenant_reads | apply lockKey_reads | by repeat apply only_bind]|];
      intros ?
  | |- disciplined _ _ (bind _ _) => apply disciplined_read; [by repeat apply only_bind|]; intros ?
  | |- disciplined _ Untouched (and_then (call _) _) =>
      split; [done|]; intros [?|?]; (split; [done|]); [cbn [is_ok changed_by bind]|done]
  end.

Lemma mutation_disciplined w A (p : prepared A) tx :
  mutation w A p → p = Ok tx → disciplined (w_Actor w) Untouched tx.
Proof.
  destruct 1; intros Hp.
  - unfold CreateTenant in Hp. repeat case_match; simplify_eq. unfold create_tenant_tx, audit_tenant.
    repeat disciplined_step.
  - unfold UpdateTenant in Hp. repeat case_match; simplify_eq; unfold update_tenant_tx, audit_tenant;
      repeat disciplined_step.
  - simplify_eq. unfold DisableTenant, audit_tenant. repeat disciplined_step.
  - simplify_eq. unfold EnableTenant, audit_tenant. repeat disciplined_step.
  - unfold CreateAPIKey in Hp. case_match; simplify_eq. unfold create_key_tx. repeat disciplined_step.
  - unfold UpdateAPIKey in Hp. case_match; simplify_eq. unfold update_key_tx, audit_key. repeat disciplined_step.
  - simplify_eq. unfold RevokeAPIKey, audit_key. repeat disciplined_step.
  - unfold ReplaceQuotas in Hp. case_match; simplify_eq. unfold replace_quotas_tx. repeat disciplined_step.
  - unfold PutQuota in Hp. case_match; simplify_eq. unfold put_quota_tx. repeat disciplined_step.
  - unfold DeleteQuota in Hp. case_match; simplify_eq. unfold delete_quota_tx. repeat disciplined_step.
Qed.
End Mutations.

Section Audited.
Context (sha256 : bytes → bytes) (uuid_Parse : string → result error uuid) (uuid_String : uuid → string).
Context (jsonb : string → option string).

(** Whichever calls of the store fail on the way, and whether the commit gets through, a mutation
    either leaves the whole store as it was or adds exactly one row to the audit log, signed by its
    actor. One that fails leaves it as it was unless only the answer to its commit was lost. *)
Lemma mutation_atomic w A (p : prepared A) commit chs s s' r :
  mutation sha256 uuid_Parse uuid_String w A p →
  mutate_prepared jsonb uuid_String commit chs p s = Some (s', r) →
  (sw_db s' = sw_db s ∨
   ∃ e, t_audit (sw_db s') = t_audit (sw_db s) ++ [e] ∧ ae_Actor e = w_Actor w) ∧
  (is_ok r = false → commit ≠ Lost → sw_db s' = sw_db s).
Proof.
  intros Hm Hrun. destruct p as [tx|e]; simpl in Hrun; [|by simplify_eq; auto].
  pose proof (mutation_disciplined _ _ _ _ _ _ _ Hm eq_refl) as Hd. unfold mutate in Hrun.
  destruct (run _ chs tx s) as [[[s1 [x|e]] tr]|] eqn:Er; [|simplify_eq; auto|done].
  pose proof (disciplined_run _ _ _ _ _ _ (sw_db s) _ _ _ _ Hd eq_refl Er) as Hat.
  destruct commit; simplify_eq; (split; [try exact Hat; by left|]); try done; by intros _ [].
Qed.
End Audited.

(** ** An example *)

Definition ex_sha (b : bytes) : bytes := resize 32 "000"%char (reverse b).
Definition ex_parse (_ : string) : result error uuid := Err (Sentinel "invalid UUID").
Definition ex_show (_ : uuid) : string := "id".
Definition ex_jsonb (s : string) : option string := Some s.
Definition ex_ch (n : N) : moment := mkMoment Fine (Z.of_N n * Second) (Ok n) (Ok (replicate 32 (ascii_of_N n))).
Definition ex_chs (n : nat) : list moment := map (λ i, ex_ch (N.of_nat (n + i))) (seq 0 12).
Definition ex_write : Write := mkWrite "ops".
Definition ex_before : svc_world := mkSvcWorld no_accounts ∅.
Definition ex_mutate {A} (n : nat) (p : prepared A) := mutate_prepared ex_jsonb ex_show Fine (ex_chs n) p.
Definition ex_after {A} (n : nat) (p : prepared A) (s : svc_world) : svc_world :=
  match ex_mutate n p s with Some (s', _) => s' | None => s end.
Definition ex_create := CreateTenant ex_write (mkNewTenant "acme" "Acme" "").
Definition ex_acme : svc_world := ex_after 1 ex_create ex_before.
