(* ===== verification/ServiceKeys.v ===== *)
(** What the tables of tenants and keys always satisfy, and whom a key lets in. *)
From Stdlib Require Import Ascii.
From stdpp Require Import gmap.
From S2P Require Import Prelude Errors Env Bytes Quota Records Accounts Programs AdminDb AccountStore Service ServiceWorld ServiceProps Password.

(** ** Rows *)

Lemma find_row_Some {K} `{Countable K} {A} (m : gmap K A) (p : A → bool) r :
  List.find p (rows m) = Some r → p r = true ∧ ∃ k, m !! k = Some r.
Proof.
  intros Hf. apply find_some in Hf as [Hin Hp]. split; [done|].
  apply list_elem_of_In, list_elem_of_fmap in Hin as ([k r'] & -> & Hin).
  exists k. by apply elem_of_map_to_list.
Qed.

Lemma find_row_None {K} `{Countable K} {A} (m : gmap K A) (p : A → bool) k r :
  List.find p (rows m) = None → m !! k = Some r → p r = false.
Proof.
  intros Hf Hr. eapply find_none; [exact Hf|]. apply list_elem_of_In, list_elem_of_fmap.
  exists (k, r). split; [done|]. by apply elem_of_map_to_list.
Qed.

(** ** The tables *)

Record accounts_wf (db : AccountDb) : Prop := {
  aw_tenant id t : t_tenants db !! id = Some t → ta_ID t = id;
  aw_external i j a b : t_tenants db !! i = Some a → t_tenants db !! j = Some b →
    ta_ExternalID a = ta_ExternalID b → i = j;
  aw_key id k : t_keys db !! id = Some k →
    ak_ID (kr_key k) = id ∧ length (kr_hash k) = 32%nat ∧ is_Some (t_tenants db !! ak_TenantID (kr_key k));
  aw_hash i j a b : t_keys db !! i = Some a → t_keys db !! j = Some b → kr_hash a = kr_hash b → i = j;
  aw_quota tenant kind q : t_quotas db !! (tenant, kind) = Some q →
    q_WindowKind q = kind ∧ quota_row_ok q = true ∧ is_Some (t_tenants db !! tenant);
}.

Lemma no_accounts_wf : accounts_wf no_accounts.
Proof. split; simpl; intros; by rewrite lookup_empty in *. Qed.

(** The tables the invariant is about. *)
Lemma same_tables_wf db db' :
  t_tenants db' = t_tenants db → t_keys db' = t_keys db → t_quotas db' = t_quotas db →
  accounts_wf db → accounts_wf db'.
Proof. intros Ht Hk Hq [H1 H2 H3 H4 H5]. split; rewrite ?Ht, ?Hk, ?Hq; assumption. Qed.

(** A tenant's row changed in place. *)
Lemma put_tenant_wf db id t t' :
  t_tenants db !! id = Some t → ta_ID t' = ta_ID t → ta_ExternalID t' = ta_ExternalID t →
  accounts_wf db → accounts_wf (put_tenant db t').
Proof.
  intros Ht Hi He Hwf. pose proof (aw_tenant _ Hwf _ _ Ht) as Hid. destruct Hwf as [H1 H2 H3 H4 H5].
  assert (Hput : ∀ j a, t_tenants (put_tenant db t') !! j = Some a →
            ∃ b, t_tenants db !! j = Some b ∧ ta_ID a = ta_ID b ∧ ta_ExternalID a = ta_ExternalID b).
  { intros j a. simpl. rewrite Hi, Hid, lookup_insert_Some. intros [[<- <-]|[_ Ha]]; eauto. }
  assert (Hsome : ∀ j, is_Some (t_tenants db !! j) → is_Some (t_tenants (put_tenant db t') !! j)).
  { intros j Hj. simpl. rewrite lookup_insert_is_Some'. by right. }
  split.
  - intros j a Ha. apply Hput in Ha as (b & Hb & -> & _). eauto.
  - intros i j a b Ha Hb Hab. apply Hput in Ha as (a' & Ha & _ & Ea). apply Hput in Hb as (b' & Hb & _ & Eb).
    apply (H2 _ _ _ _ Ha Hb). congruence.
  - intros j k Hk. destruct (H3 _ _ Hk) as (? & ? & ?). auto.
  - exact H4.
  - intros tenant kind q Hq. destruct (H5 _ _ _ Hq) as (? & ? & ?). auto.
Qed.

Lemma new_tenant_wf db t :
  t_tenants db !! ta_ID t = None → is_ok (Sql_GetTenantByExternalID db (ta_ExternalID t)) = false →
  accounts_wf db → accounts_wf (put_tenant db t).
Proof.
  intros Hn He [H1 H2 H3 H4 H5].
  assert (Hext : ∀ j a, t_tenants db !! j = Some a → ta_ExternalID a ≠ ta_ExternalID t).
  { intros j a Ha. unfold Sql_GetTenantByExternalID in He.
    destruct (List.find _ _) as [x|] eqn:Ef; [done|]. pose proof (find_row_None _ _ _ _ Ef Ha) as Hx.
    by apply String.eqb_neq in Hx. }
  split; simpl.
  - intros j a. rewrite lookup_insert_Some. intros [[<- <-]|[_ Ha]]; eauto.
  - intros i j a b. rewrite !lookup_insert_Some. intros [[<- <-]|[_ Ha]] [[<- <-]|[_ Hb]] Hab; eauto.
    + by destruct (Hext _ _ Hb).
    + by destruct (Hext _ _ Ha).
  - intros j k Hk. destruct (H3 _ _ Hk) as (? & ? & ?). rewrite lookup_insert_is_Some'. auto.
  - exact H4.
  - intros tenant kind q Hq. destruct (H5 _ _ _ Hq) as (? & ? & ?). rewrite lookup_insert_is_Some'. auto.
Qed.

(** A key's row changed in place. *)
Lemma put_key_wf db id k k' :
  t_keys db !! id = Some k → ak_ID k' = ak_ID (kr_key k) → ak_TenantID k' = ak_TenantID (kr_key k) →
  accounts_wf db → accounts_wf (put_key db (mkKeyRow k' (kr_hash k))).
Proof.
  intros Hk Hi Ht Hwf. destruct (aw_key _ Hwf _ _ Hk) as (Hid & Hl & Hten). destruct Hwf as [H1 H2 H3 H4 H5].
  split; simpl; [exact H1|exact H2| | |exact H5].
  - intros j a. rewrite Hi, Hid, lookup_insert_Some. intros [[<- <-]|[_ Ha]]; [|eauto]. simpl.
    by rewrite Hi, Ht.
  - intros i j a b. rewrite Hi, Hid, !lookup_insert_Some.
    intros [[<- <-]|[? Ha]] [[<- <-]|[? Hb]] Hab; simpl in *; eauto.
Qed.

Lemma new_key_wf db k :
  t_keys db !! ak_ID (kr_key k) = None → is_Some (t_tenants db !! ak_TenantID (kr_key k)) →
  length (kr_hash k) = 32%nat → key_by_hash db (kr_hash k) = None → accounts_wf db → accounts_wf (put_key db k).
Proof.
  intros Hn Ht Hl Hh [H1 H2 H3 H4 H5].
  assert (Hhash : ∀ j a, t_keys db !! j = Some a → kr_hash a ≠ kr_hash k).
  { intros j a Ha. pose proof (find_row_None _ _ _ _ Hh Ha) as Hx. by apply bool_decide_eq_false in Hx. }
  split; simpl; [exact H1|exact H2| | |exact H5].
  - intros j a. rewrite lookup_insert_Some. intros [[<- <-]|[_ Ha]]; eauto.
  - intros i j a b. rewrite !lookup_insert_Some. intros [[<- <-]|[_ Ha]] [[<- <-]|[_ Hb]] Hab; eauto.
    + by destruct (Hhash _ _ Hb).
    + by destruct (Hhash _ _ Ha).
Qed.

Lemma set_quotas_wf db qs :
  (∀ tenant kind q, qs !! (tenant, kind) = Some q →
     q_WindowKind q = kind ∧ quota_row_ok q = true ∧ is_Some (t_tenants db !! tenant)) →
  accounts_wf db → accounts_wf (set_quotas db qs).
Proof. intros Hq [H1 H2 H3 H4 H5]. by split. Qed.

(** What one call may do to them. *)
Inductive account_step (db : AccountDb) : AccountDb → Prop :=
| as_other db' :
    t_tenants db' = t_tenants db → t_keys db' = t_keys db → t_quotas db' = t_quotas db → account_step db db'
| as_new_tenant t :
    t_tenants db !! ta_ID t = None → is_ok (Sql_GetTenantByExternalID db (ta_ExternalID t)) = false →
    account_step db (put_tenant db t)
| as_tenant id t t' :
    t_tenants db !! id = Some t → ta_ID t' = ta_ID t → ta_ExternalID t' = ta_ExternalID t →
    account_step db (put_tenant db t')
| as_new_key k :
    t_keys db !! ak_ID (kr_key k) = None → is_Some (t_tenants db !! ak_TenantID (kr_key k)) →
    length (kr_hash k) = 32%nat → key_by_hash db (kr_hash k) = None → account_step db (put_key db k)
| as_key id k k' :
    t_keys db !! id = Some k → APIKey_Revoked (kr_key k) = false →
    ak_ID k' = ak_ID (kr_key k) → ak_TenantID k' = ak_TenantID (kr_key k) →
    account_step db (put_key db (mkKeyRow k' (kr_hash k)))
| as_upsert tenant q :
    quota_row_ok q = true → is_Some (t_tenants db !! tenant) →
    account_step db (set_quotas db (<[(tenant, q_WindowKind q) := q]> (t_quotas db)))
| as_fewer qs : qs ⊆ t_quotas db → account_step db (set_quotas db qs).

Lemma account_step_wf db db' : account_step db db' → accounts_wf db → accounts_wf db'.
Proof.
  destruct 1; intros Hwf.
  - by eapply same_tables_wf.
  - by apply new_tenant_wf.
  - by eapply put_tenant_wf.
  - by apply new_key_wf.
  - by eapply put_key_wf.
  - apply set_quotas_wf; [|done]. intros ten kind r. rewrite lookup_insert_Some.
    intros [[[= <- <-] <-]|[_ Hq]]; [done|by apply (aw_quota _ Hwf)].
  - apply set_quotas_wf; [|done]. intros ten kind r Hr. apply (aw_quota _ Hwf).
    by eapply lookup_weaken.
Qed.

Lemma account_same db : account_step db db.
Proof. by apply as_other. Qed.
#[export] Hint Resolve account_same : accounts.

Lemma executed_step {A} ch w (r : AccountDb * result error A) :
  account_step (sw_db w) r.1 → account_step (sw_db w) (sw_db (executed ch w r).1).
Proof. unfold executed. destruct (mo_fault ch); simpl; auto with accounts. Qed.
Lemma committed_step {A} ch w (r : AccountDb * result error A) :
  account_step (sw_db w) r.1 → account_step (sw_db w) (sw_db (committed ch w r).1).
Proof. unfold committed. destruct (mo_fault ch); simpl; auto with accounts. Qed.

Lemma finding_step {A} db (p : AccountDb * result error A) what :
  account_step db p.1 → account_step db (finding p what).1.
Proof. by destruct p as [db' [a|e]]. Qed.

Lemma update_tenant_step db id f :
  (∀ t t', f t = Some t' → ta_ID t' = ta_ID t ∧ ta_ExternalID t' = ta_ExternalID t) →
  account_step db (update_tenant db id f).1.
Proof.
  intros Hf. unfold update_tenant. destruct (t_tenants db !! id) as [t|] eqn:Et; [|auto with accounts].
  destruct (f t) as [t'|] eqn:Ef; [|auto with accounts]. destruct (Hf _ _ Ef). by eapply as_tenant.
Qed.

Lemma update_key_step db id f :
  (∀ k, ak_ID (f k) = ak_ID k ∧ ak_TenantID (f k) = ak_TenantID k) → account_step db (update_key db id f).1.
Proof.
  intros Hf. unfold update_key. destruct (t_keys db !! id) as [k|] eqn:Ek; [|auto with accounts].
  destruct (APIKey_Revoked _) eqn:Er; [auto with accounts|]. destruct (Hf (kr_key k)). by eapply as_key.
Qed.

Section Keep.
Context (jsonb : string → option string) (uuid_String : uuid → string).

Lemma tenantRepo_Create_step db now t : account_step db (tenantRepo_Create jsonb db now t).1.
Proof.
  unfold tenantRepo_Create, Sql_CreateTenant. destruct (negb _); [auto with accounts|].
  destruct (jsonb _); [|auto with accounts]. destruct (String.eqb _ _); [auto with accounts|].
  destruct (is_ok _) eqn:Ee.
  { destruct (negb _); [auto with accounts|].
    destruct (Sql_GetTenantByExternalID _ _); auto with accounts. }
  destruct (t_tenants _ !! _) eqn:Et; [auto with accounts|]. by apply as_new_tenant.
Qed.

Lemma apiKeyRepo_Create_step db now k hash : account_step db (apiKeyRepo_Create db now k hash).1.
Proof.
  unfold apiKeyRepo_Create, Sql_CreateAPIKey. destruct (_ || _) eqn:El; [auto with accounts|].
  destruct (negb (forallb _ _)); [auto with accounts|].
  destruct (t_keys _ !! _) eqn:Ek; [auto with accounts|]. destruct (t_tenants _ !! _) eqn:Et; [|auto with accounts].
  destruct (key_by_hash _ _) eqn:Eh; [auto with accounts|]. bool_prop.
  apply as_new_key; simpl; [done|by rewrite Et|by apply Nat.eqb_eq|done].
Qed.

Lemma credential_step {A} db (p : AccountDb * result error A) :
  account_step db p.1 → account_step db (all_or_nothing db p).1.
Proof. destruct p as [db' [a|e]]; simpl; auto with accounts. Qed.

Lemma then_audit_step {A} db c e (a : A) : account_step db (then_audit (put_credential db c) e a).1.
Proof. unfold then_audit, auditRepo_Write, Sql_CreateAuditEntry. destruct (_ || _); by apply as_other. Qed.

Lemma perform_step ch a w : account_step (sw_db w) (sw_db (svc_perform jsonb uuid_String ch a w).1).
Proof.
  destruct a; cbn [svc_perform]; try (unfold answered; simpl; by auto with accounts);
    try apply executed_step; try apply committed_step.
  - destruct (hand_out _ _); auto with accounts.
  - apply tenantRepo_Create_step.
  - apply finding_step. unfold Sql_UpdateTenant. destruct (match tp_Name p with Some _ => _ | None => _ end); [auto with accounts|].
    destruct (tp_Metadata p); [destruct (jsonb _); [|auto with accounts]|];
      apply update_tenant_step; intros t t' [= <-]; done.
  - apply finding_step, update_tenant_step. intros t t'. by case_match; intros [= <-].
  - apply finding_step, update_tenant_step. intros t t'. by case_match; intros [= <-].
  - apply apiKeyRepo_Create_step.
  - apply finding_step. unfold Sql_UpdateAPIKeyAllowlist. destruct (negb _); [auto with accounts|].
    by apply update_key_step.
  - by apply finding_step, update_key_step.
  - unfold quotaRepo_Upsert, Sql_UpsertQuota. destruct (negb _) eqn:Eo; [auto with accounts|].
    destruct (t_tenants _ !! _) eqn:Et; [|auto with accounts]. apply negb_false_iff in Eo.
    apply (as_upsert _ tenant (stored_quota (mo_now ch) q)); [done|by rewrite Et].
  - apply as_fewer, delete_subseteq.
  - apply as_fewer, map_filter_subseteq.
  - unfold auditRepo_Write, Sql_CreateAuditEntry. destruct (_ || _); by apply as_other.
  - apply credential_step. unfold Sql_CreateAdminCredential.
    destruct (_ || negb (Role_Valid _)); [auto with accounts|].
    destruct (existsb (λ r, String.eqb _ _) _); [auto with accounts|].
    destruct (bool_decide _ || _); [auto with accounts|apply then_audit_step].
  - apply credential_step. unfold Sql_RevokeAdminCredential.
    destruct (t_credentials _ !! _) as [c|]; [|auto with accounts].
    destruct (AdminCredential_Revoked _); [auto with accounts|apply then_audit_step].
Qed.
End Keep.

Section Keys.
Context (sha256 : bytes → bytes) (uuid_Parse : string → result error uuid) (uuid_String : uuid → string).
Context (jsonb : string → option string).
Local Notation perform := (svc_perform jsonb uuid_String).

Definition same_db (w w' : svc_world) : Prop := sw_db w' = sw_db w.
#[local] Instance same_db_preorder : PreOrder same_db.
Proof. split; [done|]. intros a b c H1 H2. unfold same_db in *. congruence. Qed.

Lemma reads_same_db ch a w : reads a → same_db w (perform ch a w).1.
Proof. destruct a; try done. intros _. unfold same_db. simpl. by destruct (hand_out _ _). Qed.

Lemma wp_reads {A} ok (P : A → Prop) (p : svc A) Q w :
  only reads p → returns P p → (∀ x w' tr, sw_db w' = sw_db w → P x → Q x w' tr) → wp perform ok p Q w.
Proof. intros Ho Hp HQ. apply (wp_only perform ok reads same_db P); auto. apply reads_same_db. Qed.

Lemma answered_Ok {A} ch w (r : result error A) a : (answered ch w r).2 = Ok a → r = Ok a.
Proof. unfold answered. simpl. by destruct (mo_fault ch). Qed.

Lemma executed_Ok {A} ch w (r : AccountDb * result error A) a :
  (executed ch w r).2 = Ok a → r = (sw_db (executed ch w r).1, Ok a).
Proof. unfold executed. destruct r as [db r]. by destruct (mo_fault ch); simpl; intros [= ->]. Qed.

(** The tenant a reference names: the one with this id, or else the one with this external
    id. *)
Definition names (db : AccountDb) (ref : string) (t : TenantAccount) : Prop :=
  match match uuid_Parse ref with Ok id => t_tenants db !! id | Err _ => None end with
  | Some by_id => t = by_id
  | None => Sql_GetTenantByExternalID db ref = Ok t
  end.

Lemma names_unique db ref t t' : names db ref t → names db ref t' → t = t'.
Proof. unfold names. case_match; congruence. Qed.

Lemma names_same db db' ref t : t_tenants db' = t_tenants db → names db ref t → names db' ref t.
Proof. unfold names, Sql_GetTenantByExternalID. by intros ->. Qed.

Lemma GetTenantByExternalID_same db db' ext :
  t_tenants db' = t_tenants db → Sql_GetTenantByExternalID db' ext = Sql_GetTenantByExternalID db ext.
Proof. unfold Sql_GetTenantByExternalID. by intros ->. Qed.

(** Whatever it is named by, a tenant has its external id to itself. *)
Lemma named_by_external db ref t :
  accounts_wf db → names db ref t → Sql_GetTenantByExternalID db (ta_ExternalID t) = Ok t.
Proof.
  intros Hwf Hn. assert (∃ id, t_tenants db !! id = Some t) as [id Ht].
  { unfold names in Hn. destruct (match uuid_Parse ref with Ok _ => _ | _ => _ end) eqn:E.
    - subst. destruct (uuid_Parse ref); [eauto|done].
    - unfold Sql_GetTenantByExternalID in Hn. destruct (List.find _ _) eqn:Ef; simplify_eq.
      by apply find_row_Some in Ef as [_ ?]. }
  unfold Sql_GetTenantByExternalID. destruct (List.find _ _) as [t'|] eqn:Ef.
  - apply find_row_Some in Ef as [He%String.eqb_eq [j Hj]].
    pose proof (aw_external _ Hwf _ _ _ _ Hj Ht He) as ->. congruence.
  - apply (find_row_None _ _ id t) in Ef; [|done]. cbv beta in Ef. by rewrite String.eqb_refl in Ef.
Qed.

Lemma by_external_wp ok ref Q w :
  (∀ t w' tr, sw_db w' = sw_db w → (∃ id, t_tenants (sw_db w) !! id = Some t) →
     Sql_GetTenantByExternalID (sw_db w) ref = Ok t → Q (Ok t) w' tr) →
  (∀ e w' tr, sw_db w' = sw_db w → Q (Err e) w' tr) →
  ∀ f, wp perform ok (wrap_error f (call (SGetByExternalID ref))) Q w.
Proof.
  intros HOk HErr f ch _. simpl.
  match goal with |- Q (match ?r with _ => _ end) _ _ => destruct r as [t|e] eqn:Ea end; [|by apply HErr].
  apply (answered_Ok ch w) in Ea. unfold tenantRepo_GetByExternalID in Ea.
  destruct (Sql_GetTenantByExternalID _ _) as [t'|] eqn:Ef; [|done]. simplify_eq. apply HOk; [done| |done].
  unfold Sql_GetTenantByExternalID in Ef. destruct (List.find _ _) eqn:El; [|done]. simplify_eq.
  by apply find_row_Some in El as [_ Hid].
Qed.

Lemma resolveTenant_wp ok ref Q w :
  accounts_wf (sw_db w) →
  (∀ t w' tr, sw_db w' = sw_db w → (∃ id, t_tenants (sw_db w) !! id = Some t) → names (sw_db w) ref t → Q (Ok t) w' tr) →
  (∀ e w' tr, sw_db w' = sw_db w → Q (Err e) w' tr) → wp perform ok (resolveTenant uuid_Parse ref) Q w.
Proof.
  intros Hwf HOk HErr. unfold resolveTenant. destruct (String.eqb ref ""); [by apply HErr|].
  destruct (uuid_Parse ref) as [id|e] eqn:Ep; unfold names in HOk; rewrite Ep in HOk; [|by apply by_external_wp].
  apply wp_call. intros ch _. cbn [svc_perform answered fst snd]. unfold tenantRepo_Get, Sql_GetTenant.
  destruct (t_tenants (sw_db w) !! id) as [t|] eqn:Et.
  - destruct (mo_fault ch); [by apply HOk; eauto|..]; by apply HErr.
  - match goal with |- wp _ _ (match ?r with _ => _ end) _ _ => destruct r as [t|e] eqn:Ea end; [by destruct (mo_fault ch)|].
    destruct (Is e ErrNotFound); [|by apply HErr].
    apply by_external_wp; intros; [by apply HOk|by apply HErr].
Qed.

Lemma lockTenant_wp ok ref Q w :
  accounts_wf (sw_db w) →
  (∀ t w' tr, sw_db w' = sw_db w → (∃ id, t_tenants (sw_db w) !! id = Some t) → names (sw_db w) ref t → Q (Ok t) w' tr) →
  (∀ e w' tr, sw_db w' = sw_db w → Q (Err e) w' tr) → wp perform ok (lockTenant uuid_Parse ref) Q w.
Proof.
  intros Hwf HOk HErr. apply wp_and_then, resolveTenant_wp; [done| |by intros; apply HErr].
  intros t w1 tr Hw1 [id Hid] Hnames ch _. simpl.
  match goal with |- Q ?r _ _ => destruct r as [t'|e] eqn:Ea end; [|by apply HErr].
  apply (answered_Ok ch w1) in Ea. unfold tenantRepo_Lock, Sql_LockTenant in Ea.
  rewrite Hw1, (aw_tenant _ Hwf _ _ Hid), Hid in Ea. simplify_eq. eauto.
Qed.

Lemma lockKey_wp ok id Q w :
  (∀ k w' tr, sw_db w' = sw_db w → (∃ r, t_keys (sw_db w) !! id = Some r ∧ kr_key r = k) → Q (Ok k) w' tr) →
  (∀ e w' tr, sw_db w' = sw_db w → Q (Err e) w' tr) → wp perform ok (lockKey uuid_String id) Q w.
Proof.
  intros HOk HErr. apply wp_and_then. apply (wp_reads ok (λ _, True)); [by apply only_bind|by apply returns_any|].
  intros [k|e] w1 tr Hw1 _; [|by apply HErr]. apply wp_and_then. intros ch _. simpl.
  destruct (match mo_fault ch with Fine => _ | _ => _ end) as [t|e]; [|by apply HErr]. intros ch' _. simpl.
  destruct (match mo_fault ch' with Fine => _ | _ => _ end) as [k'|e] eqn:Ea; simpl; [|by apply HErr].
  apply (answered_Ok ch' w1) in Ea. unfold apiKeyRepo_Get, Sql_GetAPIKey in Ea. rewrite Hw1 in Ea.
  destruct (t_keys (sw_db w) !! _) eqn:Ek; [|done]. simplify_eq. eauto.
Qed.

(** An audit row changes none of the other tables. *)
Definition same_accounts (db db' : AccountDb) : Prop :=
  t_tenants db' = t_tenants db ∧ t_keys db' = t_keys db ∧ t_quotas db' = t_quotas db.

Lemma audit_wp ok wr action tenantID keyID detail Q w :
  (∀ r w' tr, same_accounts (sw_db w) (sw_db w') → Q r w' tr) →
  wp perform ok (audit wr action tenantID keyID detail) Q w.
Proof.
  intros HQ. intros ch _. cbn [svc_perform fst snd]. destruct (hand_out _ _) as [ids [id|e]]; simpl; [|by apply HQ].
  intros ch1 _ ch2 _. apply HQ. unfold executed, auditRepo_Write, Sql_CreateAuditEntry. simpl. destruct (mo_fault ch2); simpl; [|done..].
  by destruct (_ || _).
Qed.

(** What a transaction that succeeded went through. *)
Definition if_ok {A} (P : A → svc_world → Prop) (r : result error A) (w : svc_world) (_ : list svc_action) : Prop :=
  ∀ a, r = Ok a → P a w.

Lemma if_ok_Err {A} (P : A → svc_world → Prop) e w tr : if_ok P (Err e) w tr.
Proof. intros a [=]. Qed.
Lemma if_ok_Ok {A} (P : A → svc_world → Prop) a w tr : P a w → if_ok P (Ok a) w tr.
Proof. by intros HP b [= <-]. Qed.

Lemma mutate_Ok {A} commit chs (p : svc (result error A)) s s' a (P : A → svc_world → Prop) :
  mutate jsonb uuid_String commit chs p s = Some (s', Ok a) →
  wp perform (λ _, True) p (if_ok P) s → P a s'.
Proof.
  intros Hm Hwp. unfold mutate in Hm. destruct (run perform chs p s) as [[[s1 [x|e]] tr]|] eqn:Er; [|by simplify_eq|done].
  destruct commit; simplify_eq.
  apply (wp_run _ (λ _, True) chs p _ s _ _ _ ltac:(by apply Forall_true) Hwp Er). done.
Qed.

Lemma run_keeps {A} (I : AccountDb → Prop) chs (p : svc A) s s' a tr :
  (∀ db db', account_step db db' → I db → I db') →
  run perform chs p s = Some (s', a, tr) → I (sw_db s) → I (sw_db s').
Proof.
  intros HI. revert chs s tr. induction p as [x|act k IH]; intros chs s tr; simpl; [by intros; simplify_eq|].
  destruct chs as [|ch chs]; [done|]. pose proof (perform_step jsonb uuid_String ch act s) as Hs.
  destruct (perform ch act s) as [s1 r]. destruct (run perform chs (k r) s1) as [[[s2 z] tr2]|] eqn:E; [|done].
  intros Heq H0. simplify_eq. apply (IH _ _ _ _ E). by eapply HI.
Qed.

Lemma mutate_keeps {A} (I : AccountDb → Prop) commit chs (p : svc (result error A)) s s' r :
  (∀ db db', account_step db db' → I db → I db') →
  mutate jsonb uuid_String commit chs p s = Some (s', r) → I (sw_db s) → I (sw_db s').
Proof.
  intros HI Hm H0. unfold mutate in Hm. destruct (run perform chs p s) as [[[s1 [x|e]] tr]|] eqn:Er; [| |done].
  - pose proof (run_keeps I _ _ _ _ _ _ HI Er H0). by destruct commit; simplify_eq.
  - by simplify_eq.
Qed.

Lemma mutate_wf {A} commit chs (p : svc (result error A)) s s' r :
  mutate jsonb uuid_String commit chs p s = Some (s', r) → accounts_wf (sw_db s) → accounts_wf (sw_db s').
Proof. apply mutate_keeps. apply account_step_wf. Qed.

Lemma wf_same db db' : same_accounts db db' → accounts_wf db → accounts_wf db'.
Proof. intros (Ht & Hk & Hq). by apply same_tables_wf. Qed.

(** Who a key's row lets in. *)
Lemma key_by_hash_put db k :
  accounts_wf (put_key db k) → key_by_hash (put_key db k) (kr_hash k) = Some k.
Proof.
  intros Hwf. unfold key_by_hash. destruct (List.find _ _) as [k'|] eqn:Ef.
  - apply find_row_Some in Ef as [Hh [id Hk']]. apply bool_decide_eq_true in Hh.
    assert (Hk : t_keys (put_key db k) !! ak_ID (kr_key k) = Some k) by apply lookup_insert_eq.
    pose proof (aw_hash _ Hwf _ _ _ _ Hk' Hk Hh) as ->. congruence.
  - assert (Hk : t_keys (put_key db k) !! ak_ID (kr_key k) = Some k) by apply lookup_insert_eq.
    pose proof (find_row_None _ _ _ _ Ef Hk) as Hf. by apply bool_decide_eq_false in Hf.
Qed.

Lemma Authenticate_same db db' fault presented :
  same_accounts db db' → Authenticate sha256 db' fault presented = Authenticate sha256 db fault presented.
Proof. intros (Ht & Hk & _). unfold Authenticate, Sql_GetAPIKeyByHash, key_by_hash. by rewrite Ht, Hk. Qed.

(** A key that lets someone in is there, in force, and its owner is not disabled. *)
Lemma Authenticate_Ok db fault presented i :
  Authenticate sha256 db fault presented = Ok i →
  ∃ id k t, t_keys db !! id = Some k ∧ t_tenants db !! ak_TenantID (kr_key k) = Some t ∧
    kr_hash k = hashSecret sha256 presented ∧ APIKey_Revoked (kr_key k) = false ∧
    TenantAccount_Disabled t = false ∧
    i = mkIdentity (ta_ExternalID t) (ak_ID (kr_key k)) (ak_ModelAllowlist (kr_key k)).
Proof.
  unfold Authenticate. destruct (String.eqb _ _); [done|]. destruct fault as [e|]; [done|].
  unfold Sql_GetAPIKeyByHash. destruct (key_by_hash _ _) as [k|] eqn:Ek; [|done].
  destruct (t_tenants db !! _) as [t|] eqn:Et; [|done]. destruct (APIKey_Revoked _) eqn:Er; [done|].
  destruct (TenantAccount_Disabled t) eqn:Ed; [done|]. intros [= <-].
  apply find_row_Some in Ek as [Hh [id Hk]]. apply bool_decide_eq_true in Hh. eauto 10.
Qed.

Lemma Mint_Ok prefix random m :
  Mint sha256 prefix random = Ok m → Secret_Hash m = hashSecret sha256 (Secret m) ∧
  (prefix ≠ "" → Secret m ≠ "").
Proof.
  unfold Mint. destruct random as [b|e]; [|done]. intros [= <-]. unfold hashSecret. simpl. split; [by rewrite lit_str|].
  by destruct prefix.
Qed.

Lemma apiKeyRepo_Create_Ok db now k hash db' row :
  apiKeyRepo_Create db now k hash = (db', Ok row) →
  db' = put_key db (mkKeyRow row hash) ∧ is_Some (t_tenants db !! ak_TenantID k) ∧
  row = mkAPIKey (ak_ID k) (ak_TenantID k) (ak_Prefix k) (ak_ModelAllowlist k) (pg_time now) None None.
Proof.
  unfold apiKeyRepo_Create, Sql_CreateAPIKey. intros Hc. repeat case_match; simplify_eq. done.
Qed.

(** A statement that was executed. *)
Lemma executed_wp {A} ch w (r : AccountDb * result error A) (Q : result error A → svc_world → Prop) :
  (∀ a w', r = (sw_db w', Ok a) → Q (Ok a) w') → (∀ e w', Q (Err e) w') →
  Q (executed ch w r).2 (executed ch w r).1.
Proof.
  intros HOk HErr. destruct (executed ch w r) as [w' [a|e]] eqn:E; simpl; [|auto].
  apply HOk. by rewrite (executed_Ok ch w r a), E by (by rewrite E).
Qed.

Lemma create_call_wp ok k hash (Q : result error APIKey → svc_world → list svc_action → Prop) w :
  (∀ now row w', apiKeyRepo_Create (sw_db w) now k hash = (sw_db w', Ok row) → Q (Ok row) w' [SCreateKey k hash]) →
  (∀ e w', Q (Err e) w' [SCreateKey k hash]) → wp perform ok (call (SCreateKey k hash)) Q w.
Proof.
  intros HOk HErr ch _. refine (executed_wp ch w _ (λ r w', Q r w' [SCreateKey k hash]) _ _); [|done].
  intros row w'. apply HOk.
Qed.

Lemma revoke_call_wp ok id (Q : result error APIKey → svc_world → list svc_action → Prop) w :
  (∀ now row w', apiKeyRepo_Revoke (sw_db w) now id = (sw_db w', Ok row) → Q (Ok row) w' [SRevokeKey id]) →
  (∀ e w', Q (Err e) w' [SRevokeKey id]) → wp perform ok (call (SRevokeKey id)) Q w.
Proof.
  intros HOk HErr ch _. refine (executed_wp ch w _ (λ r w', Q r w' [SRevokeKey id]) _ _); [|done].
  intros row w'. apply HOk.
Qed.

Lemma disable_call_wp ok id (Q : result error TenantAccount → svc_world → list svc_action → Prop) w :
  (∀ now row w', tenantRepo_Disable (sw_db w) now id = (sw_db w', Ok row) → Q (Ok row) w' [SDisable id]) →
  (∀ e w', Q (Err e) w' [SDisable id]) → wp perform ok (call (SDisable id)) Q w.
Proof.
  intros HOk HErr ch _. refine (executed_wp ch w _ (λ r w', Q r w' [SDisable id]) _ _); [|done].
  intros row w'. apply HOk.
Qed.

(** Whom the secret of an issued key lets in. *)
Definition lets_in (db : AccountDb) (ref : string) (i : NewAPIKey) (issued : IssuedAPIKey) (db' : AccountDb) : Prop :=
  ∃ t, t_tenants db' !! ak_TenantID (ik_Key issued) = Some t ∧
    t_tenants db !! ta_ID t = Some t ∧ names db ref t ∧ TenantAccount_Disabled t = false ∧
    Authenticate sha256 db' None (ik_Secret issued) =
      Ok (mkIdentity (ta_ExternalID t) (ak_ID (ik_Key issued)) (nk_ModelAllowlist i)).

Lemma create_key_wp w ref i s :
  accounts_wf (sw_db s) →
  wp perform (λ _, True) (create_key_tx sha256 uuid_Parse w ref (nk_ModelAllowlist i))
    (if_ok (λ issued s', accounts_wf (sw_db s') → lets_in (sw_db s) ref i issued (sw_db s'))) s.
Proof.
  intros Hwf. apply wp_and_then, lockTenant_wp; [done| |intros; apply if_ok_Err].
  intros t w1 tr1 Hw1 [id Ht] Hnames. pose proof (aw_tenant _ Hwf _ _ Ht) as Hid.
  destruct (TenantAccount_Disabled t) eqn:Ed; [intros ? [=]|].
  apply wp_and_then, wp_call. intros ch2 _. cbn [svc_perform fst snd wp].
  destruct (Mint _ _ _) as [m|e] eqn:Em; [|intros ? [=]]. apply Mint_Ok in Em as [Hh Hne].
  apply wp_and_then, (wp_reads _ (λ _, True)); [by apply only_bind|by apply returns_any|].
  intros [kid|e] w2 tr2 Hw2 _; [|intros ? [=]].
  apply wp_and_then, create_call_wp; [|intros; apply if_ok_Err]. intros now row w3 Ec.
  apply apiKeyRepo_Create_Ok in Ec as (Hw3 & _ & Hrow). rewrite Hw2, Hw1 in Hw3.
  apply wp_and_then, audit_wp. intros [[]|e] w4 tr4 Hsame; [|intros ? [=]].
  apply if_ok_Ok. intros Hwf4. simpl. rewrite Hw3 in Hsame.
  assert (Hput : accounts_wf (put_key (sw_db s) (mkKeyRow row (Secret_Hash m)))).
  { destruct Hsame as (? & ? & ?). by apply (same_tables_wf (sw_db w4)). }
  pose proof (key_by_hash_put _ _ Hput) as Hkey. exists t.
  destruct Hsame as (Hts & Hks & Hqs). rewrite Hts. simpl. rewrite Hrow. simpl.
  split_and!; [by rewrite Hid|by rewrite Hid|done|done|].
  rewrite (Authenticate_same (put_key (sw_db s) (mkKeyRow row (Secret_Hash m)))) by done.
  unfold Authenticate. destruct (String.eqb _ _) eqn:Es; [apply String.eqb_eq in Es; by destruct (Hne ltac:(done))|].
  unfold hashSecret in Hh. unfold Sql_GetAPIKeyByHash. rewrite <- Hh. simpl in Hkey. rewrite Hkey. simpl. rewrite Hrow. simpl.
  rewrite Hid, Ht. by rewrite Ed.
Qed.

(** C26. The secret of a key that was just issued lets its holder in, as the tenant the call
    named, under the key's own id and with the aliases asked for; that tenant was there
    and is not disabled. *)
Theorem issued_key_authenticates w ref i commit chs s s' issued :
  accounts_wf (sw_db s) →
  mutate_prepared jsonb uuid_String commit chs (CreateAPIKey sha256 uuid_Parse w ref i) s = Some (s', Ok issued) →
  lets_in (sw_db s) ref i issued (sw_db s').
Proof.
  intros Hwf Hm. unfold CreateAPIKey, validAllowlist in Hm.
  assert (Htx : mutate jsonb uuid_String commit chs
            (create_key_tx sha256 uuid_Parse w ref (nk_ModelAllowlist i)) s = Some (s', Ok issued)).
  { destruct (nk_ModelAllowlist i); [destruct (_ <? _); [done|]; destruct (valid_aliases _ _); [done|]|]; exact Hm. }
  apply (mutate_Ok _ _ _ _ _ _ _ Htx (create_key_wp w ref i s Hwf)). by apply (mutate_wf _ _ _ _ _ _ Htx).
Qed.

(** ** Those shut out *)

Definition key_dead (id : uuid) (db : AccountDb) : Prop :=
  accounts_wf db ∧ ∃ k, t_keys db !! id = Some k ∧ APIKey_Revoked (kr_key k) = true.

Lemma key_stays_dead id db db' : account_step db db' → key_dead id db → key_dead id db'.
Proof.
  intros Hs [Hwf (k & Hk & Hr)]. split; [by eapply account_step_wf|].
  destruct Hs as [db' _ Hks _|t|i t t'|new Hnew|i old new Hold Hold' Hid _|tenant q|qs]; simpl; eauto.
  - rewrite Hks. eauto.
  - rewrite lookup_insert_ne; [eauto|]. intros He. congruence.
  - destruct (aw_key _ Hwf _ _ Hold) as (Hi & _). rewrite Hid, Hi.
    rewrite lookup_insert_ne; [eauto|]. intros ->. congruence.
Qed.

Lemma key_dead_refused id db fault presented i :
  key_dead id db → Authenticate sha256 db fault presented = Ok i → id_KeyID i ≠ id.
Proof.
  intros [Hwf (k & Hk & Hr)] Ha. apply Authenticate_Ok in Ha as (j & k' & t & Hk' & _ & _ & Hr' & _ & ->).
  simpl. destruct (aw_key _ Hwf _ _ Hk') as (-> & _). intros ->. congruence.
Qed.

(** The state moves by whole transactions, whatever they are made of. *)
Definition tx_step (s s' : svc_world) : Prop :=
  ∃ A (p : svc (result error A)) commit chs r, mutate jsonb uuid_String commit chs p s = Some (s', r).

Lemma later_dead id s s' : rtc tx_step s s' → key_dead id (sw_db s) → key_dead id (sw_db s').
Proof.
  induction 1 as [s|s1 s2 s3 (A & p & commit & chs & r & Hm) _ IH]; [done|]. intros Hd. apply IH.
  by apply (mutate_keeps (key_dead id) _ _ _ _ _ _ (key_stays_dead id) Hm).
Qed.

Lemma revoke_wp w id s :
  accounts_wf (sw_db s) →
  wp perform (λ _, True) (RevokeAPIKey uuid_String w id) (if_ok (λ k s', key_dead id (sw_db s'))) s.
Proof.
  intros Hwf. apply wp_and_then, lockKey_wp; [|intros; apply if_ok_Err].
  intros k w1 tr1 Hw1 (r & Hr & <-). destruct (APIKey_Revoked (kr_key r)) eqn:Er.
  { apply if_ok_Ok. rewrite Hw1. split; eauto. }
  apply wp_and_then, revoke_call_wp; [|intros; apply if_ok_Err]. intros now row w2 Ec. rewrite Hw1 in Ec.
  assert (Hdead : key_dead id (sw_db w2)).
  { unfold apiKeyRepo_Revoke, finding, Sql_RevokeAPIKey, update_key in Ec. rewrite Hr, Er in Ec.
    injection Ec as Hdb _. destruct (aw_key _ Hwf _ _ Hr) as (Hi & _). rewrite <- Hdb. split.
    - by eapply put_key_wf.
    - simpl. rewrite Hi, lookup_insert_eq. eauto. }
  unfold audit_key. apply wp_and_then, audit_wp.
  intros [[]|e] w3 tr3 Hsame; [|apply if_ok_Err]. apply if_ok_Ok.
  destruct Hdead as [Hwf2 (k & Hk & Hkr)]. split; [by eapply wf_same|].
  destruct Hsame as (_ & -> & _). eauto.
Qed.

(** C27. A key that was revoked never lets anyone in again: not after the revocation, and not
    after any further transactions, whatever calls they make of the store, fail or lose. *)
Theorem revoked_key_is_dead w id commit chs s s' k s'' fault presented i :
  accounts_wf (sw_db s) →
  mutate jsonb uuid_String commit chs (RevokeAPIKey uuid_String w id) s = Some (s', Ok k) →
  rtc tx_step s' s'' →
  Authenticate sha256 (sw_db s'') fault presented = Ok i → id_KeyID i ≠ id.
Proof.
  intros Hwf Hm Hlater. apply key_dead_refused, (later_dead id s'); [done|].
  exact (mutate_Ok _ _ _ _ _ _ (λ _ s', key_dead id (sw_db s')) Hm (revoke_wp w id s Hwf)).
Qed.

(** The tenant that is this one now. *)
Definition named (db : AccountDb) (ref : string) (t : TenantAccount) : Prop :=
  ∃ before, names db ref before ∧ ta_ID before = ta_ID t ∧ ta_ExternalID before = ta_ExternalID t.

Lemma disable_wp w ref s :
  accounts_wf (sw_db s) →
  wp perform (λ _, True) (DisableTenant uuid_Parse w ref)
    (if_ok (λ t s', accounts_wf (sw_db s') ∧ named (sw_db s) ref t ∧ TenantAccount_Disabled t = true ∧
                    t_tenants (sw_db s') !! ta_ID t = Some t)) s.
Proof.
  intros Hwf. apply wp_and_then, lockTenant_wp; [done| |intros; apply if_ok_Err].
  intros t w1 tr1 Hw1 (id & Ht) Hnames. pose proof (aw_tenant _ Hwf _ _ Ht) as Hid.
  destruct (TenantAccount_Disabled t) eqn:Ed.
  { apply if_ok_Ok. rewrite Hw1, Hid. split_and!; try done. by exists t. }
  apply wp_and_then, disable_call_wp; [|intros; apply if_ok_Err]. intros now row w2 Ec. rewrite Hw1 in Ec.
  unfold tenantRepo_Disable, finding, Sql_DisableTenant, update_tenant in Ec. rewrite Hid, Ht, Ed in Ec.
  injection Ec as Hdb <-. unfold audit_tenant. apply wp_and_then, audit_wp.
  intros [[]|e] w3 tr3 Hsame; [|apply if_ok_Err]. apply if_ok_Ok.
  split_and!; [|by exists t|done|].
  - apply (wf_same _ _ Hsame). rewrite <- Hdb. by eapply put_tenant_wf.
  - destruct Hsame as (-> & _). rewrite <- Hdb. apply lookup_insert_eq.
Qed.

(** Once [DisableTenant] has answered with a tenant, it is the one that was named, and none
    of its keys lets anyone in. *)
Theorem disabled_tenant_shut_out w ref commit chs s s' t fault presented i :
  accounts_wf (sw_db s) →
  mutate jsonb uuid_String commit chs (DisableTenant uuid_Parse w ref) s = Some (s', Ok t) →
  named (sw_db s) ref t ∧ (Authenticate sha256 (sw_db s') fault presented = Ok i → id_Tenant i ≠ ta_ExternalID t).
Proof.
  intros Hwf Hm.
  destruct (mutate_Ok _ _ _ _ _ _ (λ t s', accounts_wf (sw_db s') ∧ named (sw_db s) ref t ∧ TenantAccount_Disabled t = true ∧
    t_tenants (sw_db s') !! ta_ID t = Some t) Hm (disable_wp w ref s Hwf)) as (Hwf' & Hnames & Hd & Ht). split; [exact Hnames|]. intros Ha.
  apply Authenticate_Ok in Ha as (j & k & t' & _ & Ht' & _ & _ & Hd' & ->). simpl. intros He.
  pose proof (aw_external _ Hwf' _ _ _ _ Ht Ht' (eq_sym He)) as Hij. congruence.
Qed.
End Keys.

(** ** An example *)

Lemma ex_after_wf {A} n (p : prepared A) s : accounts_wf (sw_db s) → accounts_wf (sw_db (ex_after n p s)).
Proof.
  intros Hwf. unfold ex_after, ex_mutate. destruct p as [tx|e]; [|done]. simpl.
  destruct (mutate _ _ _ _ tx s) as [[s' r]|] eqn:E; [|done]. by eapply mutate_wf.
Qed.

Lemma ex_acme_wf : accounts_wf (sw_db ex_acme).
Proof. apply ex_after_wf, no_accounts_wf. Qed.

Definition ex_key := CreateAPIKey ex_sha ex_parse ex_write "acme" (mkNewAPIKey (Some ["fast"])).
Definition ex_keyed : svc_world := ex_after 20 ex_key ex_acme.
Lemma ex_keyed_wf : accounts_wf (sw_db ex_keyed).
Proof. apply ex_after_wf, ex_acme_wf. Qed.
Definition ex_secret : string := match ex_mutate 20 ex_key ex_acme with Some (_, Ok k) => ik_Secret k | _ => "" end.
Definition ex_key_id : uuid := match ex_mutate 20 ex_key ex_acme with Some (_, Ok k) => ak_ID (ik_Key k) | _ => 0%N end.

Definition ex_succeeds {A} n (p : prepared A) s : bool :=
  match ex_mutate n p s with Some (_, Ok _) => true | _ => false end.
Lemma ex_succeeds_after {A} n (p : prepared A) s :
  ex_succeeds n p s = true → ∃ a, ex_mutate n p s = Some (ex_after n p s, Ok a).
Proof. unfold ex_succeeds, ex_after. destruct (ex_mutate n p s) as [[s' [a|e]]|]; [eauto|done..]. Qed.

Lemma ex_key_succeeds : ex_succeeds 20 ex_key ex_acme = true.
Proof. by vm_compute. Qed.
Definition ex_revoke := Ok (RevokeAPIKey ex_show ex_write ex_key_id) : prepared APIKey.
Definition ex_disable := Ok (DisableTenant ex_parse ex_write "acme") : prepared TenantAccount.
Lemma ex_disable_succeeds : ex_succeeds 40 ex_disable ex_keyed = true.
Proof. by vm_compute. Qed.

(** Before: the key lets its holder in. After: it does not. *)
Example ex_key_works :
  Authenticate ex_sha (sw_db ex_keyed) None ex_secret = Ok (mkIdentity "acme" ex_key_id (Some ["fast"])).
Proof. by vm_compute. Qed.
Example ex_revoked : Authenticate ex_sha (sw_db (ex_after 40 ex_revoke ex_keyed)) None ex_secret = Err ErrKeyRevoked.
Proof. by vm_compute. Qed.

Lemma issued_key_authenticates_witness :
  ∃ issued, ex_mutate 20 ex_key ex_acme = Some (ex_keyed, Ok issued) ∧
  lets_in ex_sha ex_parse (sw_db ex_acme) "acme" (mkNewAPIKey (Some ["fast"])) issued (sw_db ex_keyed).
Proof.
  destruct (ex_succeeds_after _ _ _ ex_key_succeeds) as [issued Hi]. exists issued. split; [exact Hi|].
  exact (issued_key_authenticates _ _ _ _ _ _ _ _ _ _ _ _ ex_acme_wf Hi).
Defined.

(** A second key of the same tenant outlives the first. *)
Definition ex_two_keys : svc_world := ex_after 60 ex_key ex_keyed.
Definition ex_second : string := match ex_mutate 60 ex_key ex_keyed with Some (_, Ok k) => ik_Secret k | _ => "" end.
Lemma ex_two_keys_wf : accounts_wf (sw_db ex_two_keys).
Proof. apply ex_after_wf, ex_keyed_wf. Qed.
Lemma ex_revoke_first : ex_succeeds 80 ex_revoke ex_two_keys = true.
Proof. by vm_compute. Qed.
Definition ex_second_id : uuid := match ex_mutate 60 ex_key ex_keyed with Some (_, Ok k) => ak_ID (ik_Key k) | _ => 0%N end.
Lemma ex_second_lets_in :
  Authenticate ex_sha (sw_db (ex_after 80 ex_revoke ex_two_keys)) None ex_second =
    Ok (mkIdentity "acme" ex_second_id (Some ["fast"])).
Proof. by vm_compute. Qed.

Lemma revoked_key_is_dead_witness :
  Authenticate ex_sha (sw_db (ex_after 80 ex_revoke ex_two_keys)) None ex_second =
    Ok (mkIdentity "acme" ex_second_id (Some ["fast"])) ∧ ex_second_id ≠ ex_key_id.
Proof.
  destruct (ex_succeeds_after _ _ _ ex_revoke_first) as [k Hk]. split; [exact ex_second_lets_in|].
  exact (revoked_key_is_dead ex_sha _ _ _ _ _ _ _ _ _ _ _ _ _ ex_two_keys_wf Hk (rtc_refl _ _) ex_second_lets_in).
Defined.

Lemma disabled_tenant_shut_out_witness :
  let db := sw_db (ex_after 40 ex_disable ex_keyed) in
  ∃ t, ex_mutate 40 ex_disable ex_keyed = Some (ex_after 40 ex_disable ex_keyed, Ok t) ∧
  named ex_parse (sw_db ex_keyed) "acme" t ∧
  (Authenticate ex_sha db None ex_secret = Ok (mkIdentity "acme" ex_key_id (Some ["fast"])) →
   "acme" ≠ ta_ExternalID t).
Proof.
  destruct (ex_succeeds_after _ _ _ ex_disable_succeeds) as [t Ht]. exists t. split; [exact Ht|].
  exact (disabled_tenant_shut_out ex_sha _ _ _ _ _ _ _ _ _ _ _ _ (mkIdentity "acme" ex_key_id (Some ["fast"])) ex_keyed_wf Ht).
Defined.
