(* ===== verification/ServiceQuotas.v ===== *)
(** Replacing a tenant's quotas: what is stored afterwards, and that asking again changes
    nothing. *)
From Stdlib Require Import Ascii.
From stdpp Require Import gmap.
From S2P Require Import Prelude Sorting Errors Env Bytes JsonText Quota Records Accounts Programs AdminDb AccountStore Service ServiceWorld ServiceProps ServiceKeys.

(** A quota as it was asked for, or as the store rounds it. *)
Definition held (stored asked : Quota) : Prop :=
  SameLimits stored asked = true ∨ ∃ now, stored = stored_quota now asked.

(** The tenant has one quota for each of these, and no other. *)
Definition has_exactly (db : AccountDb) (tenant : uuid) (set : list Quota) : Prop :=
  ∀ kind, match t_quotas db !! (tenant, kind) with
          | Some q => ∃ a, a ∈ set ∧ q_WindowKind a = kind ∧ held q a
          | None => ∀ a, a ∈ set → q_WindowKind a ≠ kind
          end.
Definition others_keep (db db' : AccountDb) (tenant : uuid) : Prop :=
  ∀ other kind, other ≠ tenant → t_quotas db' !! (other, kind) = t_quotas db !! (other, kind).

Lemma SameLimits_kind a b : SameLimits a b = true → q_WindowKind a = q_WindowKind b.
Proof. unfold SameLimits. intros Hs. bool_prop. done. Qed.

Lemma sameTime_eq a b : sameTime a b = true → a = b.
Proof. unfold sameTime. destruct a, b; try done. by intros ->%Z.eqb_eq. Qed.
Lemma SameLimits_fields a b : SameLimits a b = true →
  q_WindowKind a = q_WindowKind b ∧ q_PeriodStart a = q_PeriodStart b ∧ q_PeriodEnd a = q_PeriodEnd b ∧
  q_MaxCost a = q_MaxCost b ∧ q_OnExceed a = q_OnExceed b.
Proof. unfold SameLimits. intros Hs. bool_prop. split_and!; [done|by apply sameTime_eq..|done|done]. Qed.

Lemma valid_quotas_kinds seen set out :
  valid_quotas seen set = Ok out →
  NoDup (map q_WindowKind out) ∧ (∀ q, q ∈ out → q_WindowKind q ∉ seen) ∧ Forall (λ q, Quota_Validate q = None) out.
Proof.
  revert seen out. induction set as [|q set IH]; intros seen out; simpl.
  { intros [= <-]. split_and!; [constructor|by intros q ?%elem_of_nil|constructor]. }
  destruct (validQuota q) as [q1|e] eqn:Ev; simpl; [|done].
  destruct (existsb (String.eqb _) seen) eqn:Es; [done|]. destruct (valid_quotas _ set) as [rest|e] eqn:Er; simpl; [|done].
  intros [= <-]. destruct (IH _ _ Er) as (Hnd & Hseen & Hval).
  assert (Hq : q_WindowKind q1 ∉ seen).
  { intros Hin. apply not_true_iff_false in Es. apply Es. apply existsb_exists. exists (q_WindowKind q1).
    split; [by apply list_elem_of_In|apply String.eqb_refl]. }
  split_and!.
  - simpl. constructor; [|done]. intros (q2 & He & Hin)%list_elem_of_fmap.
    apply (Hseen _ Hin). rewrite <- He. apply list_elem_of_here.
  - intros q2 [->|Hin]%elem_of_cons; [done|]. intros Hs. apply (Hseen _ Hin). by apply list_elem_of_further.
  - constructor; [|done]. unfold validQuota in Ev. by destruct (Quota_Validate _) eqn:E in Ev; simplify_eq.
Qed.

Lemma validQuotaSet_kinds set out : validQuotaSet set = Ok out → NoDup (map q_WindowKind out).
Proof.
  unfold validQuotaSet. destruct (valid_quotas [] set) as [l|e] eqn:E; simpl; [|done]. intros [= <-].
  destruct (valid_quotas_kinds _ _ _ E) as (Hnd & _). by rewrite sort_slice_perm.
Qed.

(** A quota as it is validated: blocking, when it does not say what to do. *)
Definition normal (q a : Quota) : Prop :=
  q_WindowKind a = q_WindowKind q ∧ q_PeriodStart a = q_PeriodStart q ∧ q_PeriodEnd a = q_PeriodEnd q ∧
  q_MaxCost a = q_MaxCost q ∧ q_OnExceed a = (if String.eqb (q_OnExceed q) "" then "block" else q_OnExceed q) ∧
  WindowKind_Valid (q_WindowKind a) = true.

Lemma validQuota_normal q a : validQuota q = Ok a → normal q a.
Proof.
  intros Ev. unfold validQuota in Ev. destruct (Quota_Validate _) eqn:Eq in Ev; [done|]. injection Ev as <-.
  assert (Hk : WindowKind_Valid (q_WindowKind q) = true).
  { apply not_false_iff_true. intros Hf. unfold Quota_Validate in Eq.
    by destruct (String.eqb (q_OnExceed q) ""); cbn [q_WindowKind] in Eq; rewrite Hf in Eq. }
  unfold normal. by destruct (String.eqb (q_OnExceed q) "").
Qed.

Lemma validQuotaSet_normal set out :
  validQuotaSet set = Ok out → ∃ l, l ≡ₚ out ∧ Forall2 normal set l.
Proof.
  unfold validQuotaSet. destruct (valid_quotas [] set) as [l|e] eqn:E; simpl; [|done]. intros [= <-].
  exists l. split; [by rewrite sort_slice_perm|]. revert l E. generalize (@nil WindowKind).
  induction set as [|q set IH]; intros seen l; simpl; [by intros [= <-]|].
  destruct (validQuota q) as [a|e] eqn:Ev; simpl; [|done]. destruct (existsb _ _); [done|].
  destruct (valid_quotas _ set) as [rest|e] eqn:Er; simpl; [|done]. intros [= <-].
  constructor; [by apply validQuota_normal|by eapply IH].
Qed.

(** The list of a tenant's quotas. *)
Lemma elem_of_ListQuotas db tenant q :
  accounts_wf db → q ∈ Sql_ListQuotas db tenant ↔ t_quotas db !! (tenant, q_WindowKind q) = Some q.
Proof.
  intros Hwf. unfold Sql_ListQuotas. rewrite list_elem_of_omap. split.
  - intros (kind & _ & Hq). by destruct (aw_quota _ Hwf _ _ _ Hq) as (-> & _).
  - intros Hq. exists (q_WindowKind q). split; [|done]. destruct (aw_quota _ Hwf _ _ _ Hq) as (_ & Hok & _).
    unfold quota_row_ok in Hok. repeat (apply andb_true_iff in Hok as [Hok _]).
    apply existsb_exists in Hok as (k & Hk & ->%String.eqb_eq). by apply list_elem_of_In.
Qed.

Lemma ListQuotas_kinds db tenant :
  accounts_wf db → NoDup (map q_WindowKind (Sql_ListQuotas db tenant)).
Proof.
  intros Hwf. unfold Sql_ListQuotas.
  assert (Hnd : NoDup WindowKinds) by (refine (bool_decide_unpack _ _); by vm_compute). revert Hnd.
  induction WindowKinds as [|kind kinds IH]; intros Hnd; [constructor|]. inversion_clear Hnd as [|? ? Hk Hks].
  simpl. destruct (t_quotas db !! (tenant, kind)) as [q|] eqn:Eq; [|by apply IH]. simpl. constructor; [|by apply IH].
  intros (q' & He & (k & Hin & Hq')%list_elem_of_omap)%list_elem_of_fmap.
  destruct (aw_quota _ Hwf _ _ _ Eq) as (Hq & _). destruct (aw_quota _ Hwf _ _ _ Hq') as (Hk' & _). congruence.
Qed.

(** A set that is the same for the code is the one the tenant has. *)
Lemma sameQuotaSet_exact db tenant set :
  accounts_wf db → NoDup (map q_WindowKind set) →
  sameQuotaSet (Sql_ListQuotas db tenant) set = true → has_exactly db tenant set.
Proof.
  intros Hwf Hnd Hs. unfold sameQuotaSet in Hs. apply andb_true_iff in Hs as [Hlen Hall].
  apply Nat.eqb_eq in Hlen.
  assert (Hfind : ∀ a, a ∈ set → ∃ c, t_quotas db !! (tenant, q_WindowKind a) = Some c ∧ SameLimits c a = true).
  { intros a Ha. rewrite forallb_forall in Hall. specialize (Hall a (proj1 (list_elem_of_In _ _) Ha)).
    destruct (List.find _ _) as [c|] eqn:Ef; [|done]. exists c. split; [|done].
    apply find_some in Ef as [Hin ->%String.eqb_eq%eq_sym].
    apply list_elem_of_In, elem_of_reverse, elem_of_ListQuotas in Hin; done. }
  assert (Hsub : map q_WindowKind set ⊆ map q_WindowKind (Sql_ListQuotas db tenant)).
  { intros kind (a & -> & Ha)%list_elem_of_fmap. destruct (Hfind a Ha) as (c & Hc & Hsl).
    rewrite <- (SameLimits_kind _ _ Hsl) in *. apply list_elem_of_fmap_2. by apply elem_of_ListQuotas. }
  assert (Hperm : map q_WindowKind set ≡ₚ map q_WindowKind (Sql_ListQuotas db tenant)).
  { apply submseteq_length_Permutation; [by apply NoDup_submseteq|].
    rewrite !length_map. lia. }
  intros kind. destruct (t_quotas db !! (tenant, kind)) as [q|] eqn:Eq.
  - destruct (aw_quota _ Hwf _ _ _ Eq) as (Hk & _).
    assert (Hin : kind ∈ map q_WindowKind set).
    { rewrite Hperm. apply list_elem_of_fmap. exists q. split; [done|]. apply elem_of_ListQuotas; [done|].
      by rewrite Hk. }
    apply list_elem_of_fmap in Hin as (a & -> & Ha). destruct (Hfind a Ha) as (c & Hc & Hsl).
    exists a. split_and!; [done|done|]. left. congruence.
  - intros a Ha <-. destruct (Hfind a Ha) as (c & Hc & _). congruence.
Qed.

(** Limits the store keeps as they are: their bounds are whole microseconds. *)
Definition storable (q : Quota) : Prop :=
  pg_time <$> q_PeriodStart q = q_PeriodStart q ∧ pg_time <$> q_PeriodEnd q = q_PeriodEnd q.

Lemma SameLimits_refl q : SameLimits q q = true.
Proof.
  unfold SameLimits, sameTime. rewrite !String.eqb_refl, Z.eqb_refl.
  by destruct (q_PeriodStart q), (q_PeriodEnd q); rewrite ?Z.eqb_refl.
Qed.

Lemma held_storable q a : storable a → held q a → SameLimits q a = true.
Proof.
  intros [Hs He] [?|[now ->]]; [done|]. pose proof (SameLimits_refl a) as Hr.
  unfold SameLimits in *. simpl. by rewrite Hs, He.
Qed.

Lemma one_per_kind set a b :
  NoDup (map q_WindowKind set) → a ∈ set → b ∈ set → q_WindowKind a = q_WindowKind b → a = b.
Proof.
  intros Hnd Ha Hb He. apply list_elem_of_lookup in Ha as [i Hi]. apply list_elem_of_lookup in Hb as [j Hj].
  assert (i = j) as ->; [|congruence]. apply (NoDup_lookup (map q_WindowKind set) _ _ (q_WindowKind a) Hnd);
    rewrite list_lookup_fmap; [by rewrite Hi|by rewrite Hj, He].
Qed.

Lemma held_kind q a : held q a → q_WindowKind q = q_WindowKind a.
Proof. intros [Hsl|[now ->]]; [by apply SameLimits_kind|done]. Qed.

Lemma exact_row db tenant set a :
  NoDup (map q_WindowKind set) → has_exactly db tenant set → a ∈ set →
  ∃ q, t_quotas db !! (tenant, q_WindowKind a) = Some q ∧ held q a.
Proof.
  intros Hnd Hex Ha. specialize (Hex (q_WindowKind a)). destruct (t_quotas db !! _) as [q|]; [|by destruct (Hex a Ha)].
  destruct Hex as (b & Hb & Hk & Hh). exists q. split; [done|]. by rewrite <- (one_per_kind set b a Hnd Hb Ha Hk).
Qed.

Lemma exact_kinds db tenant set :
  accounts_wf db → NoDup (map q_WindowKind set) → has_exactly db tenant set →
  map q_WindowKind (Sql_ListQuotas db tenant) ≡ₚ map q_WindowKind set.
Proof.
  intros Hwf Hnd Hex. apply NoDup_Permutation; [by apply ListQuotas_kinds|done|].
  intros kind. rewrite !list_elem_of_fmap. split.
  - intros (q & -> & Hq%elem_of_ListQuotas); [|done]. specialize (Hex (q_WindowKind q)). rewrite Hq in Hex.
    destruct Hex as (a & Ha & <- & _). by exists a.
  - intros (a & -> & Ha). destruct (exact_row _ _ _ _ Hnd Hex Ha) as (q & Hq & Hh%held_kind). exists q.
    split; [done|]. apply elem_of_ListQuotas; [done|]. by rewrite Hh.
Qed.

(** The rows of the tenant, one for each of the set. *)
Lemma exact_rows db tenant set :
  accounts_wf db → NoDup (map q_WindowKind set) → has_exactly db tenant set →
  ∃ rows, rows ≡ₚ Sql_ListQuotas db tenant ∧ Forall2 held rows set.
Proof.
  intros Hwf Hnd Hex.
  assert (Hrows : ∃ rows, Forall2 held rows set ∧ ∀ q, q ∈ rows → q ∈ Sql_ListQuotas db tenant).
  { assert (Hsub : ∀ a, a ∈ set → a ∈ set) by done. revert Hsub. generalize set at 1 3. intros l.
    induction l as [|a l IH]; intros Hsub; [exists []; split; [done|by intros ? ?%elem_of_nil]|].
    destruct IH as (rows & Hr & Hin); [intros; apply Hsub; by right|].
    destruct (exact_row _ _ _ a Hnd Hex) as (q & Hq & Hh); [apply Hsub; by left|].
    exists (q :: rows). split; [by constructor|]. intros r [->|H]%elem_of_cons; [|by apply Hin].
    apply elem_of_ListQuotas; [done|]. by rewrite (held_kind _ _ Hh). }
  destruct Hrows as (rows & Hr & Hin). exists rows. split; [|done].
  assert (Hkinds : map q_WindowKind rows = map q_WindowKind set).
  { clear - Hr. induction Hr as [|q a rows set Hh _ IH]; [done|]. cbn. by rewrite (held_kind _ _ Hh), IH. }
  apply submseteq_length_Permutation.
  - apply NoDup_submseteq; [|done]. apply (NoDup_fmap_1 q_WindowKind). by rewrite <- Hkinds in Hnd.
  - pose proof (Permutation_length (exact_kinds _ _ _ Hwf Hnd Hex)) as Hl. rewrite <- Hkinds, !length_map in Hl. lia.
Qed.

(** Rows that say the same, kind by kind, are the same set for the code. *)
Lemma found_sameQuotaSet db tenant set :
  accounts_wf db → length (Sql_ListQuotas db tenant) = length set →
  (∀ a, a ∈ set → ∃ q, t_quotas db !! (tenant, q_WindowKind a) = Some q ∧ SameLimits q a = true) →
  sameQuotaSet (Sql_ListQuotas db tenant) set = true.
Proof.
  intros Hwf Hlen Hfind. unfold sameQuotaSet. apply andb_true_iff. split; [by apply Nat.eqb_eq|].
  apply forallb_forall. intros a Ha%list_elem_of_In. destruct (Hfind a Ha) as (q & Hq & Hsl).
  assert (Hin : q ∈ Sql_ListQuotas db tenant).
  { apply elem_of_ListQuotas; [done|]. by rewrite (SameLimits_kind _ _ Hsl). }
  destruct (List.find _ _) as [c|] eqn:Ef.
  - apply find_some in Ef as [Hc Hk%String.eqb_eq].
    apply list_elem_of_In, elem_of_reverse, elem_of_ListQuotas in Hc; [|done]. rewrite Hk in Hc. congruence.
  - assert (Hf := find_none _ _ Ef q ltac:(by apply list_elem_of_In, elem_of_reverse)).
    apply String.eqb_neq in Hf. by rewrite (SameLimits_kind _ _ Hsl) in Hf.
Qed.

Lemma exact_sameQuotaSet db tenant set :
  accounts_wf db → NoDup (map q_WindowKind set) → Forall storable set → has_exactly db tenant set →
  sameQuotaSet (Sql_ListQuotas db tenant) set = true.
Proof.
  intros Hwf Hnd Hst Hex. apply found_sameQuotaSet; [done| |].
  - rewrite <- !(length_map q_WindowKind). by apply Permutation_length, exact_kinds.
  - intros a Ha. destruct (exact_row _ _ _ _ Hnd Hex Ha) as (q & Hq & Hh). exists q. split; [done|].
    apply held_storable; [|done]. by rewrite Forall_forall in Hst; apply Hst.
Qed.

(** A quota that says what a row says; what to do is to block if it does not say. *)
Definition says (q row : Quota) : Prop :=
  q_WindowKind row = q_WindowKind q ∧ q_PeriodStart row = q_PeriodStart q ∧ q_PeriodEnd row = q_PeriodEnd q ∧
  q_MaxCost row = q_MaxCost q ∧ q_OnExceed row = if String.eqb (q_OnExceed q) "" then "block" else q_OnExceed q.

Lemma normal_says q a row : normal q a → says q row → SameLimits row a = true.
Proof.
  intros (Hk & Hs & He & Hm & Ho & _) (Hk' & Hs' & He' & Hm' & Ho').
  pose proof (SameLimits_refl row) as Hr. unfold SameLimits in *.
  by rewrite Hk, Hs, He, Hm, Ho, <- Hk', <- Hs', <- He', <- Hm', <- Ho'.
Qed.

Lemma says_sameQuotaSet db tenant set asked rows :
  accounts_wf db → validQuotaSet set = Ok asked → rows ≡ₚ Sql_ListQuotas db tenant → Forall2 says set rows →
  sameQuotaSet (Sql_ListQuotas db tenant) asked = true.
Proof.
  intros Hwf Hv Hrows Hsays. destruct (validQuotaSet_normal _ _ Hv) as (l & Hl & Hn).
  assert (Hf : Forall2 (λ row a, SameLimits row a = true) rows l).
  { clear - Hn Hsays. revert rows Hsays. induction Hn as [|q a set l Hq _ IH]; intros rows Hs;
      inversion_clear Hs; constructor; [by eapply normal_says|by apply IH]. }
  apply found_sameQuotaSet; [done| |].
  - by rewrite <- Hrows, (Forall2_length _ _ _ Hf), Hl.
  - intros a Ha. rewrite <- Hl in Ha. apply list_elem_of_lookup in Ha as [i Hi].
    destruct (Forall2_lookup_r _ _ _ _ _ Hf Hi) as (row & Hin%list_elem_of_lookup_2 & Hsl). exists row. split; [|done]. rewrite Hrows in Hin. apply elem_of_ListQuotas in Hin; [|done].
    by rewrite <- (SameLimits_kind _ _ Hsl).
Qed.

Section Replace.
Context (uuid_Parse : string → result error uuid) (uuid_String : uuid → string).
Context (jsonb : string → option string).
Local Notation perform := (svc_perform jsonb uuid_String).

Lemma upsert_call_wp ok tenant q (Q : result error Quota → svc_world → list svc_action → Prop) w :
  (∀ now row w', quotaRepo_Upsert (sw_db w) now tenant q = (sw_db w', Ok row) → Q (Ok row) w' [SUpsert tenant q]) →
  (∀ e w', Q (Err e) w' [SUpsert tenant q]) → wp perform ok (call (SUpsert tenant q)) Q w.
Proof.
  intros HOk HErr ch _. refine (executed_wp ch w _ (λ r w', Q r w' [SUpsert tenant q]) _ _); [|done].
  intros row w'. apply HOk.
Qed.

Lemma quotaRepo_Upsert_Ok db now tenant q db' row :
  quotaRepo_Upsert db now tenant q = (db', Ok row) →
  row = stored_quota now q ∧ db' = set_quotas db (<[(tenant, q_WindowKind q) := row]> (t_quotas db)).
Proof. unfold quotaRepo_Upsert, Sql_UpsertQuota. intros Hu. repeat case_match; simplify_eq. done. Qed.

(** What the tables are once these were written over [db]. *)
Definition written_over (db : AccountDb) (tenant : uuid) (set : list Quota) (db' : AccountDb) : Prop :=
  t_tenants db' = t_tenants db ∧ others_keep db db' tenant ∧
  (∀ a, a ∈ set → ∃ now, t_quotas db' !! (tenant, q_WindowKind a) = Some (stored_quota now a)) ∧
  (∀ kind, kind ∉ map q_WindowKind set → t_quotas db' !! (tenant, kind) = t_quotas db !! (tenant, kind)).

(** What is returned is the rows. *)
Definition shown (db : AccountDb) (tenant : uuid) (set out : list Quota) : Prop :=
  map q_WindowKind out ≡ₚ map q_WindowKind set ∧
  ∀ q, q ∈ out → t_quotas db !! (tenant, q_WindowKind q) = Some q.

Lemma shown_listed db tenant set out :
  accounts_wf db → NoDup (map q_WindowKind set) → has_exactly db tenant set → shown db tenant set out →
  out ≡ₚ Sql_ListQuotas db tenant.
Proof.
  intros Hwf Hnd Hex [Hk Hin]. apply submseteq_length_Permutation.
  - apply NoDup_submseteq; [apply (NoDup_fmap_1 q_WindowKind); by rewrite <- Hk in Hnd|].
    intros q Hq. by apply elem_of_ListQuotas, Hin.
  - pose proof (Permutation_length (exact_kinds _ _ _ Hwf Hnd Hex)) as Hl. rewrite <- Hk, !length_map in Hl. lia.
Qed.

Lemma upsert_all_wp ok tenant set (Q : result error (list Quota) → svc_world → list svc_action → Prop) w :
  NoDup (map q_WindowKind set) →
  (∀ out w' tr, written_over (sw_db w) tenant set (sw_db w') → shown (sw_db w') tenant set out → Q (Ok out) w' tr) →
  (∀ e w' tr, Q (Err e) w' tr) → wp perform ok (upsert_all tenant set) Q w.
Proof.
  revert w Q. induction set as [|q set IH]; intros w Q Hnd HOk HErr.
  { apply HOk; [|by split; [|intros a ?%elem_of_nil]]. split_and!; try done. by intros a ?%elem_of_nil. }
  inversion_clear Hnd as [|? ? Hq Hnd']. apply wp_and_then, upsert_call_wp; [|by intros; apply HErr].
  intros now row w1 Hu. apply quotaRepo_Upsert_Ok in Hu as (-> & Hw1).
  apply wp_and_then, IH; [done| |by intros; apply HErr]. intros out w2 tr (Ht & Ho & Hin & Hout) [Hkinds Hrows].
  apply HOk; cycle 1.
  { split; [cbn; by rewrite Hkinds|]. intros r [->|Hr]%elem_of_cons; [|by apply Hrows].
    cbn [q_WindowKind stored_quota]. rewrite Hout by done. rewrite Hw1. cbn. by rewrite lookup_insert_eq. }
  rewrite Hw1 in *. simpl in *. split_and!; [done| | |].
  - intros other kind Hne. rewrite Ho by done. simpl. rewrite lookup_insert_ne; [done|congruence].
  - intros a [->|Ha]%elem_of_cons; [|by apply Hin]. exists now. rewrite Hout by done. by rewrite lookup_insert_eq.
  - intros kind Hk. apply not_elem_of_cons in Hk as [Hne Hk]. rewrite Hout by done.
    rewrite lookup_insert_ne; [done|congruence].
Qed.

(** The named tenant has exactly these quotas; the other tables, and the other tenants, are
    as they were. *)
Definition replaced (db : AccountDb) (ref : string) (set : list Quota) (db' : AccountDb) : Prop :=
  ∃ t, names uuid_Parse db ref t ∧ t_tenants db' = t_tenants db ∧ others_keep db db' (ta_ID t) ∧
       has_exactly db' (ta_ID t) set.

Lemma replace_wp w ref set s :
  accounts_wf (sw_db s) → NoDup (map q_WindowKind set) →
  wp perform (λ _, True) (replace_quotas_tx uuid_Parse w ref set)
    (if_ok (λ out s', replaced (sw_db s) ref set (sw_db s') ∧
       ∃ t, names uuid_Parse (sw_db s) ref t ∧ shown (sw_db s') (ta_ID t) set out)) s.
Proof.
  intros Hwf Hnd. apply wp_and_then, lockTenant_wp; [done| |intros; apply if_ok_Err].
  intros t w1 tr1 Hw1 [id Ht] Hnames. apply wp_and_then. intros ch _. simpl.
  match goal with |- match ?r with _ => _ end => destruct r as [current|e] eqn:Ea end; [|apply if_ok_Err].
  apply (answered_Ok ch w1) in Ea. simplify_eq. rewrite Hw1.
  destruct (sameQuotaSet _ set) eqn:Es.
  { apply if_ok_Ok. rewrite Hw1. apply (sameQuotaSet_exact _ _ _ Hwf Hnd) in Es.
    split; exists t; [by split_and!|]. split; [done|]. split; [by apply exact_kinds|].
    intros q Hq. by apply elem_of_ListQuotas in Hq. }
  apply wp_and_then. intros ch1 _. cbn [svc_perform]. unfold executed.
  destruct (mo_fault ch1); [|apply if_ok_Err..]. simpl. rewrite Hw1.
  apply wp_and_then, upsert_all_wp; [done| |intros; apply if_ok_Err].
  intros out w2 tr2 (Ht2 & Ho2 & Hin & Hout) [Hkinds Hrows]. apply wp_and_then, audit_wp.
  intros [[]|e] w3 tr3 (Ht3 & _ & Hq3); [|apply if_ok_Err]. apply if_ok_Ok. simpl in *.
  split; cycle 1.
  { exists t. split; [done|]. split; [done|]. intros q Hq. rewrite Hq3. by apply Hrows. }
  exists t. split_and!; [done|by rewrite Ht3| |].
  - intros other kind Hne. rewrite Hq3, Ho2 by done. simpl. unfold quotaRepo_DeleteAll. simpl.
    destruct (t_quotas (sw_db s) !! (other, kind)) eqn:Eq.
    + by apply map_lookup_filter_Some.
    + apply map_lookup_filter_None. by left.
  - intros kind. rewrite Hq3. destruct (decide (kind ∈ map q_WindowKind set)) as [Hk|Hk].
    + apply list_elem_of_fmap in Hk as (a & -> & Ha). destruct (Hin a Ha) as [now ->].
      exists a. split_and!; [done..|]. right. by exists now.
    + rewrite Hout by done. simpl.
      assert (filter (λ kq : uuid * WindowKind * Quota, kq.1.1 ≠ ta_ID t) (t_quotas (sw_db s)) !! (ta_ID t, kind) = None) as ->.
      { apply map_lookup_filter_None. right. intros q _. simpl. naive_solver. }
      intros a Ha <-. apply Hk. by apply list_elem_of_fmap_2.
Qed.

(** [ReplaceQuotas] that succeeds leaves the tenant it named with exactly the quotas asked
    for, one per kind of window, and every other tenant's as they were; it returns the rows. *)
Theorem ReplaceQuotas_exact w ref set commit chs s s' out :
  accounts_wf (sw_db s) →
  mutate_prepared jsonb uuid_String commit chs (ReplaceQuotas uuid_Parse w ref set) s = Some (s', Ok out) →
  ∃ asked t, validQuotaSet set = Ok asked ∧ names uuid_Parse (sw_db s) ref t ∧
    replaced (sw_db s) ref asked (sw_db s') ∧ out ≡ₚ Sql_ListQuotas (sw_db s') (ta_ID t) ∧
    Sql_GetTenantByExternalID (sw_db s') (ta_ExternalID t) = Ok t ∧
    ∃ rows, rows ≡ₚ Sql_ListQuotas (sw_db s') (ta_ID t) ∧ Forall2 held rows asked.
Proof.
  intros Hwf Hm. assert (Hwf' : accounts_wf (sw_db s')).
  { unfold ReplaceQuotas in Hm. destruct (validQuotaSet set); [by eapply mutate_wf|done]. }
  unfold ReplaceQuotas in Hm. destruct (validQuotaSet set) as [asked|e] eqn:Ev; [|done].
  pose proof (validQuotaSet_kinds _ _ Ev) as Hnd.
  destruct (mutate_Ok _ _ _ _ _ _ _ _ _ Hm (replace_wp w ref asked s Hwf Hnd)) as [Hrep (t & Hn & Hsh)].
  destruct Hrep as (t' & Hn' & Ht & Hoth & Hex). pose proof (names_unique _ _ _ _ _ Hn' Hn) as ->.
  exists asked, t. split_and!; [done|done|by exists t|by eapply shown_listed| |by apply exact_rows].
  rewrite (GetTenantByExternalID_same _ _ _ Ht). by eapply named_by_external.
Qed.

Lemma replace_again_wp w ref set s t :
  accounts_wf (sw_db s) → NoDup (map q_WindowKind set) → Forall storable set →
  names uuid_Parse (sw_db s) ref t → has_exactly (sw_db s) (ta_ID t) set →
  wp perform (λ _, True) (replace_quotas_tx uuid_Parse w ref set) (λ _ s' _, sw_db s' = sw_db s) s.
Proof.
  intros Hwf Hnd Hst Hnames Hex. apply wp_and_then, lockTenant_wp; [done| |done].
  intros t' w1 tr1 Hw1 _ Hnames'. rewrite (names_unique _ _ _ _ _ Hnames' Hnames).
  apply wp_and_then. intros ch _. simpl.
  match goal with |- match ?r with _ => _ end => destruct r as [current|e] eqn:Ea end; [|done].
  apply (answered_Ok ch w1) in Ea. simplify_eq. rewrite Hw1. unfold quotaRepo_List.
  by rewrite (exact_sameQuotaSet _ _ _ Hwf Hnd Hst Hex).
Qed.

(** Replacing a tenant's quotas by the set it was just given changes nothing, whoever asks
    and whatever fails: no quota is written and no row audited. The bounds of periods are taken
    to be whole microseconds. *)
Theorem ReplaceQuotas_again w ref set commit chs s s' out w' commit' chs' s'' r :
  accounts_wf (sw_db s) →
  mutate_prepared jsonb uuid_String commit chs (ReplaceQuotas uuid_Parse w ref set) s = Some (s', Ok out) →
  (∀ asked, validQuotaSet set = Ok asked → Forall storable asked) →
  mutate_prepared jsonb uuid_String commit' chs' (ReplaceQuotas uuid_Parse w' ref set) s' = Some (s'', r) →
  sw_db s'' = sw_db s'.
Proof.
  intros Hwf Hm Hst Hm'. unfold ReplaceQuotas in *. destruct (validQuotaSet set) as [asked|e] eqn:Ev; [|done].
  specialize (Hst asked eq_refl). pose proof (validQuotaSet_kinds _ _ Ev) as Hnd.
  destruct (mutate_Ok _ _ _ _ _ _ _ _ _ Hm (replace_wp w ref asked s Hwf Hnd)) as [(t & Hnames & Ht & _ & Hex) _].
  assert (Hwf' : accounts_wf (sw_db s')) by by eapply mutate_wf.
  pose proof (replace_again_wp w' ref asked s' t Hwf' Hnd Hst (names_same _ _ _ _ _ Ht Hnames) Hex) as Hwp.
  simpl in Hm'. unfold mutate in Hm'. destruct (run _ chs' _ s') as [[[s1 x] tr]|] eqn:Er; [|done].
  pose proof (wp_run _ (λ _, True) chs' _ _ s' _ _ _ ltac:(by apply Forall_true) Hwp Er) as Hsame. cbv beta in Hsame.
  destruct x as [x|e]; [destruct commit'|]; by simplify_eq.
Qed.
(** *** Asking for what is so already *)

Context (sha256 : bytes → bytes).

Inductive already (db : AccountDb) (w : Write) : ∀ A, prepared A → Prop :=
| a_CreateTenant i t :
    Sql_GetTenantByExternalID db (nt_ExternalID i) = Ok t → already db w _ (CreateTenant w i)
| a_UpdateTenant ref p t :
    names uuid_Parse db ref t → (∀ n, tp_Name p = Some n → n = ta_Name t) →
    (∀ m m', tp_Metadata p = Some m → metadataObject m = Ok m' → sameJSON (lit m') (lit (ta_Metadata t)) = true) →
    already db w _ (UpdateTenant uuid_Parse w ref p)
| a_DisableTenant ref t :
    names uuid_Parse db ref t → TenantAccount_Disabled t = true → already db w _ (Ok (DisableTenant uuid_Parse w ref))
| a_EnableTenant ref t :
    names uuid_Parse db ref t → TenantAccount_Disabled t = false → already db w _ (Ok (EnableTenant uuid_Parse w ref))
| a_UpdateAPIKey id p row :
    t_keys db !! id = Some row → ak_ModelAllowlist (kr_key row) = kp_ModelAllowlist p →
    already db w _ (UpdateAPIKey uuid_String w id p)
| a_RevokeAPIKey id row :
    t_keys db !! id = Some row → APIKey_Revoked (kr_key row) = true → already db w _ (Ok (RevokeAPIKey uuid_String w id))
| a_ReplaceQuotas ref set t rows :
    names uuid_Parse db ref t → rows ≡ₚ Sql_ListQuotas db (ta_ID t) → Forall2 says set rows →
    already db w _ (ReplaceQuotas uuid_Parse w ref set)
| a_PutQuota ref q t row :
    names uuid_Parse db ref t → t_quotas db !! (ta_ID t, q_WindowKind q) = Some row → says q row →
    already db w _ (PutQuota uuid_Parse w ref q)
| a_DeleteQuota ref kind t :
    names uuid_Parse db ref t → t_quotas db !! (ta_ID t, kind) = None →
    already db w _ (DeleteQuota uuid_Parse w ref kind).

(** The store is left as it is. *)
Definition untouched {A} (s : svc_world) (_ : result error A) (s' : svc_world) (_ : list svc_action) : Prop :=
  sw_db s' = sw_db s.

Lemma lockTenant_untouched {A} ref t (k : TenantAccount → svc (result error A)) s :
  accounts_wf (sw_db s) → names uuid_Parse (sw_db s) ref t →
  (∀ s1, sw_db s1 = sw_db s → wp perform (λ _, True) (k t) (λ r s' _, sw_db s' = sw_db s) s1) →
  wp perform (λ _, True) (try t <- lockTenant uuid_Parse ref; k t) (untouched s) s.
Proof.
  intros Hwf Hn Hk. apply wp_and_then, lockTenant_wp; [done| |done].
  intros t' s1 tr1 Hs1 _ Hn'. rewrite (names_unique _ _ _ _ _ Hn' Hn). by apply Hk.
Qed.

Lemma lockKey_untouched {A} id row (k : APIKey → svc (result error A)) s :
  t_keys (sw_db s) !! id = Some row →
  (∀ s1, sw_db s1 = sw_db s → wp perform (λ _, True) (k (kr_key row)) (λ r s' _, sw_db s' = sw_db s) s1) →
  wp perform (λ _, True) (try k' <- lockKey uuid_String id; k k') (untouched s) s.
Proof.
  intros Hrow Hk. apply wp_and_then, lockKey_wp; [|done].
  intros k' s1 tr1 Hs1 (row' & Hrow' & <-). replace row' with row by congruence. by apply Hk.
Qed.

Lemma create_existing db now t' t :
  Sql_GetTenantByExternalID db (ta_ExternalID t') = Ok t →
  (tenantRepo_Create jsonb db now t').1 = db ∧
  ∀ row created, (tenantRepo_Create jsonb db now t').2 = Ok (row, created) → created = false.
Proof.
  intros Ht. unfold tenantRepo_Create, Sql_CreateTenant. rewrite Ht. cbn [is_ok].
  repeat case_match; simplify_eq; (split; [done|]); by intros row created [= <- <-].
Qed.

Lemma already_untouched w A (p : prepared A) tx s :
  accounts_wf (sw_db s) → already (sw_db s) w A p → p = Ok tx → wp perform (λ _, True) tx (untouched s) s.
Proof.
  intros Hwf Ha Hp. destruct Ha as [i t Ht|ref p t Hn Hname Hmeta|ref t Hn Hd|ref t Hn Hd|id p row Hrow Hl|id row Hrow Hr
    |ref set t rows Hn Hrows Hsays|ref q t row Hn Hrow Hsays|ref kind t Hn Hnone].
  - assert (∃ m, tx = create_tenant_tx w i m) as [m ->].
    { unfold CreateTenant in Hp. repeat case_match; simplify_eq. eauto. }
    unfold create_tenant_tx. apply wp_and_then, (wp_reads _ _ _ (λ _, True)); [by apply only_bind|by apply returns_any|].
    intros [id|e] s1 tr1 Hs1 _; [|done]. apply wp_and_then. intros ch _. cbn [svc_perform fst snd].
    rewrite <- Hs1 in Ht. pose proof (create_existing (sw_db s1) (mo_now ch)
      (mkTenantAccount id (nt_ExternalID i) (nt_Name i) m zero_time None) t Ht) as [Hdb Hc].
    unfold executed. destruct (mo_fault ch); [|done..]. cbn [fst snd]. destruct (tenantRepo_Create _ _ _ _) as [db' [[row c]|e]];
      cbn [fst snd] in *; subst db'; [|done]. rewrite (Hc row c eq_refl). cbn [wp negb]. by case_match.
  - unfold UpdateTenant in Hp. assert (Hsame : ∀ p', tp_Name p' = tp_Name p →
      (∀ m, tp_Metadata p' = Some m → sameJSON (lit m) (lit (ta_Metadata t)) = true) →
      wp perform (λ _, True) (update_tenant_tx uuid_Parse w ref p') (untouched s) s).
    { intros p' En Hm. eapply lockTenant_untouched; [done..|]. intros s1 Hs1. cbv zeta.
      assert (Hn1 : match tp_Name p' with Some n => String.eqb n (ta_Name t) | None => true end = true).
      { rewrite En. destruct (tp_Name p) as [n|]; [|done]. by apply String.eqb_eq, Hname. }
      rewrite Hn1. destruct (tp_Metadata p') as [m|]; [rewrite Hm by done|]; exact Hs1. }
    repeat case_match; simplify_eq; apply Hsame; try done; intros m' Hm'; simplify_eq/=; eauto; congruence.
  - injection Hp as <-. eapply lockTenant_untouched; [done..|]. intros s1 Hs1. by rewrite Hd.
  - injection Hp as <-. eapply lockTenant_untouched; [done..|]. intros s1 Hs1. by rewrite Hd.
  - unfold UpdateAPIKey in Hp. destruct (validAllowlist _) as [l|e] eqn:Ev; simplify_eq.
    assert (l = kp_ModelAllowlist p) as -> by (unfold validAllowlist in Ev; repeat case_match; by simplify_eq).
    eapply lockKey_untouched; [done|]. intros s1 Hs1. destruct (APIKey_Revoked _); [done|].
    unfold sameAllowlist. by rewrite bool_decide_true.
  - injection Hp as <-. eapply lockKey_untouched; [done|]. intros s1 Hs1. by rewrite Hr.
  - unfold ReplaceQuotas in Hp. destruct (validQuotaSet set) as [asked|e] eqn:Ev; simplify_eq.
    eapply lockTenant_untouched; [done..|]. intros s1 Hs1. apply wp_and_then. intros ch _. simpl.
    match goal with |- match ?r with _ => _ end => destruct r as [current|e] eqn:Ea end; [|done].
    apply (answered_Ok ch s1) in Ea. simplify_eq. rewrite Hs1. unfold quotaRepo_List.
    by rewrite (says_sameQuotaSet _ _ _ _ _ Hwf Ev Hrows Hsays).
  - unfold PutQuota in Hp. destruct (validQuota q) as [a|e] eqn:Ev; simplify_eq.
    apply validQuota_normal in Ev. pose proof (normal_says _ _ _ Ev Hsays) as Hsl. destruct Ev as (Hk & _).
    eapply lockTenant_untouched; [done..|]. intros s1 Hs1 ch _. cbn [svc_perform fst snd]. unfold answered.
    destruct (mo_fault ch); [|done..]. rewrite Hs1. unfold quotaRepo_Get, Sql_GetQuota. rewrite Hk, Hrow. simpl. by rewrite Hsl.
  - unfold DeleteQuota in Hp. destruct (negb _); simplify_eq.
    eapply lockTenant_untouched; [done..|]. intros s1 Hs1. apply wp_and_then. intros ch _. cbn [svc_perform fst snd].
    unfold executed. destruct (mo_fault ch); [|done..]. rewrite Hs1. unfold quotaRepo_Delete, Sql_DeleteQuota. cbn [fst snd].
    rewrite Hnone, bool_decide_false by (by intros []). cbn. by rewrite delete_id, set_same_quotas.
Qed.

(** C25. A change to a tenant, its keys or its quotas is never made without its audit row: whichever
    calls of the store fail on the way, and whether the commit gets through, a mutation either
    leaves the whole store as it was or adds exactly one row to the audit log, signed by its actor.
    One that fails leaves it as it was unless only the answer to its commit was lost. And one that
    asks for what is so already, an existing tenant, the name, metadata, state, allowlist or
    quotas there are, a revoked key or a quota that is not there, writes nothing: no row either. *)
Theorem mutation_audited w A (p : prepared A) commit chs s s' r :
  mutation sha256 uuid_Parse uuid_String w A p →
  mutate_prepared jsonb uuid_String commit chs p s = Some (s', r) →
  (sw_db s' = sw_db s ∨
   ∃ e, t_audit (sw_db s') = t_audit (sw_db s) ++ [e] ∧ ae_Actor e = w_Actor w) ∧
  (is_ok r = false → commit ≠ Lost → sw_db s' = sw_db s) ∧
  (accounts_wf (sw_db s) → already (sw_db s) w A p → sw_db s' = sw_db s).
Proof.
  intros Hm Hrun. destruct (mutation_atomic _ _ _ _ _ _ _ _ _ _ _ _ Hm Hrun) as [H1 H2]. split_and!; [done|done|].
  intros Hwf Ha. destruct p as [tx|e]; simpl in Hrun; [|by simplify_eq].
  unfold mutate in Hrun. destruct (run _ chs tx s) as [[[s1 x] tr]|] eqn:Er; [|done].
  pose proof (wp_run _ (λ _, True) chs _ _ s _ _ _ ltac:(by apply Forall_true)
    (already_untouched w A _ tx s Hwf Ha eq_refl) Er) as Hsame. unfold untouched in Hsame.
  destruct x as [x|e]; [destruct commit|]; by simplify_eq.
Qed.
End Replace.

(** ** An example *)

Definition ex_quota (kind : WindowKind) (cost : USD) : Quota := mkQuota kind None None cost "" zero_time.
Definition ex_period (start : time) : Quota := mkQuota WindowPeriod (Some start) (Some (Second * 86400)) 500 "allow" zero_time.
Definition ex_set : list Quota := [ex_quota WindowDay 1000; ex_quota WindowMinute 10; ex_period Second].
Definition ex_replace (set : list Quota) : prepared (list Quota) := ReplaceQuotas ex_parse ex_write "acme" set.
Definition ex_limited : svc_world := ex_after 20 (ex_replace ex_set) ex_acme.
Lemma ex_replace_succeeds : ex_succeeds 20 (ex_replace ex_set) ex_acme = true.
Proof. by vm_compute. Qed.
Lemma ex_replace_again_succeeds : ex_succeeds 40 (ex_replace ex_set) ex_limited = true.
Proof. by vm_compute. Qed.

Lemma ex_set_storable asked : validQuotaSet ex_set = Ok asked → Forall storable asked.
Proof.
  intros Hv. vm_compute in Hv. injection Hv as <-. repeat constructor; by vm_compute.
Qed.

Lemma ReplaceQuotas_again_witness : sw_db (ex_after 40 (ex_replace ex_set) ex_limited) = sw_db ex_limited.
Proof.
  destruct (ex_succeeds_after _ _ _ ex_replace_succeeds) as [out Hout].
  destruct (ex_succeeds_after _ _ _ ex_replace_again_succeeds) as [out' Hout'].
  exact (ReplaceQuotas_again _ _ _ _ _ _ _ _ _ _ _ _ _ _ _ _ ex_acme_wf Hout ex_set_storable Hout').
Defined.

(** A tenant created, and created again. *)
Definition ex_again : option (svc_world * result error TenantCreated) := ex_mutate 30 ex_create ex_acme.
Definition ex_again_world : svc_world := match ex_again with Some (s', _) => s' | None => ex_before end.
Definition ex_again_answer : result error TenantCreated := match ex_again with Some (_, r) => r | None => Err pgx_ErrNoRows end.
Lemma ex_again_ran : ex_again = Some (ex_again_world, ex_again_answer).
Proof. by vm_compute. Qed.
Lemma ex_acme_created : ∃ r, ex_mutate 1 ex_create ex_before = Some (ex_acme, Ok r).
Proof. eexists. by vm_compute. Qed.
Lemma ex_acme_there : ∃ t, Sql_GetTenantByExternalID (sw_db ex_acme) "acme" = Ok t.
Proof. eexists. by vm_compute. Qed.

Lemma mutation_audited_witness :
  (∃ e, t_audit (sw_db ex_acme) = t_audit (sw_db ex_before) ++ [e] ∧ ae_Actor e = "ops") ∧
  is_ok ex_again_answer = true ∧ sw_db ex_again_world = sw_db ex_acme.
Proof.
  destruct ex_acme_created as [r Hr]. destruct ex_acme_there as [t Ht]. split_and!; [|by vm_compute|].
  - destruct (mutation_audited ex_parse ex_show ex_jsonb ex_sha ex_write _ _ _ _ _ _ _
      (m_CreateTenant _ _ _ _ _) Hr) as [[E|He] _]; [|exact He].
    exfalso. assert (Hn : length (t_audit (sw_db ex_acme)) = 1%nat) by by vm_compute. by rewrite E in Hn.
  - destruct (mutation_audited ex_parse ex_show ex_jsonb ex_sha ex_write _ _ _ _ _ _ _
      (m_CreateTenant _ _ _ _ _) ex_again_ran) as (_ & _ & Hsame).
    exact (Hsame ex_acme_wf (a_CreateTenant _ _ _ _ (mkNewTenant "acme" "Acme" "") t Ht)).
Defined.

(** A bound that is not a whole microsecond is stored rounded, so the set never is the one
    asked for again: reasserting it is a change each time. *)
Lemma finer_bounds_are_rewritten :
  let set := [ex_period (Second + 1)] in
  let s1 := ex_after 20 (ex_replace set) ex_acme in
  let s2 := ex_after 40 (ex_replace set) s1 in
  length (t_audit (sw_db s1)) = 2%nat ∧ length (t_audit (sw_db s2)) = 3%nat.
Proof. by vm_compute. Qed.
