(* ===== verification/TenantIds.v ===== *)
(** The tenant lookups of the record stores, [internal/adapters/repositories/tenants.go]: what
    a tenant is called and the id its records are kept under, remembered for the life of the
    process.

    The cache is only ever added to, so calls that interleave leave it as some order of them
    would; a call that finds nothing in it reads the database. *)
From Stdlib Require Import Ascii.
From stdpp Require Import gmap.
From S2P Require Import Prelude Errors Bytes Records Accounts AdminDb AccountStore ServiceKeys.

(** [src/internal/ports/store.go:15-18] ErrDecisionNotFound, ErrUnknownTenant *)
Definition ErrDecisionNotFound : error := Sentinel "store: decision not found".
Definition ErrUnknownTenant : error := Sentinel "store: unknown tenant".

(** [src/internal/adapters/repositories/tenants.go:20-26] TenantIDs *)
Record TenantIDs := mkTenantIDs { byTenant : gmap Tenant uuid; byID : gmap uuid Tenant }.
Definition NewTenantIDs : TenantIDs := mkTenantIDs ∅ ∅.

(** [src/internal/adapters/repositories/tenants.go:100-105] TenantIDs.put *)
Definition TenantIDs_put (c : TenantIDs) (tenant : Tenant) (id : uuid) : TenantIDs :=
  mkTenantIDs (<[tenant := id]> (byTenant c)) (<[id := tenant]> (byID c)).

Section Lookups.
Context (uuid_Parse : string → result error uuid) (uuid_String : uuid → string).
(** Whether the query fails. *)
Implicit Types (fault : option error).

(** [src/internal/adapters/repositories/tenants.go:36-51] TenantIDs.Lookup *)
Definition TenantIDs_Lookup (db : AccountDb) fault (c : TenantIDs) (tenant : Tenant)
    : TenantIDs * result error uuid :=
  match byTenant c !! tenant with
  | Some id => (c, Ok id)
  | None =>
      match match fault with Some e => Err e | None => Sql_GetTenantByExternalID db tenant end with
      | Ok row => (TenantIDs_put c tenant (ta_ID row), Ok (ta_ID row))
      | Err err =>
          (c, Err (if Is err pgx_ErrNoRows then Errorf "%w: %s" [AWrap ErrUnknownTenant; AStr tenant]
                   else Errorf "postgres: lookup tenant %s: %w" [AStr tenant; AWrap err]))
      end
  end.

(** [src/internal/adapters/repositories/tenants.go:73-91] TenantIDs.Name *)
Definition TenantIDs_Name (db : AccountDb) fault (c : TenantIDs) (id : uuid)
    : TenantIDs * result error Tenant :=
  match byID c !! id with
  | Some name => (c, Ok name)
  | None =>
      match match fault with Some e => Err e | None => Sql_GetTenant db id end with
      | Ok row => (TenantIDs_put c (ta_ExternalID row) (ta_ID row), Ok (ta_ExternalID row))
      | Err err =>
          (c, Err (if Is err pgx_ErrNoRows
                   then Errorf "%w: %s" [AWrap ErrUnknownTenant; AStr (uuid_String id)]
                   else Errorf "postgres: lookup tenant %s: %w" [AStr (uuid_String id); AWrap err]))
      end
  end.

(** [src/internal/adapters/repositories/tenants.go:53-71] TenantIDs.Resolve *)
Definition TenantIDs_Resolve (db : AccountDb) (fault1 fault2 : option error) (c : TenantIDs) (ref : string)
    : TenantIDs * result error Tenant :=
  let by_name c :=
    match TenantIDs_Lookup db fault2 c ref with
    | (c, Ok _) => (c, Ok ref)
    | (c, Err err) => (c, Err err)
    end in
  match uuid_Parse ref with
  | Ok id =>
      match TenantIDs_Name db fault1 c id with
      | (c, Ok name) => (c, Ok name)
      | (c, Err err) => if Is err ErrUnknownTenant then by_name c else (c, Err err)
      end
  | Err _ => by_name c
  end.

(** ** The cache never lies *)

Definition same_tenant (db : AccountDb) (tenant : Tenant) (id : uuid) : Prop :=
  ∃ t, t_tenants db !! id = Some t ∧ ta_ExternalID t = tenant.

(** All it remembers is so. *)
Definition cache_ok (db : AccountDb) (c : TenantIDs) : Prop :=
  (∀ tenant id, byTenant c !! tenant = Some id → same_tenant db tenant id) ∧
  (∀ id tenant, byID c !! id = Some tenant → same_tenant db tenant id).

Lemma NewTenantIDs_ok db : cache_ok db NewTenantIDs.
Proof. split; intros ? ?; simpl; by rewrite lookup_empty. Qed.

(** Tenants keep their id and their external id, so what is remembered stays so. *)
Lemma same_tenant_step db db' tenant id :
  account_step db db' → accounts_wf db → same_tenant db tenant id → same_tenant db' tenant id.
Proof.
  intros Hs Hwf (t & Ht & He). unfold same_tenant.
  destruct Hs as [db' -> _ _|new Hn _|i old new Hold Hid Hext|k|i k k'|ten q|qs]; simpl; eauto.
  - rewrite lookup_insert_ne; [eauto|]. intros <-. congruence.
  - pose proof (aw_tenant _ Hwf _ _ Hold) as Hi. rewrite Hid, Hi.
    destruct (decide (i = id)) as [->|Hne]; [rewrite lookup_insert_eq|rewrite lookup_insert_ne by done; eauto].
    eexists. split; [done|]. congruence.
Qed.

Lemma cache_step db db' c : account_step db db' → accounts_wf db → cache_ok db c → cache_ok db' c.
Proof. intros Hs Hwf [H1 H2]. split; intros; eapply same_tenant_step; eauto. Qed.

Lemma put_ok db c tenant id : cache_ok db c → same_tenant db tenant id → cache_ok db (TenantIDs_put c tenant id).
Proof.
  intros [H1 H2] Hs. split; intros x y; simpl; rewrite lookup_insert_Some; intros [[<- <-]|[_ ?]]; auto.
Qed.

Lemma GetTenantByExternalID_Ok db tenant t :
  accounts_wf db → Sql_GetTenantByExternalID db tenant = Ok t ↔
  t_tenants db !! ta_ID t = Some t ∧ ta_ExternalID t = tenant.
Proof.
  intros Hwf. unfold Sql_GetTenantByExternalID. split.
  - destruct (List.find _ _) as [t'|] eqn:Ef; [|done]. intros [= <-].
    apply find_row_Some in Ef as [He [id Hid]]. apply String.eqb_eq in He.
    by rewrite (aw_tenant _ Hwf _ _ Hid).
  - intros [Ht He]. destruct (List.find _ _) as [t'|] eqn:Ef.
    + apply find_row_Some in Ef as [He' [id Hid]]. apply String.eqb_eq in He'. f_equal.
      assert (id = ta_ID t) by (eapply (aw_external _ Hwf); eauto; congruence). congruence.
    + pose proof (find_row_None _ _ _ _ Ef Ht) as Hf. apply String.eqb_neq in Hf. done.
Qed.

Lemma no_rows_unknown what e : Is e pgx_ErrNoRows = false → Is e ErrUnknownTenant = false →
  Is (Errorf "postgres: lookup tenant %s: %w" [AStr what; AWrap e]) ErrUnknownTenant = false.
Proof. intros _ He. unfold Is in *. simpl in *. by rewrite He. Qed.

(** ** What a lookup answers *)

Section Answers.
Context (db : AccountDb) (Hwf : accounts_wf db).

Lemma same_tenant_id tenant id id' : same_tenant db tenant id → same_tenant db tenant id' → id = id'.
Proof. intros (t & Ht & He) (t' & Ht' & He'). eapply (aw_external _ Hwf); eauto. congruence. Qed.

Lemma Lookup_answer fault c tenant c' r :
  cache_ok db c → TenantIDs_Lookup db fault c tenant = (c', r) →
  cache_ok db c' ∧
  match r with
  | Ok id => same_tenant db tenant id
  | Err e => match fault with
             | None => Is e ErrUnknownTenant = true ∧ ∀ id, ¬ same_tenant db tenant id
             | Some f => Is f pgx_ErrNoRows = false → Is f ErrUnknownTenant = false → Is e ErrUnknownTenant = false
             end
  end.
Proof.
  intros Hc Hl. unfold TenantIDs_Lookup in Hl. destruct (byTenant c !! tenant) as [id|] eqn:Ec.
  { simplify_eq. split; [done|]. by apply (proj1 Hc). }
  destruct fault as [f|].
  { simplify_eq. split; [done|]. intros Hf Hu. rewrite Hf. by apply no_rows_unknown. }
  destruct (Sql_GetTenantByExternalID db tenant) as [t|e] eqn:Eg; simplify_eq.
  - apply GetTenantByExternalID_Ok in Eg as [Ht He]; [|done].
    assert (Hs : same_tenant db tenant (ta_ID t)) by by exists t. split; [by apply put_ok|done].
  - split; [done|]. unfold Sql_GetTenantByExternalID in Eg. destruct (List.find _ _) eqn:Ef; [done|]. simplify_eq.
    split; [done|]. intros id (t & Ht & He). pose proof (find_row_None _ _ _ _ Ef Ht) as Hf.
    by apply String.eqb_neq in Hf.
Qed.

Lemma Name_answer fault c id c' r :
  cache_ok db c → TenantIDs_Name db fault c id = (c', r) →
  cache_ok db c' ∧
  match r with
  | Ok tenant => same_tenant db tenant id
  | Err e => match fault with
             | None => Is e ErrUnknownTenant = true ∧ t_tenants db !! id = None
             | Some f => Is f pgx_ErrNoRows = false → Is f ErrUnknownTenant = false → Is e ErrUnknownTenant = false
             end
  end.
Proof.
  intros Hc Hl. unfold TenantIDs_Name in Hl. destruct (byID c !! id) as [tenant|] eqn:Ec.
  { simplify_eq. split; [done|]. by apply (proj2 Hc). }
  destruct fault as [f|].
  { simplify_eq. split; [done|]. intros Hf Hu. rewrite Hf. by apply no_rows_unknown. }
  unfold Sql_GetTenant in Hl. destruct (t_tenants db !! id) as [t|] eqn:Et; simplify_eq.
  - pose proof (aw_tenant _ Hwf _ _ Et) as Hid. assert (Hs : same_tenant db (ta_ExternalID t) id) by by exists t.
    split; [|done]. apply put_ok; [done|]. by rewrite Hid.
  - done.
Qed.
End Answers.
End Lookups.

(** What the record stores call a tenant agrees with how the admin API reads the same
    reference, an id first and then an external id, however long ago the answer was cached and
    whatever the admin API has done to the tables since: the answer is the tenant's external id
    when there is one, and that there is none otherwise. *)
Theorem Resolve_agrees uuid_Parse uuid_String db0 db c ref c' r :
  accounts_wf db0 → cache_ok db0 c → rtc account_step db0 db →
  TenantIDs_Resolve uuid_Parse uuid_String db None None c ref = (c', r) →
  cache_ok db c' ∧
  match r with
  | Ok name => ∃ t, names uuid_Parse db ref t ∧ ta_ExternalID t = name
  | Err e => Is e ErrUnknownTenant = true ∧ ∀ t, ¬ names uuid_Parse db ref t
  end.
Proof.
  intros Hwf0 Hc0 Hsteps.
  assert (accounts_wf db ∧ cache_ok db c) as [Hwf Hc].
  { clear ref c' r. induction Hsteps as [db|db1 db2 db3 Hs _ IH]; [done|].
    apply IH; [by eapply account_step_wf|by eapply cache_step]. }
  clear Hwf0 Hc0 Hsteps db0. unfold TenantIDs_Resolve, names.
  assert (Hby : ∀ c c' r, cache_ok db c →
    match TenantIDs_Lookup db None c ref with (c, Ok _) => (c, Ok ref) | (c, Err err) => (c, Err err) end = (c', r) →
    cache_ok db c' ∧ match r with
                     | Ok name => ∃ t, Sql_GetTenantByExternalID db ref = Ok t ∧ ta_ExternalID t = name
                     | Err e => Is e ErrUnknownTenant = true ∧ ∀ t, Sql_GetTenantByExternalID db ref ≠ Ok t
                     end).
  { clear c c' r Hc. intros c c' r Hc Hl. destruct (TenantIDs_Lookup _ _ _ _) as [c1 r1] eqn:El.
    destruct (Lookup_answer db Hwf None c ref c1 r1 Hc El) as [Hc1 Hr1].
    destruct r1 as [id|e]; simplify_eq; (split; [done|]).
    - destruct Hr1 as (t & Ht & He). exists t. split; [|done]. apply GetTenantByExternalID_Ok; [done|].
      by rewrite (aw_tenant _ Hwf _ _ Ht).
    - destruct Hr1 as [Hu Hn]. split; [done|]. intros t Ht. apply GetTenantByExternalID_Ok in Ht as [Ht He]; [|done].
      apply (Hn (ta_ID t)). by exists t. }
  destruct (uuid_Parse ref) as [id|]; [|by apply Hby].
  destruct (TenantIDs_Name _ _ _ _ _) as [c1 r1] eqn:En.
  destruct (Name_answer uuid_String db Hwf None c id c1 r1 Hc En) as [Hc1 Hr1]. destruct r1 as [name|e].
  - intros [= <- <-]. split; [done|]. destruct Hr1 as (t & Ht & He). exists t. by rewrite Ht.
  - destruct Hr1 as [-> ->]. by apply Hby.
Qed.

(** ** An example *)

Definition ex_tenant : TenantAccount := mkTenantAccount 7%N "acme" "Acme" "{}" 0 None.
Definition ex_tenants : AccountDb := put_tenant no_accounts ex_tenant.
Definition ex_parse_id (s : string) : result error uuid :=
  if String.eqb s "id-7" then Ok 7%N else Err (Sentinel "invalid UUID").
Lemma ex_tenants_wf : accounts_wf ex_tenants.
Proof. apply new_tenant_wf; [done|done|apply no_accounts_wf]. Qed.
(** Since the first lookup the tenant was disabled. *)
Definition ex_tenants_later : AccountDb := put_tenant ex_tenants (disabled_at (Some 5) ex_tenant).

Lemma Resolve_agrees_witness :
  cache_ok ex_tenants_later (mkTenantIDs {["acme" := 7%N]} {[7%N := "acme"]}) ∧
  ∃ t, names ex_parse_id ex_tenants_later "id-7" t ∧ ta_ExternalID t = "acme".
Proof.
  refine (Resolve_agrees ex_parse_id (λ _, "id-7") ex_tenants ex_tenants_later
            (mkTenantIDs {["acme" := 7%N]} {[7%N := "acme"]}) "id-7" _ (Ok "acme") ex_tenants_wf _ _ _).
  - apply (put_ok ex_tenants NewTenantIDs); [apply NewTenantIDs_ok|]. by exists ex_tenant.
  - apply rtc_once. by apply (as_tenant _ 7%N ex_tenant).
  - by vm_compute.
Defined.
