(* ===== verification/Ledger.v ===== *)
(** The record tables, [usage_ledger] and [audit_log], and the two stores over them:
    [internal/adapters/repositories/records.go] writes what the gateway decided in batches,
    [observability.go] puts one decision together again.

    JSON columns hold the value their text encodes: [encoding/json] writes the replacement
    character for every byte that is not part of a character, and [jsonb] refuses NUL. *)
From Stdlib Require Import Ascii.
From stdpp Require Import gmap.
From S2P Require Import Prelude Sorting Calendar Errors Env Bytes Utf8 Money Records Sink Accounts AdminDb AccountStore TenantIds.

(** ** Values of the columns *)

(** An [integer] of 32 bits: Go's conversion keeps the low bits. *)
Definition int32 (z : Z) : Z := (z + 2 ^ 31) mod 2 ^ 32 - 2 ^ 31.

(** A string as it comes back from JSON. *)
Fixpoint valid_runes (fuel : nat) (b : bytes) : bytes :=
  match fuel, b with
  | S fuel, _ :: _ =>
      match rune_width b with
      | Some n => take n b ++ valid_runes fuel (drop n b)
      | None => replacement ++ valid_runes fuel (drop 1 b)
      end
  | _, _ => []
  end.
Definition json_text (s : string) : string := str (valid_runes (length (lit s)) (lit s)).
Definition without_NUL (s : string) : bool := negb (bool_decide ("000"%char ∈ lit s)).

(** Members are written in the order of their keys, and the last of a repeated key stays. *)
Definition json_members (m : gmap string string) : list (string * string) :=
  map (λ k, (json_text k, json_text (default "" (m !! k)))) (sort_strings (map_to_list m).*1).
Definition json_map (m : gmap string string) : gmap string string := list_to_map (reverse (json_members m)).
Definition json_target (t : TargetRef) : TargetRef :=
  mkTargetRef (json_text (ref_Name t)) (json_text (ref_Provider t)) (json_text (ref_UpstreamModel t))
    (json_text (ref_Region t)).
Definition json_counterfactual (c : Counterfactual) : Counterfactual :=
  mkCounterfactual (json_text (cf_Target c)) (cf_Cost c).

Definition target_strings (t : TargetRef) : list string :=
  [ref_Name t; ref_Provider t; ref_UpstreamModel t; ref_Region t].

(** The column [request_id] is never written.

    [src/db/gen/models.go:278-307] UsageLedger *)
Record ledger_row := mkLedgerRow {
  l_ID : uuid;
  l_StartedAt : time;
  l_TenantID : uuid;
  l_KeyID : option uuid;
  l_RequestedModel : string;
  l_ChosenTarget : option string;
  l_Status : string;
  l_InputTokens : Z;
  l_OutputTokens : Z;
  l_CacheReadTokens : Z;
  l_CacheWriteTokens : Z;
  l_ReasoningTokens : Z;
  l_CostNanos : option Z;
  l_TokenSource : string;
  l_PricingVersion : option string;
  l_Billable : bool;
  l_TtftMs : option Z;
  l_TotalMs : option Z;
  l_Metadata : gmap string string;
  l_Counterfactuals : list Counterfactual;
}.

(** [src/db/gen/models.go:218-240] AuditLog *)
Record audit_log := mkAuditLog {
  al_ID : uuid;
  al_Ts : time;
  al_TenantID : option uuid;
  al_KeyID : option uuid;
  al_Actor : string;
  al_Action : string;
  al_RequestID : option string;
  al_ReasonKind : option string;
  al_ReasonDetail : option string;
  al_PolicyVersion : option Z;
  al_Ladder : list TargetRef;
  al_LadderAttempts : list Attempt;
  al_FinalTarget : option string;
  al_StatusCode : option Z;
  al_Error : option string;
}.

(** [r_partition] says for which times the tables have a partition. *)
Record RecordDb := mkRecordDb {
  r_ledger : list ledger_row;
  r_audit : list audit_log;
  r_partition : time → bool;
}.

(** ** What a decision is written as *)

(** [src/internal/adapters/repositories/records.go:196-201] optional *)
Definition optional (s : string) : option string := if String.eqb s "" then None else Some s.
(** [src/internal/adapters/repositories/records.go:205-210] optionalUUID *)
Definition optionalUUID (id : uuid) : option uuid := if N.eqb id uuid_Nil then None else Some id.
(** [src/internal/adapters/repositories/records.go:212-218] optionalInt *)
Definition optionalInt (n : Z) : option Z := if n =? 0 then None else Some (int32 n).

(** [src/internal/adapters/repositories/records.go:183-192] reasonDetail *)
Definition reasonDetail (r : Reason) : string :=
  if String.eqb (reason_Kind r) ReasonModelAlias then reason_ModelAlias r
  else if String.eqb (reason_Kind r) ReasonRuleMatch then reason_RuleName r
  else "".

(** [src/internal/adapters/repositories/records.go:16-21] gatewayActor, routeAction, billableByDefault *)
Definition gatewayActor : string := "gateway".
Definition routeAction : string := "route_request".
Definition billableByDefault : bool := true.

Section Records.
(** How the runtime renders an error text and an id. *)
Context (render : text → string) (uuid_String : uuid → string).

(** [src/internal/adapters/repositories/records.go:172-181] lastFailure *)
Definition lastFailure (o : Outcome) : string :=
  match last (out_Attempts o) with
  | Some a => match at_Failure a with Some f => render (af_Message f) | None => "" end
  | None => ""
  end.

(** An attempt as it comes back from JSON; times keep their nanoseconds there. *)
Definition json_attempt (a : Attempt) : Attempt :=
  mkAttempt (json_text (at_Target a)) (at_StartedAt a) (at_DurationMs a)
    ((λ f, mkAttemptFailure (json_text (af_Kind f)) (af_StatusCode f) (TLit (json_text (render (af_Message f))))
             (af_Retryable f)) <$> at_Failure a).
(** The strings of such an attempt; its message is literal. *)
Definition attempt_strings (a : Attempt) : list string :=
  at_Target a ::
  match at_Failure a with
  | Some f => [af_Kind f; match af_Message f with TLit s => s | _ => "" end]
  | None => []
  end.

(** [src/internal/adapters/repositories/records.go:90-134] ledgerRow *)
Definition ledgerRow (d : RoutingDecision) (tenantID : uuid) : ledger_row :=
  mkLedgerRow (d_ID d) (d_OccurredAt d) tenantID (optionalUUID (d_KeyID d))
    (rs_RequestedModel (d_Request d)) (optional (ChosenTarget (d_Outcome d))) (out_Status (d_Outcome d))
    (int32 (Input (out_Usage (d_Outcome d)))) (int32 (Output (out_Usage (d_Outcome d))))
    (int32 (CacheRead (out_Usage (d_Outcome d)))) (int32 (CacheWrite (out_Usage (d_Outcome d))))
    (int32 (Reasoning (out_Usage (d_Outcome d))))
    (Actual <$> d_Cost d) "provider" (PriceTableVersion <$> d_Cost d) billableByDefault
    (optionalInt (out_TTFTMs (d_Outcome d))) (optionalInt (out_TotalMs (d_Outcome d)))
    (json_map (rs_Metadata (d_Request d)))
    match d_Cost d with Some c => map json_counterfactual (Counterfactuals c) | None => [] end.

(** A time JSON can write. *)
Definition json_time (t : time) : bool := (0 <=? Year t) && (Year t <=? 9999).

(** [src/internal/adapters/repositories/records.go:136-168] auditRow *)
Definition auditRow (d : RoutingDecision) (tenantID : uuid) : result error audit_log :=
  if negb (forallb (λ a, json_time (at_StartedAt a)) (out_Attempts (d_Outcome d)))
  then Err (Errorf "json: error calling MarshalJSON for type time.Time" [])
  else
    let reason := ladder_Reason (d_Ladder d) in
    Ok (mkAuditLog (d_ID d) (d_OccurredAt d) (Some tenantID) (optionalUUID (d_KeyID d))
          gatewayActor routeAction (optional (DecisionID_String uuid_String (d_ID d)))
          (optional (reason_Kind reason)) (optional (reasonDetail reason))
          (if 0 <? reason_PolicyVersion reason then Some (int32 (reason_PolicyVersion reason)) else None)
          (map json_target (ladder_Targets (d_Ladder d)))
          (map json_attempt (out_Attempts (d_Outcome d)))
          (optional (ChosenTarget (d_Outcome d))) None (optional (lastFailure (d_Outcome d)))).

(** ** The tables *)

Definition opt_text (s : option string) : bool := match s with Some s => pg_text s | None => true end.

(** What [usage_ledger] accepts, JSON aside. *)
Definition ledger_text (r : ledger_row) : bool :=
  pg_text (l_RequestedModel r) && opt_text (l_ChosenTarget r) && pg_text (l_Status r) &&
  opt_text (l_PricingVersion r).
(** [src/db/migrations/0004_usage_ledger.sql:33-36] usage_ledger_tokens_non_negative *)
Definition ledger_check (r : ledger_row) : bool :=
  (0 <=? l_InputTokens r) && (0 <=? l_OutputTokens r) && (0 <=? l_CacheReadTokens r) &&
  (0 <=? l_CacheWriteTokens r) && (0 <=? l_ReasoningTokens r).
Definition ledger_json (r : ledger_row) : bool :=
  forallb (λ kv, without_NUL kv.1 && without_NUL kv.2) (map_to_list (l_Metadata r)) &&
  forallb (λ c, without_NUL (cf_Target c)) (l_Counterfactuals r).

Definition audit_text (r : audit_log) : bool :=
  opt_text (al_RequestID r) && opt_text (al_ReasonKind r) && opt_text (al_ReasonDetail r) &&
  opt_text (al_FinalTarget r) && opt_text (al_Error r).
Definition audit_json (r : audit_log) : bool :=
  forallb without_NUL (concat (map target_strings (al_Ladder r)) ++ concat (map attempt_strings (al_LadderAttempts r))).

Definition no_partition (table : string) : error := Errorf "ERROR: no partition of relation %q found for row" [AStr table].

Definition stored_ledger (r : ledger_row) : ledger_row :=
  mkLedgerRow (l_ID r) (pg_time (l_StartedAt r)) (l_TenantID r) (l_KeyID r) (l_RequestedModel r)
    (l_ChosenTarget r) (l_Status r) (l_InputTokens r) (l_OutputTokens r) (l_CacheReadTokens r)
    (l_CacheWriteTokens r) (l_ReasoningTokens r) (l_CostNanos r) (l_TokenSource r) (l_PricingVersion r)
    (l_Billable r) (l_TtftMs r) (l_TotalMs r) (l_Metadata r) (l_Counterfactuals r).
Definition stored_audit (r : audit_log) : audit_log :=
  mkAuditLog (al_ID r) (pg_time (al_Ts r)) (al_TenantID r) (al_KeyID r) (al_Actor r) (al_Action r)
    (al_RequestID r) (al_ReasonKind r) (al_ReasonDetail r) (al_PolicyVersion r) (al_Ladder r)
    (al_LadderAttempts r) (al_FinalTarget r) (al_StatusCode r) (al_Error r).

(** One row of a copy. *)
Definition put_ledger (db : RecordDb) (r : ledger_row) : result error RecordDb :=
  if negb (ledger_text r) then Err encoding_error
  else if negb (ledger_json r) then Err json_error
  else if negb (r_partition db (pg_time (l_StartedAt r))) then Err (no_partition "usage_ledger")
  else if negb (ledger_check r) then Err (constraint_violation "usage_ledger_tokens_non_negative")
  else if existsb (λ o, N.eqb (l_ID o) (l_ID r) && (l_StartedAt o =? pg_time (l_StartedAt r))) (r_ledger db)
  then Err (constraint_violation "usage_ledger_pkey")
  else Ok (mkRecordDb (r_ledger db ++ [stored_ledger r]) (r_audit db) (r_partition db)).

Definition put_audit (db : RecordDb) (r : audit_log) : result error RecordDb :=
  if negb (audit_text r) then Err encoding_error
  else if negb (audit_json r) then Err json_error
  else if negb (r_partition db (pg_time (al_Ts r))) then Err (no_partition "audit_log")
  else if existsb (λ o, N.eqb (al_ID o) (al_ID r) && (al_Ts o =? pg_time (al_Ts r))) (r_audit db)
  then Err (constraint_violation "audit_log_pkey")
  else Ok (mkRecordDb (r_ledger db) (r_audit db ++ [stored_audit r]) (r_partition db)).

Fixpoint copy {R} (put : RecordDb → R → result error RecordDb) (db : RecordDb) (rows : list R) : result error RecordDb :=
  match rows with
  | [] => Ok db
  | r :: rows => let! db := put db r in copy put db rows
  end.

(** What the driver reads the rows of a copy from. The generated iterators of the two tables
    differ only in the type of a row. *)
Section Iterator.
Context {R : Type}.

(** [src/db/gen/copyfrom.go:58-62] iteratorForInsertUsageLedger *)
Record iterator := mkIterator { it_rows : list R; it_skippedFirstNextCall : bool }.

(** [src/db/gen/copyfrom.go:64-74] iteratorForInsertUsageLedger.Next *)
Definition iterator_Next (it : iterator) : iterator * bool :=
  match it_rows it with
  | [] => (it, false)
  | _ :: rest =>
      if negb (it_skippedFirstNextCall it) then (mkIterator (it_rows it) true, true)
      else (mkIterator rest true, negb (Nat.eqb (length rest) 0))
  end.

(** The row in front: there is one after [iterator_Next] has said so.

    [src/db/gen/copyfrom.go:76-100] iteratorForInsertUsageLedger.Values *)
Definition iterator_Values (it : iterator) : option R := head (it_rows it).

(** The driver asks for a next row until there is none, and each time for its values; [fuel]
    bounds the calls of [Next]. *)
Fixpoint drain_rows (fuel : nat) (it : iterator) : option (list R) :=
  match fuel with
  | O => None
  | S fuel =>
      match iterator_Next it with
      | (it, true) =>
          match iterator_Values it, drain_rows fuel it with
          | Some r, Some rs => Some (r :: rs)
          | _, _ => None
          end
      | (_, false) => Some []
      end
  end.
Definition copied (rows : list R) : list R :=
  default [] (drain_rows (S (length rows)) (mkIterator rows false)).

(** Every row, once and in order. *)
Lemma copied_all rows : copied rows = rows.
Proof.
  assert (Hgo : ∀ r rs, drain_rows (S (length rs)) (mkIterator (r :: rs) true) = Some rs).
  { intros r rs. revert r. induction rs as [|r' rs IH]; intros r; [done|].
    change (length (r' :: rs)) with (S (length rs)).
    remember (S (length rs)) as fuel. cbn [drain_rows iterator_Next it_rows it_skippedFirstNextCall negb length Nat.eqb iterator_Values head].
    by rewrite IH. }
  destruct rows as [|r rows]; [done|]. unfold copied. cbn [length].
  remember (S (length rows)) as fuel eqn:Ef. cbn [drain_rows iterator_Next it_rows it_skippedFirstNextCall negb iterator_Values head].
  by rewrite Ef, Hgo.
Qed.
End Iterator.
Arguments iterator : clear implicits.

(** [src/db/gen/copyfrom.go:106-108] InsertUsageLedger *)
Definition InsertUsageLedger (db : RecordDb) (arg : list ledger_row) : result error RecordDb :=
  copy put_ledger db (copied arg).
(** [src/db/gen/copyfrom.go:12-56] InsertAuditLog *)
Definition InsertAuditLog (db : RecordDb) (arg : list audit_log) : result error RecordDb :=
  copy put_audit db (copied arg).

(** ** Writing *)

(** What becomes of the calls of a transaction: all done, or which one failed; the answer to
    a commit can be lost. *)
Inductive tx_fault := TxFine | TxBegin | TxLedger | TxAudit | TxCommit (applied : bool).

(** The rows of a batch. [lookup] says which tenant queries fail. *)
Fixpoint batch_rows (adb : AccountDb) (lookup : Tenant → option error) (c : TenantIDs) (batch : list RoutingDecision)
    : TenantIDs * result error (list ledger_row * list audit_log) :=
  match batch with
  | [] => (c, Ok ([], []))
  | d :: batch =>
      match TenantIDs_Lookup adb (lookup (d_Tenant d)) c (d_Tenant d) with
      | (c, Err err) => (c, Err err)
      | (c, Ok tenantID) =>
          match auditRow d tenantID with
          | Err err => (c, Err (Errorf "postgres: encode audit %s: %w"
                                  [AStr (DecisionID_String uuid_String (d_ID d)); AWrap err]))
          | Ok a =>
              match batch_rows adb lookup c batch with
              | (c, Err err) => (c, Err err)
              | (c, Ok (ls, audits)) => (c, Ok (ledgerRow d tenantID :: ls, a :: audits))
              end
          end
      end
  end.

(** The transaction. *)
Definition write_rows (tx : tx_fault) (db : RecordDb) (n : Z) (ledger : list ledger_row) (audits : list audit_log)
    : RecordDb * option error :=
  match tx with
  | TxBegin => (db, Some (Errorf "postgres: begin: %w" [AWrap ErrDatabase]))
  | _ =>
      match match tx with TxLedger => Err ErrDatabase | _ => InsertUsageLedger db ledger end with
      | Err err => (db, Some (Errorf "postgres: copy %d ledger rows: %w" [AInt n; AWrap err]))
      | Ok db1 =>
          match match tx with TxAudit => Err ErrDatabase | _ => InsertAuditLog db1 audits end with
          | Err err => (db, Some (Errorf "postgres: copy %d audit rows: %w" [AInt n; AWrap err]))
          | Ok db2 =>
              match tx with
              | TxCommit applied =>
                  (if applied then db2 else db, Some (Errorf "postgres: commit %d rows: %w" [AInt n; AWrap ErrDatabase]))
              | _ => (db2, None)
              end
          end
      end
  end.

(** [src/internal/adapters/repositories/records.go:39-88] RecordWriter.Write *)
Definition RecordWriter_Write (adb : AccountDb) (lookup : Tenant → option error) (tx : tx_fault) (c : TenantIDs)
    (db : RecordDb) (batch : list RoutingDecision) : TenantIDs * RecordDb * option error :=
  match batch with
  | [] => (c, db, None)
  | _ =>
      match batch_rows adb lookup c batch with
      | (c, Err err) => (c, db, Some err)
      | (c, Ok (ledger, audits)) =>
          let '(db, err) := write_rows tx db (Z.of_nat (length batch)) ledger audits in (c, db, err)
      end
  end.

(** ** Reading one back *)

(** [src/db/gen/usage_ledger.sql.go:219-255] GetUsageLedgerEntry *)
Definition GetUsageLedgerEntry (db : RecordDb) (id : uuid) : result error ledger_row :=
  match List.find (λ r, N.eqb (l_ID r) id) (r_ledger db) with Some r => Ok r | None => Err pgx_ErrNoRows end.
(** [src/db/gen/audit_log.sql.go:78-103] GetAuditEntry *)
Definition GetAuditEntry (db : RecordDb) (id : uuid) : result error audit_log :=
  match List.find (λ r, N.eqb (al_ID r) id) (r_audit db) with Some r => Ok r | None => Err pgx_ErrNoRows end.

(** [src/internal/adapters/repositories/observability.go:305-310] derefInt *)
Definition derefInt (p : option Z) : Z := default 0 p.

(** [src/internal/adapters/repositories/observability.go:130-150] hydrateLadder *)
Definition hydrateLadder (audit : audit_log) : Ladder * list Attempt :=
  let kind := default "" (al_ReasonKind audit) in
  let detail := default "" (al_ReasonDetail audit) in
  (mkLadder (al_Ladder audit)
     (mkReason kind
        (if String.eqb kind ReasonModelAlias then detail else "")
        (if String.eqb kind ReasonRuleMatch then detail else "")
        (derefInt (al_PolicyVersion audit))),
   al_LadderAttempts audit).

(** What the ledger's row alone says of a decision. *)
Definition ledger_decision (id : DecisionID) (tenant : Tenant) (entry : ledger_row) : RoutingDecision :=
  mkRoutingDecision id (l_StartedAt entry) tenant uuid_Nil
    (mkRequestSummary (l_RequestedModel entry) false false (l_Metadata entry))
    (mkLadder [] (mkReason "" "" "" 0))
    (mkOutcome (l_Status entry) []
       (mkTokenUsage (l_InputTokens entry) (l_OutputTokens entry) (l_CacheWriteTokens entry)
          (l_CacheReadTokens entry) (l_ReasoningTokens entry))
       (derefInt (l_TtftMs entry)) (derefInt (l_TotalMs entry)))
    ((λ n, mkCostBreakdown n (default "" (l_PricingVersion entry)) (l_Counterfactuals entry) []) <$> l_CostNanos entry).

Definition with_ladder (d : RoutingDecision) (l : Ladder) (attempts : list Attempt) : RoutingDecision :=
  mkRoutingDecision (d_ID d) (d_OccurredAt d) (d_Tenant d) (d_KeyID d) (d_Request d) l
    (mkOutcome (out_Status (d_Outcome d)) attempts (out_Usage (d_Outcome d)) (out_TTFTMs (d_Outcome d))
       (out_TotalMs (d_Outcome d)))
    (d_Cost d).

(** [f1], [f2] and [f3] are failures of its queries.

    [src/internal/adapters/repositories/observability.go:65-128] ObservabilityRepo.Get *)
Definition Observability_Get (adb : AccountDb) (f1 f2 f3 : option error) (c : TenantIDs) (db : RecordDb) (id : DecisionID)
    : TenantIDs * result error RoutingDecision :=
  let id_text := DecisionID_String uuid_String id in
  match match f1 with Some e => Err e | None => GetUsageLedgerEntry db id end with
  | Err err =>
      (c, Err (if Is err pgx_ErrNoRows then Errorf "%w: %s" [AWrap ErrDecisionNotFound; AStr id_text]
               else Errorf "postgres: get %s: %w" [AStr id_text; AWrap err]))
  | Ok entry =>
      match TenantIDs_Name uuid_String adb f2 c (l_TenantID entry) with
      | (c, Err err) => (c, Err err)
      | (c, Ok tenant) =>
          let d := ledger_decision id tenant entry in
          match match f3 with Some e => Err e | None => GetAuditEntry db id end with
          | Err err => (c, if Is err pgx_ErrNoRows then Ok d
                           else Err (Errorf "postgres: get audit %s: %w" [AStr id_text; AWrap err]))
          | Ok audit => let '(l, attempts) := hydrateLadder audit in (c, Ok (with_ladder d l attempts))
          end
      end
  end.
End Records.
