(* ===== verification/LedgerProps.v ===== *)
(** What holds of the record tables: a batch is written whole or not at all, and what was
    written can be read back. *)
From Stdlib Require Import Ascii.
From stdpp Require Import gmap.
From S2P Require Import Prelude Sorting Errors Env Bytes Utf8 Money Records Sink Accounts AdminDb AccountStore ServiceKeys TenantIds Ledger.

(** ** Text that JSON keeps *)

Lemma valid_runes_id fuel b :
  (length b ≤ fuel)%nat → forallb id (runes fuel b) = true → valid_runes fuel b = b.
Proof.
  revert b. induction fuel as [|fuel IH]; intros [|c b] Hl Hv; [done|simpl in Hl; lia|done|].
  cbn [runes valid_runes] in *. destruct (rune_width (c :: b)) as [n|] eqn:Ew; [|done].
  assert (Hn : (1 ≤ n)%nat) by (unfold rune_width in Ew; repeat case_match; simplify_eq; lia).
  rewrite IH; [apply take_drop| |exact Hv]. rewrite length_drop. simpl in *. lia.
Qed.

Lemma json_text_id s : ValidString (lit s) = true → json_text s = s.
Proof. intros Hv. unfold json_text. rewrite valid_runes_id by done. apply str_lit. Qed.

Definition clean (s : string) : bool := ValidString (lit s).

Lemma map_id_ext {A} (f : A → A) l : (∀ x, x ∈ l → f x = x) → map f l = l.
Proof.
  induction l as [|x l IH]; intros Hf; simpl; [done|].
  rewrite (Hf x) by apply list_elem_of_here. rewrite IH; [done|]. intros y Hy. by apply Hf, list_elem_of_further.
Qed.

Lemma json_map_id m :
  (∀ k v, m !! k = Some v → clean k = true ∧ clean v = true) → json_map m = m.
Proof.
  intros Hm. unfold json_map, json_members.
  assert (Hkeys : sort_strings (map_to_list m).*1 ≡ₚ (map_to_list m).*1) by apply sort_slice_perm.
  assert (He : map (λ k, (json_text k, json_text (default "" (m !! k)))) (sort_strings (map_to_list m).*1) ≡ₚ map_to_list m).
  { rewrite Hkeys. rewrite <- list_fmap_compose.
    change (map ?f ?l) with (f <$> l). apply Permutation_refl'. 
    transitivity (id <$> map_to_list m); [|apply list_fmap_id]. apply list_fmap_ext. intros i [k v] Hi.
    apply list_elem_of_lookup_2, elem_of_map_to_list in Hi. destruct (Hm k v Hi). simpl.
    rewrite Hi. simpl. by rewrite !json_text_id. }
  transitivity (list_to_map (map_to_list m) : gmap string string); [|apply list_to_map_to_list].
  symmetry. apply list_to_map_proper; [apply NoDup_fst_map_to_list|].
  rewrite reverse_Permutation. by symmetry.
Qed.

(** ** What a copy does *)

Lemma put_ledger_Ok db r db' :
  put_ledger db r = Ok db' → db' = mkRecordDb (r_ledger db ++ [stored_ledger r]) (r_audit db) (r_partition db).
Proof. unfold put_ledger. repeat case_match; naive_solver. Qed.
Lemma put_audit_Ok db r db' :
  put_audit db r = Ok db' → db' = mkRecordDb (r_ledger db) (r_audit db ++ [stored_audit r]) (r_partition db).
Proof. unfold put_audit. repeat case_match; naive_solver. Qed.

Lemma InsertUsageLedger_Ok db rows db' :
  InsertUsageLedger db rows = Ok db' →
  db' = mkRecordDb (r_ledger db ++ map stored_ledger rows) (r_audit db) (r_partition db).
Proof.
  unfold InsertUsageLedger. rewrite copied_all.
  revert db. induction rows as [|r rows IH]; intros db; simpl.
  { intros [= <-]. rewrite app_nil_r. by destruct db. }
  intros (db1 & Hp & Hc)%result_bind_ok. apply put_ledger_Ok in Hp as ->. rewrite (IH _ Hc). simpl.
  by rewrite <- app_assoc.
Qed.
Lemma InsertAuditLog_Ok db rows db' :
  InsertAuditLog db rows = Ok db' →
  db' = mkRecordDb (r_ledger db) (r_audit db ++ map stored_audit rows) (r_partition db).
Proof.
  unfold InsertAuditLog. rewrite copied_all.
  revert db. induction rows as [|r rows IH]; intros db; simpl.
  { intros [= <-]. rewrite app_nil_r. by destruct db. }
  intros (db1 & Hp & Hc)%result_bind_ok. apply put_audit_Ok in Hp as ->. rewrite (IH _ Hc). simpl.
  by rewrite <- app_assoc.
Qed.

Section Records.
Context (render : text → string) (uuid_String : uuid → string).

(** A decision with the rows it was written as. *)
Definition rows_of (adb : AccountDb) (d : RoutingDecision) (l : ledger_row) (a : audit_log) : Prop :=
  ∃ id, same_tenant adb (d_Tenant d) id ∧ l = ledgerRow d id ∧ auditRow render uuid_String d id = Ok a.

Lemma batch_rows_Ok adb lookup c batch c' ls audits :
  accounts_wf adb → cache_ok adb c →
  batch_rows render uuid_String adb lookup c batch = (c', Ok (ls, audits)) →
  cache_ok adb c' ∧ Forall3 (rows_of adb) batch ls audits.
Proof.
  intros Hwf. revert c ls audits. induction batch as [|d batch IH]; intros c ls audits Hc; simpl.
  { intros [= <- <- <-]. split; [done|constructor]. }
  destruct (TenantIDs_Lookup _ _ _ _) as [c1 [id|e]] eqn:El; [|done].
  destruct (Lookup_answer adb Hwf _ _ _ _ _ Hc El) as [Hc1 Hid].
  destruct (auditRow _ _ d id) as [a|e] eqn:Ea; [|done].
  destruct (batch_rows _ _ _ _ c1 batch) as [c2 [[ls' audits']|e]] eqn:Eb; [|done]. intros [= <- <- <-].
  destruct (IH _ _ _ Hc1 Eb) as [Hc2 Hall]. split; [done|]. constructor; [|done]. by exists id.
Qed.

Lemma batch_rows_cache adb lookup c batch c' r :
  accounts_wf adb → cache_ok adb c → batch_rows render uuid_String adb lookup c batch = (c', r) → cache_ok adb c'.
Proof.
  intros Hwf. revert c c' r. induction batch as [|d batch IH]; intros c c' r Hc; simpl; [by intros [= <- _]|].
  destruct (TenantIDs_Lookup _ _ _ _) as [c1 r1] eqn:El.
  destruct (Lookup_answer adb Hwf _ _ _ _ _ Hc El) as [Hc1 _].
  destruct r1 as [id|e]; [|by intros [= <- _]]. destruct (auditRow _ _ d id); [|by intros [= <- _]].
  destruct (batch_rows _ _ _ _ c1 batch) as [c2 [[ls' audits']|e]] eqn:Eb; intros [= <- _]; by eapply IH.
Qed.

(** Everything a transaction that succeeded did. *)
Lemma write_rows_None tx db n ls audits db' :
  write_rows tx db n ls audits = (db', None) →
  db' = mkRecordDb (r_ledger db ++ map stored_ledger ls) (r_audit db ++ map stored_audit audits) (r_partition db).
Proof.
  unfold write_rows. intros Hw. repeat case_match; simplify_eq.
  match goal with H : InsertUsageLedger _ _ = _ |- _ => apply InsertUsageLedger_Ok in H as -> end.
  match goal with H : InsertAuditLog _ _ = _ |- _ => by apply InsertAuditLog_Ok in H as -> end.
Qed.

Lemma write_rows_kept tx db n ls audits db' err :
  write_rows tx db n ls audits = (db', Some err) → tx ≠ TxCommit true → db' = db.
Proof.
  unfold write_rows. intros Hw Hne. destruct tx as [| | | |[]]; repeat case_match; simplify_eq; done.
Qed.

(** C29. A batch of decisions is recorded whole or not at all: when [Write] succeeds every
    decision has one row in the ledger and one in the audit log, in the batch's order, under
    its own id and the tenant it names, after all the rows that were there; when it fails both
    tables are as they were, unless only the answer to the commit was lost. *)
Theorem Write_all_or_nothing adb lookup tx c db batch c' db' err :
  accounts_wf adb → cache_ok adb c →
  RecordWriter_Write render uuid_String adb lookup tx c db batch = (c', db', err) →
  match err with
  | None => ∃ ls audits, Forall3 (rows_of adb) batch ls audits ∧
              r_ledger db' = r_ledger db ++ map stored_ledger ls ∧
              r_audit db' = r_audit db ++ map stored_audit audits
  | Some _ => tx ≠ TxCommit true → db' = db
  end ∧ cache_ok adb c'.
Proof.
  intros Hwf Hc. unfold RecordWriter_Write. destruct batch as [|d batch].
  { intros [= <- <- <-]. split; [|done]. exists [], []. split_and!; [constructor|by rewrite app_nil_r..]. }
  destruct (batch_rows _ _ _ _ _ _) as [c1 [[ls audits]|e]] eqn:Eb.
  - destruct (batch_rows_Ok _ _ _ _ _ _ _ Hwf Hc Eb) as [Hc1 Hall].
    destruct (write_rows _ _ _ _ _) as [db1 [err1|]] eqn:Ew; intros [= <- <- <-]; (split; [|done]).
    + by apply (write_rows_kept _ _ _ _ _ _ _ Ew).
    + apply write_rows_None in Ew as ->. by exists ls, audits.
  - intros [= <- <- <-]. split; [done|]. by eapply batch_rows_cache.
Qed.

(** ** Reading back *)

(** What is left of a decision once it was written. *)
Definition restored (d : RoutingDecision) : RoutingDecision :=
  let o := d_Outcome d in
  let r := ladder_Reason (d_Ladder d) in
  mkRoutingDecision (d_ID d) (pg_time (d_OccurredAt d)) (d_Tenant d) uuid_Nil
    (mkRequestSummary (rs_RequestedModel (d_Request d)) false false (json_map (rs_Metadata (d_Request d))))
    (mkLadder (map json_target (ladder_Targets (d_Ladder d)))
       (mkReason (reason_Kind r)
          (if String.eqb (reason_Kind r) ReasonModelAlias then reason_ModelAlias r else "")
          (if String.eqb (reason_Kind r) ReasonRuleMatch then reason_RuleName r else "")
          (if 0 <? reason_PolicyVersion r then int32 (reason_PolicyVersion r) else 0)))
    (mkOutcome (out_Status o) (map (json_attempt render) (out_Attempts o))
       (mkTokenUsage (int32 (Input (out_Usage o))) (int32 (Output (out_Usage o))) (int32 (CacheWrite (out_Usage o)))
          (int32 (CacheRead (out_Usage o))) (int32 (Reasoning (out_Usage o))))
       (int32 (out_TTFTMs o)) (int32 (out_TotalMs o)))
    ((λ c, mkCostBreakdown (Actual c) (PriceTableVersion c) (map json_counterfactual (Counterfactuals c)) [])
       <$> d_Cost d).

Lemma default_optional s : default "" (optional s) = s.
Proof. unfold optional. destruct (String.eqb s "") eqn:E; [|done]. by apply String.eqb_eq in E as ->. Qed.
Lemma derefInt_optionalInt n : derefInt (optionalInt n) = int32 n.
Proof. unfold optionalInt. destruct (n =? 0) eqn:E; [|done]. by apply Z.eqb_eq in E as ->. Qed.

Lemma rows_restored adb d l a :
  rows_of adb d l a →
  with_ladder (ledger_decision (d_ID d) (d_Tenant d) (stored_ledger l))
    (hydrateLadder (stored_audit a)).1 (hydrateLadder (stored_audit a)).2 = restored d.
Proof.
  intros (id & _ & -> & Ha). unfold auditRow in Ha. destruct (negb _); simplify_eq.
  unfold with_ladder, ledger_decision, hydrateLadder, restored. simpl.
  rewrite !default_optional, !derefInt_optionalInt. unfold reasonDetail. f_equal.
  - f_equal. f_equal.
    + destruct (String.eqb (reason_Kind _) ReasonModelAlias); done.
    + destruct (String.eqb (reason_Kind _) ReasonModelAlias) eqn:E; [|by destruct (String.eqb _ ReasonRuleMatch)].
      apply String.eqb_eq in E as ->. done.
    + by destruct (0 <? _).
  - by destruct (d_Cost d).
Qed.

(** The one row of an id among rows that were added. *)
Lemma find_added {R} (key : R → uuid) old new x :
  (∀ r, r ∈ old → key r ≠ key x) → NoDup (map key new) → x ∈ new →
  List.find (λ r, N.eqb (key r) (key x)) (old ++ new) = Some x.
Proof.
  intros Hold Hnd Hx. induction old as [|r old IH]; simpl.
  - induction new as [|r new IH]; [by apply elem_of_nil in Hx|]. inversion_clear Hnd as [|? ? Hr Hnd']. simpl.
    apply elem_of_cons in Hx as [->|Hx]; [by rewrite N.eqb_refl|].
    destruct (N.eqb (key r) (key x)) eqn:E; [|by apply IH]. apply N.eqb_eq in E.
    destruct Hr. rewrite E. by apply list_elem_of_fmap_2.
  - destruct (N.eqb (key r) (key x)) eqn:E.
    + apply N.eqb_eq in E. destruct (Hold r); [by apply list_elem_of_here|done].
    + apply IH. intros r' Hr'. by apply Hold, list_elem_of_further.
Qed.

(** No row has this id yet. *)
Definition unused (db : RecordDb) (id : uuid) : Prop :=
  (∀ r, r ∈ r_ledger db → l_ID r ≠ id) ∧ (∀ r, r ∈ r_audit db → al_ID r ≠ id).

Lemma rows_ids adb batch ls audits :
  Forall3 (rows_of adb) batch ls audits →
  map l_ID (map stored_ledger ls) = map d_ID batch ∧ map al_ID (map stored_audit audits) = map d_ID batch.
Proof.
  induction 1 as [|d l a batch ls audits (id & _ & -> & Ha) _ [IH1 IH2]]; [done|]. simpl. rewrite IH1, IH2.
  unfold auditRow in Ha. destruct (negb _); by simplify_eq.
Qed.

Lemma rows_lookup adb batch ls audits d :
  Forall3 (rows_of adb) batch ls audits → d ∈ batch → ∃ l a, l ∈ ls ∧ a ∈ audits ∧ rows_of adb d l a.
Proof.
  induction 1 as [|d' l a batch ls audits Hr _ IH]; [by intros ?%elem_of_nil|].
  intros [->|Hd]%elem_of_cons; [exists l, a; split_and!; [apply list_elem_of_here..|done]|].
  destruct (IH Hd) as (l' & a' & ? & ? & ?). exists l', a'. split_and!; [by apply list_elem_of_further..|done].
Qed.

(** ** What survives *)

Definition int32_range (z : Z) : Prop := - 2 ^ 31 ≤ z < 2 ^ 31.
Lemma int32_id z : int32_range z → int32 z = z.
Proof. unfold int32_range, int32. intros Hz. rewrite Z.mod_small; lia. Qed.

Definition clean_target (t : TargetRef) : bool := forallb clean (target_strings t).
Definition clean_attempt (a : Attempt) : bool :=
  clean (at_Target a) &&
  match at_Failure a with Some f => clean (af_Kind f) && clean (render (af_Message f)) | None => true end.

(** A decision the record tables have room for: text is UTF-8, numbers fit 32 bits, its time
    has whole microseconds. *)
Record recordable (d : RoutingDecision) : Prop := {
  rec_time : pg_time (d_OccurredAt d) = d_OccurredAt d;
  rec_metadata k v : rs_Metadata (d_Request d) !! k = Some v → clean k = true ∧ clean v = true;
  rec_targets t : t ∈ ladder_Targets (d_Ladder d) → clean_target t = true;
  rec_attempts a : a ∈ out_Attempts (d_Outcome d) → clean_attempt a = true;
  rec_compared c cf : d_Cost d = Some c → cf ∈ Counterfactuals c → clean (cf_Target cf) = true;
  rec_version : 0 ≤ reason_PolicyVersion (ladder_Reason (d_Ladder d)) < 2 ^ 31;
  rec_numbers : Forall int32_range
    (let o := d_Outcome d in
     [Input (out_Usage o); Output (out_Usage o); CacheRead (out_Usage o); CacheWrite (out_Usage o);
      Reasoning (out_Usage o); out_TTFTMs o; out_TotalMs o]);
}.

(** A decision as the record tables tell it: they do not tell which key asked, whether the answer
    streamed or its usage was wanted, nor which comparisons had no price; failures are told as text,
    and of the reason's two names only the one its kind has. *)
Definition told (d : RoutingDecision) : RoutingDecision :=
  let r := ladder_Reason (d_Ladder d) in
  mkRoutingDecision (d_ID d) (d_OccurredAt d) (d_Tenant d) uuid_Nil
    (mkRequestSummary (rs_RequestedModel (d_Request d)) false false (rs_Metadata (d_Request d)))
    (mkLadder (ladder_Targets (d_Ladder d))
       (mkReason (reason_Kind r)
          (if String.eqb (reason_Kind r) ReasonModelAlias then reason_ModelAlias r else "")
          (if String.eqb (reason_Kind r) ReasonRuleMatch then reason_RuleName r else "")
          (reason_PolicyVersion r)))
    (mkOutcome (out_Status (d_Outcome d))
       (map (λ a, mkAttempt (at_Target a) (at_StartedAt a) (at_DurationMs a)
                    ((λ f, mkAttemptFailure (af_Kind f) (af_StatusCode f) (TLit (render (af_Message f))) (af_Retryable f))
                       <$> at_Failure a)) (out_Attempts (d_Outcome d)))
       (out_Usage (d_Outcome d)) (out_TTFTMs (d_Outcome d)) (out_TotalMs (d_Outcome d)))
    ((λ c, mkCostBreakdown (Actual c) (PriceTableVersion c) (Counterfactuals c) []) <$> d_Cost d).

Lemma json_target_id t : clean_target t = true → json_target t = t.
Proof.
  unfold clean_target, json_target. destruct t as [n p u r]. simpl. intros H.
  repeat (apply andb_true_iff in H as [? H]). by rewrite !json_text_id.
Qed.

Lemma recordable_told d : recordable d → restored d = told d.
Proof.
  intros [Ht Hm Htg Ha Hc Hv Hn]. unfold restored, told. cbv zeta.
  repeat (apply Forall_cons in Hn as [? Hn]). rewrite Ht, json_map_id by done.
  rewrite (map_id_ext json_target) by (intros; by apply json_target_id, Htg).
  assert (Hver : (if 0 <? reason_PolicyVersion (ladder_Reason (d_Ladder d))
                  then int32 (reason_PolicyVersion (ladder_Reason (d_Ladder d))) else 0) =
                 reason_PolicyVersion (ladder_Reason (d_Ladder d))).
  { destruct (0 <? _) eqn:E; [|lia]. apply int32_id. unfold int32_range. lia. }
  rewrite Hver, !int32_id by done. f_equal.
  - f_equal; [|by destruct (out_Usage (d_Outcome d))]. apply map_ext_in. intros a Hin%list_elem_of_In.
    specialize (Ha a Hin). unfold clean_attempt in Ha. apply andb_true_iff in Ha as [Hat Hf].
    unfold json_attempt. rewrite json_text_id by done. f_equal.
    destruct (at_Failure a) as [f|]; [|done]. apply andb_true_iff in Hf as [Hk Hmsg]. simpl. by rewrite !json_text_id.
  - destruct (d_Cost d) as [c|]; [|done]. simpl. do 2 f_equal. apply map_id_ext. intros cf Hcf.
    unfold json_counterfactual. rewrite json_text_id by by eapply Hc. by destruct cf.
Qed.

(** C30. A decision the writer committed is read back by its id. Exactly as recorded come: when it
    happened, the tenant, the model asked for and the metadata, the targets of the ladder, the kind
    and policy version of its reason, the status, every attempt with its failure as text, the tokens,
    the times, and the cost with its price version and the comparisons that had a price. What comes
    back empty is the key, whether it streamed and whether usage was wanted, the comparisons without
    a price, and the reason's name other than its kind's. This is for decisions whose text is UTF-8,
    whose numbers fit 32 bits and whose time has whole microseconds, with ids that are distinct in
    the batch and new to the tables, and readers whose tenant names are current. *)
Theorem written_then_read adb lookup tx c db batch c1 db' c2 d :
  accounts_wf adb → cache_ok adb c →
  RecordWriter_Write render uuid_String adb lookup tx c db batch = (c1, db', None) →
  NoDup (map d_ID batch) → (∀ d, d ∈ batch → unused db (d_ID d)) → cache_ok adb c2 →
  d ∈ batch → recordable d →
  (Observability_Get uuid_String adb None None None c2 db' (d_ID d)).2 = Ok (told d).
Proof.
  intros Hwf Hc Hw Hnd Hun Hc2 Hd Hrec. rewrite <- (recordable_told d Hrec).
  unfold RecordWriter_Write in Hw. destruct batch as [|d0 batch]; [by apply elem_of_nil in Hd|].
  destruct (batch_rows _ _ _ _ _ _) as [c3 [[ls audits]|e]] eqn:Eb; [|done].
  destruct (batch_rows_Ok _ _ _ _ _ _ _ Hwf Hc Eb) as [_ Hall].
  destruct (write_rows _ _ _ _ _) as [db1 err] eqn:Ew. simplify_eq. apply write_rows_None in Ew as ->.
  destruct (rows_ids _ _ _ _ Hall) as [Hls Haud]. destruct (Hun d Hd) as [Hunl Huna].
  destruct (rows_lookup _ _ _ _ _ Hall Hd) as (l & a & Hl & Ha & Hrow).
  pose proof (rows_restored _ _ _ _ Hrow) as Hrest. destruct Hrow as (id & Hid & -> & Hauditrow).
  assert (Haid : al_ID (stored_audit a) = d_ID d) by (unfold auditRow in Hauditrow; destruct (negb _); by simplify_eq).
  unfold Observability_Get, GetUsageLedgerEntry, GetAuditEntry. cbn [r_ledger r_audit].
  pose proof (find_added l_ID (r_ledger db) (map stored_ledger ls) (stored_ledger (ledgerRow d id)) Hunl
    ltac:(by rewrite Hls) ltac:(by apply list_elem_of_fmap_2)) as Hfl.
  cbn [stored_ledger ledgerRow l_ID] in Hfl. rewrite Hfl.
  assert (Hfa := find_added al_ID (r_audit db) (map stored_audit audits) (stored_audit a)).
  rewrite Haid in Hfa. rewrite (Hfa Huna ltac:(by rewrite Haud) ltac:(by apply list_elem_of_fmap_2)).
  destruct (TenantIDs_Name _ _ _ _ _) as [c4 r4] eqn:En.
  destruct (Name_answer uuid_String adb Hwf None c2 _ c4 r4 Hc2 En) as [_ Hname]. simpl in Hname.
  destruct r4 as [name|e].
  - destruct Hid as (t & Ht & He). destruct Hname as (t' & Ht' & He'). assert (name = d_Tenant d) as -> by congruence.
    destruct (hydrateLadder (stored_audit a)) as [lad att] eqn:Eh. simpl in Hrest. simpl. by f_equal.
  - destruct Hname as [_ Hnone]. destruct Hid as (t & Ht & _). congruence.
Qed.
End Records.
