(* ===== verification/LedgerExamples.v ===== *)
(** The record tables on concrete batches: that the theorems about them have instances, and
    what one bad record does to the others. *)
From Stdlib Require Import Ascii.
From stdpp Require Import gmap.
From S2P Require Import Prelude Errors Env Bytes Utf8 Money Records Sink Dispatch Provider Accounts AccountStore ServiceKeys TenantIds Ledger LedgerProps.

Definition ex_render (t : text) : string := match t with TLit s => s | _ => "error" end.
Definition ex_show_id (_ : uuid) : string := "id".
Definition ex_no_faults (_ : Tenant) : option error := None.
Definition ex_empty : RecordDb := mkRecordDb [] [] (λ _, true).

Definition ex_record (id : N) (attempts : list Attempt) (status : Status) (output : Z) : RoutingDecision :=
  mkRoutingDecision id (5 * Second) "acme" 9%N
    (mkRequestSummary "fast" true true {["feature" := "tags"]})
    (mkLadder [mkTargetRef "a" "openai" "gpt" ""] (mkReason ReasonModelAlias "fast" "" 0))
    (mkOutcome status attempts (mkTokenUsage 10 output 0 0 0) 12 30)
    (Some (mkCostBreakdown 2500 "v1" [mkCounterfactual "b" 4000] [])).
Definition ex_good : RoutingDecision := ex_record 1%N [mkAttempt "a" (5 * Second) 30 None] StatusOK 20.

Definition ex_write (batch : list RoutingDecision) :=
  RecordWriter_Write ex_render ex_show_id ex_tenants ex_no_faults TxFine NewTenantIDs ex_empty batch.
Definition ex_written : RecordDb := (ex_write [ex_good]).1.2.

Lemma Write_all_or_nothing_witness :
  (∃ ls audits, Forall3 (rows_of ex_render ex_show_id ex_tenants) [ex_good] ls audits ∧
     r_ledger ex_written = [] ++ map stored_ledger ls ∧ r_audit ex_written = [] ++ map stored_audit audits) ∧
  cache_ok ex_tenants (ex_write [ex_good]).1.1.
Proof.
  refine (Write_all_or_nothing ex_render ex_show_id ex_tenants ex_no_faults TxFine NewTenantIDs ex_empty [ex_good]
            (ex_write [ex_good]).1.1 ex_written None ex_tenants_wf (NewTenantIDs_ok _) _).
  by vm_compute.
Defined.

Lemma ex_good_recordable : recordable ex_render ex_good.
Proof.
  split.
  - by vm_compute.
  - intros k v Hk. simpl in Hk. apply lookup_singleton_Some in Hk as [<- <-]. by vm_compute.
  - intros t Ht. simpl in Ht. apply list_elem_of_singleton in Ht as ->. by vm_compute.
  - intros a Ha. simpl in Ha. apply list_elem_of_singleton in Ha as ->. by vm_compute.
  - intros c cf [= <-] Hcf. simpl in Hcf. apply list_elem_of_singleton in Hcf as ->. by vm_compute.
  - simpl. lia.
  - repeat constructor; by vm_compute.
Qed.

Lemma written_then_read_witness :
  (Observability_Get ex_show_id ex_tenants None None None NewTenantIDs ex_written 1%N).2 = Ok (told ex_render ex_good).
Proof.
  refine (written_then_read ex_render ex_show_id ex_tenants ex_no_faults TxFine NewTenantIDs ex_empty [ex_good]
            (ex_write [ex_good]).1.1 ex_written NewTenantIDs ex_good ex_tenants_wf (NewTenantIDs_ok _) _ _ _
            (NewTenantIDs_ok _) _ ex_good_recordable).
  - by vm_compute.
  - repeat constructor. apply not_elem_of_nil.
  - intros d _. split; intros r Hr; by apply elem_of_nil in Hr.
  - by apply list_elem_of_singleton.
Defined.

(** ** One record that cannot be stored takes its batch with it *)

(** A gateway's sink over these tables. *)
#[export] Instance ex_writer : RecordWriter (TenantIDs * RecordDb) := {
  Writer_Write w batch :=
    let '(c, db, err) :=
      RecordWriter_Write ex_render ex_show_id ex_tenants ex_no_faults TxFine w.1 w.2 batch in ((c, db), err) }.
Definition ex_sink : Buffered (TenantIDs * RecordDb) :=
  NewBuffered (NewTenantIDs, ex_empty) (mkSinkConfig 0 0 0 0).

(** An upstream fails with a long body whose 8192nd byte is inside a character. *)
Definition ex_long_body : bytes := replicate 8191 "a"%char ++ utf8 233.
Definition ex_cut : RoutingDecision :=
  ex_record 2%N [mkAttempt "a" (5 * Second) 30 (Some (failure_of (classify "openai" 500 ex_long_body)))] StatusExhausted 0.

(** The body is cut to its first 8 KiB there, so the message of the failure is not UTF-8, the
    audit log refuses it, and the other decisions of its batch are lost with it. *)
Lemma cut_message_loses_batch :
  let s := b_write ex_sink [ex_good; ex_cut] in
  b_failed s = 2 ∧ b_written s = 0 ∧ r_ledger (b_writer s).2 = [] ∧
  b_written (b_write ex_sink [ex_good]) = 1.
Proof. by vm_compute. Qed.

(** So does a negative count of output tokens, which the provider's reader lets through. *)
Lemma negative_tokens_lose_batch :
  let bad := ex_record 2%N [mkAttempt "a" (5 * Second) 30 None] StatusOK (-1) in
  let s := b_write ex_sink [ex_good; bad] in
  b_failed s = 2 ∧ r_ledger (b_writer s).2 = [].
Proof. by vm_compute. Qed.

(** The ledger keeps the key a request was made with; reading the decision forgets it. *)
Lemma key_is_not_read_back :
  l_KeyID <$> r_ledger ex_written = [Some 9%N] ∧
  match (Observability_Get ex_show_id ex_tenants None None None NewTenantIDs ex_written 1%N).2 with
  | Ok d => d_KeyID d = uuid_Nil
  | Err _ => False
  end.
Proof. by vm_compute. Qed.
