(* ===== verification/Partitions.v ===== *)
(** The monthly partitions of the record tables: [internal/drivers/postgresql/partitions.go] over
    the functions of [db/migrations/0003_partitions.sql]. A row whose month has no partition is
    refused by the database, so they are kept ahead of the clock. The session's time zone is UTC. *)
From S2P Require Import Prelude Calendar Bytes Errors Env AdminDb Ledger.

(** ** In the database *)

(** [timestamptz + n * interval '1 month']: the day is cut to the length of the month it falls in. *)
Definition pg_plus_months (t : time) (n : Z) : time :=
  let k := month_index t + n in
  let day := Z.min (abs_day t - month_start (month_index t)) (month_start (k + 1) - month_start k - 1) in
  day_time (month_start k + day) + (t - zero_time) mod DayLen.

(** The partitions there are: the table and the month, which also name the child table. *)
Definition children : Type := gset (string * Z).

(** [src/db/migrations/0003_partitions.sql:1-14] ensure_month_partition *)
Definition ensure_month_partition (parent : string) (month : time) (c : children) : children :=
  {[(parent, month_index month)]} ∪ c.

(** The numbers [from .. to]. *)
Definition between_Z (from to : Z) : list Z := map (λ i, from + Z.of_nat i) (seq 0 (Z.to_nat (to - from + 1))).

(** [src/db/migrations/0003_partitions.sql:19-31] ensure_record_partitions *)
Definition ensure_record_partitions (from_ts : time) (months : Z) (c : children) : children :=
  fold_left (λ c n,
    let month := pg_plus_months from_ts n in
    ensure_month_partition "audit_log" month (ensure_month_partition "usage_ledger" month c))
    (between_Z (-1) (Z.max months 1)) c.

(** Whether both tables have a partition for an instant. *)
Definition has_partition (c : children) (t : time) : bool :=
  bool_decide (("usage_ledger", month_index t) ∈ c) && bool_decide (("audit_log", month_index t) ∈ c).

(** ** In the process *)

(** [src/internal/drivers/postgresql/partitions.go:15-17] PartitionMonthsAhead *)
Definition PartitionMonthsAhead : Z := 3.

(** [p_ensured] is for the theorems only: when a call of [Ensure] took effect.

    [src/internal/drivers/postgresql/partitions.go:30-38] Partitions *)
Record Partitions := mkPartitions {
  p_children : children;
  p_stop : bool;
  p_done : bool;
  p_ensured : list time;
}.

(** [src/internal/drivers/postgresql/partitions.go:40-48] NewPartitions *)
Definition NewPartitions (c : children) : Partitions := mkPartitions c false false [].

(** [src/db/gen/partitions.sql.go:13-25] EnsureRecordPartitions *)
Definition Sql_EnsureRecordPartitions (c : children) (from : time) (months : Z) : children :=
  ensure_record_partitions from months c.

(** [src/internal/drivers/postgresql/partitions.go:50-59] Ensure *)
Definition Ensure (p : Partitions) (now : time) (fault : db_fault) : Partitions * option error :=
  let ensured := mkPartitions (Sql_EnsureRecordPartitions (p_children p) now PartitionMonthsAhead)
                   (p_stop p) (p_done p) (now :: p_ensured p) in
  match fault with
  | Fine => (ensured, None)
  | Refused => (p, Some (Errorf "postgres: ensure partitions: %w" [AWrap ErrDatabase]))
  | Lost => (ensured, Some (Errorf "postgres: ensure partitions: %w" [AWrap ErrDatabase]))
  end.

(** The loop of [Start] and a call of [Stop]: when a tick and the stop are both ready the loop takes
    either, and an error is only logged.

    [src/internal/drivers/postgresql/partitions.go:61-83] Start *)
Inductive partitions_step (p : Partitions) : Partitions → Prop :=
| partitions_tick now fault : p_done p = false → partitions_step p (Ensure p now fault).1
| partitions_exit : p_done p = false → p_stop p = true →
    partitions_step p (mkPartitions (p_children p) (p_stop p) true (p_ensured p))
| partitions_stop : partitions_step p (mkPartitions (p_children p) true (p_done p) (p_ensured p)).

(** What [Stop] waits for.

    [src/internal/drivers/postgresql/partitions.go:85-89] Stop *)
Definition Stop_returns (p : Partitions) : bool := p_done p.

(** ** Months *)

Lemma month_index_plus t n : month_index (pg_plus_months t n) = month_index t + n.
Proof.
  set (k := month_index t + n). apply month_index_unique.
  pose proof (month_start_step k) as Hk. pose proof (month_index_spec t) as Ht.
  unfold pg_plus_months. cbv zeta. fold k. set (day := Z.min _ _).
  assert (Hd : 0 ≤ day < month_start (k + 1) - month_start k) by (unfold day; lia).
  assert (Hm : 0 ≤ (t - zero_time) mod DayLen < DayLen) by (apply Z.mod_pos_bound; done).
  enough (abs_day (day_time (month_start k + day) + (t - zero_time) mod DayLen) = month_start k + day) as -> by lia.
  revert Hm. generalize ((t - zero_time) mod DayLen). intros r Hm.
  unfold abs_day, day_time, DayLen, Hour, Minute, Second in *. lia.
Qed.

Lemma elem_of_between_Z from to n : n ∈ between_Z from to ↔ from ≤ n ≤ to.
Proof.
  unfold between_Z. rewrite list_elem_of_fmap. split.
  - intros (i & -> & Hi). apply elem_of_seq in Hi. lia.
  - intros Hn. exists (Z.to_nat (n - from)). split; [lia|]. apply elem_of_seq. lia.
Qed.

Lemma ensured_elem from_ts months c x :
  x ∈ ensure_record_partitions from_ts months c ↔
  x ∈ c ∨ (x.1 = "usage_ledger" ∨ x.1 = "audit_log") ∧
          month_index from_ts - 1 ≤ x.2 ≤ month_index from_ts + Z.max months 1.
Proof.
  unfold ensure_record_partitions.
  assert (Hl : ∀ l c, x ∈ fold_left (λ c n, ensure_month_partition "audit_log" (pg_plus_months from_ts n)
      (ensure_month_partition "usage_ledger" (pg_plus_months from_ts n) c)) l c ↔
    x ∈ c ∨ (x.1 = "usage_ledger" ∨ x.1 = "audit_log") ∧ ∃ n, n ∈ l ∧ x.2 = month_index from_ts + n).
  { intros l. induction l as [|n l IH]; intros c0; simpl.
    - split; [by left|]. intros [?|(_ & n & []%elem_of_nil & _)]. done.
    - rewrite IH. unfold ensure_month_partition. rewrite !month_index_plus, !elem_of_union, !elem_of_singleton.
      destruct x as [tb k]. simpl. split.
      + intros [[[= -> ->]|[[= -> ->]|?]]|(Ht & m & Hm & ->)]; [right|right|by left|right]; (split; [by auto|]);
          eexists; (split; [|reflexivity]); [by left|by left|by right].
      + intros [?|(Ht & m & [->|Hm]%elem_of_cons & ->)]; [by auto| |right; eauto].
        left. destruct Ht as [-> | ->]; auto. }
  rewrite Hl. split; (intros [?|(Ht & Hn)]; [by left|right; split; [done|]]).
  - destruct Hn as (n & Hn & ->). apply elem_of_between_Z in Hn. lia.
  - exists (x.2 - month_index from_ts). rewrite elem_of_between_Z. lia.
Qed.

(** What was ensured is there, in whatever state the loop is. *)
Definition ensured_there (p : Partitions) : Prop :=
  ∀ t0 t, t0 ∈ p_ensured p → month_index t0 - 1 ≤ month_index t ≤ month_index t0 + 3 →
    has_partition (p_children p) t = true.

Lemma has_partition_mono c c' t : c ⊆ c' → has_partition c t = true → has_partition c' t = true.
Proof. unfold has_partition. rewrite !andb_true_iff, !bool_decide_eq_true. set_solver. Qed.

Lemma ensured_mono now months c : c ⊆ ensure_record_partitions now months c.
Proof. intros x Hx. apply ensured_elem. by left. Qed.

Lemma Ensure_there p now fault : ensured_there p → ensured_there (Ensure p now fault).1.
Proof.
  intros Hi. assert (Hnew : ensured_there (mkPartitions (ensure_record_partitions now PartitionMonthsAhead (p_children p))
                              (p_stop p) (p_done p) (now :: p_ensured p))).
  { intros t0 t [->|H0]%elem_of_cons Ht; simpl.
    - unfold has_partition. apply andb_true_iff. rewrite !bool_decide_eq_true, !ensured_elem. simpl.
      unfold PartitionMonthsAhead. split; right; (split; [by auto|lia]).
    - eapply has_partition_mono; [apply ensured_mono|by apply (Hi t0)]. }
  by destruct fault.
Qed.

Lemma partitions_step_there p p' : partitions_step p p' → ensured_there p → ensured_there p'.
Proof. intros [now fault _|_ _|] Hi; [by apply Ensure_there|exact Hi|exact Hi]. Qed.

Lemma partitions_there p p' : ensured_there p → rtc partitions_step p p' → ensured_there p' ∧ p_ensured p ⊆ p_ensured p'.
Proof.
  intros Hi Hr. induction Hr as [|p p1 p2 Hs _ IH]; [done|].
  destruct (IH (partitions_step_there _ _ Hs Hi)) as [H1 H2]. split; [done|].
  destruct Hs as [now fault _|_ _|]; [|exact H2|exact H2]. destruct fault; simpl in *; set_solver.
Qed.

(** Twelve weeks touch at most four months. *)
Lemma month_index_ahead t0 now : t0 ≤ now ≤ t0 + 84 * DayLen → month_index t0 ≤ month_index now ≤ month_index t0 + 3.
Proof.
  intros Hn. pose proof (month_index_spec t0) as H0. pose proof (month_index_spec now) as H1.
  assert (Hd : abs_day t0 ≤ abs_day now ≤ abs_day t0 + 84).
  { unfold abs_day, DayLen, Hour, Minute, Second in *. lia. }
  pose proof (month_start_step (month_index t0 + 1)). pose proof (month_start_step (month_index t0 + 1 + 1)).
  pose proof (month_start_step (month_index t0 + 1 + 1 + 1)). split.
  - destruct (Z.le_gt_cases (month_index t0) (month_index now)) as [?|Hlt]; [done|].
    destruct (decide (month_index now + 1 = month_index t0)) as [E|E]; [rewrite E in H1; lia|].
    pose proof (month_start_mono (month_index now + 1) (month_index t0) ltac:(lia)). lia.
  - destruct (Z.le_gt_cases (month_index now) (month_index t0 + 3)) as [?|Hlt]; [done|].
    replace (month_index t0 + 1 + 1 + 1 + 1) with (month_index t0 + 4) in * by lia.
    destruct (decide (month_index t0 + 4 = month_index now)) as [E|E]; [rewrite <- E in H1; lia|].
    pose proof (month_start_mono (month_index t0 + 4) (month_index now) ltac:(lia)). lia.
Qed.

(** The month of an instant at most four weeks earlier is this one or the one before. *)
Lemma month_index_back started now : now - 28 * DayLen ≤ started ≤ now → month_index now - 1 ≤ month_index started ≤ month_index now.
Proof.
  intros Hs. pose proof (month_index_ahead started now ltac:(unfold DayLen, Hour, Minute, Second in *; lia)) as [H0 _].
  split; [|done]. pose proof (month_index_spec started) as H1. pose proof (month_index_spec now) as H2.
  assert (Hd : abs_day now - 28 ≤ abs_day started ≤ abs_day now).
  { unfold abs_day, DayLen, Hour, Minute, Second in *. lia. }
  pose proof (month_start_step (month_index started + 1)).
  destruct (Z.le_gt_cases (month_index now - 1) (month_index started)) as [?|Hlt]; [done|].
  destruct (decide (month_index started + 1 + 1 = month_index now)) as [E|E]; [rewrite <- E in H2; lia|].
  pose proof (month_start_mono (month_index started + 1 + 1) (month_index now) ltac:(lia)). lia.
Qed.

(** What the database keeps of an instant is in the same month. *)
Lemma month_index_pg t : month_index (pg_time t) = month_index t.
Proof.
  apply month_index_unique. pose proof (month_index_spec t) as Ht.
  enough (abs_day (pg_time t) = abs_day t) as -> by done.
  unfold abs_day, pg_time, zero_time, DayLen, Hour, Minute, Second, Microsecond in *. lia.
Qed.

Lemma put_finds db c ledger audit :
  r_partition db = has_partition c → has_partition c (l_StartedAt ledger) = true → has_partition c (al_Ts audit) = true →
  put_ledger db ledger ≠ Err (no_partition "usage_ledger") ∧ put_audit db audit ≠ Err (no_partition "audit_log").
Proof.
  assert (Hpg : ∀ t, has_partition c (pg_time t) = has_partition c t)
    by (intros t; unfold has_partition; by rewrite month_index_pg).
  intros Hp Hl Ha. unfold put_ledger, put_audit. rewrite Hp, !Hpg, Hl, Ha. simpl. split; repeat case_match; discriminate.
Qed.

(** C31. Uptime does not matter to the partitions: once the process has ensured them at its start,
    whatever its loop and its shutdown do since, a request that started in the last four weeks is
    never refused for want of a partition as long as some call of [Ensure] in the last twelve weeks
    took effect, however many failed. *)
Theorem records_find_partitions c0 boot fault s t0 now db ledger audit :
  (Ensure (NewPartitions c0) boot fault).2 = None →
  rtc partitions_step (Ensure (NewPartitions c0) boot fault).1 s →
  (t0 = boot ∨ t0 ∈ p_ensured s) → t0 ≤ now ≤ t0 + 84 * DayLen →
  now - 28 * DayLen ≤ l_StartedAt ledger ≤ now → al_Ts audit = l_StartedAt ledger →
  r_partition db = has_partition (p_children s) →
  put_ledger db ledger ≠ Err (no_partition "usage_ledger") ∧ put_audit db audit ≠ Err (no_partition "audit_log").
Proof.
  intros Hok Hr Ht0 Hnow Hst Hts Hdb.
  assert (Hi : ensured_there (Ensure (NewPartitions c0) boot fault).1) by (apply Ensure_there; intros ? ? []%elem_of_nil).
  destruct (partitions_there _ _ Hi Hr) as [Hs Hsub].
  assert (Hin : t0 ∈ p_ensured s) by (destruct Ht0 as [->|?]; [apply Hsub; destruct fault; [by left|done..]|done]).
  pose proof (month_index_ahead _ _ Hnow). pose proof (month_index_back _ _ Hst).
  assert (Hc : has_partition (p_children s) (l_StartedAt ledger) = true) by (apply (Hs t0); [done|lia]).
  apply (put_finds db (p_children s)); [done|done|by rewrite Hts].
Qed.

(** ** A process that is up for eighty days while the database refuses *)

Definition ex_boot : time := 1700000000 * Second.
Definition ex_down : Partitions :=
  (Ensure (Ensure (NewPartitions ∅) ex_boot Fine).1 (ex_boot + 40 * DayLen) Refused).1.
Definition ex_later : time := ex_boot + 80 * DayLen.
Definition ex_ledger_row : ledger_row :=
  mkLedgerRow 1%N ex_later 7%N None "chat" (Some "a") "ok" 1 1 0 0 0 None "provider" None true None None ∅ [].
Definition ex_audit_row : audit_log :=
  mkAuditLog 1%N ex_later (Some 7%N) None gatewayActor routeAction None None None None [] [] None None None.

Lemma records_find_partitions_witness :
  put_ledger (mkRecordDb [] [] (has_partition (p_children ex_down))) ex_ledger_row ≠ Err (no_partition "usage_ledger") ∧
  is_ok (put_ledger (mkRecordDb [] [] (has_partition (p_children ex_down))) ex_ledger_row) = true ∧
  has_partition (p_children ex_down) (ex_boot + 160 * DayLen) = false.
Proof.
  split; [|split; vm_compute; reflexivity].
  refine (proj1 (records_find_partitions ∅ ex_boot Fine ex_down ex_boot ex_later
    (mkRecordDb [] [] (has_partition (p_children ex_down))) ex_ledger_row ex_audit_row eq_refl _ _ _ _ eq_refl eq_refl)).
  - apply rtc_once. exact (partitions_tick (Ensure (NewPartitions ∅) ex_boot Fine).1 (ex_boot + 40 * DayLen) Refused eq_refl).
  - by left.
  - split; apply Z.leb_le; vm_compute; reflexivity.
  - split; apply Z.leb_le; vm_compute; reflexivity.
Defined.
