(* ===== verification/AuditPage.v ===== *)
(** Reading the audit log a page at a time: [ObservabilityRepo.ListAudit] of
    [internal/adapters/repositories/observability.go], the query it makes, and the cursors of
    [internal/adapters/inbound/adminapi/cursor.go] a client pages with. *)
From Stdlib Require Import Ascii.
From stdpp Require Import gmap.
From S2P Require Import Prelude Sorting Errors Env Bytes Radix Records Accounts AdminDb AccountStore ServiceKeys TenantIds Ledger.

(** ** Asking *)

(** [src/internal/ports/store.go:137-140] AuditCursor *)
Record AuditCursor := mkAuditCursor { acu_At : time; acu_ID : uuid }.
#[export] Instance AuditCursor_eq_dec : EqDecision AuditCursor.
Proof. solve_decision. Defined.

(** [src/internal/ports/store.go:120-131] AuditQuery *)
Record AuditQuery := mkAuditQuery {
  aq_Tenant : Tenant;
  aq_Since : time;
  aq_Until : time;
  aq_After : option AuditCursor;
  aq_Limit : Z;
}.

(** [src/internal/ports/store.go:151-154] DefaultAuditLimit, MaxAuditLimit *)
Definition DefaultAuditLimit : Z := 50.
Definition MaxAuditLimit : Z := 500.

(** [src/internal/ports/store.go:156-174] AuditQuery.Validate *)
Definition AuditQuery_Validate (q : AuditQuery) : option error :=
  if String.eqb (aq_Tenant q) "" then Some (Errorf "audit: a tenant is required" [])
  else if IsZero (aq_Since q) || IsZero (aq_Until q) then Some (Errorf "audit: since and until are required" [])
  else if negb (Before (aq_Since q) (aq_Until q))
  then Some (Errorf "audit: since (%s) must be before until (%s)" [ATime (aq_Since q); ATime (aq_Until q)])
  else if aq_Limit q <? 0 then Some (Errorf "audit: limit must not be negative" [])
  else if MaxAuditLimit <? aq_Limit q
  then Some (Errorf "audit: limit %d is above the maximum of %d" [AInt (aq_Limit q); AInt MaxAuditLimit])
  else None.

(** [src/internal/core/domains/audit.go:12-43] AuditEvent *)
Record AuditEvent := mkAuditEvent {
  ev_ID : uuid;
  ev_At : time;
  ev_TenantID : option uuid;
  ev_KeyID : option uuid;
  ev_Actor : string;
  ev_Action : string;
  ev_RequestID : string;
  ev_Detail : string;
  ev_FinalTarget : string;
  ev_StatusCode : option Z;
  ev_Error : string;
}.

(** [src/internal/ports/store.go:143-149] AuditPage *)
Record AuditPage := mkAuditPage { pg_Events : list AuditEvent; pg_Next : option AuditCursor }.

(** ** The query *)

Definition key_of (r : audit_log) : AuditCursor := mkAuditCursor (al_Ts r) (al_ID r).

(** [(ts, id)] compared as a row. *)
Definition before (a b : AuditCursor) : bool :=
  (acu_At a <? acu_At b) || ((acu_At a =? acu_At b) && (acu_ID a <? acu_ID b)%N).
Definition newer_row (a b : audit_log) : bool := before (key_of b) (key_of a).

(** [src/db/gen/audit_log.sql.go:228-291] ListAuditEntriesForTenantPage *)
Definition ListAuditEntriesForTenantPage (db : RecordDb) (tenant : uuid) (since until : time)
    (cursor : option AuditCursor) (limit : Z) : list audit_log :=
  take (Z.to_nat limit) (sort_slice newer_row (List.filter (λ r,
    bool_decide (al_TenantID r = Some tenant) && (pg_time since <=? al_Ts r) && (al_Ts r <? pg_time until) &&
    match cursor with
    | None => true
    | Some c => let c := mkAuditCursor (pg_time (acu_At c)) (acu_ID c) in
                (al_Ts r <=? acu_At c) && before (key_of r) c
    end) (r_audit db))).

(** [src/internal/adapters/repositories/observability.go:370-396] auditEvent *)
Definition auditEvent (r : audit_log) : AuditEvent :=
  mkAuditEvent (al_ID r) (al_Ts r) (al_TenantID r) (al_KeyID r) (al_Actor r) (al_Action r)
    (default "" (al_RequestID r)) (default "" (al_ReasonDetail r)) (default "" (al_FinalTarget r))
    (al_StatusCode r) (default "" (al_Error r)).

Definition page_limit (q : AuditQuery) : Z := if aq_Limit q =? 0 then DefaultAuditLimit else aq_Limit q.

(** A page of the rows read, one of which may be too many. *)
Definition page_of (limit : Z) (rows : list audit_log) : AuditPage :=
  let more := limit <? Z.of_nat (length rows) in
  let rows := if more then take (Z.to_nat limit) rows else rows in
  mkAuditPage (map auditEvent rows) (if more then key_of <$> last rows else None).

(** [f1] and [f2] are failures of the queries.

    [src/internal/adapters/repositories/observability.go:322-368] ObservabilityRepo.ListAudit *)
Definition ListAudit (adb : AccountDb) (f1 f2 : option error) (c : TenantIDs) (db : RecordDb) (q : AuditQuery)
    : TenantIDs * result error AuditPage :=
  match AuditQuery_Validate q with
  | Some err => (c, Err err)
  | None =>
      match TenantIDs_Lookup adb f1 c (aq_Tenant q) with
      | (c, Err err) => (c, Err err)
      | (c, Ok tenant) =>
          match f2 with
          | Some err => (c, Err (Errorf "postgres: list audit for %s: %w" [AStr (aq_Tenant q); AWrap err]))
          | None =>
              (c, Ok (page_of (page_limit q)
                        (ListAuditEntriesForTenantPage db tenant (aq_Since q) (aq_Until q) (aq_After q)
                           (int32 (page_limit q) + 1))))
          end
      end
  end.

(** ** Cursors *)

Section Cursors.
Context (uuid_Parse : string → result error uuid) (uuid_String : uuid → string).

(** [base64.RawURLEncoding] *)
Definition RawURLEncoding : alphabet :=
  mkAlphabet 6 (lit "ABCDEFGHIJKLMNOPQRSTUVWXYZabcdefghijklmnopqrstuvwxyz0123456789-_").

(** [src/internal/adapters/inbound/adminapi/cursor.go:19-21] cursorVersion *)
Definition cursorVersion : bytes := lit "1".

(** [src/internal/adapters/inbound/adminapi/cursor.go:23-29] encodeCursor *)
Definition encodeCursor (c : AuditCursor) : bytes :=
  radix_encode RawURLEncoding
    (cursorVersion ++ "."%char :: FormatInt (wrap64 (acu_At c)) ++ "."%char :: lit (uuid_String (acu_ID c))).

(** [src/internal/adapters/inbound/adminapi/cursor.go:34-55] decodeCursor *)
Definition decodeCursor (s : bytes) : result error AuditCursor :=
  match base64_Decode RawURLEncoding s with
  | None => Err (Errorf "cursor is not valid base64" [])
  | Some raw =>
      match split_on "." raw with
      | [version; nanos; id] =>
          if negb (bool_decide (version = cursorVersion)) then Err (Errorf "cursor is malformed" [])
          else match ParseInt nanos with
               | None => Err (Errorf "cursor carries no timestamp" [])
               | Some nanos =>
                   match uuid_Parse (str id) with
                   | Err _ => Err (Errorf "cursor carries no id" [])
                   | Ok id => Ok (mkAuditCursor nanos id)
                   end
               end
      | _ => Err (Errorf "cursor is malformed" [])
      end
  end.

(** A cursor is read back as the position it was written for, whichever id and whatever
    time a 64-bit count of nanoseconds can hold. What the uuid package writes it reads, and
    there is no dot in it. *)
Theorem cursor_roundtrip c :
  uuid_Parse (uuid_String (acu_ID c)) = Ok (acu_ID c) → "."%char ∉ lit (uuid_String (acu_ID c)) →
  int64_range (acu_At c) → decodeCursor (encodeCursor c) = Ok c.
Proof.
  intros Hid Hdot Ht. unfold decodeCursor, encodeCursor. rewrite wrap64_id by done.
  rewrite base64_roundtrip by by vm_compute.
  assert (Hn : "."%char ∉ FormatInt (acu_At c)).
  { intros Hin. apply FormatInt_chars in Hin as [Hd|Hd]; done. }
  rewrite split_on_app by (vm_compute; set_solver). rewrite split_on_app, split_on_last by done.
  rewrite bool_decide_eq_true_2, ParseInt_FormatInt by done. simpl. rewrite str_lit, Hid. by destruct c.
Qed.
End Cursors.

Definition ex_uuid_String (u : uuid) : string := pretty u.
Definition ex_uuid_Parse (s : string) : result error uuid :=
  match ParseInt (lit s) with Some z => Ok (Z.to_N z) | None => Err (Sentinel "invalid UUID") end.
Definition ex_cursor : AuditCursor := mkAuditCursor 1754000000123456000 77%N.

Lemma cursor_roundtrip_witness : decodeCursor ex_uuid_Parse (encodeCursor ex_uuid_String ex_cursor) = Ok ex_cursor.
Proof.
  apply cursor_roundtrip; [by vm_compute| |by vm_compute].
  apply (bool_decide_unpack _). by vm_compute.
Defined.

(** The decoder also reads what the encoder never writes: a line break in the text and a plus
    sign before the time pass. *)
Lemma decoder_is_lax :
  let raw := lit "1.+5.77" in
  let text := radix_encode RawURLEncoding raw in
  encodeCursor ex_uuid_String (mkAuditCursor 5 77%N) ≠ text ∧
  decodeCursor ex_uuid_Parse text = Ok (mkAuditCursor 5 77%N) ∧
  decodeCursor ex_uuid_Parse (LF :: text) = Ok (mkAuditCursor 5 77%N).
Proof. split_and!; by vm_compute. Qed.
