(* ===== verification/AuditPaging.v ===== *)
(** Paging through the audit log: following the cursors lists every event once, newest first,
    also while events are being added. *)
From Stdlib Require Import Ascii.
From stdpp Require Import gmap.
From S2P Require Import Prelude Sorting Errors Env Bytes Records Accounts AdminDb AccountStore ServiceKeys TenantIds Ledger AuditPage.

(** ** The order of the log *)

Lemma before_spec a b :
  before a b = true ↔ acu_At a < acu_At b ∨ (acu_At a = acu_At b ∧ (acu_ID a < acu_ID b)%N).
Proof. unfold before. rewrite orb_true_iff, andb_true_iff, Z.ltb_lt, Z.eqb_eq, N.ltb_lt. done. Qed.

Lemma before_irrefl a : before a a = false.
Proof. apply not_true_iff_false. rewrite before_spec. lia. Qed.
Lemma before_trans a b c : before a b = true → before b c = true → before a c = true.
Proof. rewrite !before_spec. lia. Qed.
Lemma before_total a b : before a b = false → before b a = false → a = b.
Proof.
  intros Ha%not_true_iff_false Hb%not_true_iff_false. rewrite before_spec in *.
  destruct a as [ta ia], b as [tb ib]. simpl in *. f_equal; lia.
Qed.
Lemma not_before_trans a b c : before a b = false → before b c = false → before a c = false.
Proof.
  intros Ha%not_true_iff_false Hb%not_true_iff_false. apply not_true_iff_false. rewrite before_spec in *. lia.
Qed.

#[export] Instance newer_row_order : LessOrder newer_row.
Proof.
  split; unfold not_after, newer_row.
  - intros a b. destruct (before (key_of a) (key_of b)) eqn:E; [right|by left].
    apply not_true_iff_false. intros E'. pose proof (before_trans _ _ _ E E') as H. by rewrite before_irrefl in H.
  - intros a b c Ha Hb. by eapply not_before_trans.
Qed.

(** Rows have their own place in the order, and whole microseconds. *)
Record log_wf (db : RecordDb) : Prop := {
  log_keys : NoDup (map key_of (r_audit db));
  log_times r : r ∈ r_audit db → pg_time (al_Ts r) = al_Ts r;
}.

Lemma pg_time_idem t : pg_time (pg_time t) = pg_time t.
Proof. unfold pg_time. rewrite Z.div_mul; done. Qed.

(** Which is what the table's primary key keeps. *)
Lemma put_audit_wf db r db' : log_wf db → put_audit db r = Ok db' → log_wf db'.
Proof.
  intros [Hk Ht] Hp. unfold put_audit in Hp. do 3 (case_match; [done|]).
  destruct (existsb _ _) eqn:Ex; [done|]. simplify_eq. split; simpl.
  - rewrite map_app. simpl. apply NoDup_app. split_and!; [done| |apply NoDup_singleton].
    intros k (o & -> & Ho)%list_elem_of_fmap ?%list_elem_of_singleton.
    apply not_true_iff_false in Ex. apply Ex, existsb_exists. exists o. split; [by apply list_elem_of_In|].
    unfold key_of in *. simpl in *. simplify_eq. apply andb_true_iff. split; [by apply N.eqb_eq|by apply Z.eqb_eq].
  - intros x [Hx| ->%list_elem_of_singleton]%elem_of_app; [by apply Ht|]. apply pg_time_idem.
Qed.

(** ** One page *)

Definition in_range (tenant : uuid) (q : AuditQuery) (r : audit_log) : bool :=
  bool_decide (al_TenantID r = Some tenant) && (pg_time (aq_Since q) <=? al_Ts r) && (al_Ts r <? pg_time (aq_Until q)).
Definition older_than (cursor : option AuditCursor) (r : audit_log) : bool :=
  match cursor with Some c => before (key_of r) c | None => true end.

(** The cursors pages hand out. *)
Definition whole (cursor : option AuditCursor) : Prop :=
  match cursor with Some c => pg_time (acu_At c) = acu_At c | None => True end.

Definition wanted (db : RecordDb) (tenant : uuid) (q : AuditQuery) : list audit_log :=
  sort_slice newer_row (List.filter (λ r, in_range tenant q r && older_than (aq_After q) r) (r_audit db)).

Lemma query_wanted db tenant q n :
  whole (aq_After q) →
  ListAuditEntriesForTenantPage db tenant (aq_Since q) (aq_Until q) (aq_After q) n = take (Z.to_nat n) (wanted db tenant q).
Proof.
  intros Hw. unfold ListAuditEntriesForTenantPage, wanted. do 2 f_equal. apply List.filter_ext. intros r.
  unfold in_range, older_than. destruct (aq_After q) as [[at_ id]|]; [|done]. simpl in *. rewrite Hw. f_equal.
  destruct (before (key_of r) (mkAuditCursor at_ id)) eqn:E; [|by rewrite andb_false_r].
  rewrite andb_true_r. apply before_spec in E. simpl in E. apply Z.leb_le. lia.
Qed.

Lemma elem_of_wanted db tenant q r :
  r ∈ wanted db tenant q ↔ r ∈ r_audit db ∧ in_range tenant q r = true ∧ older_than (aq_After q) r = true.
Proof.
  unfold wanted. rewrite sort_slice_elem, list_elem_of_In, filter_In, <- list_elem_of_In, andb_true_iff. done.
Qed.

Definition strictly_newer (a b : audit_log) : Prop := before (key_of b) (key_of a) = true.

Lemma wanted_sorted db tenant q : log_wf db → StronglySorted strictly_newer (wanted db tenant q).
Proof.
  intros [Hk _]. unfold wanted. set (l := List.filter _ _).
  assert (Hl : NoDup (map key_of (sort_slice newer_row l))).
  { rewrite sort_slice_perm. unfold l. clear l. induction (r_audit db) as [|r rs IH]; [constructor|].
    inversion_clear Hk as [|? ? Hr Hrs]. simpl. destruct (_ && _); [|by apply IH]. simpl. constructor; [|by apply IH].
    intros (x & He & Hx)%list_elem_of_fmap. apply Hr. rewrite He.
    apply list_elem_of_In, filter_In in Hx as [Hx _]. apply list_elem_of_fmap_2. by apply list_elem_of_In. }
  pose proof (sort_slice_sorted newer_row l) as Hs. revert Hl.
  induction Hs as [|a rest _ IH Hall]; [constructor|]. intros Hnd. inversion_clear Hnd as [|? ? Ha Hrest].
  constructor; [by apply IH|]. rewrite Forall_forall in *. intros b Hb. specialize (Hall b Hb).
  unfold not_after, newer_row in Hall. unfold strictly_newer.
  destruct (before (key_of b) (key_of a)) eqn:E; [done|]. destruct Ha.
  rewrite (before_total _ _ Hall E). by apply list_elem_of_fmap_2.
Qed.

Lemma sorted_app {A} (R : relation A) l1 l2 :
  StronglySorted R (l1 ++ l2) → StronglySorted R l1 ∧ StronglySorted R l2 ∧ ∀ a b, a ∈ l1 → b ∈ l2 → R a b.
Proof.
  induction l1 as [|x l1 IH]; simpl; [intros; split_and!; [constructor|done|by intros ? ? ?%elem_of_nil]|].
  intros Hs. inversion_clear Hs as [|? ? Hs' Hall]. destruct (IH Hs') as (H1 & H2 & H12).
  rewrite Forall_app in Hall. destruct Hall as [Ha1 Ha2]. split_and!; [by constructor|done|].
  intros a b [->|Ha]%elem_of_cons Hb; [rewrite Forall_forall in Ha2; by apply Ha2|by apply H12].
Qed.

Lemma sorted_app_2 {A} (R : relation A) l1 l2 :
  StronglySorted R l1 → StronglySorted R l2 → (∀ a b, a ∈ l1 → b ∈ l2 → R a b) → StronglySorted R (l1 ++ l2).
Proof.
  induction 1 as [|x l1 _ IH Hall]; intros H2 H12; [done|]. simpl. constructor.
  - apply IH; [done|]. intros a b Ha. by apply H12, list_elem_of_further.
  - apply Forall_app. split; [done|]. apply Forall_forall. intros b. apply H12, list_elem_of_here.
Qed.

Lemma page_limit_range q : AuditQuery_Validate q = None → 0 < page_limit q ≤ MaxAuditLimit.
Proof.
  unfold AuditQuery_Validate, page_limit, MaxAuditLimit, DefaultAuditLimit. intros Hv. repeat case_match; simplify_eq.
  all: lia.
Qed.

(** A page is all there is, or its first rows and a cursor at the last of them. *)
Lemma page_cases limit M :
  0 < limit →
  (Z.of_nat (length M) ≤ limit ∧
   page_of limit (take (Z.to_nat (limit + 1)) M) = mkAuditPage (map auditEvent M) None) ∨
  (∃ M1 x M2, M = (M1 ++ [x]) ++ M2 ∧ Z.of_nat (length (M1 ++ [x])) = limit ∧
     page_of limit (take (Z.to_nat (limit + 1)) M) = mkAuditPage (map auditEvent (M1 ++ [x])) (Some (key_of x))).
Proof.
  intros Hl. unfold page_of. rewrite length_take.
  destruct (limit <? Z.of_nat (Z.to_nat (limit + 1) `min` length M)) eqn:E; [right|left].
  - apply Z.ltb_lt in E.
    assert (Hlast : ∃ M1 x, take (Z.to_nat limit) M = M1 ++ [x]).
    { destruct (take (Z.to_nat limit) M) as [|y ys] eqn:Et using rev_ind; [|eauto].
      apply (f_equal length) in Et. rewrite length_take in Et. simpl in Et. lia. }
    destruct Hlast as (M1 & x & Ht). exists M1, x, (drop (Z.to_nat limit) M).
    rewrite take_take, Nat.min_l, <- Ht by lia. split_and!; [by rewrite take_drop|rewrite length_take; lia|].
    by rewrite Ht, last_snoc.
  - apply Z.ltb_ge in E. split; [lia|]. by rewrite take_ge by lia.
Qed.

(** ** Following the cursors *)

Definition next_query (q : AuditQuery) (c : AuditCursor) : AuditQuery :=
  mkAuditQuery (aq_Tenant q) (aq_Since q) (aq_Until q) (Some c) (aq_Limit q).

(** A client asks again for as long as it is given a cursor, each time of the log as it then
    is; [None] when it has not come to the last page. *)
Fixpoint follow (adb : AccountDb) (c : TenantIDs) (logs : list RecordDb) (q : AuditQuery) : option (list AuditPage) :=
  match logs with
  | [] => None
  | db :: logs =>
      match ListAudit adb None None c db q with
      | (c, Ok p) =>
          match pg_Next p with
          | None => Some [p]
          | Some cursor => cons p <$> follow adb c logs (next_query q cursor)
          end
      | (_, Err _) => None
      end
  end.

Definition events (pages : list AuditPage) : list AuditEvent := concat (map pg_Events pages).
Definition event_key (e : AuditEvent) : AuditCursor := mkAuditCursor (ev_At e) (ev_ID e).
Definition newer_event (a b : AuditEvent) : Prop := before (event_key b) (event_key a) = true.

Section Paging.
Context (adb : AccountDb) (Hadb : accounts_wf adb) (tenant : uuid).

Lemma ListAudit_page c db q :
  cache_ok adb c → same_tenant adb (aq_Tenant q) tenant → AuditQuery_Validate q = None → whole (aq_After q) →
  ∃ c', cache_ok adb c' ∧
    ListAudit adb None None c db q =
      (c', Ok (page_of (page_limit q) (take (Z.to_nat (page_limit q + 1)) (wanted db tenant q)))).
Proof.
  intros Hc Hten Hv Hw. pose proof (page_limit_range q Hv) as Hl. unfold ListAudit. rewrite Hv.
  destruct (TenantIDs_Lookup adb None c (aq_Tenant q)) as [c' r] eqn:El.
  destruct (Lookup_answer adb Hadb None c _ c' r Hc El) as [Hc' Hr]. destruct r as [id|e].
  - exists c'. split; [done|]. rewrite (same_tenant_id adb Hadb _ _ _ Hr Hten), query_wanted by done.
    unfold MaxAuditLimit in Hl. unfold int32. rewrite Z.mod_small by lia. do 5 f_equal. lia.
  - destruct Hr as [_ Hr]. by destruct (Hr tenant).
Qed.

Lemma in_range_next q c r : in_range tenant (next_query q c) r = in_range tenant q r.
Proof. done. Qed.

(** What the pages from here on list. *)
Definition lists (db0 : RecordDb) (logs : list RecordDb) (q : AuditQuery) (es : list AuditEvent) : Prop :=
  StronglySorted newer_event es ∧
  (∀ r, r ∈ r_audit db0 → in_range tenant q r = true → older_than (aq_After q) r = true → auditEvent r ∈ es) ∧
  (∀ e, e ∈ es → ∃ db r, db ∈ logs ∧ r ∈ r_audit db ∧ in_range tenant q r = true ∧
                         older_than (aq_After q) r = true ∧ e = auditEvent r).

Lemma sorted_events rows : StronglySorted strictly_newer rows → StronglySorted newer_event (map auditEvent rows).
Proof.
  induction 1 as [|r rows _ IH Hall]; simpl; constructor; [done|].
  apply Forall_forall. intros e (x & -> & Hx)%list_elem_of_fmap. rewrite Forall_forall in Hall. by apply Hall.
Qed.

Lemma follow_lists db0 c logs q pages :
  cache_ok adb c → same_tenant adb (aq_Tenant q) tenant → AuditQuery_Validate q = None → whole (aq_After q) →
  Forall (λ db, log_wf db ∧ r_audit db0 ⊆ r_audit db) logs →
  follow adb c logs q = Some pages →
  lists db0 logs q (events pages) ∧ Forall (λ p, Z.of_nat (length (pg_Events p)) ≤ page_limit q) pages.
Proof.
  revert c q pages. induction logs as [|db logs IH]; intros c q pages Hc Hten Hv Hw Hlogs Hf; [done|].
  inversion_clear Hlogs as [|? ? [Hwf Hsub] Hlogs']. simpl in Hf.
  destruct (ListAudit_page c db q Hc Hten Hv Hw) as (c' & Hc' & El). rewrite El in Hf.
  pose proof (page_limit_range q Hv) as Hl. pose proof (wanted_sorted db tenant q Hwf) as Hsorted.
  assert (Hin : ∀ r, r ∈ r_audit db0 → in_range tenant q r = true → older_than (aq_After q) r = true → r ∈ wanted db tenant q).
  { intros r Hr Hrange Hold. apply elem_of_wanted. auto. }
  destruct (page_cases (page_limit q) (wanted db tenant q) ltac:(lia)) as [[Hlen Hp]|(M1 & z & M2 & HM & Hlen & Hp)];
    rewrite Hp in Hf; simpl in Hf.
  - simplify_eq. unfold lists, events. simpl. rewrite app_nil_r. split_and!.
    + by apply sorted_events.
    + intros r Hr Hrange Hold. apply list_elem_of_fmap_2. auto.
    + intros e (r & -> & (? & ? & ?)%elem_of_wanted)%list_elem_of_fmap. exists db, r.
      split_and!; [apply list_elem_of_here|done..].
    + constructor; [|constructor]. simpl. by rewrite length_map.
  - destruct (follow adb c' logs (next_query q (key_of z))) as [rest|] eqn:Erest; [|done]. injection Hf as <-.
    assert (Hx : z ∈ wanted db tenant q) by (rewrite HM; set_solver).
    apply elem_of_wanted in Hx as (Hxin & Hxrange & Hxold).
    rewrite HM in Hsorted. apply sorted_app in Hsorted as (Hs1 & _ & H12).
    destruct (sorted_app _ _ _ Hs1) as (_ & _ & H1x).
    assert (Hlast : ∀ r, r ∈ M1 ++ [z] → r = z ∨ strictly_newer r z).
    { intros r [Hr|Hr]%elem_of_app; [right; apply H1x; [done|set_solver]|left; set_solver]. }
    destruct (IH c' (next_query q (key_of z)) rest Hc' Hten) as ((Hs & Hall & Hfrom) & Hsizes); [exact Hv| |done|done|].
    { unfold whole. simpl. by apply (log_times _ Hwf). }
    split; [|constructor; [simpl; rewrite length_map; lia|exact Hsizes]].
    unfold lists, events in *. simpl. split_and!.
    + apply sorted_app_2; [by apply sorted_events|done|].
      intros e1 e2 (r1 & -> & Hr1)%list_elem_of_fmap He2.
      destruct (Hfrom e2 He2) as (db2 & r2 & _ & _ & _ & Hold2 & ->). simpl in Hold2.
      destruct (Hlast r1 Hr1) as [->|Hr1x]; [done|]. unfold newer_event, strictly_newer in *.
      by eapply before_trans.
    + intros r Hr Hrange Hold. apply elem_of_app.
      destruct (before (key_of r) (key_of z)) eqn:E; [right; by apply Hall|left].
      apply list_elem_of_fmap_2. pose proof (Hin r Hr Hrange Hold) as Hrw. rewrite HM in Hrw.
      apply elem_of_app in Hrw as [?|Hr2]; [done|]. exfalso.
      assert (strictly_newer z r) as Hxr by (apply H12; [set_solver|done]).
      unfold strictly_newer in Hxr. congruence.
    + intros e [(r & -> & Hr)%list_elem_of_fmap|He]%elem_of_app.
      * assert (Hrw : r ∈ wanted db tenant q) by (rewrite HM; set_solver).
        apply elem_of_wanted in Hrw as (? & ? & ?). exists db, r. split_and!; [apply list_elem_of_here|done..].
      * destruct (Hfrom e He) as (db2 & r & Hdb2 & ? & ? & Hold2 & ->). exists db2, r.
        split_and!; [by apply list_elem_of_further|done|done| |done]. simpl in Hold2.
        unfold older_than in *. destruct (aq_After q); [|done]. by eapply before_trans.
Qed.

Lemma filter_shorter {A} (P Q : A → bool) l x :
  (∀ y, Q y = true → P y = true) → x ∈ l → P x = true → Q x = false →
  (length (List.filter Q l) < length (List.filter P l))%nat.
Proof.
  intros HQP Hx HP HQ.
  assert (Hle : ∀ l, (length (List.filter Q l) ≤ length (List.filter P l))%nat).
  { clear -HQP. intros l. induction l as [|y l IH]; simpl; [lia|]. specialize (HQP y).
    destruct (Q y); [rewrite HQP by done; simpl; lia|]. destruct (P y); simpl; lia. }
  induction l as [|y l IH]; [by apply elem_of_nil in Hx|]. simpl. apply elem_of_cons in Hx as [<-|Hx].
  - rewrite HP, HQ. simpl. specialize (Hle l). lia.
  - specialize (IH Hx). specialize (HQP y).
    destruct (Q y); [rewrite HQP by done; simpl; lia|]. destruct (P y); simpl; lia.
Qed.

Lemma follow_ends db c n q :
  log_wf db → cache_ok adb c → same_tenant adb (aq_Tenant q) tenant → AuditQuery_Validate q = None →
  whole (aq_After q) → (length (wanted db tenant q) < n)%nat → is_Some (follow adb c (replicate n db) q).
Proof.
  intros Hwf. revert c q. induction n as [|n IH]; intros c q Hc Hten Hv Hw Hn; [lia|]. simpl.
  destruct (ListAudit_page c db q Hc Hten Hv Hw) as (c' & Hc' & ->).
  pose proof (page_limit_range q Hv) as Hl.
  destruct (page_cases (page_limit q) (wanted db tenant q) ltac:(lia)) as [[_ ->]|(M1 & z & M2 & HM & _ & ->)]; simpl; [done|].
  assert (Hz : z ∈ wanted db tenant q) by (rewrite HM; set_solver).
  apply elem_of_wanted in Hz as (Hzin & Hzrange & Hzold).
  apply fmap_is_Some, IH; [done|done|exact Hv|by apply (log_times _ Hwf)|].
  assert (Hlt : (length (wanted db tenant (next_query q (key_of z))) < length (wanted db tenant q))%nat); [|lia].
  unfold wanted. rewrite !(Permutation_length (sort_slice_perm _ _)). apply (filter_shorter _ _ _ z).
  - intros r [Hr Hold]%andb_true_iff. apply andb_true_iff. split; [done|]. simpl in Hold.
    unfold older_than in *. destruct (aq_After q); [by eapply before_trans|done].
  - done.
  - by rewrite Hzrange.
  - simpl. by rewrite before_irrefl, andb_false_r.
Qed.

(** C33. A client that follows the cursors to the last page is shown every event of the tenant
    and range that was in the log when it began, and no event that is not one, newest first
    and none twice, however many events are added between its requests; no page is longer
    than it asked for. *)
Theorem paging_complete db0 c logs q pages :
  cache_ok adb c → same_tenant adb (aq_Tenant q) tenant → AuditQuery_Validate q = None → aq_After q = None →
  Forall (λ db, log_wf db ∧ r_audit db0 ⊆ r_audit db) logs →
  follow adb c logs q = Some pages →
  StronglySorted newer_event (events pages) ∧
  (∀ r, r ∈ r_audit db0 → in_range tenant q r = true → auditEvent r ∈ events pages) ∧
  (∀ e, e ∈ events pages → ∃ db r, db ∈ logs ∧ r ∈ r_audit db ∧ in_range tenant q r = true ∧ e = auditEvent r) ∧
  Forall (λ p, Z.of_nat (length (pg_Events p)) ≤ page_limit q) pages.
Proof.
  intros Hc Hten Hv Hafter Hlogs Hf.
  destruct (follow_lists db0 c logs q pages Hc Hten Hv ltac:(by rewrite Hafter) Hlogs Hf) as ((Hs & Hall & Hfrom) & Hsizes).
  rewrite Hafter in Hall, Hfrom. split_and!; [done| | |done].
  - intros r Hr Hrange. by apply Hall.
  - intros e He. destruct (Hfrom e He) as (db & r & ? & ? & ? & _ & ?). eauto 10.
Qed.

(** Of a log that stays as it is the client comes to the last page, after no more requests
    than there are events and one. *)
Theorem paging_ends db c q :
  log_wf db → cache_ok adb c → same_tenant adb (aq_Tenant q) tenant → AuditQuery_Validate q = None →
  aq_After q = None →
  is_Some (follow adb c (replicate (S (length (List.filter (in_range tenant q) (r_audit db)))) db) q).
Proof.
  intros Hwf Hc Hten Hv Hafter. apply follow_ends; [done|done|done|done|by rewrite Hafter|].
  unfold wanted. rewrite (Permutation_length (sort_slice_perm _ _)), Hafter.
  replace (List.filter (λ r, in_range tenant q r && older_than None r) (r_audit db))
    with (List.filter (in_range tenant q) (r_audit db)); [lia|].
  apply List.filter_ext. intros r. simpl. by rewrite andb_true_r.
Qed.
End Paging.

(** ** An example *)

Definition ex_row (i : nat) : audit_log :=
  mkAuditLog (N.of_nat i) (Z.of_nat (i / 2) * Second) (Some 7%N) None gatewayActor routeAction None None None None [] []
    None None None.
Definition ex_log (n : nat) : RecordDb := mkRecordDb [] (map ex_row (seq 2 n)) (λ _, true).
Definition ex_audit_query : AuditQuery := mkAuditQuery "acme" 1 (100 * Second) None 2.

Lemma ex_log_wf n : bool_decide (NoDup (map key_of (r_audit (ex_log n)))) = true → log_wf (ex_log n).
Proof.
  intros Hn. apply bool_decide_eq_true in Hn. split; [done|].
  intros r (i & -> & _)%list_elem_of_fmap. unfold ex_row. cbn [al_Ts]. unfold pg_time, Second, Microsecond.
  replace (Z.of_nat (i / 2) * 1000000000) with (Z.of_nat (i / 2) * 1000000 * 1000) by lia. by rewrite Z.div_mul.
Qed.

(** Two events are added between its two requests. *)
Definition ex_logs : list RecordDb := [ex_log 3; ex_log 5].
Definition ex_pages : list AuditPage := default [] (follow ex_tenants NewTenantIDs ex_logs ex_audit_query).
Lemma ex_pages_follow : follow ex_tenants NewTenantIDs ex_logs ex_audit_query = Some ex_pages.
Proof. by vm_compute. Qed.
Lemma ex_same_tenant : same_tenant ex_tenants "acme" 7%N.
Proof. by exists ex_tenant. Qed.

Example ex_pages_ids : map (map ev_ID) (map pg_Events ex_pages) = [[4; 3]; [2]]%N.
Proof. by vm_compute. Qed.

Lemma paging_complete_witness :
  StronglySorted newer_event (events ex_pages) ∧
  (∀ r, r ∈ r_audit (ex_log 3) → in_range 7%N ex_audit_query r = true → auditEvent r ∈ events ex_pages) ∧
  (∀ e, e ∈ events ex_pages →
     ∃ db r, db ∈ ex_logs ∧ r ∈ r_audit db ∧ in_range 7%N ex_audit_query r = true ∧ e = auditEvent r) ∧
  Forall (λ p, Z.of_nat (length (pg_Events p)) ≤ page_limit ex_audit_query) ex_pages.
Proof.
  refine (paging_complete ex_tenants ex_tenants_wf 7%N (ex_log 3) NewTenantIDs ex_logs ex_audit_query ex_pages
            (NewTenantIDs_ok _) ex_same_tenant eq_refl eq_refl _ ex_pages_follow).
  unfold ex_logs. rewrite !Forall_cons. split_and!; [apply ex_log_wf; by vm_compute|done|apply ex_log_wf; by vm_compute| |done].
  simpl. set_solver.
Defined.

Lemma paging_ends_witness :
  is_Some (follow ex_tenants NewTenantIDs
    (replicate (S (length (List.filter (in_range 7%N ex_audit_query) (r_audit (ex_log 5))))) (ex_log 5)) ex_audit_query).
Proof.
  apply (paging_ends ex_tenants ex_tenants_wf 7%N);
    [apply ex_log_wf; by vm_compute|apply NewTenantIDs_ok|exact ex_same_tenant|done|done].
Defined.
