(* ===== verification/UsageReport.v ===== *)
(** The spend report: [ReportSpec] of [internal/ports/store.go], the aggregates of
    [db/gen/usage_ledger.sql.go] and [ObservabilityRepo.Aggregate] of
    [internal/adapters/repositories/observability.go].

    Days are told in the database's time zone and latency percentiles are floating-point
    numbers: both are parameters. *)
From Stdlib Require Import Ascii.
From stdpp Require Import gmap.
From S2P Require Import Prelude Sorting Errors Env Bytes Money Records Accounts AdminDb AccountStore ServiceKeys TenantIds Ledger.

(** ** Asking *)

(** [src/internal/ports/store.go:84-93] GroupBy, GroupByNone, GroupByModel, GroupByTarget, GroupByStatus, GroupByMetadata, GroupByDay *)
Definition GroupBy := string.
Definition GroupByNone : GroupBy := "none".
Definition GroupByModel : GroupBy := "model".
Definition GroupByTarget : GroupBy := "target".
Definition GroupByStatus : GroupBy := "status".
Definition GroupByMetadata : GroupBy := "metadata".
Definition GroupByDay : GroupBy := "day".

(** [src/internal/ports/store.go:89-103] GroupBys, GroupBy.Valid *)
Definition GroupBys : list GroupBy :=
  [GroupByNone; GroupByModel; GroupByTarget; GroupByStatus; GroupByMetadata; GroupByDay].
Definition GroupBy_Valid (g : GroupBy) : bool := existsb (String.eqb g) GroupBys.

(** [src/internal/ports/store.go:29-47] ReportSpec *)
Record ReportSpec := mkReportSpec {
  rs_Tenant : Tenant;
  rs_Since : time;
  rs_Until : time;
  rs_GroupBy : GroupBy;
  rs_MetaKey : string;
  rs_Limit : Z;
}.

(** [src/internal/ports/store.go:49-53] DefaultReportLimit, MaxReportLimit *)
Definition DefaultReportLimit : Z := 500.
Definition MaxReportLimit : Z := 5000.

(** [src/internal/ports/store.go:55-78] ReportSpec.Validate *)
Definition ReportSpec_Validate (s : ReportSpec) : option error :=
  if IsZero (rs_Since s) || IsZero (rs_Until s) then Some (Errorf "report: since and until are required" [])
  else if negb (Before (rs_Since s) (rs_Until s))
  then Some (Errorf "report: since (%s) must be before until (%s)" [ATime (rs_Since s); ATime (rs_Until s)])
  else if String.eqb (rs_GroupBy s) GroupByMetadata && String.eqb (rs_MetaKey s) ""
  then Some (Errorf "report: grouping by metadata needs a key" [])
  else if rs_Limit s <? 0 then Some (Errorf "report: limit must not be negative" [])
  else if MaxReportLimit <? rs_Limit s
  then Some (Errorf "report: limit %d is above the maximum of %d" [AInt (rs_Limit s); AInt MaxReportLimit])
  else if negb (String.eqb (rs_GroupBy s) "") && negb (GroupBy_Valid (rs_GroupBy s))
  then Some (Errorf "report: unknown grouping %q" [AStr (rs_GroupBy s)])
  else None.

(** [src/internal/core/domains/report.go:12-16] ReportRange *)
Record ReportRange := mkReportRange { range_Tenant : Tenant; range_Since : time; range_Until : time }.
(** [src/internal/core/domains/report.go:5-10] Report *)
Record Report := mkReport {
  rep_Spec : ReportRange;
  rep_Rows : list ReportRow;
  rep_Total : ReportRow;
  rep_TruncatedGroups : Z;
}.

(** ** The queries *)

Definition sum {A} (f : A → Z) (l : list A) : Z := foldr (λ a n, f a + n) 0 l.
Definition count {A} (p : A → bool) (l : list A) : Z := sum (λ a, if p a then 1 else 0) l.

Section Report.
Context (day_text : time → string) (percentiles : list ledger_row → Z * Z * Z).

(** The group a row belongs to. *)
Definition group_key (group_by : GroupBy) (meta_key : string) (r : ledger_row) : string :=
  if String.eqb group_by GroupByModel then l_RequestedModel r
  else if String.eqb group_by GroupByTarget then default "(unserved)" (l_ChosenTarget r)
  else if String.eqb group_by GroupByStatus then l_Status r
  else if String.eqb group_by GroupByDay then day_text (l_StartedAt r)
  else if String.eqb group_by GroupByMetadata then default "(unset)" (l_Metadata r !! meta_key)
  else "".

Definition in_report (tenant : uuid) (since until : time) (r : ledger_row) : bool :=
  N.eqb (l_TenantID r) tenant && (pg_time since <=? l_StartedAt r) && (l_StartedAt r <? pg_time until).

Definition status_is (s : Status) (r : ledger_row) : bool := String.eqb (l_Status r) s.

(** The figures of a group of rows. *)
Definition group_row (key : string) (rows : list ledger_row) : ReportRow :=
  let '(p50_ttft, p95_ttft, p95_total) := percentiles rows in
  mkReportRow key (Z.of_nat (length rows)) (sum (λ r, default 0 (l_CostNanos r)) rows)
    (count (λ r, bool_decide (l_CostNanos r = None)) rows)
    (mkTokenUsage (sum l_InputTokens rows) (sum l_OutputTokens rows) (sum l_CacheWriteTokens rows)
       (sum l_CacheReadTokens rows) (sum l_ReasoningTokens rows))
    ∅ (count (status_is StatusOK) rows) (count (status_is StatusExhausted) rows)
    (count (status_is StatusTruncated) rows) (count (status_is StatusClientDisconnect) rows)
    p50_ttft p95_ttft p95_total.

Definition row_fits (r : ReportRow) : bool :=
  bool_decide (Forall int64_range
    [row_Cost r; Input (row_Usage r); Output (row_Usage r); CacheWrite (row_Usage r); CacheRead (row_Usage r);
     Reasoning (row_Usage r)]).
Definition dearer (a b : ReportRow) : bool :=
  (row_Cost b <? row_Cost a) || ((row_Cost a =? row_Cost b) && (row_Requests b <? row_Requests a)).
Definition out_of_range : error := Errorf "ERROR: bigint out of range" [].

Definition group_keys (key : ledger_row → string) (rows : list ledger_row) : list string := remove_dups (map key rows).
Definition group_of (key : ledger_row → string) (rows : list ledger_row) (k : string) : list ledger_row :=
  List.filter (λ r, String.eqb (key r) k) rows.

(** With how many groups there were before the limit, which every row carries.

    [src/db/gen/usage_ledger.sql.go:91-217] AggregateUsage *)
Definition AggregateUsage (db : RecordDb) (tenant : uuid) (since until : time) (group_by : GroupBy) (meta_key : string)
    (limit : Z) : result error (list ReportRow * Z) :=
  if negb (pg_text meta_key) then Err encoding_error
  else
    let rows := List.filter (in_report tenant since until) (r_ledger db) in
    let key := group_key group_by meta_key in
    let grouped := map (λ k, group_row k (group_of key rows k)) (group_keys key rows) in
    if forallb row_fits grouped
    then Ok (take (Z.to_nat limit) (sort_slice dearer grouped), Z.of_nat (length grouped))
    else Err out_of_range.

(** A comparison of one group with one target. *)
Record compared := mkCompared { c_Key : string; c_Target : string; c_Comparison : Comparison }.

(** Every alternative a row was priced at, with the row's group. *)
Definition alternatives (key : ledger_row → string) (rows : list ledger_row) : list (string * Counterfactual) :=
  concat (map (λ r, map (λ cf, (key r, cf)) (l_Counterfactuals r)) rows).
Definition alternatives_of (alts : list (string * Counterfactual)) (k target : string) : list (string * Counterfactual) :=
  List.filter (λ a, String.eqb a.1 k && String.eqb (cf_Target a.2) target) alts.

(** [src/db/gen/usage_ledger.sql.go:15-89] AggregateCounterfactuals *)
Definition AggregateCounterfactuals (db : RecordDb) (tenant : uuid) (since until : time) (group_by : GroupBy)
    (meta_key : string) : result error (list compared) :=
  if negb (pg_text meta_key) then Err encoding_error
  else
    let rows := List.filter (in_report tenant since until) (r_ledger db) in
    let alts := alternatives (group_key group_by meta_key) rows in
    let out := map (λ kt, mkCompared kt.1 kt.2
                     (mkComparison (sum (λ a, cf_Cost a.2) (alternatives_of alts kt.1 kt.2))
                        (Z.of_nat (length (alternatives_of alts kt.1 kt.2)))))
                 (remove_dups (map (λ a, (a.1, cf_Target a.2)) alts)) in
    if forallb (λ c, bool_decide (int64_range (cmp_Cost (c_Comparison c)))) out then Ok out else Err out_of_range.

(** ** The report *)

Definition with_comparisons (r : ReportRow) (m : gmap string Comparison) : ReportRow :=
  mkReportRow (row_Key r) (row_Requests r) (row_Cost r) (row_Unpriced r) (row_Usage r) m (row_OK r) (row_Failed r)
    (row_Truncated r) (row_Disconnected r) (row_P50TTFTMs r) (row_P95TTFTMs r) (row_P95TotalMs r).

(** What the map built from these holds for a key: later ones replace earlier ones. *)
Definition byKey (found : list compared) (key : string) : gmap string Comparison :=
  fold_left (λ m c, if String.eqb (c_Key c) key then <[c_Target c := c_Comparison c]> m else m) found ∅.

(** [src/internal/adapters/repositories/observability.go:242-275] ObservabilityRepo.attachComparisons *)
Definition attachComparisons (found : list compared) (rows : list ReportRow) : list ReportRow :=
  map (λ r, with_comparisons r (byKey found (row_Key r))) rows.

Definition zero_row : ReportRow := mkReportRow "" 0 0 0 (mkTokenUsage 0 0 0 0 0) ∅ 0 0 0 0 0 0 0.
Definition add_comparison (a b : Comparison) : Comparison :=
  mkComparison (wrap64 (cmp_Cost a + cmp_Cost b)) (wrap64 (cmp_Requests a + cmp_Requests b)).

(** One row added to the total. *)
Definition add_row (total r : ReportRow) : ReportRow :=
  mkReportRow (row_Key total) (wrap64 (row_Requests total + row_Requests r)) (wrap64 (row_Cost total + row_Cost r))
    (wrap64 (row_Unpriced total + row_Unpriced r))
    (mkTokenUsage (wrap64 (Input (row_Usage total) + Input (row_Usage r)))
       (wrap64 (Output (row_Usage total) + Output (row_Usage r)))
       (wrap64 (CacheWrite (row_Usage total) + CacheWrite (row_Usage r)))
       (wrap64 (CacheRead (row_Usage total) + CacheRead (row_Usage r)))
       (wrap64 (Reasoning (row_Usage total) + Reasoning (row_Usage r))))
    (union_with (λ a b, Some (add_comparison a b)) (row_Comparisons total) (row_Comparisons r))
    (wrap64 (row_OK total + row_OK r)) (wrap64 (row_Failed total + row_Failed r))
    (wrap64 (row_Truncated total + row_Truncated r)) (wrap64 (row_Disconnected total + row_Disconnected r))
    (row_P50TTFTMs total) (row_P95TTFTMs total) (row_P95TotalMs total).

(** [src/internal/adapters/repositories/observability.go:277-303] totalise *)
Definition totalise (rows : list ReportRow) : ReportRow := fold_left add_row rows zero_row.

Definition report_limit (s : ReportSpec) : Z := if rs_Limit s =? 0 then DefaultReportLimit else rs_Limit s.

(** [f1], [f2] and [f3] are failures of the lookup, and of the two queries with the transaction
    around them.

    [src/internal/adapters/repositories/observability.go:152-240] ObservabilityRepo.Aggregate *)
Definition Aggregate (adb : AccountDb) (f1 f2 f3 : option error) (c : TenantIDs) (db : RecordDb) (spec : ReportSpec)
    : TenantIDs * result error Report :=
  match ReportSpec_Validate spec with
  | Some err => (c, Err err)
  | None =>
      let range := mkReportRange (rs_Tenant spec) (rs_Since spec) (rs_Until spec) in
      match TenantIDs_Lookup adb f1 c (rs_Tenant spec) with
      | (c, Err err) => (c, if Is err ErrUnknownTenant then Ok (mkReport range [] zero_row 0) else Err err)
      | (c, Ok tenant) =>
          (c,
           match match f2 with Some e => Err e | None =>
                   AggregateUsage db tenant (rs_Since spec) (rs_Until spec) (rs_GroupBy spec) (rs_MetaKey spec)
                     (int32 (report_limit spec)) end with
           | Err err => Err (Errorf "postgres: aggregate: %w" [AWrap err])
           | Ok (rows, totalGroups) =>
               match match f3 with Some e => Err e | None =>
                       AggregateCounterfactuals db tenant (rs_Since spec) (rs_Until spec) (rs_GroupBy spec)
                         (rs_MetaKey spec) end with
               | Err err => Err (Errorf "postgres: comparisons: %w" [AWrap err])
               | Ok found =>
                   let totalGroups := match rows with [] => 0 | _ => totalGroups end in
                   let rows := attachComparisons found rows in
                   let n := Z.of_nat (length rows) in
                   Ok (mkReport range rows (totalise rows) (if n <? totalGroups then totalGroups - n else 0))
               end
           end)
      end
  end.
End Report.
