(* ===== verification/UsageReportProps.v ===== *)
(** What a spend report adds up to: every request of the range is in exactly one row, and the
    total does not depend on how the rows were grouped. *)
From Stdlib Require Import Ascii.
From stdpp Require Import gmap.
From S2P Require Import Prelude Sorting Errors Env Bytes Money Records Accounts AdminDb AccountStore ServiceKeys TenantIds Ledger UsageReport LedgerExamples.

(** ** Sums *)

Lemma sum_app {A} (f : A → Z) l l' : sum f (l ++ l') = sum f l + sum f l'.
Proof. induction l; simpl; lia. Qed.

Lemma sum_perm {A} (f : A → Z) l l' : l ≡ₚ l' → sum f l = sum f l'.
Proof. induction 1; simpl; lia. Qed.

Lemma sum_map {A B} (g : A → B) (f : B → Z) l : sum f (map g l) = sum (λ a, f (g a)) l.
Proof. induction l; simpl; congruence. Qed.

Lemma sum_ext {A} (f g : A → Z) l : (∀ a, a ∈ l → f a = g a) → sum f l = sum g l.
Proof.
  induction l as [|a l IH]; intros H; [done|]. simpl. rewrite H, IH by set_solver. done.
Qed.

Lemma sum_length {A} (l : list A) : sum (λ _, 1) l = Z.of_nat (length l).
Proof. induction l; simpl; lia. Qed.

Lemma sum_plus {A} (f g : A → Z) l : sum (λ a, f a + g a) l = sum f l + sum g l.
Proof. induction l; simpl; lia. Qed.

(** What one key contributes, where the keys are distinct. *)
Lemma sum_one {K} `{EqDecision K} (k : K) (n : Z) ks :
  NoDup ks → k ∈ ks → sum (λ k', if bool_decide (k = k') then n else 0) ks = n.
Proof.
  induction 1 as [|k' ks Hk Hnd IH]; intros Hin; [by apply elem_of_nil in Hin|]. simpl.
  destruct (decide (k = k')) as [->|Hne].
  - rewrite bool_decide_true by done. rewrite (sum_ext _ (λ _, 0)).
    + clear. induction ks; simpl in *; lia.
    + intros k Hks. by rewrite bool_decide_false by congruence.
  - rewrite bool_decide_false by done. rewrite IH by set_solver. lia.
Qed.

(** Summing group by group is summing. *)
Lemma sum_groups {A K} `{EqDecision K} (key : A → K) (f : A → Z) ks l :
  NoDup ks → (∀ a, a ∈ l → key a ∈ ks) →
  sum (λ k, sum f (List.filter (λ a, bool_decide (key a = k)) l)) ks = sum f l.
Proof.
  intros Hnd. induction l as [|a l IH]; intros Hk; simpl.
  - clear. induction ks; simpl in *; lia.
  - rewrite <- IH by set_solver. rewrite <- (sum_one (key a) (f a) ks) by set_solver.
    rewrite <- sum_plus. apply sum_ext. intros k _. by destruct (bool_decide (key a = k)).
Qed.

Lemma filter_ext {A} (p q : A → bool) l : (∀ a, p a = q a) → List.filter p l = List.filter q l.
Proof. intros H. induction l as [|a l IH]; [done|]. simpl. by rewrite H, IH. Qed.

Lemma eqb_decide (a b : string) : String.eqb a b = bool_decide (a = b).
Proof. destruct (String.eqb_spec a b); [by rewrite bool_decide_true|by rewrite bool_decide_false]. Qed.

Lemma group_of_decide key rows k : group_of key rows k = List.filter (λ r, bool_decide (key r = k)) rows.
Proof. apply filter_ext. intros r. apply eqb_decide. Qed.

Lemma group_keys_elem key rows r : r ∈ rows → key r ∈ group_keys key rows.
Proof. intros Hr. apply elem_of_remove_dups, list_elem_of_In, in_map. by apply list_elem_of_In. Qed.

(** ** The total *)

Lemma totalise_mod (m : ReportRow → Z) rows z :
  (∀ a b, wrap64 (m (add_row a b)) = wrap64 (m a + m b)) →
  wrap64 (m (fold_left add_row rows z)) = wrap64 (m z + sum m rows).
Proof.
  intros Hm. revert z. induction rows as [|r rows IH]; intros z; simpl; [f_equal; lia|].
  rewrite IH. rewrite <- wrap64_add_l, Hm, wrap64_add_l. f_equal. lia.
Qed.

Lemma totalise_sum (m : ReportRow → Z) rows :
  m zero_row = 0 → (∀ a b, m (add_row a b) = wrap64 (m a + m b)) → m (totalise rows) = wrap64 (sum m rows).
Proof.
  intros Hz Hm.
  assert (Hr : int64_range (m (totalise rows))).
  { unfold totalise. destruct rows as [|r rows] using rev_ind; [simpl; rewrite Hz; unfold int64_range; lia|].
    rewrite fold_left_app. simpl. rewrite Hm. apply wrap64_range. }
  rewrite <- (wrap64_id _ Hr). unfold totalise. rewrite totalise_mod by (intros; by rewrite Hm, wrap64_idem).
  by rewrite Hz.
Qed.

(** Each figure of a row, with what one request contributes to it. *)
Definition figures : list ((ReportRow → Z) * (ledger_row → Z)) :=
  [(row_Requests, λ _, 1);
   (row_Cost, λ r, default 0 (l_CostNanos r));
   (row_Unpriced, λ r, if bool_decide (l_CostNanos r = None) then 1 else 0);
   (λ r, Input (row_Usage r), l_InputTokens);
   (λ r, Output (row_Usage r), l_OutputTokens);
   (λ r, CacheWrite (row_Usage r), l_CacheWriteTokens);
   (λ r, CacheRead (row_Usage r), l_CacheReadTokens);
   (λ r, Reasoning (row_Usage r), l_ReasoningTokens);
   (row_OK, λ r, if status_is StatusOK r then 1 else 0);
   (row_Failed, λ r, if status_is StatusExhausted r then 1 else 0);
   (row_Truncated, λ r, if status_is StatusTruncated r then 1 else 0);
   (row_Disconnected, λ r, if status_is StatusClientDisconnect r then 1 else 0)].

Lemma figures_add m f : (m, f) ∈ figures →
  m zero_row = 0 ∧ (∀ a b, m (add_row a b) = wrap64 (m a + m b)) ∧ (∀ r cs, m (with_comparisons r cs) = m r).
Proof.
  intros H. unfold figures in H. repeat (apply elem_of_cons in H as [[= -> ->]|H]; [done|]). by apply elem_of_nil in H.
Qed.

Lemma figures_group percentiles k rows m f : (m, f) ∈ figures → m (group_row percentiles k rows) = sum f rows.
Proof.
  intros H. unfold group_row. destruct (percentiles rows) as [[p q] t]. unfold figures in H.
  repeat (apply elem_of_cons in H as [[= -> ->]|H]; [try done; simpl; by rewrite sum_length|]).
  by apply elem_of_nil in H.
Qed.

Lemma group_row_key percentiles k rows : row_Key (group_row percentiles k rows) = k.
Proof. unfold group_row. by destruct (percentiles rows) as [[p q] t]. Qed.

(** ** The comparisons *)

(** Each figure of a comparison, with what one alternative contributes to it. *)
Definition comparison_figures : list ((Comparison → Z) * (Counterfactual → Z)) :=
  [(cmp_Cost, cf_Cost); (cmp_Requests, λ _, 1)].

(** What a row says of a target it was compared with; nothing counts as zero. *)
Definition against (m : Comparison → Z) (target : string) (r : ReportRow) : Z :=
  default 0 (m <$> row_Comparisons r !! target).

(** What a request contributes to the comparison with a target. *)
Definition alternative_at (f : Counterfactual → Z) (target : string) (r : ledger_row) : Z :=
  sum (λ cf, if String.eqb (cf_Target cf) target then f cf else 0) (l_Counterfactuals r).

Lemma against_add m f target a b : (m, f) ∈ comparison_figures →
  wrap64 (against m target (add_row a b)) = wrap64 (against m target a + against m target b).
Proof.
  intros H. unfold against, add_row. simpl. rewrite lookup_union_with.
  destruct (row_Comparisons a !! target) as [x|], (row_Comparisons b !! target) as [y|]; simpl; try (f_equal; lia).
  unfold comparison_figures in H. apply elem_of_cons in H as [[= -> ->]|H]; [apply wrap64_idem|].
  apply list_elem_of_singleton in H as [= -> ->]. apply wrap64_idem.
Qed.

Lemma byKey_lookup (cmp : string * string → Comparison) pairs k target :
  byKey (map (λ kt, mkCompared kt.1 kt.2 (cmp kt)) pairs) k !! target =
  if bool_decide ((k, target) ∈ pairs) then Some (cmp (k, target)) else None.
Proof.
  unfold byKey. induction pairs as [|[k' t'] pairs IH] using rev_ind; [done|].
  rewrite map_app, fold_left_app. simpl. destruct (String.eqb_spec k' k) as [->|Hk].
  - destruct (decide (t' = target)) as [->|Ht].
    + rewrite lookup_insert_eq, bool_decide_true by set_solver. done.
    + rewrite lookup_insert_ne, IH by done.
      by rewrite (bool_decide_ext ((k, target) ∈ pairs) ((k, target) ∈ pairs ++ [(k, t')])) by set_solver.
  - rewrite IH. rewrite (bool_decide_ext ((k, target) ∈ pairs) ((k, target) ∈ pairs ++ [(k', t')])) by set_solver. done.
Qed.

Lemma sum_filter {A} (p : A → bool) (f : A → Z) l : sum f (List.filter p l) = sum (λ a, if p a then f a else 0) l.
Proof. induction l as [|a l IH]; [done|]. simpl. destruct (p a); simpl; lia. Qed.

Lemma alternatives_sum key rows f target :
  sum (λ a, f a.2) (List.filter (λ a, String.eqb (cf_Target a.2) target) (alternatives key rows)) =
  sum (alternative_at f target) rows.
Proof.
  unfold alternatives. rewrite sum_filter. induction rows as [|r rows IH]; [done|]. simpl.
  rewrite sum_app, IH, sum_map. done.
Qed.

Lemma alternatives_of_decide alts k target :
  alternatives_of alts k target =
  List.filter (λ a, bool_decide (a.1 = k)) (List.filter (λ a, String.eqb (cf_Target a.2) target) alts).
Proof.
  unfold alternatives_of. induction alts as [|a alts IH]; [done|]. simpl. rewrite eqb_decide, IH.
  destruct (String.eqb (cf_Target a.2) target); simpl; by destruct (bool_decide (a.1 = k)).
Qed.

Lemma alternatives_key key rows a : a ∈ alternatives key rows → a.1 ∈ group_keys key rows.
Proof.
  unfold alternatives. rewrite list_elem_of_In, in_concat. intros (l & Hl & Ha).
  apply in_map_iff in Hl as (r & <- & Hr). apply in_map_iff in Ha as (cf & <- & _). simpl.
  apply group_keys_elem. by apply list_elem_of_In.
Qed.

Lemma alternatives_none alts k target : (k, target) ∉ map (λ a, (a.1, cf_Target a.2)) alts → alternatives_of alts k target = [].
Proof.
  unfold alternatives_of. intros Hn. induction alts as [|a alts IH]; [done|]. simpl in *.
  apply not_elem_of_cons in Hn as [Hne Hn]. rewrite (IH Hn), !eqb_decide. 
  destruct (decide (a.1 = k)), (decide (cf_Target a.2 = target)); try (by rewrite ?(bool_decide_false (a.1 = k)), ?(bool_decide_false (cf_Target a.2 = target)), ?andb_false_r by done).
  congruence.
Qed.

(** Comparing group by group is comparing. *)
Lemma comparisons_sum db tenant since until day_text group_by meta_key found m f target keys :
  let rows := List.filter (in_report tenant since until) (r_ledger db) in
  (m, f) ∈ comparison_figures →
  AggregateCounterfactuals day_text db tenant since until group_by meta_key = Ok found →
  NoDup keys → (∀ k, k ∈ group_keys (group_key day_text group_by meta_key) rows → k ∈ keys) →
  sum (λ k, default 0 (m <$> byKey found k !! target)) keys = sum (alternative_at f target) rows.
Proof.
  intros rows Hm Hf Hnd Hks. unfold AggregateCounterfactuals in Hf. fold rows in Hf.
  destruct (negb (pg_text meta_key)); [done|]. set (alts := alternatives _ rows) in Hf.
  destruct (forallb _ _); [|done]. injection Hf as <-.
  rewrite <- (alternatives_sum (group_key day_text group_by meta_key) rows f target). fold alts.
  rewrite <- (sum_groups fst _ keys); [|done|].
  2:{ intros a Ha. apply Hks, alternatives_key. apply list_elem_of_In in Ha. apply filter_In in Ha as [Ha _].
      by apply list_elem_of_In. }
  apply sum_ext. intros k _. rewrite <- alternatives_of_decide.
  rewrite (byKey_lookup (λ kt, mkComparison (sum (λ a, cf_Cost a.2) (alternatives_of alts kt.1 kt.2))
                                 (Z.of_nat (length (alternatives_of alts kt.1 kt.2))))).
  case_bool_decide as Hin; rewrite elem_of_remove_dups in Hin; simpl.
  - unfold comparison_figures in Hm. apply elem_of_cons in Hm as [[= -> ->]|Hm]; [done|].
    apply list_elem_of_singleton in Hm as [= -> ->]. simpl. by rewrite sum_length.
  - by rewrite alternatives_none.
Qed.

(** ** The report *)

Section Report.
Context (day_text : time → string) (percentiles : list ledger_row → Z * Z * Z).
Context (adb : AccountDb) (Hwf : accounts_wf adb).

Lemma report_limit_range spec : ReportSpec_Validate spec = None → 1 ≤ int32 (report_limit spec).
Proof.
  unfold ReportSpec_Validate. intros H.
  destruct (IsZero _ || IsZero _); [done|]. destruct (negb (Before _ _)); [done|].
  destruct (String.eqb _ GroupByMetadata && _); [done|]. destruct (rs_Limit spec <? 0) eqn:H0; [done|].
  destruct (MaxReportLimit <? rs_Limit spec) eqn:H1; [done|]. clear H.
  apply Z.ltb_ge in H0, H1. unfold report_limit, MaxReportLimit, DefaultReportLimit in *.
  destruct (rs_Limit spec =? 0) eqn:E; [done|]. apply Z.eqb_neq in E.
  unfold int32. rewrite Z.mod_small; lia.
Qed.

(** What the grouped query answers. *)
Lemma AggregateUsage_rows db tenant since until group_by meta_key limit shown total :
  let rows := List.filter (in_report tenant since until) (r_ledger db) in
  let key := group_key day_text group_by meta_key in
  AggregateUsage day_text percentiles db tenant since until group_by meta_key limit = Ok (shown, total) →
  total = Z.of_nat (length (group_keys key rows)) ∧
  ∃ ks rest, ks ++ rest ≡ₚ group_keys key rows ∧
    shown = map (λ k, group_row percentiles k (group_of key rows k)) ks ∧
    (1 ≤ limit → shown = [] → rest = []).
Proof.
  intros rows key H. unfold AggregateUsage in H. destruct (negb (pg_text meta_key)); [done|].
  fold rows key in H. set (g := λ k, group_row percentiles k (group_of key rows k)) in *.
  destruct (forallb _ _); [|done]. injection H as <- <-. rewrite length_map. split; [done|].
  destruct (Permutation_map_inv g (group_keys key rows) (l1 := sort_slice dearer (map g (group_keys key rows))))
    as (ks & Heq & Hp); [by rewrite sort_slice_perm|].
  exists (take (Z.to_nat limit) ks), (drop (Z.to_nat limit) ks). rewrite take_drop, Heq. split; [by symmetry|].
  rewrite <- fmap_take. split; [done|]. intros Hl Hn. apply fmap_nil_inv in Hn.
  destruct ks; [by rewrite drop_nil|]. by destruct (Z.to_nat limit) eqn:E; [lia|].
Qed.

Lemma left_out {A B} (g : A → B) (ks rest : list A) : (ks = [] → rest = []) →
  (if Z.of_nat (length ks) <? match map g ks with [] => 0 | _ => Z.of_nat (length ks + length rest) end
   then match map g ks with [] => 0 | _ => Z.of_nat (length ks + length rest) end - Z.of_nat (length ks) else 0) =
  Z.of_nat (length rest).
Proof.
  intros H. destruct ks as [|k ks]; simpl; [by rewrite H|].
  destruct (Z.ltb_spec (Z.of_nat (S (length ks))) (Z.of_nat (S (length ks + length rest)))); lia.
Qed.

(** C32. In the report of a tenant that exists, no two rows are of the same group, every figure of
    a row is the sum over the requests of its group in the range, and the rows together with the
    groups reported as left out are all the groups there are. When none is left out, every figure
    of the total, the comparisons included, is the sum over all requests of the range modulo
    2^64: however the requests were grouped, the total is the same. *)
Theorem report_adds_up f1 f2 f3 c c' db spec tenant rep :
  cache_ok adb c → same_tenant adb (rs_Tenant spec) tenant →
  (∀ f, f1 = Some f → Is f pgx_ErrNoRows = false ∧ Is f ErrUnknownTenant = false) →
  Aggregate day_text percentiles adb f1 f2 f3 c db spec = (c', Ok rep) →
  let key := group_key day_text (rs_GroupBy spec) (rs_MetaKey spec) in
  let rows := List.filter (in_report tenant (rs_Since spec) (rs_Until spec)) (r_ledger db) in
  NoDup (map row_Key (rep_Rows rep)) ∧
  (∀ r m f, r ∈ rep_Rows rep → (m, f) ∈ figures → m r = sum f (group_of key rows (row_Key r))) ∧
  Z.of_nat (length (rep_Rows rep)) + rep_TruncatedGroups rep = Z.of_nat (length (group_keys key rows)) ∧
  (rep_TruncatedGroups rep = 0 →
   (∀ m f, (m, f) ∈ figures → m (rep_Total rep) = wrap64 (sum f rows)) ∧
   (∀ m f target, (m, f) ∈ comparison_figures →
      wrap64 (against m target (rep_Total rep)) = wrap64 (sum (alternative_at f target) rows))).
Proof.
  intros Hc Ht Hf1 Ha key rows. unfold Aggregate in Ha.
  destruct (ReportSpec_Validate spec) eqn:Hv; [by simplify_eq|].
  destruct (TenantIDs_Lookup adb f1 c (rs_Tenant spec)) as [c1 r1] eqn:El.
  destruct (Lookup_answer adb Hwf f1 c _ _ _ Hc El) as [_ Hr]. destruct r1 as [t|e]; cycle 1.
  { destruct f1 as [f|]; [|by destruct Hr as [_ Hr]; apply Hr in Ht].
    rewrite (Hr (proj1 (Hf1 f eq_refl)) (proj2 (Hf1 f eq_refl))) in Ha. done. }
  rewrite (same_tenant_id adb Hwf _ _ _ Hr Ht) in Ha. clear t Hr El.
  destruct f2 as [e2|]; [by simplify_eq|].
  destruct (AggregateUsage _ _ _ _ _ _ _ _ _) as [[shown total]|e] eqn:Eu; [|by simplify_eq].
  destruct f3 as [e3|]; [by simplify_eq|].
  destruct (AggregateCounterfactuals _ _ _ _ _ _ _) as [found|e] eqn:Ef; [|by simplify_eq].
  injection Ha as _ <-. simpl. apply AggregateUsage_rows in Eu as (-> & ks & rest & Hp & -> & Hlim).
  specialize (Hlim (report_limit_range _ Hv)).
  fold key rows in Hp |- *. unfold attachComparisons. rewrite !length_map, !map_map.
  assert (Hlen : length (group_keys key rows) = (length ks + length rest)%nat) by (by rewrite <- Hp, length_app).
  rewrite Hlen.
  pose proof (NoDup_remove_dups (map key rows)) as Hnd. fold (group_keys key rows) in Hnd. rewrite <- Hp in Hnd.
  assert (Hkeys : ∀ k, row_Key (with_comparisons (group_row percentiles k (group_of key rows k))
                     (byKey found (row_Key (group_row percentiles k (group_of key rows k))))) = k)
    by (intros k; apply group_row_key).
  split; [|split; [|split]].
  - erewrite map_ext; [|exact Hkeys]. rewrite map_id. by apply NoDup_app in Hnd as [? _].
  - intros r m f Hin Hmf. apply list_elem_of_In, in_map_iff in Hin as (k & <- & _). rewrite Hkeys.
    destruct (figures_add m f Hmf) as (_ & _ & ->). by apply figures_group.
  - rewrite left_out; [lia|]. intros ->. by rewrite Hlim.
  - intros Hz. rewrite left_out in Hz by (intros ->; by rewrite Hlim). assert (rest = []) as -> by (apply length_zero_iff_nil; lia).
    rewrite app_nil_r in *. 
    assert (Hall : ∀ k, k ∈ group_keys key rows → k ∈ ks) by (intros k; by rewrite Hp). split.
    + intros m f Hmf. destruct (figures_add m f Hmf) as (H0 & Hadd & Hwith). rewrite totalise_sum by done.
      f_equal. rewrite !sum_map. rewrite <- (sum_groups key f ks rows Hnd) by (intros; by apply Hall, group_keys_elem).
      apply sum_ext. intros k _. rewrite Hwith, <- group_of_decide. by apply figures_group.
    + intros m f target Hmf. unfold totalise. rewrite totalise_mod by (intros; by eapply against_add).
      f_equal. rewrite !sum_map. simpl.
      pose proof (comparisons_sum db tenant (rs_Since spec) (rs_Until spec) day_text _ _ _ m f target ks Hmf Ef Hnd Hall)
        as Hs. cbv zeta in Hs. fold rows in Hs. rewrite <- Hs.
      unfold against at 2. simpl. apply sum_ext. intros k _. unfold against. simpl. by rewrite group_row_key.
Qed.
End Report.

(** ** An example: a served request and a failed one, by status *)

Definition ex_report_db : RecordDb :=
  (ex_write [ex_good; ex_record 2%N [] StatusExhausted 0; ex_record 3%N [] StatusOK 5]).1.2.
Definition ex_spec : ReportSpec := mkReportSpec "acme" Second (10 * Second) GroupByStatus "" 0.
Definition ex_report :=
  Aggregate (λ _, "day") (λ _, (0, 0, 0)) ex_tenants None None None NewTenantIDs ex_report_db ex_spec.
Definition ex_rows : list ledger_row := List.filter (in_report 7%N Second (10 * Second)) (r_ledger ex_report_db).
Definition no_report : Report := mkReport (mkReportRange "" 0 0) [] zero_row 0.

Lemma ex_report_ok : ex_report = (ex_report.1, Ok (match ex_report.2 with Ok rep => rep | Err _ => no_report end)).
Proof. by vm_compute. Qed.

Lemma report_adds_up_witness :
  row_Cost (rep_Total (match ex_report.2 with Ok rep => rep | Err _ => no_report end)) = 7500 ∧
  sum (λ r, default 0 (l_CostNanos r)) ex_rows = 7500.
Proof.
  split; [|by vm_compute].
  destruct (report_adds_up (λ _, "day") (λ _, (0, 0, 0)) ex_tenants ex_tenants_wf None None None NewTenantIDs ex_report.1
              ex_report_db ex_spec 7%N (match ex_report.2 with Ok rep => rep | Err _ => no_report end)
              (NewTenantIDs_ok _)) as (_ & _ & _ & Htotal).
  - by exists ex_tenant.
  - done.
  - exact ex_report_ok.
  - destruct Htotal as [Hfig _]; [by vm_compute|].
    rewrite (Hfig row_Cost (λ r, default 0 (l_CostNanos r))); [by vm_compute|]. unfold figures. set_solver.
Defined.
