(* ===== verification/AdminGate.v ===== *)
(** What stands in front of the admin API: the middleware of
    [internal/adapters/inbound/adminapi] ([auth.go], [context.go], [guard.go],
    [permission.go], [middleware.go]), the error answers of [handler.go], and the route table
    the generated code registers with [net/http].

    A handler takes a request and a response writer; a middleware wraps one. The request is
    what [net/http] hands over, with the context values the middleware adds. *)
From Stdlib Require Import Ascii.
From stdpp Require Import gmap.
From S2P Require Import Prelude Sorting Errors Env Bytes Json Radix Accounts Tokens AdminDb AccountStore Provider Respond Password.

(** ** The context *)

(** [src/internal/adapters/inbound/adminapi/context.go:20-27] identityKind, kindUser, kindMachine *)
Definition identityKind := string.
Definition kindUser : identityKind := "user".
Definition kindMachine : identityKind := "machine".

(** [src/internal/adapters/inbound/adminapi/context.go:29-42] identity *)
Record identity := mkAdminIdentity {
  id_Kind : identityKind;
  id_Actor : string;
  id_Role : Role;
  id_User : option AdminUser;
}.

(** [src/internal/adapters/inbound/adminapi/context.go:44-46] machineIdentity *)
Definition machineIdentity (c : AdminCredential) : identity :=
  mkAdminIdentity kindMachine (AdminCredential_Actor c) (ac_Role c) None.
(** [src/internal/adapters/inbound/adminapi/context.go:48-50] userIdentity *)
Definition userIdentity (u : AdminUser) : identity :=
  mkAdminIdentity kindUser (AdminUser_Actor u) (au_Role u) (Some u).
Definition zero_identity : identity := mkAdminIdentity "" "" "" None.

(** [url.Values] *)
Definition Values := gmap string (list string).

(** A request: the unescaped segments of its path, what [net/url] reads in its query, the
    header, the body the client sends and how reading it fails, if it does, after those bytes.

    [src/internal/adapters/inbound/adminapi/context.go:13-18] identityKey, clientIPKey *)
Record request := mkRequest {
  rq_Method : string;
  rq_Segments : list string;
  rq_Query : Values;
  rq_Header : Header;
  rq_RemoteAddr : string;
  rq_Body : bytes;
  rq_BodyErr : option error;
  rq_identity : option identity;
  rq_clientIP : option string;
  rq_deadline : option time;
}.

(** [src/internal/adapters/inbound/adminapi/context.go:52-54] withIdentity *)
Definition withIdentity (r : request) (id : identity) : request :=
  mkRequest (rq_Method r) (rq_Segments r) (rq_Query r) (rq_Header r) (rq_RemoteAddr r) (rq_Body r) (rq_BodyErr r)
    (Some id) (rq_clientIP r) (rq_deadline r).
(** [src/internal/adapters/inbound/adminapi/context.go:76-78] withClientIP *)
Definition withClientIP (r : request) (ip : string) : request :=
  mkRequest (rq_Method r) (rq_Segments r) (rq_Query r) (rq_Header r) (rq_RemoteAddr r) (rq_Body r) (rq_BodyErr r)
    (rq_identity r) (Some ip) (rq_deadline r).
Definition with_deadline (r : request) (at_ : time) : request :=
  mkRequest (rq_Method r) (rq_Segments r) (rq_Query r) (rq_Header r) (rq_RemoteAddr r) (rq_Body r) (rq_BodyErr r)
    (rq_identity r) (rq_clientIP r) (Some at_).
Definition with_body (r : request) (h : Header) (body : bytes) : request :=
  mkRequest (rq_Method r) (rq_Segments r) (rq_Query r) h (rq_RemoteAddr r) body None
    (rq_identity r) (rq_clientIP r) (rq_deadline r).

(** [src/internal/adapters/inbound/adminapi/context.go:56-58] unknownActor *)
Definition unknownActor : string := "admin:unknown".
(** [src/internal/adapters/inbound/adminapi/context.go:60-65] identityFrom *)
Definition identityFrom (r : request) : identity := default zero_identity (rq_identity r).
(** [src/internal/adapters/inbound/adminapi/context.go:67-72] actorFrom *)
Definition actorFrom (r : request) : string :=
  if String.eqb (id_Actor (identityFrom r)) "" then unknownActor else id_Actor (identityFrom r).
(** [src/internal/adapters/inbound/adminapi/context.go:74-74] roleFrom *)
Definition roleFrom (r : request) : Role := id_Role (identityFrom r).
(** [src/internal/adapters/inbound/adminapi/context.go:80-86] clientIPFrom *)
Definition clientIPFrom (r : request) : string := default "" (rq_clientIP r).
(** [src/internal/adapters/inbound/adminapi/context.go:88-90] writeFrom *)
Definition writeFrom (r : request) : Accounts.Write := mkWrite (actorFrom r).

(** [r.URL.Path] *)
Definition URL_Path (r : request) : string := foldr (λ s p, "/" +:+ s +:+ p) "" (rq_Segments r).

(** ** The routes *)

(** [src/schemas/admin/gen/admin.gen.go:895-966] ServerInterface *)
Inductive operation :=
| OpLogin | OpRefreshSession | OpLogout | OpWhoami
| OpListTenants | OpCreateTenant | OpDisableTenant | OpGetTenant | OpUpdateTenant | OpEnableTenant
| OpListAPIKeys | OpCreateAPIKey | OpRevokeAPIKey | OpGetAPIKey | OpUpdateAPIKey
| OpListQuotas | OpReplaceQuotas | OpDeleteQuota | OpGetQuota | OpPutQuota
| OpGetUsage | OpListAudit | OpGetRequest.
#[export] Instance operation_eq_dec : EqDecision operation.
Proof. solve_decision. Defined.

(** A piece of a pattern: a name or a wildcard. *)
Inductive piece := Named (s : string) | Wild.
Record route := mkRoute { ro_Method : string; ro_Pattern : list piece; ro_op : operation }.

Definition under (rest : list piece) : list piece := Named "admin" :: Named "v1" :: rest.

(** [src/schemas/admin/gen/admin.gen.go:1805-1827] HandlerWithOptions *)
Definition routes : list route :=
  [mkRoute "POST" (under [Named "auth"; Named "login"]) OpLogin;
   mkRoute "POST" (under [Named "auth"; Named "refresh"]) OpRefreshSession;
   mkRoute "POST" (under [Named "auth"; Named "logout"]) OpLogout;
   mkRoute "GET" (under [Named "auth"; Named "me"]) OpWhoami;
   mkRoute "GET" (under [Named "tenants"]) OpListTenants;
   mkRoute "POST" (under [Named "tenants"]) OpCreateTenant;
   mkRoute "DELETE" (under [Named "tenants"; Wild]) OpDisableTenant;
   mkRoute "GET" (under [Named "tenants"; Wild]) OpGetTenant;
   mkRoute "PATCH" (under [Named "tenants"; Wild]) OpUpdateTenant;
   mkRoute "POST" (under [Named "tenants"; Wild; Named "enable"]) OpEnableTenant;
   mkRoute "GET" (under [Named "tenants"; Wild; Named "keys"]) OpListAPIKeys;
   mkRoute "POST" (under [Named "tenants"; Wild; Named "keys"]) OpCreateAPIKey;
   mkRoute "DELETE" (under [Named "keys"; Wild]) OpRevokeAPIKey;
   mkRoute "GET" (under [Named "keys"; Wild]) OpGetAPIKey;
   mkRoute "PATCH" (under [Named "keys"; Wild]) OpUpdateAPIKey;
   mkRoute "GET" (under [Named "tenants"; Wild; Named "quotas"]) OpListQuotas;
   mkRoute "PUT" (under [Named "tenants"; Wild; Named "quotas"]) OpReplaceQuotas;
   mkRoute "DELETE" (under [Named "tenants"; Wild; Named "quotas"; Wild]) OpDeleteQuota;
   mkRoute "GET" (under [Named "tenants"; Wild; Named "quotas"; Wild]) OpGetQuota;
   mkRoute "PUT" (under [Named "tenants"; Wild; Named "quotas"; Wild]) OpPutQuota;
   mkRoute "GET" (under [Named "tenants"; Wild; Named "usage"]) OpGetUsage;
   mkRoute "GET" (under [Named "tenants"; Wild; Named "audit"]) OpListAudit;
   mkRoute "GET" (under [Named "requests"; Wild]) OpGetRequest].

(** How [http.ServeMux] matches: a wildcard takes one segment that is not empty and not a
    slash, and a GET pattern takes HEAD too. *)
Fixpoint match_pattern (p : list piece) (segs : list string) : option (list string) :=
  match p, segs with
  | [], [] => Some []
  | Named n :: p, s :: segs => if String.eqb n s then match_pattern p segs else None
  | Wild :: p, s :: segs =>
      if String.eqb s "" || String.eqb s "/" then None
      else match match_pattern p segs with Some vars => Some (s :: vars) | None => None end
  | _, _ => None
  end.
Definition takes_method (pattern m : string) : bool :=
  String.eqb pattern m || (String.eqb pattern "GET" && String.eqb m "HEAD").
Definition match_route (m : string) (segs : list string) (ro : route) : option (operation * list string) :=
  if takes_method (ro_Method ro) m
  then match match_pattern (ro_Pattern ro) segs with Some vars => Some (ro_op ro, vars) | None => None end
  else None.
Fixpoint first_match (rs : list route) (m : string) (segs : list string) : option (operation * list string) :=
  match rs with
  | [] => None
  | ro :: rs => match match_route m segs ro with Some f => Some f | None => first_match rs m segs end
  end.
Definition find_route (r : request) : option (operation * list string) :=
  first_match routes (rq_Method r) (rq_Segments r).

(** The methods a path is known under. *)
Definition allowed_methods (segs : list string) : list string :=
  sort_strings (remove_dups (concat (map (λ ro,
    match match_pattern (ro_Pattern ro) segs with
    | Some _ => ro_Method ro :: (if String.eqb (ro_Method ro) "GET" then ["HEAD"] else [])
    | None => []
    end) routes))).

(** ** Error answers *)

Section Gate.
(** How the runtime renders an error text. *)
Context (render : text → string).

Definition AuthenticationError : string := "authentication_error".
Definition ConflictError : string := "conflict_error".
Definition InternalError : string := "internal_error".
Definition InvalidRequestError : string := "invalid_request_error".
Definition NotFoundError : string := "not_found_error".
Definition PermissionError : string := "permission_error".
Definition TimeoutError : string := "timeout_error".

(** [json.Encoder] of the error body. *)
Definition error_json (message : text) (errType : string) : bytes :=
  lit "{" ++ json_string (lit "error") ++ lit ":{" ++
  json_string (lit "message") ++ lit ":" ++ json_string (lit (render message)) ++ lit "," ++
  json_string (lit "type") ++ lit ":" ++ json_string (lit errType) ++ lit "}}" ++ [LF].

(** [src/internal/adapters/inbound/adminapi/handler.go:70-74] writeError *)
Definition admin_writeError (w : Writer) (status : Z) (message : text) (errType : string) : Writer :=
  let w := set_header w "Content-Type" "application/json" in
  let w := WriteHeader w status in
  (Write w (error_json message errType)).1.

(** [ctxErr] says whether the request's own context is done.

    [src/internal/adapters/inbound/adminapi/handler.go:34-55] fail *)
Definition fail_with (ctxErr : bool) (w : Writer) (err : error) : Writer :=
  if Is err ErrInvalid then admin_writeError w 400 (TErr err) InvalidRequestError
  else if Is err ErrNotFound then admin_writeError w 404 (TErr err) NotFoundError
  else if Is err ErrConflict then admin_writeError w 409 (TErr err) ConflictError
  else if Is err context_DeadlineExceeded || ctxErr then admin_writeError w 504 (TLit "request timed out") TimeoutError
  else admin_writeError w 500 (TLit "internal error") InternalError.

(** What the generated decoding may refuse with. *)
Inductive param_error := InvalidParamFormat (ParamName : string) (Err : error) | OtherError (err : error).

Fixpoint err_depth (e : error) : nat :=
  match e with
  | Errorf _ args =>
      S ((fix go (l : list arg) : nat :=
           match l with [] => O | AWrap e' :: l' => Nat.max (err_depth e') (go l') | _ :: l' => go l' end) args)
  | ProviderError _ _ _ _ _ (Some e') => S (err_depth e')
  | QuotaExceededError _ => 1%nat
  | _ => O
  end.
(** The loop that follows what an error unwraps to. *)
Fixpoint unwrapped (fuel : nat) (root : error) : error :=
  match fuel with
  | O => root
  | S fuel => match Unwrap root with Some next => unwrapped fuel next | None => root end
  end.

(** [src/internal/adapters/inbound/adminapi/handler.go:57-68] badRequest *)
Definition badRequest (w : Writer) (err : param_error) : Writer :=
  let msg :=
    match err with
    | InvalidParamFormat name e =>
        TErr (Errorf "parameter %s: %v" [AStr name; AErr (unwrapped (err_depth e) e)])
    | OtherError e => TErr e
    end in
  admin_writeError w 400 msg InvalidRequestError.

(** [src/internal/adapters/inbound/adminapi/handler.go:76-78] invalidf *)
Definition invalidf (format : string) (args : list arg) : error :=
  Errorf "%w: %s" [AWrap ErrInvalid; AErr (Errorf format args)].

(** ** Validation against the contract

    The document itself is checked by [kin-openapi]; these are the ways it refuses. *)
Inductive request_cause :=
| SchemaCause (JSONPointer : list string) (SchemaField Reason : string)
| RequiredCause
| OtherCause (message : string)
| NoCause (message : string).
Inductive validation_refusal :=
| NoRouteMatched (method_not_allowed : bool)
| NotARequestError
| RequestError (where_ : option (string * string)) (Err : request_cause).

Definition join_dots (l : list string) : string :=
  match l with [] => "" | s :: l => fold_left (λ acc x, acc +:+ "." +:+ x) l s end.
(** [strings.Cut], what comes before. *)
Fixpoint before_sep (b sep : bytes) : bytes :=
  match CutPrefix sep b with
  | Some _ => []
  | None => match b with [] => [] | c :: b => c :: before_sep b sep end
  end.

(** [src/internal/adapters/inbound/adminapi/middleware.go:98-130] validationMessage *)
Definition validationMessage (param : option (string * string)) (err : request_cause) : string :=
  let where_ := match param with Some (i, n) => i +:+ " parameter " +:+ n | None => "request body" end in
  match err with
  | SchemaCause path field reason =>
      let where_ := match path with [] => where_ | _ => where_ +:+ " field " +:+ join_dots path end in
      if String.eqb field "required" then where_ +:+ " is required"
      else
        let reason := if String.eqb field "format" then str (before_sep (lit reason) (lit " (")) else reason in
        where_ +:+ ": " +:+ reason
  | RequiredCause => where_ +:+ " is required"
  | OtherCause m => where_ +:+ ": " +:+ str (before_sep (lit m) [LF])
  | NoCause m => str (before_sep (lit m) [LF])
  end.

(** [src/internal/adapters/inbound/adminapi/middleware.go:76-96] validationFailed *)
Definition validationFailed (w : Writer) (err : validation_refusal) : Writer :=
  match err with
  | NoRouteMatched true => admin_writeError w 405 (TLit "method not allowed") InvalidRequestError
  | NoRouteMatched false => admin_writeError w 404 (TLit "no such endpoint") NotFoundError
  | NotARequestError => admin_writeError w 500 (TLit "internal error") InternalError
  | RequestError param cause => admin_writeError w 400 (TLit (validationMessage param cause)) InvalidRequestError
  end.

(** ** Handlers and what they do *)

(** What became of a request: an answer of the middleware, or the operation it was handed to,
    with the values its path carries. *)
Inductive served :=
| Wrote (w : Writer)
| Called (op : operation) (vars : list string) (r : request) (w : Writer).
(** With the credentials whose use is recorded, in the background, and when. *)
Record result_of := mkServed { sv_touched : list (uuid * time); sv_served : served }.
Definition handler := request → Writer → result_of.
Definition wrote (w : Writer) : result_of := mkServed [] (Wrote w).

(** What [http.Error] writes. *)
Definition http_Error (w : Writer) (status : Z) (message : string) : Writer :=
  let w := set_header w "Content-Type" "text/plain; charset=utf-8" in
  let w := set_header w "X-Content-Type-Options" "nosniff" in
  (Write (WriteHeader w status) (lit message ++ [LF])).1.

(** The innermost handler: the generated router. *)
Definition api : handler := λ r w,
  match find_route r with
  | Some (op, vars) => mkServed [] (Called op vars r w)
  | None =>
      match allowed_methods (rq_Segments r) with
      | [] => wrote (http_Error w 404 "404 page not found")
      | m :: ms =>
          wrote (http_Error (set_header w "Allow" (fold_left (λ acc x, acc +:+ ", " +:+ x) ms m)) 405 "Method Not Allowed")
      end
  end.

(** [spec] is the contract's check.

    [src/internal/adapters/inbound/adminapi/middleware.go:65-74] Validate *)
Definition Validate (spec : request → option validation_refusal) (next : handler) : handler := λ r w,
  match spec r with Some err => wrote (validationFailed w err) | None => next r w end.

(** [src/internal/adapters/inbound/adminapi/middleware.go:23-23] maxBodyBytes *)
Definition maxBodyBytes : Z := 2 ^ 20.

(** [src/internal/adapters/inbound/adminapi/middleware.go:35-63] Body *)
Definition Body (next : handler) : handler := λ r w,
  if maxBodyBytes <? blen (rq_Body r)
  then wrote (admin_writeError w 413 (TLit "request body too large") InvalidRequestError)
  else match rq_BodyErr r with
       | Some _ => wrote (admin_writeError w 400 (TLit "could not read request body") InvalidRequestError)
       | None =>
           let body := rq_Body r in
           if bool_decide (TrimSpace body = []) then next (with_body r (rq_Header r) body) w
           else match parse body with
                | None =>
                    wrote (admin_writeError w 400 (TCat "invalid JSON body: " (TErr syntax_error)) InvalidRequestError)
                | Some _ =>
                    next (with_body r (header_Set (rq_Header r) "Content-Type" "application/json") body) w
                end
       end.

(** [src/internal/adapters/inbound/adminapi/middleware.go:25-33] Timeout *)
Definition Timeout (now : time) (d : duration) (next : handler) : handler := λ r w,
  next (with_deadline r (Add now d)) w.

(** [src/internal/adapters/inbound/adminapi/permission.go:21-28] permissionFor *)
Definition permissionFor (method : string) : Permission :=
  if String.eqb method "GET" || String.eqb method "HEAD" then PermissionRead else PermissionWrite.

(** [src/internal/adapters/inbound/adminapi/permission.go:10-19] RequirePermission *)
Definition RequirePermission (next : handler) : handler := λ r w,
  if negb (Role_Allows (roleFrom r) (permissionFor (rq_Method r)))
  then wrote (admin_writeError w 403 (TLit "this credential is read-only and may not make changes") PermissionError)
  else next r w.

(** [src/internal/adapters/inbound/adminapi/guard.go:8-15] openPaths, selfServicePaths *)
Definition openPaths : list string := ["POST /admin/v1/auth/login"; "POST /admin/v1/auth/refresh"].
Definition selfServicePaths : list string := ["POST /admin/v1/auth/logout"].

(** [src/internal/adapters/inbound/adminapi/guard.go:40-43] has *)
Definition has (set : list string) (route : string) : bool := existsb (String.eqb route) set.

(** [src/internal/adapters/inbound/adminapi/guard.go:17-38] Guard *)
Definition Guard (authenticate permit : handler → handler) (next : handler) : handler := λ r w,
  let selfService := authenticate next in
  let guarded := authenticate (permit next) in
  let route := rq_Method r +:+ " " +:+ URL_Path r in
  if has openPaths route then next r w
  else if has selfServicePaths route then selfService r w
  else guarded r w.

(** [net.SplitHostPort]: the host. *)
Definition SplitHost (hostport : bytes) : option bytes :=
  match hostport with
  | "["%char :: inside =>
      match cut "]" inside with
      | Some (host, ":"%char :: port) =>
          if bool_decide (":"%char ∈ port) || bool_decide ("["%char ∈ inside) || bool_decide ("]"%char ∈ port)
          then None else Some host
      | _ => None
      end
  | _ =>
      match cut ":" hostport with
      | Some (host, port) =>
          if bool_decide (":"%char ∈ port) || bool_decide ("["%char ∈ hostport) || bool_decide ("]"%char ∈ hostport)
          then None else Some host
      | None => None
      end
  end.

(** [src/internal/adapters/inbound/adminapi/auth.go:126-134] ClientIP *)
Definition ClientIP (next : handler) : handler := λ r w,
  next (withClientIP r match SplitHost (lit (rq_RemoteAddr r)) with Some h => str h | None => rq_RemoteAddr r end) w.

(** ** Authentication *)

(** What the middleware is given: the stores with the failures of their calls, the verifier
    and the clock. *)
Record Authenticators := mkAuthenticators {
  at_creds : AccountDb;
  at_creds_fault : option error;
  at_users : AdminDb;
  at_users_fault : option error;
  at_verifier : option Issuer;
  at_now : time;
}.

(** [src/internal/adapters/inbound/adminapi/auth.go:19-19] bearerPrefix *)
Definition admin_bearerPrefix : string := "bearer ".
(** [src/internal/adapters/inbound/adminapi/auth.go:118-124] bearerToken *)
Definition admin_bearerToken (h : Header) : bytes :=
  let v := TrimSpace (lit (default "" (h !! CanonicalHeaderKey "Authorization"))) in
  let n := String.length admin_bearerPrefix in
  if Nat.ltb (length v) n || negb (EqualFold (take n v) (lit admin_bearerPrefix)) then []
  else TrimSpace (drop n v).

Context (sha256 : bytes → bytes) `{Jwt} (read_token : bytes → token).

(** [src/internal/adapters/inbound/adminapi/auth.go:59-77] authenticateMachine
    [src/internal/adapters/inbound/adminapi/auth.go:106-116] touch *)
Definition authenticateMachine (a : Authenticators) (presented : bytes) : option (identity * option (uuid * time)) :=
  match match at_creds_fault a with
        | Some e => Err e | None => AdminCredentialByTokenHash (at_creds a) (sha256 presented) end with
  | Err _ => None
  | Ok cred =>
      if AdminCredential_Revoked cred || AdminCredential_Expired cred (at_now a) then None
      else Some (machineIdentity cred, Some (ac_ID cred, at_now a))
  end.

(** [src/internal/adapters/inbound/adminapi/auth.go:79-104] authenticateUser *)
Definition authenticateUser (a : Authenticators) (presented : bytes) : option (identity * option (uuid * time)) :=
  match at_verifier a with
  | None => None
  | Some verifier =>
      match Issuer_Verify verifier (at_now a) (read_token presented) with
      | Err _ => None
      | Ok claims =>
          match match at_users_fault a with
                | Some e => Err e | None => AdminUserByID (at_users a) (cl_UserID claims) end with
          | Err _ => None
          | Ok user =>
              if AdminUser_Disabled user || negb (TokenIssuedAfterPasswordChange user (cl_Issued claims)) then None
              else Some (userIdentity user, None)
          end
      end
  end.

(** [strings.Count] of a single character. *)
Definition count_char (c : ascii) (b : bytes) : nat := length (List.filter (Ascii.eqb c) b).

(** [src/internal/adapters/inbound/adminapi/auth.go:42-57] authenticate *)
Definition authenticate (a : Authenticators) (r : request) : option (identity * option (uuid * time)) :=
  let presented := admin_bearerToken (rq_Header r) in
  if bool_decide (presented = []) then None
  else if Nat.eqb (count_char "." presented) 2 then authenticateUser a presented
  else authenticateMachine a presented.

(** [src/internal/adapters/inbound/adminapi/auth.go:26-40] RequireToken *)
Definition RequireToken (a : Authenticators) (next : handler) : handler := λ r w,
  match authenticate a r with
  | None =>
      wrote (admin_writeError (set_header w "WWW-Authenticate" "Bearer") 401
               (TLit "missing or invalid admin token") AuthenticationError)
  | Some (id, touched) =>
      let out := next (withIdentity r id) w in
      mkServed (match touched with Some t => t :: sv_touched out | None => sv_touched out end) (sv_served out)
  end.

(** ** The server *)

(** [src/internal/adapters/inbound/adminapi/server.go:19-22] writeGrace *)
Definition writeGrace : duration := 5 * Second.

(** What [http.Server] is told. *)
Record Server := mkServer { srv_Handler : handler; srv_WriteTimeout : duration; srv_ReadTimeout : duration }.

(** The handler under /admin/; [creds] and [users] say whether the stores were given.

    [src/internal/adapters/inbound/adminapi/server.go:22-77] NewServer *)
Definition NewServer (a : Authenticators) (creds users : bool) (spec : result error (request → option validation_refusal))
    (requestTimeout : duration) : result error Server :=
  if requestTimeout <=? 0 then Err (Sentinel "adminapi: request timeout must be positive")
  else if negb creds then Err (Sentinel "adminapi: a credential store is required")
  else if negb users || bool_decide (at_verifier a = None)
  then Err (Sentinel "adminapi: a user store and an access token verifier are required")
  else match spec with
       | Err err => Err (Errorf "adminapi: load embedded spec: %w" [AWrap err])
       | Ok spec =>
           let admin := fold_left (λ (h : handler) (mw : handler → handler), mw h)
             [Validate spec; Body; Timeout (at_now a) requestTimeout; Guard (RequireToken a) RequirePermission; ClientIP]
             api in
           Ok (mkServer admin (requestTimeout + writeGrace) (30 * Second))
       end.
End Gate.
