(* ===== verification/AdminGateProps.v ===== *)
(** What gets past the gate of the admin API, and that what should does. *)
From Stdlib Require Import Ascii.
From stdpp Require Import gmap.
From S2P Require Import Prelude Sorting Errors Env Bytes Json Radix Accounts Tokens AdminDb AccountStore Provider Respond AdminGate Password.

(** ** The route table *)

(** Which operations change what is stored; the operations on sessions count as such. *)
Definition changes (op : operation) : bool :=
  match op with
  | OpWhoami | OpListTenants | OpGetTenant | OpListAPIKeys | OpGetAPIKey | OpListQuotas | OpGetQuota
  | OpGetUsage | OpListAudit | OpGetRequest => false
  | _ => true
  end.

(** The path a pattern matches with these values. *)
Fixpoint filled (p : list piece) (vars : list string) : list string :=
  match p, vars with
  | Named n :: p, _ => n :: filled p vars
  | Wild :: p, v :: vars => v :: filled p vars
  | _, _ => []
  end.

Lemma match_pattern_filled p segs vars : match_pattern p segs = Some vars → segs = filled p vars.
Proof.
  revert segs vars. induction p as [|[n|] p IH]; intros [|s segs] vars Hm; simpl in Hm; try done.
  - destruct (String.eqb_spec n s) as [->|]; [|done]. simpl. f_equal. by apply IH.
  - destruct (_ || _); [done|]. destruct (match_pattern p segs) as [vs|] eqn:E; [|done].
    injection Hm as <-. simpl. f_equal. by apply IH.
Qed.

Lemma first_match_elem rs m segs op vars : first_match rs m segs = Some (op, vars) →
  ∃ ro, ro ∈ rs ∧ ro_op ro = op ∧ takes_method (ro_Method ro) m = true ∧ segs = filled (ro_Pattern ro) vars.
Proof.
  induction rs as [|ro rs IH]; simpl; [done|]. destruct (match_route m segs ro) as [f|] eqn:E.
  - intros [= ->]. unfold match_route in E. destruct (takes_method _ _) eqn:Et; [|done].
    destruct (match_pattern _ _) as [vs|] eqn:Em; [|done]. injection E as <- <-.
    exists ro. split_and!; [set_solver|done|done|by apply match_pattern_filled].
  - intros Hf. destruct (IH Hf) as (ro' & ? & ? & ? & ?). exists ro'. set_solver.
Qed.

Lemma takes_method_eq pattern m : takes_method pattern m = true → m = pattern ∨ pattern = "GET" ∧ m = "HEAD".
Proof.
  unfold takes_method. intros [H|H]%orb_true_iff.
  - left. by apply String.eqb_eq in H.
  - right. by apply andb_true_iff in H as [->%String.eqb_eq ->%String.eqb_eq].
Qed.

(** Which requests the guard lets through unasked, by the operation they are for. *)
Definition guard_class (op : operation) : bool * bool :=
  match op with
  | OpLogin | OpRefreshSession => (true, false)
  | OpLogout => (false, true)
  | _ => (false, false)
  end.

(** The guard looks at the path and the router at its segments; they agree, and the permission
    asked for goes with the operation. *)
Lemma guard_agrees r op vars : find_route r = Some (op, vars) →
  let route := rq_Method r +:+ " " +:+ URL_Path r in
  (has openPaths route, has selfServicePaths route) = guard_class op ∧
  permissionFor (rq_Method r) = if changes op then PermissionWrite else PermissionRead.
Proof.
  intros Hf. destruct (first_match_elem _ _ _ _ _ Hf) as (ro & Hin & <- & Hm & Hs).
  unfold URL_Path. simpl. rewrite Hs. clear Hf Hs.
  apply takes_method_eq in Hm. unfold routes in Hin.
  repeat (apply elem_of_cons in Hin as [->|Hin];
          [simpl in Hm; destruct Hm as [->|[H ->]]; try discriminate H;
           by destruct vars as [|? [|? ?]]|]).
  by apply elem_of_nil in Hin.
Qed.

(** ** Who gets in *)

Section Gate.
Context (render : text → string) (sha256 : bytes → bytes) `{Jwt} (read_token : bytes → token).

(** The caller presents something live now: a machine's credential, or an access token of a
    person who is not disabled, minted no earlier than the second their password changed in. *)
Definition entitled (a : Authenticators) (r : request) (id : identity) : Prop :=
  let presented := admin_bearerToken (rq_Header r) in
  (∃ c, AdminCredentialByTokenHash (at_creds a) (sha256 presented) = Ok c ∧
        ac_RevokedAt c = None ∧ (∀ e, ac_ExpiresAt c = Some e → at_now a < e) ∧ id = machineIdentity c) ∨
  (∃ v claims u, at_verifier a = Some v ∧ Issuer_Verify v (at_now a) (read_token presented) = Ok claims ∧
        AdminUserByID (at_users a) (cl_UserID claims) = Ok u ∧ au_DisabledAt u = None ∧
        Truncate (au_PasswordChangedAt u) Second ≤ Truncate (cl_Issued claims) Second ∧ id = userIdentity u).

Lemma authenticate_entitled a r id touched :
  authenticate sha256 read_token a r = Some (id, touched) → entitled a r id.
Proof.
  unfold authenticate, entitled. intros Ha. case_bool_decide; [done|]. destruct (Nat.eqb _ _).
  - right. unfold authenticateUser in Ha. destruct (at_verifier a) as [v|]; [|done].
    destruct (Issuer_Verify _ _ _) as [claims|] eqn:Ev; [|done].
    destruct (at_users_fault a); [done|]. destruct (AdminUserByID _ _) as [u|] eqn:Eu; [|done].
    destruct (AdminUser_Disabled u || _) eqn:Ed; [done|]. injection Ha as <- <-.
    apply orb_false_iff in Ed as [Ed Et].
    unfold TokenIssuedAfterPasswordChange, Before in Et. rewrite negb_involutive, Z.ltb_ge in Et.
    exists v, claims, u. split_and!; try done.
    unfold AdminUser_Disabled in Ed. apply bool_decide_eq_false, eq_None_not_Some in Ed. done.
  - left. unfold authenticateMachine in Ha. destruct (at_creds_fault a); [done|].
    destruct (AdminCredentialByTokenHash _ _) as [c|] eqn:Ec; [|done].
    destruct (AdminCredential_Revoked c || _) eqn:Er; [done|]. injection Ha as <- _.
    apply orb_false_iff in Er as [Er Ee]. exists c. split_and!; [done| | |done].
    + unfold AdminCredential_Revoked in Er. apply bool_decide_eq_false, eq_None_not_Some in Er. done.
    + intros e He. unfold AdminCredential_Expired, Before in Ee. rewrite He in Ee.
      apply negb_false_iff in Ee. lia.
Qed.


(** What is behind the guard hands over the operation the path names, with the identity it was
    given, a deadline, and a body of bounded size. *)
Lemma inner_called spec now d r w op vars r' w' :
  sv_served (Timeout now d (Body render (Validate render spec api)) r w) = Called op vars r' w' →
  find_route r = Some (op, vars) ∧ rq_identity r' = rq_identity r ∧ rq_deadline r' = Some (Add now d) ∧
  rq_clientIP r' = rq_clientIP r ∧ blen (rq_Body r') ≤ maxBodyBytes ∧ spec r' = None ∧
  (TrimSpace (rq_Body r') = [] ∨ is_Some (parse (rq_Body r'))).
Proof.
  unfold Timeout, Body. destruct (maxBodyBytes <? _) eqn:El; [done|]. apply Z.ltb_ge in El. simpl in El.
  destruct (rq_BodyErr _); [done|]. intros Hc.
  assert (Hv : ∀ r2, rq_Method r2 = rq_Method r → rq_Segments r2 = rq_Segments r → rq_Body r2 = rq_Body r →
            rq_identity r2 = rq_identity r → rq_clientIP r2 = rq_clientIP r → rq_deadline r2 = Some (Add now d) →
            sv_served (Validate render spec api r2 w) = Called op vars r' w' →
            r' = r2 ∧ spec r2 = None ∧ find_route r = Some (op, vars)).
  { intros r2 Hm Hs _ _ _ _ Hk. unfold Validate in Hk. destruct (spec r2) eqn:Es; [done|]. unfold api in Hk.
    replace (find_route r2) with (find_route r) in Hk by (unfold find_route; by rewrite Hm, Hs).
    destruct (find_route r) as [[op2 vars2]|]; [by simplify_eq/=|].
    by destruct (allowed_methods _). }
  simpl in Hc. destruct (bool_decide (TrimSpace (rq_Body r) = [])) eqn:Eb.
  - apply bool_decide_eq_true in Eb. apply Hv in Hc as (-> & ? & ?); [|done..]. simpl. split_and!; auto.
  - destruct (parse (rq_Body r)) eqn:Ep; [|done]. apply Hv in Hc as (-> & ? & ?); [|done..]. simpl.
    split_and!; eauto.
Qed.

Lemma let_through a creds users spec d srv r w op vars r' w' :
  NewServer render sha256 read_token a creds users (Ok spec) d = Ok srv → rq_identity r = None →
  sv_served (srv_Handler srv r w) = Called op vars r' w' →
  (op ∈ [OpLogin; OpRefreshSession] ∧ rq_identity r' = None ∨
   ∃ id, rq_identity r' = Some id ∧ entitled a r id ∧
     (op = OpLogout ∨ id_Role id = RoleAdmin ∨ id_Role id = RoleReadonly ∧ changes op = false)) ∧
  find_route r = Some (op, vars) ∧ rq_deadline r' = Some (Add (at_now a) d) ∧ blen (rq_Body r') ≤ maxBodyBytes.
Proof.
  intros Hs Hid. unfold NewServer in Hs. destruct (d <=? 0); [done|]. destruct (negb creds); [done|].
  destruct (negb users || _); [done|]. injection Hs as <-. simpl. unfold ClientIP, Guard.
  set (r1 := withClientIP r _). change (rq_Method r1) with (rq_Method r). change (URL_Path r1) with (URL_Path r).
  intros Hc. assert (Hr : find_route r1 = find_route r) by done.
  assert (Hauth : ∀ next, (∀ id, sv_served (next (withIdentity r1 id) w) = Called op vars r' w' →
              find_route (withIdentity r1 id) = Some (op, vars) ∧ rq_identity r' = Some id ∧
              rq_deadline r' = Some (Add (at_now a) d) ∧ blen (rq_Body r') ≤ maxBodyBytes) →
            sv_served (RequireToken render sha256 read_token a next r1 w) = Called op vars r' w' →
            ∃ id, sv_served (next (withIdentity r1 id) w) = Called op vars r' w' ∧ find_route r = Some (op, vars) ∧
              rq_identity r' = Some id ∧ entitled a r id ∧ rq_deadline r' = Some (Add (at_now a) d) ∧
              blen (rq_Body r') ≤ maxBodyBytes).
  { intros next Hn. unfold RequireToken. destruct (authenticate _ _ a r1) as [[id t]|] eqn:Ea; [|done]. simpl.
    intros Hk. exists id. destruct (Hn id Hk) as (? & ? & ? & ?). split_and!; try done.
    by apply (authenticate_entitled a r1 id t). }
  destruct (has openPaths _) eqn:Eo.
  - apply inner_called in Hc as (Hf & Hi & Hd & _ & Hb & _). rewrite Hr in Hf.
    destruct (guard_agrees _ _ _ Hf) as [Hg _]. rewrite Eo in Hg. split; [left|done].
    split; [|by rewrite Hi]. destruct op; try discriminate Hg; set_solver.
  - destruct (has selfServicePaths _) eqn:Es.
    + apply Hauth in Hc as (id & _ & Hf & Hi & He & Hd & Hb); cycle 1.
      { intros id Hk. apply inner_called in Hk as (? & ? & ? & _ & ? & _). done. }
      destruct (guard_agrees _ _ _ Hf) as [Hg _]. rewrite Eo, Es in Hg. split; [right|done].
      exists id. split_and!; [done|done|]. left. by destruct op.
    + apply Hauth in Hc as (id & Hk & Hf & Hi & He & Hd & Hb); cycle 1.
      { intros id Hk. unfold RequirePermission in Hk. destruct (negb _); [done|].
        apply inner_called in Hk as (? & ? & ? & _ & ? & _). done. }
      destruct (guard_agrees _ _ _ Hf) as [_ Hp]. split; [right|done]. exists id. split_and!; [done|done|].
      right. unfold RequirePermission in Hk. destruct (Role_Allows _ _) eqn:Ea; [|done]. clear Hk.
      change (roleFrom _) with (id_Role id) in Ea. change (rq_Method (withIdentity r1 id)) with (rq_Method r) in Ea.
      rewrite Hp in Ea. unfold Role_Allows in Ea. destruct (String.eqb_spec (id_Role id) RoleAdmin); [by left|].
      destruct (String.eqb_spec (id_Role id) RoleReadonly); [|done]. right. split; [done|]. by destruct (changes op).
Qed.

(** C34. A request the admin server hands to an operation is a login, a refresh, or one whose
    bearer token is live at that moment: an unrevoked, unexpired credential, or the access token
    of a person who is not disabled, minted no earlier than the second their password was last
    changed in: times are compared in whole seconds, so a token of that same second still counts.
    The identity it carries has the role the store holds now, and unless the operation is a logout
    that role is the administrator's, or the read-only one and the operation changes nothing.
    Nobody else's request reaches an operation, whatever its method, path and body. *)
Theorem gate_admits a creds users spec d srv r w op vars r' w' :
  NewServer render sha256 read_token a creds users (Ok spec) d = Ok srv → rq_identity r = None →
  sv_served (srv_Handler srv r w) = Called op vars r' w' →
  (op ∈ [OpLogin; OpRefreshSession] ∧ rq_identity r' = None ∨
   ∃ id, rq_identity r' = Some id ∧ entitled a r id ∧
     (op = OpLogout ∨ id_Role id = RoleAdmin ∨ id_Role id = RoleReadonly ∧ changes op = false)) ∧
  find_route r = Some (op, vars) ∧ rq_deadline r' = Some (Add (at_now a) d) ∧ blen (rq_Body r') ≤ maxBodyBytes.
Proof. apply let_through. Qed.
End Gate.
