(* ===== verification/AdminCredentials.v ===== *)
(** A credential from its issuing to the gate: what [Credentials.Create] hands out opens the
    admin API, until it is revoked or expires. *)
From Stdlib Require Import Ascii.
From stdpp Require Import gmap.
From S2P Require Import Prelude Sorting Errors Env Bytes Json Radix Accounts Tokens Programs AdminDb AccountStore Service ServiceWorld ServiceProps ServiceKeys Provider Respond AdminGate AdminGateProps Password.

(** ** What a bearer header carries *)

Definition plain_char (c : ascii) : bool := between 97 122 c || is_digit c || bool_decide (c = "_"%char).

Lemma plain_not_space c : plain_char c = true → trim_space_char c = false.
Proof.
  destruct c as [b0 b1 b2 b3 b4 b5 b6 b7].
  by destruct b0, b1, b2, b3, b4, b5, b6, b7.
Qed.

Lemma plain_not_dot c : plain_char c = true → Ascii.eqb "." c = false.
Proof.
  destruct c as [b0 b1 b2 b3 b4 b5 b6 b7].
  by destruct b0, b1, b2, b3, b4, b5, b6, b7.
Qed.

Lemma trim_left_id c b : trim_space_char c = false → trim_left (c :: b) = c :: b.
Proof. simpl. by intros ->. Qed.

(** Text that neither begins nor ends with a space is as it was. *)
Lemma TrimSpace_id c b d : trim_space_char c = false → trim_space_char d = false → last (c :: b) = Some d →
  TrimSpace (c :: b) = c :: b.
Proof.
  intros Hc Hd Hl. unfold TrimSpace. rewrite trim_left_id by done.
  apply last_Some in Hl as [b' ->]. rewrite reverse_snoc, trim_left_id by done. by rewrite <- reverse_snoc, reverse_involutive.
Qed.

Lemma plain_trimmed b : b ≠ [] → Forall (λ c, plain_char c = true) b → TrimSpace b = b.
Proof.
  intros Hne Hb. destruct b as [|c b]; [done|]. destruct (last (c :: b)) as [d|] eqn:El; [|by apply last_None in El].
  apply (TrimSpace_id _ _ d); [| |done]; apply plain_not_space; [by inversion Hb|].
  rewrite Forall_forall in Hb. by apply Hb, last_Some_elem_of.
Qed.

Lemma plain_no_dots b : Forall (λ c, plain_char c = true) b → count_char "." b = 0%nat.
Proof.
  unfold count_char. induction 1 as [|c b Hc _ IH]; [done|]. cbn [List.filter]. by rewrite (plain_not_dot c Hc).
Qed.

Lemma bearer_presented h secret :
  h !! CanonicalHeaderKey "Authorization" = Some ("Bearer " +:+ secret) → lit secret ≠ [] →
  Forall (λ c, plain_char c = true) (lit secret) → admin_bearerToken h = lit secret.
Proof.
  rewrite <- (str_lit secret) at 1. generalize (lit secret). clear secret. intros secret Hh Hne Hs. unfold admin_bearerToken. rewrite Hh. simpl default.
  assert (Hlit : lit ("Bearer " +:+ str secret) = lit "Bearer " ++ secret).
  { change (lit "Bearer " ++ lit (str secret) = lit "Bearer " ++ secret). by rewrite lit_str. }
  rewrite Hlit. destruct (last secret) as [d|] eqn:El; [|by apply last_None in El].
  assert (Hd : trim_space_char d = false).
  { apply plain_not_space. rewrite Forall_forall in Hs. by apply Hs, last_Some_elem_of. }
  change (lit "Bearer " ++ secret) with ("B"%char :: lit "earer " ++ secret).
  rewrite (TrimSpace_id _ _ d); [|done|done|].
  2:{ change ("B"%char :: lit "earer " ++ secret) with (lit "Bearer " ++ secret).
      apply last_Some in El as [s' ->]. by rewrite app_assoc, last_snoc. }
  change ("B"%char :: lit "earer " ++ secret) with (lit "Bearer " ++ secret).
  change (String.length admin_bearerPrefix) with (length (lit "Bearer ")).
  rewrite length_app, take_app_length, drop_app_length.
  replace (Nat.ltb _ _) with false by (symmetry; apply Nat.ltb_ge; lia).
  by apply plain_trimmed.
Qed.

(** ** Issuing *)

Section Credentials.
Context (sha256 : bytes → bytes) (uuid_String : uuid → string) (jsonb : string → option string).
Local Notation perform := (svc_perform jsonb uuid_String).

Lemma minted_plain random m : Mint sha256 AdminKeyPrefix random = Ok m →
  lit (Secret m) ≠ [] ∧ Forall (λ c, plain_char c = true) (lit (Secret m)) ∧ Secret_Hash m = sha256 (lit (Secret m)).
Proof.
  unfold Mint. destruct random as [b|]; [|done]. intros Hm.
  apply (f_equal (λ r, match r with Ok m => m | Err _ => m end)) in Hm. cbv beta iota zeta in Hm. subst m.
  cbn [Secret Secret_Hash]. rewrite lit_str. split_and!; [done| |done].
  apply Forall_app. split; [by repeat constructor|]. by apply secret_forall.
Qed.

Lemma CreateAdminCredential_Ok db now c hash e db' row :
  CreateAdminCredential db now c hash e = (db', Ok row) →
  AdminCredentialByTokenHash db' hash = Ok row ∧
  row = mkAdminCredential (ac_ID c) (ac_Name c) (ac_Prefix c) (ac_Role c) (pg_time <$> ac_ExpiresAt c)
          (pg_time now) None None.
Proof.
  unfold CreateAdminCredential, Sql_CreateAdminCredential. intros Hc. destruct (_ || negb (Role_Valid _)); [done|].
  destruct (existsb (λ r, String.eqb _ _) _); [done|]. destruct (bool_decide _ || _) eqn:Eu; [done|].
  apply orb_false_iff in Eu as [_ Eh]. set (new := mkAdminCredential _ _ _ _ _ _ _ _) in Hc.
  unfold then_audit, auditRepo_Write, Sql_CreateAuditEntry in Hc. destruct (_ || _); [done|]. injection Hc as <- <-. split; [|done].
  unfold AdminCredentialByTokenHash, Sql_GetAdminCredentialByTokenHash, credential_where, adminCredential. simpl.
  set (m := <[_ := _]> (t_credentials db)). destruct (List.find _ _) as [r|] eqn:Ef.
  - apply find_row_Some in Ef as [Hh [k Hk]]. apply bool_decide_eq_true in Hh. unfold m in Hk.
    apply lookup_insert_Some in Hk as [[_ <-]|[_ Hk]]; [done|]. exfalso.
    assert (Hin : existsb (λ r, bool_decide (cr_hash r = hash)) (rows (t_credentials db)) = true); [|congruence].
    apply existsb_exists. exists r. split; [|by apply bool_decide_eq_true].
    apply list_elem_of_In, list_elem_of_fmap. exists (k, r). split; [done|]. by apply elem_of_map_to_list.
  - assert (Hk : m !! ac_ID c = Some (mkCredentialRow new hash)) by apply lookup_insert_eq.
    pose proof (find_row_None _ _ _ _ Ef Hk) as Hf. by apply bool_decide_eq_false in Hf.
Qed.

Lemma committed_wp {A} ch w (r : AccountDb * result error A) (Q : result error A → svc_world → Prop) :
  (∀ a w', r = (sw_db w', Ok a) → Q (Ok a) w') → (∀ e w', Q (Err e) w') →
  Q (committed ch w r).2 (committed ch w r).1.
Proof.
  intros HOk HErr. unfold committed. destruct (mo_fault ch); simpl; [|auto..].
  destruct r as [db [a|e]]; simpl; [|auto]. by apply HOk.
Qed.

Lemma credential_call_wp ok c hash e (Q : result error AdminCredential → svc_world → list svc_action → Prop) w :
  (∀ now row w', CreateAdminCredential (sw_db w) now c hash e = (sw_db w', Ok row) →
     Q (Ok row) w' [SCreateCredential c hash e]) →
  (∀ e' w', Q (Err e') w' [SCreateCredential c hash e]) → wp perform ok (call (SCreateCredential c hash e)) Q w.
Proof.
  intros HOk HErr ch _. refine (committed_wp ch w _ (λ r w', Q r w' [SCreateCredential c hash e]) _ _); [|done].
  intros row w'. apply HOk.
Qed.

(** What is true of a credential that was just issued. *)
Definition issued_as (spec : NewAdminCredential) (issued : IssuedAdminCredential) (db : AccountDb) : Prop :=
  let c := ic_Credential issued in
  lit (ic_Secret issued) ≠ [] ∧ Forall (λ c, plain_char c = true) (lit (ic_Secret issued)) ∧
  AdminCredentialByTokenHash db (sha256 (lit (ic_Secret issued))) = Ok c ∧
  ac_Role c = nc_Role spec ∧ Role_Valid (nc_Role spec) = true ∧ ac_RevokedAt c = None ∧ ac_ExpiresAt c = pg_time <$> nc_ExpiresAt spec.

Lemma credential_entry_reads w action c : only reads (credential_entry w action c).
Proof. apply only_and_then; [by apply only_bind|]. intros id. by apply only_bind. Qed.

Lemma Credentials_Create_wp w spec s :
  wp perform (λ _, True) (Credentials_Create sha256 w spec) (if_ok (λ issued s', issued_as spec issued (sw_db s'))) s.
Proof.
  unfold Credentials_Create. destruct (negb _); [intros ? [=]|].
  destruct (negb (Role_Valid _)) eqn:Er; [intros ? [=]|]. apply negb_false_iff in Er.
  apply wp_and_then, wp_call. intros ch _. cbn [svc_perform fst snd wp].
  destruct (Mint _ _ _) as [m|e] eqn:Em; [|intros ? [=]]. apply minted_plain in Em as (Hne & Hplain & Hh).
  apply wp_and_then, (wp_reads _ _ _ (λ _, True)); [by apply only_bind|by apply returns_any|].
  intros [id|e] w2 tr2 _ _; [|intros ? [=]].
  apply wp_and_then, (wp_reads _ _ _ (λ _, True)); [apply credential_entry_reads|by apply returns_any|].
  intros [entry|e] w3 tr3 _ _; [|intros ? [=]].
  apply wp_and_then, credential_call_wp; [|intros; apply if_ok_Err]. intros now row w4 Ec.
  apply CreateAdminCredential_Ok in Ec as [Hk ->]. apply if_ok_Ok. unfold issued_as. simpl.
  rewrite <- Hh. done.
Qed.

(** ** Presenting *)

Context `{Jwt} (render : text → string) (read_token : bytes → token).

Lemma issued_authenticates spec issued a r :
  issued_as spec issued (at_creds a) → at_creds_fault a = None →
  rq_Header r !! CanonicalHeaderKey "Authorization" = Some ("Bearer " +:+ ic_Secret issued) →
  (∀ e, nc_ExpiresAt spec = Some e → at_now a < pg_time e) →
  authenticate sha256 read_token a r =
    Some (machineIdentity (ic_Credential issued), Some (ac_ID (ic_Credential issued), at_now a)).
Proof.
  intros (Hne & Hplain & Hk & _ & _ & Hr & He) Hf Hh Hnow. unfold authenticate.
  rewrite (bearer_presented _ _ Hh Hne Hplain), bool_decide_false, plain_no_dots by done. simpl Nat.eqb.
  unfold authenticateMachine. rewrite Hf, Hk. unfold AdminCredential_Revoked, AdminCredential_Expired. rewrite Hr, He.
  destruct (nc_ExpiresAt spec) as [e|]; [|done]. simpl. unfold Before.
  specialize (Hnow e eq_refl). by rewrite (proj2 (Z.ltb_lt _ _) Hnow).
Qed.

(** What is behind the guard takes a request whose body is sound. *)
Lemma inner_takes vspec now d r w op vars :
  find_route r = Some (op, vars) → rq_BodyErr r = None → blen (rq_Body r) ≤ maxBodyBytes →
  TrimSpace (rq_Body r) = [] ∨ is_Some (parse (rq_Body r)) → (∀ r', vspec r' = None) →
  ∃ r', Timeout now d (Body render (Validate render vspec api)) r w = mkServed [] (Called op vars r' w) ∧
    rq_identity r' = rq_identity r.
Proof.
  intros Hf Hb Hl Hj Hv. unfold Timeout, Body. simpl.
  rewrite (proj2 (Z.ltb_ge _ _) Hl), Hb. unfold Validate, api.
  assert (Hroute : ∀ h, find_route (with_body (with_deadline r (Add now d)) h (rq_Body r)) = Some (op, vars)) by done.
  case_bool_decide as Ht.
  - rewrite Hv, Hroute. by eexists.
  - destruct Hj as [?|[v Hp]]; [done|]. rewrite Hp, Hv, Hroute. by eexists.
Qed.

(** The secret [Credentials.Create] hands out opens the admin API: a request that presents it
    before it expires, for an operation its role may use and with a sound body, is handed to that
    operation as the credential that was issued, and its use is recorded. *)
Theorem issued_credential_opens chs w spec s s' issued tr a creds users vspec d srv r wr op vars :
  run perform chs (Credentials_Create sha256 w spec) s = Some (s', Ok issued, tr) →
  NewServer render sha256 read_token a creds users (Ok vspec) d = Ok srv →
  at_creds a = sw_db s' → at_creds_fault a = None →
  rq_Header r !! CanonicalHeaderKey "Authorization" = Some ("Bearer " +:+ ic_Secret issued) →
  (∀ e, nc_ExpiresAt spec = Some e → at_now a < pg_time e) →
  find_route r = Some (op, vars) → op ∉ [OpLogin; OpRefreshSession] →
  nc_Role spec = RoleAdmin ∨ changes op = false ∨ op = OpLogout →
  rq_BodyErr r = None → blen (rq_Body r) ≤ maxBodyBytes →
  TrimSpace (rq_Body r) = [] ∨ is_Some (parse (rq_Body r)) → (∀ r', vspec r' = None) →
  ∃ r', srv_Handler srv r wr =
          mkServed [(ac_ID (ic_Credential issued), at_now a)] (Called op vars r' wr) ∧
    rq_identity r' = Some (machineIdentity (ic_Credential issued)) ∧ ac_Role (ic_Credential issued) = nc_Role spec.
Proof.
  intros Hrun Hs Hdb Hf Hh Hnow Hroute Hop Hrole Hb Hl Hj Hv.
  assert (Hi : issued_as spec issued (sw_db s')).
  { exact (wp_run _ _ _ _ _ _ _ _ _ (Forall_true _ _ (λ _, I)) (Credentials_Create_wp w spec s) Hrun issued eq_refl). }
  rewrite <- Hdb in Hi. assert (Hr : ac_Role (ic_Credential issued) = nc_Role spec) by apply Hi.
  assert (Hvalid : Role_Valid (nc_Role spec) = true) by apply Hi.
  unfold NewServer in Hs. destruct (d <=? 0); [done|]. destruct (negb creds); [done|].
  destruct (negb users || _); [done|]. injection Hs as <-. simpl. unfold ClientIP, Guard.
  set (r1 := withClientIP r _). destruct (guard_agrees r op vars Hroute) as [Hg Hp].
  assert (Ho : has openPaths (rq_Method r +:+ " " +:+ URL_Path r) = false).
  { apply (f_equal fst) in Hg. cbn [fst] in Hg. rewrite Hg. destruct op; try done; by destruct Hop; set_solver. }
  assert (Hself : has selfServicePaths (rq_Method r +:+ " " +:+ URL_Path r) = bool_decide (op = OpLogout)).
  { apply (f_equal snd) in Hg. cbn [snd] in Hg. rewrite Hg. by destruct op. }
  change (rq_Method r1) with (rq_Method r). change (URL_Path r1) with (URL_Path r). rewrite Ho, Hself.
  set (r2 := withIdentity r1 (machineIdentity (ic_Credential issued))).
  destruct (inner_takes vspec (at_now a) d r2 wr op vars Hroute Hb Hl Hj Hv) as (r' & Hin & Hid).
  assert (Ha : authenticate sha256 read_token a r1 =
                 Some (machineIdentity (ic_Credential issued), Some (ac_ID (ic_Credential issued), at_now a)))
    by by apply (issued_authenticates spec).
  exists r'. split; [|by rewrite Hid]. unfold RequireToken. rewrite Ha. fold r2. case_bool_decide as Hlogout.
  - by rewrite Hin.
  - unfold RequirePermission. change (roleFrom r2) with (ac_Role (ic_Credential issued)).
    change (rq_Method r2) with (rq_Method r). rewrite Hp, Hr.
    assert (Hallow : Role_Allows (nc_Role spec) (if changes op then PermissionWrite else PermissionRead) = true).
    { destruct Hrole as [->|[->|?]]; [done| |done]. unfold Role_Valid in Hvalid. simpl in Hvalid. unfold Role_Allows.
      destruct (String.eqb _ RoleAdmin); [done|]. by destruct (String.eqb _ RoleReadonly). }
    rewrite Hallow. cbn [negb]. by rewrite Hin.
Qed.
End Credentials.

(** ** An example: a read-only credential lists a tenant's keys *)

Definition ex_credential_spec : NewAdminCredential := mkNewAdminCredential "dashboard" RoleReadonly (Some (100 * Second)).
Definition ex_issue := run (svc_perform ex_jsonb ex_show) (ex_chs 1) (Credentials_Create ex_sha ex_write ex_credential_spec) ex_before.
Definition no_credential : IssuedAdminCredential :=
  mkIssuedAdminCredential (mkAdminCredential uuid_Nil "" "" "" None 0 None None) "".
Definition ex_issued : IssuedAdminCredential :=
  match ex_issue with Some (_, Ok i, _) => i | _ => no_credential end.
Definition ex_issued_world : svc_world := match ex_issue with Some (s, _, _) => s | None => ex_before end.
Definition ex_gate : Authenticators :=
  mkAuthenticators (sw_db ex_issued_world) None empty_db None (Some ex_issuer) (50 * Second).
Definition ex_request (method : string) : request :=
  mkRequest method ["admin"; "v1"; "tenants"; "acme"; "keys"] ∅
    {["Authorization" := "Bearer " +:+ ic_Secret ex_issued]} "10.0.0.1:5000" [] None None None None.
Definition ex_read_token (_ : bytes) : @token toy_Jwt := ex_token.
Definition ex_server_text (_ : text) : string := "error".
Definition no_server : Server := mkServer api 0 0.
Definition ex_server : Server :=
  match NewServer ex_server_text ex_sha ex_read_token ex_gate true true (Ok (λ _, None)) (10 * Second) with
  | Ok s => s | Err _ => no_server end.
Definition ex_new_writer : Writer := new_Writer 10.

Lemma ex_issue_ok : ∃ tr, ex_issue = Some (ex_issued_world, Ok ex_issued, tr).
Proof. eexists. by vm_compute. Qed.

Lemma issued_credential_opens_witness :
  ∃ r', srv_Handler ex_server (ex_request "GET") ex_new_writer =
          mkServed [(ac_ID (ic_Credential ex_issued), 50 * Second)] (Called OpListAPIKeys ["acme"] r' ex_new_writer) ∧
    rq_identity r' = Some (machineIdentity (ic_Credential ex_issued)) ∧
    ac_Role (ic_Credential ex_issued) = RoleReadonly.
Proof.
  destruct ex_issue_ok as [tr Hi].
  refine (issued_credential_opens ex_sha ex_show ex_jsonb ex_server_text ex_read_token (ex_chs 1) ex_write ex_credential_spec
            ex_before ex_issued_world ex_issued tr ex_gate true true (λ _, None) (10 * Second) ex_server (ex_request "GET")
            ex_new_writer OpListAPIKeys ["acme"] Hi _ _ _ _ _ _ _ _ _ _ _ _).
  - done.
  - done.
  - done.
  - done.
  - intros e [= <-]. by vm_compute.
  - by vm_compute.
  - intros Hin. apply elem_of_cons in Hin as [[=]|Hin%list_elem_of_singleton]. discriminate Hin.
  - by right; left.
  - done.
  - by vm_compute.
  - by left.
  - done.
Defined.

(** The same credential may not create one. *)
Example ex_readonly_refused :
  ∃ w, sv_served (srv_Handler ex_server (ex_request "POST") ex_new_writer) = Wrote w ∧ fst <$> w_sent w = Some 403.
Proof. eexists. split; [by vm_compute|by vm_compute]. Qed.

Definition ex_called : served := sv_served (srv_Handler ex_server (ex_request "GET") ex_new_writer).
Definition ex_called_request : request := match ex_called with Called _ _ r _ => r | Wrote _ => ex_request "GET" end.
Lemma ex_called_list : ex_called = Called OpListAPIKeys ["acme"] ex_called_request ex_new_writer.
Proof. by vm_compute. Qed.

Lemma gate_admits_witness :
  ∃ id, rq_identity ex_called_request = Some id ∧ entitled ex_sha ex_read_token ex_gate (ex_request "GET") id.
Proof.
  destruct (gate_admits ex_server_text ex_sha ex_read_token ex_gate true true (λ _, None) (10 * Second) ex_server
              (ex_request "GET") ex_new_writer OpListAPIKeys ["acme"] ex_called_request ex_new_writer)
    as [[[H _]|(id & Hid & He & _)] _].
  - done.
  - done.
  - exact ex_called_list.
  - exfalso. set_solver.
  - exact (ex_intro _ id (conj Hid He)).
Defined.
