(* ===== verification/AdminWire.v ===== *)
(** What the admin API says: the types of the contract ([schemas/admin/gen]) and the mapping
    between them and the domain's ([mapping.go] and [mapping_observability.go] of
    [internal/adapters/inbound/adminapi]).

    A field that may be left out is an [option]; one that may also be null is [nullable]. *)
From Stdlib Require Import Ascii.
From stdpp Require Import gmap.
From S2P Require Import Prelude Sorting Errors Env Bytes Money Quota Records Accounts UsageReport AuditPage.

(** [nullable.Nullable]: left out, null, or a value. *)
Inductive nullable (A : Type) := Unspecified | Null | Value (a : A).
Arguments Unspecified {A}.
Arguments Null {A}.
Arguments Value {A} a.

Definition IsSpecified {A} (n : nullable A) : bool := match n with Unspecified => false | _ => true end.

(** [src/internal/adapters/inbound/adminapi/mapping.go:105-110] nullableOf *)
Definition nullableOf {A} (p : option A) : nullable A := match p with Some v => Value v | None => Null end.
(** [src/internal/adapters/inbound/adminapi/mapping.go:112-118] pointerOf *)
Definition pointerOf {A} (n : nullable A) : option A := match n with Value v => Some v | _ => None end.
(** [src/internal/adapters/inbound/adminapi/mapping_observability.go:131-138] nullableString *)
Definition nullableString (s : string) : nullable string := if String.eqb s "" then Null else Value s.
(** [src/internal/adapters/inbound/adminapi/mapping_observability.go:233-240] optionalString *)
Definition optionalString (s : string) : option string := if String.eqb s "" then None else Some s.

(** ** Tenants *)

(** [src/schemas/admin/gen/admin.gen.go:616-630] gen.Tenant *)
Record gen_Tenant := mkGenTenant {
  gt_CreatedAt : time;
  gt_DisabledAt : nullable time;
  gt_ExternalId : string;
  gt_Id : uuid;
  gt_Metadata : string;
  gt_Name : string;
}.

(** [src/internal/adapters/inbound/adminapi/mapping.go:12-25] toTenant *)
Definition toTenant (t : TenantAccount) : gen_Tenant :=
  let meta := if String.eqb (ta_Metadata t) "" then "{}" else ta_Metadata t in
  mkGenTenant (ta_CreatedAt t) (nullableOf (ta_DisabledAt t)) (ta_ExternalID t) (ta_ID t) meta (ta_Name t).

(** ** Keys *)

(** [src/schemas/admin/gen/admin.gen.go:216-231] gen.APIKey *)
Record gen_APIKey := mkGenAPIKey {
  gk_CreatedAt : time;
  gk_Id : uuid;
  gk_KeyPrefix : string;
  gk_LastUsedAt : nullable time;
  gk_ModelAllowlist : nullable (list string);
  gk_RevokedAt : nullable time;
  gk_TenantId : uuid;
}.
(** [src/schemas/admin/gen/admin.gen.go:472-490] gen.IssuedAPIKey *)
Record gen_IssuedAPIKey := mkGenIssuedAPIKey { gi_Key : gen_APIKey; gi_Secret : string }.

(** [src/internal/adapters/inbound/adminapi/mapping.go:53-58] toAllowlist *)
Definition toAllowlist (l : option (list string)) : nullable (list string) :=
  match l with None => Null | Some l => Value l end.
(** A value is never nil once decoded, so it stays the list it is.

    [src/internal/adapters/inbound/adminapi/mapping.go:60-69] fromAllowlist *)
Definition fromAllowlist (n : nullable (list string)) : option (list string) :=
  match n with Value l => Some l | _ => None end.

(** [src/internal/adapters/inbound/adminapi/mapping.go:27-37] toKey *)
Definition toKey (k : APIKey) : gen_APIKey :=
  mkGenAPIKey (ak_CreatedAt k) (ak_ID k) (ak_Prefix k) (nullableOf (ak_LastUsedAt k)) (toAllowlist (ak_ModelAllowlist k))
    (nullableOf (ak_RevokedAt k)) (ak_TenantID k).
(** [src/internal/adapters/inbound/adminapi/mapping.go:39-51] toIssuedKey *)
Definition toIssuedKey (k : APIKey) (secret : string) : gen_IssuedAPIKey := mkGenIssuedAPIKey (toKey k) secret.

(** ** Quotas *)

(** [src/schemas/admin/gen/admin.gen.go:531-543] gen.Quota *)
Record gen_Quota := mkGenQuota {
  gq_MaxCostNanos : Z;
  gq_OnExceed : string;
  gq_PeriodEnd : nullable time;
  gq_PeriodStart : nullable time;
  gq_UpdatedAt : time;
  gq_WindowKind : string;
}.
(** [src/schemas/admin/gen/admin.gen.go:566-581] gen.QuotaInput *)
Record gen_QuotaInput := mkGenQuotaInput {
  gqi_MaxCostNanos : Z;
  gqi_OnExceed : option string;
  gqi_PeriodEnd : nullable time;
  gqi_PeriodStart : nullable time;
  gqi_WindowKind : option string;
}.

(** [src/internal/adapters/inbound/adminapi/mapping.go:71-80] toQuota *)
Definition toQuota (q : Quota) : gen_Quota :=
  mkGenQuota (q_MaxCost q) (q_OnExceed q) (nullableOf (q_PeriodEnd q)) (nullableOf (q_PeriodStart q))
    (q_UpdatedAt q) (q_WindowKind q).
(** [src/internal/adapters/inbound/adminapi/mapping.go:82-88] toQuotas *)
Definition toQuotas (set : list Quota) : list gen_Quota := map toQuota set.
(** [src/internal/adapters/inbound/adminapi/mapping.go:90-103] fromQuota *)
Definition fromQuota (i : gen_QuotaInput) : Quota :=
  mkQuota (default "" (gqi_WindowKind i)) (pointerOf (gqi_PeriodStart i)) (pointerOf (gqi_PeriodEnd i))
    (gqi_MaxCostNanos i) (default "" (gqi_OnExceed i)) zero_time.

(** ** People *)

(** [src/schemas/admin/gen/admin.gen.go:262-275] gen.AdminUser *)
Record gen_AdminUser := mkGenAdminUser {
  gu_CreatedAt : time;
  gu_DisabledAt : nullable time;
  gu_Email : string;
  gu_Id : uuid;
  gu_LastLoginAt : nullable time;
  gu_Role : string;
}.
(** [src/schemas/admin/gen/admin.gen.go:458-466] gen.Identity *)
Record gen_Identity := mkGenIdentity {
  gid_Actor : string;
  gid_Kind : string;
  gid_Role : string;
  gid_User : option gen_AdminUser;
}.

(** [src/internal/adapters/inbound/adminapi/session.go:92-101] toAdminUser *)
Definition toAdminUser (u : AdminUser) : gen_AdminUser :=
  mkGenAdminUser (au_CreatedAt u) (nullableOf (au_DisabledAt u)) (au_Email u) (au_ID u)
    (nullableOf (au_LastLoginAt u)) (au_Role u).

(** ** Usage *)

(** [src/schemas/admin/gen/admin.gen.go:663-669] gen.TokenCounts *)
Record gen_TokenCounts := mkGenTokenCounts {
  gc_CacheRead : Z; gc_CacheWrite : Z; gc_Input : Z; gc_Output : Z; gc_Reasoning : Z }.
(** [src/schemas/admin/gen/admin.gen.go:672-679] gen.UsageComparison *)
Record gen_UsageComparison := mkGenUsageComparison { gcmp_CostNanos : Z; gcmp_Requests : Z; gcmp_Target : string }.
(** [src/schemas/admin/gen/admin.gen.go:757-782] gen.UsageTotals *)
Record gen_UsageTotals := mkGenUsageTotals {
  gut_Comparisons : list gen_UsageComparison;
  gut_CostNanos : Z;
  gut_Disconnected : Z;
  gut_Failed : Z;
  gut_Ok : Z;
  gut_Requests : Z;
  gut_Tokens : gen_TokenCounts;
  gut_Truncated : Z;
  gut_Unpriced : Z;
}.
(** A row is its totals, its key and its latencies.

    [src/schemas/admin/gen/admin.gen.go:700-737] gen.UsageRow *)
Record gen_UsageRow := mkGenUsageRow {
  gur_Totals : gen_UsageTotals;
  gur_Key : string;
  gur_P50TtftMs : Z;
  gur_P95TotalMs : Z;
  gur_P95TtftMs : Z;
}.
(** [src/schemas/admin/gen/admin.gen.go:740-754] gen.UsageSpec *)
Record gen_UsageSpec := mkGenUsageSpec {
  gus_GroupBy : string;
  gus_MetaKey : option string;
  gus_Since : time;
  gus_Tenant : string;
  gus_Until : time;
}.
(** [src/schemas/admin/gen/admin.gen.go:686-696] gen.UsageReport *)
Record gen_UsageReport := mkGenUsageReport {
  gr_Rows : list gen_UsageRow;
  gr_Spec : gen_UsageSpec;
  gr_Total : gen_UsageTotals;
  gr_TruncatedGroups : Z;
}.

(** [src/internal/adapters/inbound/adminapi/mapping_observability.go:91-99] toTokenCounts *)
Definition toTokenCounts (u : TokenUsage) : gen_TokenCounts :=
  mkGenTokenCounts (CacheRead u) (CacheWrite u) (Input u) (Output u) (Reasoning u).

Definition by_target (a b : gen_UsageComparison) : bool := string_lt (gcmp_Target a) (gcmp_Target b).
(** [src/internal/adapters/inbound/adminapi/mapping_observability.go:78-89] toComparisons *)
Definition toComparisons (m : gmap string Comparison) : list gen_UsageComparison :=
  sort_slice by_target
    (map (λ tc, mkGenUsageComparison (cmp_Cost tc.2) (cmp_Requests tc.2) tc.1) (map_to_list m)).

(** [src/internal/adapters/inbound/adminapi/mapping_observability.go:61-73] toUsageTotals *)
Definition toUsageTotals (r : ReportRow) : gen_UsageTotals :=
  mkGenUsageTotals (toComparisons (row_Comparisons r)) (row_Cost r) (row_Disconnected r) (row_Failed r) (row_OK r)
    (row_Requests r) (toTokenCounts (row_Usage r)) (row_Truncated r) (row_Unpriced r).
(** [src/internal/adapters/inbound/adminapi/mapping_observability.go:42-59] toUsageRow *)
Definition toUsageRow (r : ReportRow) : gen_UsageRow :=
  mkGenUsageRow (toUsageTotals r) (row_Key r) (row_P50TTFTMs r) (row_P95TotalMs r) (row_P95TTFTMs r).
(** [src/internal/adapters/inbound/adminapi/mapping_observability.go:18-38] toUsageReport *)
Definition toUsageReport (spec : ReportSpec) (r : Report) : gen_UsageReport :=
  mkGenUsageReport (map toUsageRow (rep_Rows r))
    (mkGenUsageSpec (UsageReport.rs_GroupBy spec)
       (if String.eqb (UsageReport.rs_GroupBy spec) GroupByMetadata then Some (rs_MetaKey spec) else None)
       (range_Since (rep_Spec r)) (range_Tenant (rep_Spec r)) (range_Until (rep_Spec r)))
    (toUsageTotals (rep_Total r)) (rep_TruncatedGroups r).

(** ** Audit events *)

(** [src/schemas/admin/gen/admin.gen.go:279-308] gen.AuditEvent *)
Record gen_AuditEvent := mkGenAuditEvent {
  ge_Action : string;
  ge_Actor : string;
  ge_At : time;
  ge_Detail : nullable string;
  ge_Error : nullable string;
  ge_FinalTarget : nullable string;
  ge_Id : uuid;
  ge_KeyId : nullable uuid;
  ge_RequestId : nullable string;
  ge_StatusCode : nullable Z;
  ge_TenantId : nullable uuid;
}.
(** [src/schemas/admin/gen/admin.gen.go:311-317] gen.AuditPage *)
Record gen_AuditPage := mkGenAuditPage { gp_Events : list gen_AuditEvent; gp_NextCursor : nullable bytes }.

(** [src/internal/adapters/inbound/adminapi/mapping_observability.go:115-129] toAuditEvent *)
Definition toAuditEvent (e : AuditEvent) : gen_AuditEvent :=
  mkGenAuditEvent (ev_Action e) (ev_Actor e) (ev_At e) (nullableString (ev_Detail e)) (nullableString (ev_Error e))
    (nullableString (ev_FinalTarget e)) (ev_ID e) (nullableOf (ev_KeyID e)) (nullableString (ev_RequestID e))
    (nullableOf (ev_StatusCode e)) (nullableOf (ev_TenantID e)).

(** [src/internal/adapters/inbound/adminapi/mapping_observability.go:100-113] toAuditPage *)
Definition toAuditPage (uuid_String : uuid → string) (p : AuditPage) : gen_AuditPage :=
  mkGenAuditPage (map toAuditEvent (pg_Events p))
    match pg_Next p with Some c => Value (encodeCursor uuid_String c) | None => Null end.

(** ** Decisions *)

(** [src/schemas/admin/gen/admin.gen.go:425-430] gen.DecisionTarget *)
Record gen_DecisionTarget := mkGenDecisionTarget {
  gdt_Name : string; gdt_Provider : option string; gdt_Region : option string; gdt_UpstreamModel : option string }.
(** [src/schemas/admin/gen/admin.gen.go:396-407] gen.DecisionLadder *)
Record gen_DecisionLadder := mkGenDecisionLadder {
  gdl_ModelAlias : option string;
  gdl_PolicyVersion : option Z;
  gdl_ReasonKind : option string;
  gdl_RuleName : option string;
  gdl_Targets : list gen_DecisionTarget;
}.
(** [src/schemas/admin/gen/admin.gen.go:366-376] gen.DecisionAttemptFailure *)
Record gen_DecisionAttemptFailure := mkGenDecisionAttemptFailure {
  gdf_Kind : string; gdf_Message : text; gdf_Retryable : bool; gdf_StatusCode : option Z }.
(** [src/schemas/admin/gen/admin.gen.go:358-363] gen.DecisionAttempt *)
Record gen_DecisionAttempt := mkGenDecisionAttempt {
  gda_DurationMs : Z; gda_Failure : option gen_DecisionAttemptFailure; gda_StartedAt : time; gda_Target : string }.
(** [src/schemas/admin/gen/admin.gen.go:389-393] gen.DecisionCounterfactual *)
Record gen_DecisionCounterfactual := mkGenDecisionCounterfactual { gdc_CostNanos : Z; gdc_Target : string }.
(** [src/schemas/admin/gen/admin.gen.go:379-386] gen.DecisionCost *)
Record gen_DecisionCost := mkGenDecisionCost {
  gco_ActualNanos : Z;
  gco_Counterfactuals : option (list gen_DecisionCounterfactual);
  gco_PriceTableVersion : option string;
}.
(** [src/schemas/admin/gen/admin.gen.go:410-418] gen.DecisionRequest *)
Record gen_DecisionRequest := mkGenDecisionRequest {
  gdr_Metadata : gmap string string; gdr_RequestedModel : string; gdr_Stream : bool; gdr_WantsUsage : bool }.
(** [src/schemas/admin/gen/admin.gen.go:433-438] gen.DecisionTiming *)
Record gen_DecisionTiming := mkGenDecisionTiming { gdg_TotalMs : Z; gdg_TtftMs : Z }.
(** [src/schemas/admin/gen/admin.gen.go:321-354] gen.Decision *)
Record gen_Decision := mkGenDecision {
  gd_Attempts : list gen_DecisionAttempt;
  gd_ChosenTarget : option string;
  gd_Cost : option gen_DecisionCost;
  gd_Id : string;
  gd_KeyId : nullable uuid;
  gd_Ladder : gen_DecisionLadder;
  gd_OccurredAt : time;
  gd_Request : gen_DecisionRequest;
  gd_Status : string;
  gd_Tenant : string;
  gd_Timing : gen_DecisionTiming;
  gd_Tokens : gen_TokenCounts;
}.

(** [src/internal/adapters/inbound/adminapi/mapping_observability.go:175-195] toLadder *)
Definition toLadder (l : Ladder) : gen_DecisionLadder :=
  let reason := ladder_Reason l in
  mkGenDecisionLadder (optionalString (reason_ModelAlias reason))
    (if reason_PolicyVersion reason =? 0 then None else Some (reason_PolicyVersion reason))
    (if String.eqb (reason_Kind reason) "" then None else Some (reason_Kind reason))
    (optionalString (reason_RuleName reason))
    (map (λ t, mkGenDecisionTarget (ref_Name t) (optionalString (ref_Provider t)) (optionalString (ref_Region t))
                 (optionalString (ref_UpstreamModel t))) (ladder_Targets l)).

(** [src/internal/adapters/inbound/adminapi/mapping_observability.go:197-219] toAttempts *)
Definition toAttempts (attempts : list Attempt) : list gen_DecisionAttempt :=
  map (λ a, mkGenDecisionAttempt (at_DurationMs a)
              ((λ f, mkGenDecisionAttemptFailure (af_Kind f) (af_Message f) (af_Retryable f)
                       (if af_StatusCode f =? 0 then None else Some (af_StatusCode f))) <$> at_Failure a)
              (at_StartedAt a) (at_Target a)) attempts.

(** [src/internal/adapters/inbound/adminapi/mapping_observability.go:221-231] toDecisionCost *)
Definition toDecisionCost (c : CostBreakdown) : gen_DecisionCost :=
  mkGenDecisionCost (Actual c)
    (Some (map (λ cf, mkGenDecisionCounterfactual (cf_Cost cf) (cf_Target cf)) (Counterfactuals c)))
    (optionalString (PriceTableVersion c)).

(** [src/internal/adapters/inbound/adminapi/mapping_observability.go:140-173] toDecision *)
Definition toDecision (uuid_String : uuid → string) (d : RoutingDecision) : gen_Decision :=
  mkGenDecision (toAttempts (out_Attempts (d_Outcome d)))
    (let chosen := ChosenTarget (d_Outcome d) in if String.eqb chosen "" then None else Some chosen)
    (toDecisionCost <$> d_Cost d)
    (DecisionID_String uuid_String (d_ID d))
    (if N.eqb (d_KeyID d) uuid_Nil then Null else Value (d_KeyID d))
    (toLadder (d_Ladder d))
    (d_OccurredAt d)
    (mkGenDecisionRequest (rs_Metadata (d_Request d)) (rs_RequestedModel (d_Request d)) (rs_Stream (d_Request d))
       (rs_WantsUsage (d_Request d)))
    (out_Status (d_Outcome d)) (d_Tenant d)
    (mkGenDecisionTiming (out_TotalMs (d_Outcome d)) (out_TTFTMs (d_Outcome d)))
    (toTokenCounts (out_Usage (d_Outcome d))).

(** ** Enumerations

    The contract's enums are strings of their own; values pass between them and the domain's by
    conversion, which checks nothing. *)
(** [src/schemas/admin/gen/admin.gen.go:29-45] AdminRole.Valid *)
Definition gen_AdminRole_Valid (e : string) : bool :=
  existsb (String.eqb e) ["admin"; "readonly"].
(** [src/schemas/admin/gen/admin.gen.go:47-72] DecisionStatus.Valid *)
Definition gen_DecisionStatus_Valid (e : string) : bool :=
  existsb (String.eqb e) ["client_disconnect"; "exhausted"; "ok"; "policy_blocked"; "truncated"].
(** [src/schemas/admin/gen/admin.gen.go:74-105] ErrorBodyType.Valid *)
Definition gen_ErrorBodyType_Valid (e : string) : bool :=
  existsb (String.eqb e) ["authentication_error"; "conflict_error"; "internal_error"; "invalid_request_error"; "not_found_error"; "permission_error"; "timeout_error"].
(** [src/schemas/admin/gen/admin.gen.go:107-123] IdentityKind.Valid *)
Definition gen_IdentityKind_Valid (e : string) : bool :=
  existsb (String.eqb e) ["machine"; "user"].
(** [src/schemas/admin/gen/admin.gen.go:125-141] QuotaAction.Valid *)
Definition gen_QuotaAction_Valid (e : string) : bool :=
  existsb (String.eqb e) ["allow"; "block"].
(** [src/schemas/admin/gen/admin.gen.go:143-156] SessionTokenType.Valid *)
Definition gen_SessionTokenType_Valid (e : string) : bool :=
  existsb (String.eqb e) ["Bearer"].
(** [src/schemas/admin/gen/admin.gen.go:158-186] UsageGroupBy.Valid *)
Definition gen_UsageGroupBy_Valid (e : string) : bool :=
  existsb (String.eqb e) ["day"; "metadata"; "model"; "none"; "status"; "target"].
(** [src/schemas/admin/gen/admin.gen.go:188-213] WindowKind.Valid *)
Definition gen_WindowKind_Valid (e : string) : bool :=
  existsb (String.eqb e) ["day"; "hour"; "minute"; "month"; "period"].

Lemma same_members (l l' : list string) : (∀ s, s ∈ l ↔ s ∈ l') → ∀ s, existsb (String.eqb s) l = existsb (String.eqb s) l'.
Proof.
  intros Hl s. apply Bool.eq_iff_eq_true. rewrite !existsb_exists.
  split; intros (x & Hx & E); exists x; (split; [|done]); apply list_elem_of_In; apply Hl; by apply list_elem_of_In.
Qed.

(** They agree: a value of one side is known to the other. *)
Lemma enums_agree s :
  gen_WindowKind_Valid s = WindowKind_Valid s ∧ gen_QuotaAction_Valid s = existsb (String.eqb s) [QuotaBlock; QuotaAllow] ∧
  gen_AdminRole_Valid s = Role_Valid s ∧ gen_UsageGroupBy_Valid s = GroupBy_Valid s ∧
  gen_DecisionStatus_Valid s =
    existsb (String.eqb s) [StatusOK; StatusExhausted; StatusTruncated; StatusClientDisconnect; StatusPolicyBlocked].
Proof.
  assert (Hsub : ∀ l l' : list string, forallb (λ x, bool_decide (x ∈ l')) l = true → ∀ x, x ∈ l → x ∈ l').
  { intros l l' Hl x Hx. rewrite forallb_forall in Hl. by apply (bool_decide_eq_true_1 (x ∈ l')), Hl, list_elem_of_In. }
  split_and!; apply same_members; intros x; (split; apply Hsub; by vm_compute).
Qed.
