(* ===== verification/AdminHandlers.v ===== *)
(** The operations of the admin API: [session.go], [tenants.go], [keys.go], [quotas.go] and
    [observability.go] of [internal/adapters/inbound/adminapi].

    An operation is a program of the calls it makes on the use cases and the records; decoding
    a request into its input is [AdminServer]'s. *)
From Stdlib Require Import Ascii.
From stdpp Require Import gmap.
From S2P Require Import Prelude Errors Env Bytes Money Quota Records Accounts Tokens Users Programs TenantIds UsageReport AuditPage Service AdminGate AdminWire.

Section Handlers.
Context `{Jwt}.

(** ** Calls *)

(** The methods of [ports.Admin], [ports.AdminAuth] and [ports.ObservabilityRepository] the
    handler uses, and its clock.

    [src/internal/ports/admin.go:80-99] Admin
    [src/internal/ports/admin_users.go:136-151] AdminAuth
    [src/internal/ports/store.go:107-117] ObservabilityRepository *)
Inductive api_call :=
| CNow
| CLogin (c : Credentials) | CRefresh (refreshToken : string) | CLogout (actor refreshToken : string)
| CCreateTenant (w : Write) (i : NewTenant) | CListTenants (f : TenantFilter) | CGetTenant (ref : string)
| CUpdateTenant (w : Write) (ref : string) (p : TenantPatch)
| CDisableTenant (w : Write) (ref : string) | CEnableTenant (w : Write) (ref : string)
| CCreateAPIKey (w : Write) (ref : string) (i : NewAPIKey) | CListAPIKeys (ref : string)
| CGetAPIKey (id : uuid) | CUpdateAPIKey (w : Write) (id : uuid) (p : APIKeyPatch) | CRevokeAPIKey (w : Write) (id : uuid)
| CListQuotas (ref : string) | CReplaceQuotas (w : Write) (ref : string) (set : list Quota)
| CGetQuota (ref : string) (kind : WindowKind) | CPutQuota (w : Write) (ref : string) (q : Quota)
| CDeleteQuota (w : Write) (ref : string) (kind : WindowKind)
| CResolveTenant (ref : string) | CAggregate (spec : ReportSpec) | CListAudit (q : AuditQuery) | CGetDecision (id : DecisionID).

#[export] Instance api_interface : Interface api_call := {
  answer a :=
    match a with
    | CNow => time
    | CLogin _ | CRefresh _ => result error AdminSessionTokens
    | CLogout _ _ | CDeleteQuota _ _ _ => result error unit
    | CCreateTenant _ _ => result error TenantCreated
    | CListTenants _ => result error (list TenantAccount)
    | CGetTenant _ | CUpdateTenant _ _ _ | CDisableTenant _ _ | CEnableTenant _ _ => result error TenantAccount
    | CCreateAPIKey _ _ _ => result error IssuedAPIKey
    | CListAPIKeys _ => result error (list APIKey)
    | CGetAPIKey _ | CUpdateAPIKey _ _ _ | CRevokeAPIKey _ _ => result error APIKey
    | CListQuotas _ | CReplaceQuotas _ _ _ => result error (list Quota)
    | CGetQuota _ _ | CPutQuota _ _ _ => result error Quota
    | CResolveTenant _ => result error Tenant
    | CAggregate _ => result error Report
    | CListAudit _ => result error AuditPage
    | CGetDecision _ => result error RoutingDecision
    end;
}.
Local Notation api := (prog api_call).

(** ** Answers *)

(** [src/schemas/admin/gen/admin.gen.go:600-610] gen.Session *)
Record gen_Session := mkGenSession {
  gs_AccessToken : token;
  gs_ExpiresAt : time;
  gs_RefreshToken : string;
  gs_TokenType : string;
  gs_User : gen_AdminUser;
}.

Inductive body :=
| BSession (s : gen_Session) | BIdentity (i : gen_Identity)
| BTenant (t : gen_Tenant) | BTenants (l : list gen_Tenant)
| BKey (k : gen_APIKey) | BIssuedKey (k : gen_IssuedAPIKey) | BKeys (l : list gen_APIKey)
| BQuota (q : gen_Quota) | BQuotas (l : list gen_Quota)
| BUsage (r : gen_UsageReport) | BAudit (p : gen_AuditPage) | BDecision (d : gen_Decision)
| BError (message errType : string) | BNone.
Record response := mkResponse { re_Status : Z; re_WWWAuthenticate : option string; re_Body : body }.
Definition answer_ok (b : body) : result error response := Ok (mkResponse 200 None b).
Notation replies := (api (result error response)).

(** ** Sessions *)

(** [src/internal/adapters/inbound/adminapi/session.go:72-80] unauthorized *)
Definition admin_unauthorized (message : string) : response :=
  mkResponse 401 (Some "Bearer") (BError message AuthenticationError).
(** [src/internal/adapters/inbound/adminapi/session.go:82-90] toSession *)
Definition toSession (s : AdminSessionTokens) : gen_Session :=
  mkGenSession (st_AccessToken s) (st_ExpiresAt s) (st_RefreshToken s) "Bearer" (toAdminUser (st_User s)).

(** [src/internal/adapters/inbound/adminapi/session.go:14-30] Handler.Login *)
Definition Handler_Login (r : request) (email password : string) : replies :=
  do session <- call (CLogin (mkCredentials email password (clientIPFrom r)));
  Ret match session with
      | Ok s => answer_ok (BSession (toSession s))
      | Err err => if Is err ErrUnauthenticated then Ok (admin_unauthorized "invalid email or password") else Err err
      end.

(** [src/internal/adapters/inbound/adminapi/session.go:32-45] Handler.RefreshSession *)
Definition Handler_RefreshSession (refreshToken : string) : replies :=
  do session <- call (CRefresh refreshToken);
  Ret match session with
      | Ok s => answer_ok (BSession (toSession s))
      | Err err => if Is err ErrUnauthenticated then Ok (admin_unauthorized "invalid refresh token") else Err err
      end.

(** [src/internal/adapters/inbound/adminapi/session.go:47-54] Handler.Logout *)
Definition Handler_Logout (r : request) (refreshToken : string) : replies :=
  try _ <- call (CLogout (actorFrom r) refreshToken);
  Ret (Ok (mkResponse 204 None BNone)).

(** [src/internal/adapters/inbound/adminapi/session.go:56-70] Handler.Whoami *)
Definition Handler_Whoami (r : request) : replies :=
  let id := identityFrom r in
  Ret (answer_ok (BIdentity (mkGenIdentity (id_Actor id) (id_Kind id) (AdminGate.id_Role id) (toAdminUser <$> id_User id)))).

(** ** Tenants *)

Definition tenant_answer (p : api (result error TenantAccount)) : replies :=
  try t <- p; Ret (answer_ok (BTenant (toTenant t))).

(** [src/internal/adapters/inbound/adminapi/tenants.go:10-28] Handler.CreateTenant *)
Definition Handler_CreateTenant (r : request) (externalId name : string) (metadata : option string) : replies :=
  try c <- call (CCreateTenant (writeFrom r) (mkNewTenant externalId name (default "" metadata)));
  Ret (Ok (mkResponse (if tc_Created c then 201 else 200) None (BTenant (toTenant (tc_Tenant c))))).

(** [src/internal/adapters/inbound/adminapi/tenants.go:30-50] Handler.ListTenants *)
Definition Handler_ListTenants (includeDisabled : option bool) (limit : option Z) : replies :=
  try tenants <- call (CListTenants (mkTenantFilter (default false includeDisabled) (default 0 limit)));
  Ret (answer_ok (BTenants (map toTenant tenants))).

(** [src/internal/adapters/inbound/adminapi/tenants.go:52-60] Handler.GetTenant *)
Definition Handler_GetTenant (ref : string) : replies := tenant_answer (call (CGetTenant ref)).

(** [src/internal/adapters/inbound/adminapi/tenants.go:62-75] Handler.UpdateTenant *)
Definition Handler_UpdateTenant (r : request) (ref : string) (name metadata : option string) : replies :=
  tenant_answer (call (CUpdateTenant (writeFrom r) ref (mkTenantPatch name metadata))).

(** [src/internal/adapters/inbound/adminapi/tenants.go:77-87] Handler.DisableTenant *)
Definition Handler_DisableTenant (r : request) (ref : string) : replies :=
  tenant_answer (call (CDisableTenant (writeFrom r) ref)).

(** [src/internal/adapters/inbound/adminapi/tenants.go:89-97] Handler.EnableTenant *)
Definition Handler_EnableTenant (r : request) (ref : string) : replies :=
  tenant_answer (call (CEnableTenant (writeFrom r) ref)).

(** ** Keys *)

Definition key_answer (p : api (result error APIKey)) : replies :=
  try k <- p; Ret (answer_ok (BKey (toKey k))).

(** The body may be left out.

    [src/internal/adapters/inbound/adminapi/keys.go:10-25] Handler.CreateAPIKey *)
Definition Handler_CreateAPIKey (r : request) (ref : string) (body : option (nullable (list string))) : replies :=
  let i := mkNewAPIKey match body with Some l => fromAllowlist l | None => None end in
  try issued <- call (CCreateAPIKey (writeFrom r) ref i);
  Ret (Ok (mkResponse 201 None (BIssuedKey (toIssuedKey (ik_Key issued) (ik_Secret issued))))).

(** [src/internal/adapters/inbound/adminapi/keys.go:27-39] Handler.ListAPIKeys *)
Definition Handler_ListAPIKeys (ref : string) : replies :=
  try keys <- call (CListAPIKeys ref);
  Ret (answer_ok (BKeys (map toKey keys))).

(** [src/internal/adapters/inbound/adminapi/keys.go:41-49] Handler.GetAPIKey *)
Definition Handler_GetAPIKey (id : uuid) : replies := key_answer (call (CGetAPIKey id)).

(** [src/internal/adapters/inbound/adminapi/keys.go:51-69] Handler.UpdateAPIKey *)
Definition Handler_UpdateAPIKey (r : request) (id : uuid) (modelAllowlist : nullable (list string)) : replies :=
  if negb (IsSpecified modelAllowlist)
  then Ret (Err (invalidf "model_allowlist is required: an array of aliases, [] for none, or null for every alias" []))
  else key_answer (call (CUpdateAPIKey (writeFrom r) id (mkAPIKeyPatch (fromAllowlist modelAllowlist)))).

(** [src/internal/adapters/inbound/adminapi/keys.go:71-80] Handler.RevokeAPIKey *)
Definition Handler_RevokeAPIKey (r : request) (id : uuid) : replies :=
  key_answer (call (CRevokeAPIKey (writeFrom r) id)).

(** ** Quotas *)

(** [src/internal/adapters/inbound/adminapi/quotas.go:10-18] Handler.ListQuotas *)
Definition Handler_ListQuotas (ref : string) : replies :=
  try set <- call (CListQuotas ref); Ret (answer_ok (BQuotas (toQuotas set))).

(** [src/internal/adapters/inbound/adminapi/quotas.go:20-39] Handler.ReplaceQuotas *)
Definition Handler_ReplaceQuotas (r : request) (ref : string) (quotas : option (list gen_QuotaInput)) : replies :=
  match quotas with
  | None => Ret (Err (invalidf "quotas is required; send 'quotas': [] to remove every limit" []))
  | Some set =>
      try written <- call (CReplaceQuotas (writeFrom r) ref (map fromQuota set));
      Ret (answer_ok (BQuotas (toQuotas written)))
  end.

(** [src/internal/adapters/inbound/adminapi/quotas.go:41-49] Handler.GetQuota *)
Definition Handler_GetQuota (ref window : string) : replies :=
  try q <- call (CGetQuota ref window); Ret (answer_ok (BQuota (toQuota q))).

(** [src/internal/adapters/inbound/adminapi/quotas.go:51-68] Handler.PutQuota *)
Definition Handler_PutQuota (r : request) (ref window : string) (i : gen_QuotaInput) : replies :=
  let put :=
    let q := fromQuota i in
    let q := mkQuota window (q_PeriodStart q) (q_PeriodEnd q) (q_MaxCost q) (q_OnExceed q) (q_UpdatedAt q) in
    try written <- call (CPutQuota (writeFrom r) ref q);
    Ret (answer_ok (BQuota (toQuota written))) in
  match gqi_WindowKind i with
  | Some w =>
      if negb (String.eqb w window)
      then Ret (Err (invalidf "window_kind in the body (%s) does not match the path (%s)" [AStr w; AStr window]))
      else put
  | None => put
  end.

(** [src/internal/adapters/inbound/adminapi/quotas.go:70-77] Handler.DeleteQuota *)
Definition Handler_DeleteQuota (r : request) (ref window : string) : replies :=
  try _ <- call (CDeleteQuota (writeFrom r) ref window); Ret (Ok (mkResponse 204 None BNone)).

(** ** Usage, audit and decisions *)

(** [src/internal/adapters/inbound/adminapi/observability.go:109-116] tenantError *)
Definition tenantError (err : error) (ref : string) : error :=
  if Is err ErrUnknownTenant then Errorf "%w: no tenant %q" [AWrap ErrNotFound; AStr ref] else err.

(** [src/schemas/admin/gen/admin.gen.go:851-866] gen.GetUsageParams *)
Record GetUsageParams := mkGetUsageParams {
  up_Since : time;
  up_Until : option time;
  up_GroupBy : option string;
  up_MetaKey : option string;
  up_Limit : option Z;
}.

Definition usage_spec (tenant : Tenant) (now : time) (p : GetUsageParams) : ReportSpec :=
  mkReportSpec tenant (up_Since p) (default now (up_Until p)) (default GroupByNone (up_GroupBy p))
    (default "" (up_MetaKey p)) (default 0 (up_Limit p)).
Definition refused (err : error) : error := Errorf "%w: %s" [AWrap ErrInvalid; AErr err].

(** [src/internal/adapters/inbound/adminapi/observability.go:13-52] Handler.GetUsage *)
Definition Handler_GetUsage (ref : string) (p : GetUsageParams) : replies :=
  do tenant <- call (CResolveTenant ref);
  match tenant with
  | Err err => Ret (Err (tenantError err ref))
  | Ok tenant =>
      do now <- call CNow;
      let spec := usage_spec tenant now p in
      if negb (String.eqb (UsageReport.rs_GroupBy spec) GroupByMetadata) && negb (String.eqb (rs_MetaKey spec) "")
      then Ret (Err (invalidf "meta_key is only meaningful with group_by=metadata" []))
      else match ReportSpec_Validate spec with
           | Some err => Ret (Err (refused err))
           | None =>
               try report <- call (CAggregate spec);
               Ret (answer_ok (BUsage (toUsageReport spec report)))
           end
  end.

(** [src/schemas/admin/gen/admin.gen.go:836-848] gen.ListAuditParams *)
Record ListAuditParams := mkListAuditParams {
  ap_Since : time;
  ap_Until : option time;
  ap_Cursor : option bytes;
  ap_Limit : option Z;
}.

Definition audit_query (tenant : Tenant) (now : time) (p : ListAuditParams) (after : option AuditCursor) : AuditQuery :=
  mkAuditQuery tenant (ap_Since p) (default now (ap_Until p)) after (default 0 (ap_Limit p)).
(** The cursor a request carries; an empty one is none. *)
Definition cursor_param (p : ListAuditParams) : option bytes :=
  match ap_Cursor p with Some (_ :: _) => ap_Cursor p | _ => None end.

(** [src/internal/adapters/inbound/adminapi/observability.go:55-86] Handler.ListAudit *)
Definition Handler_ListAudit (ref : string) (p : ListAuditParams) : replies :=
  do tenant <- call (CResolveTenant ref);
  match tenant with
  | Err err => Ret (Err (tenantError err ref))
  | Ok tenant =>
      do now <- call CNow;
      match match cursor_param p with
            | None => Ok None
            | Some c => match decodeCursor uuid_Parse c with Ok after => Ok (Some after) | Err err => Err err end
            end with
      | Err err => Ret (Err (invalidf "%s; pass back next_cursor exactly as it was given" [AErr err]))
      | Ok after =>
          let q := audit_query tenant now p after in
          match AuditQuery_Validate q with
          | Some err => Ret (Err (refused err))
          | None =>
              try page <- call (CListAudit q);
              Ret (answer_ok (BAudit (toAuditPage uuid_String page)))
          end
      end
  end.

(** [src/internal/adapters/inbound/adminapi/observability.go:88-107] Handler.GetRequest *)
Definition Handler_GetRequest (decisionId : string) : replies :=
  match ParseDecisionID uuid_Parse decisionId with
  | Err _ => Ret (Err (invalidf "%s is not a decision id" [AStr decisionId]))
  | Ok id =>
      do d <- call (CGetDecision id);
      Ret match d with
          | Ok d => answer_ok (BDecision (toDecision uuid_String d))
          | Err err =>
              if Is err ErrDecisionNotFound
              then Err (Errorf "%w: no decision %s is held; it may have aged out of a dropped partition rather than never existing"
                          [AWrap ErrNotFound; AStr (DecisionID_String uuid_String id)])
              else Err err
          end
  end.

(** ** All of them *)

(** What the generated code decodes from a request. *)
Inductive input :=
| ILogin (email password : string) | IRefreshSession (refreshToken : string) | ILogout (refreshToken : string) | IWhoami
| IListTenants (includeDisabled : option bool) (limit : option Z)
| ICreateTenant (externalId name : string) (metadata : option string)
| IDisableTenant (ref : string) | IGetTenant (ref : string) | IEnableTenant (ref : string)
| IUpdateTenant (ref : string) (name metadata : option string)
| IListAPIKeys (ref : string) | ICreateAPIKey (ref : string) (body : option (nullable (list string)))
| IRevokeAPIKey (id : uuid) | IGetAPIKey (id : uuid) | IUpdateAPIKey (id : uuid) (modelAllowlist : nullable (list string))
| IListQuotas (ref : string) | IReplaceQuotas (ref : string) (quotas : option (list gen_QuotaInput))
| IDeleteQuota (ref window : string) | IGetQuota (ref window : string) | IPutQuota (ref window : string) (i : gen_QuotaInput)
| IGetUsage (ref : string) (p : GetUsageParams) | IListAudit (ref : string) (p : ListAuditParams)
| IGetRequest (decisionId : string).

Definition input_op (i : input) : operation :=
  match i with
  | ILogin _ _ => OpLogin | IRefreshSession _ => OpRefreshSession | ILogout _ => OpLogout | IWhoami => OpWhoami
  | IListTenants _ _ => OpListTenants | ICreateTenant _ _ _ => OpCreateTenant | IDisableTenant _ => OpDisableTenant
  | IGetTenant _ => OpGetTenant | IEnableTenant _ => OpEnableTenant | IUpdateTenant _ _ _ => OpUpdateTenant
  | IListAPIKeys _ => OpListAPIKeys | ICreateAPIKey _ _ => OpCreateAPIKey | IRevokeAPIKey _ => OpRevokeAPIKey
  | IGetAPIKey _ => OpGetAPIKey | IUpdateAPIKey _ _ => OpUpdateAPIKey | IListQuotas _ => OpListQuotas
  | IReplaceQuotas _ _ => OpReplaceQuotas | IDeleteQuota _ _ => OpDeleteQuota | IGetQuota _ _ => OpGetQuota
  | IPutQuota _ _ _ => OpPutQuota | IGetUsage _ _ => OpGetUsage | IListAudit _ _ => OpListAudit
  | IGetRequest _ => OpGetRequest
  end.

(** [src/schemas/admin/gen/admin.gen.go:4319-4390] StrictServerInterface *)
Definition handle (r : request) (i : input) : replies :=
  match i with
  | ILogin email password => Handler_Login r email password
  | IRefreshSession t => Handler_RefreshSession t
  | ILogout t => Handler_Logout r t
  | IWhoami => Handler_Whoami r
  | IListTenants inc limit => Handler_ListTenants inc limit
  | ICreateTenant ext name meta => Handler_CreateTenant r ext name meta
  | IDisableTenant ref => Handler_DisableTenant r ref
  | IGetTenant ref => Handler_GetTenant ref
  | IEnableTenant ref => Handler_EnableTenant r ref
  | IUpdateTenant ref name meta => Handler_UpdateTenant r ref name meta
  | IListAPIKeys ref => Handler_ListAPIKeys ref
  | ICreateAPIKey ref body => Handler_CreateAPIKey r ref body
  | IRevokeAPIKey id => Handler_RevokeAPIKey r id
  | IGetAPIKey id => Handler_GetAPIKey id
  | IUpdateAPIKey id l => Handler_UpdateAPIKey r id l
  | IListQuotas ref => Handler_ListQuotas ref
  | IReplaceQuotas ref set => Handler_ReplaceQuotas r ref set
  | IDeleteQuota ref window => Handler_DeleteQuota r ref window
  | IGetQuota ref window => Handler_GetQuota ref window
  | IPutQuota ref window i => Handler_PutQuota r ref window i
  | IGetUsage ref p => Handler_GetUsage ref p
  | IListAudit ref p => Handler_ListAudit ref p
  | IGetRequest id => Handler_GetRequest id
  end.
End Handlers.
