(* ===== verification/AdminApi.v ===== *)
(** The admin API from the listener to the store: the operations behind the gate, run over the
    service and its tables. *)
From Stdlib Require Import Ascii.
From stdpp Require Import gmap.
From S2P Require Import Prelude Errors Env Bytes Money Quota Records Accounts Tokens Users Programs AdminDb AccountStore Service ServiceWorld ServiceProps ServiceKeys TenantIds UsageReport AuditPage Respond AdminGate AdminGateProps AdminWire AdminHandlers.

(** ** The calls an operation makes *)

(** What a call changes is changed in this name; reading changes nothing, and sessions are
    their holder's own. *)
Definition writes_as `{Jwt} (c : api_call) : option string :=
  match c with
  | CCreateTenant w _ | CUpdateTenant w _ _ | CDisableTenant w _ | CEnableTenant w _ | CCreateAPIKey w _ _
  | CUpdateAPIKey w _ _ | CRevokeAPIKey w _ | CReplaceQuotas w _ _ | CPutQuota w _ _ | CDeleteQuota w _ _ => Some (w_Actor w)
  | _ => None
  end.

Section Calls.
Context `{Jwt}.

(** Writes are made by the operations that change something, and in the caller's name. *)
Definition attributed (r : request) (op : operation) (c : api_call) : Prop :=
  ∀ actor, writes_as c = Some actor → actor = actorFrom r ∧ changes op = true ∧ op ≠ OpLogout ∧ op ∉ [OpLogin; OpRefreshSession].

Lemma read_attributed r op c : writes_as c = None → attributed r op c.
Proof. intros E actor Ha. congruence. Qed.

Lemma write_attributed r op c :
  writes_as c = Some (actorFrom r) → changes op = true → guard_class op = (false, false) → attributed r op c.
Proof.
  intros E Hc Hg actor Ha. rewrite E in Ha. injection Ha as <-. split_and!; [done|done|by intros ->|].
  intros Hin. apply elem_of_cons in Hin as [->|Hin]; [done|]. by apply list_elem_of_singleton in Hin as ->.
Qed.

(** Deciding a match or going on after an answer makes no call. *)
Ltac only_calls :=
  repeat match goal with
  | |- True => exact I
  | |- only _ (Ret _) => exact I
  | |- only _ (and_then _ _) => apply only_and_then; [|intros ?]
  | |- only _ (bind _ _) => apply only_bind; [|intros ?]
  | |- only _ (call _) => apply only_call; first [by apply read_attributed | by apply write_attributed]
  | |- only _ (let _ := _ in _) => cbv zeta
  | |- only _ (match ?x with _ => _ end) => destruct x
  end.

Lemma handle_attributed r i : only (attributed r (input_op i)) (handle r i).
Proof.
  destruct i; cbn [handle input_op];
    unfold Handler_Login, Handler_RefreshSession, Handler_Logout, Handler_Whoami, Handler_ListTenants,
      Handler_CreateTenant, Handler_DisableTenant, Handler_GetTenant, Handler_EnableTenant, Handler_UpdateTenant,
      Handler_ListAPIKeys, Handler_CreateAPIKey, Handler_RevokeAPIKey, Handler_GetAPIKey, Handler_UpdateAPIKey,
      Handler_ListQuotas, Handler_ReplaceQuotas, Handler_DeleteQuota, Handler_GetQuota, Handler_PutQuota,
      Handler_GetUsage, Handler_ListAudit, Handler_GetRequest, tenant_answer, key_answer;
    only_calls.
Qed.

Context (render : text → string) (sha256 : bytes → bytes) (read_token : bytes → token).

Lemma entitled_actor a r id : entitled sha256 read_token a r id → id_Actor id ≠ "".
Proof. intros [(c & _ & _ & _ & ->)|(v & claims & u & _ & _ & _ & _ & _ & ->)]; done. Qed.

(** A request handed to an operation changes a tenant, a key or a quota only on behalf of an
    administrator, and in their name. *)
Lemma called_by_admin a creds users spec d srv r w op vars r' w' i :
  NewServer render sha256 read_token a creds users (Ok spec) d = Ok srv → rq_identity r = None →
  sv_served (srv_Handler srv r w) = Called op vars r' w' → input_op i = op →
  only (λ c, ∀ actor, writes_as c = Some actor →
          ∃ id, entitled sha256 read_token a r id ∧ id_Role id = RoleAdmin ∧ actor = id_Actor id) (handle r' i).
Proof.
  intros Hs Hid Hc Hi. destruct (let_through render sha256 read_token a creds users spec d srv r w op vars r' w' Hs Hid Hc) as [Hwho _].
  apply (only_mono (attributed r' op)); [|rewrite <- Hi; apply handle_attributed].
  intros c Ha actor Hw. destruct (Ha actor Hw) as (-> & Hch & Hlogout & Hses).
  destruct Hwho as [[Hop _]|(id & Hr' & He & [?|[?|[_ ?]]])]; [done|done| |congruence].
  exists id. split_and!; [done|done|]. unfold actorFrom, identityFrom. rewrite Hr'. simpl.
  destruct (String.eqb_spec (id_Actor id) ""); [|done]. by destruct (entitled_actor _ _ _ He).
Qed.
End Calls.

(** ** Over the service *)

Section Admin.
Context `{Jwt} (sha256 : bytes → bytes) (jsonb : string → option string).

(** What becomes of a transaction's commit and of each call in it. *)
Definition tx_choice : Type := db_fault * list moment.

Definition transact {A} (ch : tx_choice) (p : prepared A) (s : svc_world) : svc_world * result error A :=
  match mutate_prepared jsonb uuid_String ch.1 ch.2 p s with
  | Some o => o
  | None => (s, Err ErrDatabase)
  end.
Definition consult {A} (ch : tx_choice) (p : svc (result error A)) (s : svc_world) : svc_world * result error A :=
  match run (svc_perform jsonb uuid_String) ch.2 p s with
  | Some (s, r, _) => (s, r)
  | None => (s, Err ErrDatabase)
  end.

(** The part of the API that is [ports.Admin]; the other calls are answered by other stores and
    leave this one alone.

    [src/internal/usecases/admin/service.go:17-23] Service *)
Definition admin_api_perform (ch : tx_choice) (c : api_call) (s : svc_world) : svc_world * answer c :=
  let elsewhere {A} : svc_world * result error A := (s, Err (Sentinel "another store")) in
  match c return svc_world * answer c with
  | CNow => (s, match ch.2 with m :: _ => mo_now m | [] => 0 end)
  | CLogin _ | CRefresh _ => elsewhere
  | CLogout _ _ => elsewhere
  | CCreateTenant w i => transact ch (CreateTenant w i) s
  | CListTenants f => consult ch (ListTenants f) s
  | CGetTenant ref => consult ch (GetTenant uuid_Parse ref) s
  | CUpdateTenant w ref p => transact ch (UpdateTenant uuid_Parse w ref p) s
  | CDisableTenant w ref => transact ch (Ok (DisableTenant uuid_Parse w ref)) s
  | CEnableTenant w ref => transact ch (Ok (EnableTenant uuid_Parse w ref)) s
  | CCreateAPIKey w ref i => transact ch (CreateAPIKey sha256 uuid_Parse w ref i) s
  | CListAPIKeys ref => consult ch (ListAPIKeys uuid_Parse ref) s
  | CGetAPIKey id => consult ch (GetAPIKey uuid_String id) s
  | CUpdateAPIKey w id p => transact ch (UpdateAPIKey uuid_String w id p) s
  | CRevokeAPIKey w id => transact ch (Ok (RevokeAPIKey uuid_String w id)) s
  | CListQuotas ref => consult ch (ListQuotas uuid_Parse ref) s
  | CReplaceQuotas w ref set => transact ch (ReplaceQuotas uuid_Parse w ref set) s
  | CGetQuota ref kind => consult ch (GetQuota uuid_Parse ref kind) s
  | CPutQuota w ref q => transact ch (PutQuota uuid_Parse w ref q) s
  | CDeleteQuota w ref kind => transact ch (DeleteQuota uuid_Parse w ref kind) s
  | CResolveTenant _ => elsewhere
  | CAggregate _ => elsewhere
  | CListAudit _ => elsewhere
  | CGetDecision _ => elsewhere
  end.

(** ** The allowlist a key is given is the one it is held to *)

Local Notation perform := (svc_perform jsonb uuid_String).

Lemma allowlist_call_wp ok id l (Q : result error APIKey → svc_world → list svc_action → Prop) w :
  (∀ row w', apiKeyRepo_UpdateAllowlist (sw_db w) id l = (sw_db w', Ok row) → Q (Ok row) w' [SUpdateAllowlist id l]) →
  (∀ e w', Q (Err e) w' [SUpdateAllowlist id l]) → wp perform ok (call (SUpdateAllowlist id l)) Q w.
Proof.
  intros HOk HErr ch _. refine (executed_wp ch w _ (λ r w', Q r w' [SUpdateAllowlist id l]) _ _); [|done].
  intros row w'. apply HOk.
Qed.

(** A key that is there, with this allowlist. *)
Definition holds_to (id : uuid) (l : option (list string)) (k : APIKey) (db : AccountDb) : Prop :=
  accounts_wf db ∧ ak_ID k = id ∧ ak_ModelAllowlist k = l ∧ ∃ row, t_keys db !! id = Some row ∧ kr_key row = k.

Lemma update_key_wp w id l s :
  accounts_wf (sw_db s) →
  wp perform (λ _, True) (update_key_tx uuid_String w id l) (if_ok (λ k s', holds_to id l k (sw_db s'))) s.
Proof.
  intros Hwf. apply wp_and_then, lockKey_wp; [|intros; apply if_ok_Err].
  intros k w1 tr1 Hw1 (r & Hr & <-). destruct (aw_key _ Hwf _ _ Hr) as (Hi & _).
  destruct (APIKey_Revoked (kr_key r)) eqn:Er; [apply if_ok_Err|].
  destruct (sameAllowlist _ l) eqn:Es.
  { apply if_ok_Ok. rewrite Hw1. apply bool_decide_eq_true in Es. split_and!; eauto. }
  apply wp_and_then, allowlist_call_wp; [|intros; apply if_ok_Err]. intros row w2 Ec. rewrite Hw1 in Ec.
  assert (Hheld : holds_to id l row (sw_db w2)).
  { unfold apiKeyRepo_UpdateAllowlist, finding, Sql_UpdateAPIKeyAllowlist, update_key in Ec.
    destruct (negb _); [done|]. rewrite Hr, Er in Ec. injection Ec as Hdb <-. rewrite <- Hdb. split_and!; [|done|done|].
    - by eapply put_key_wf.
    - simpl. rewrite Hi, lookup_insert_eq. eauto. }
  unfold audit_key. apply wp_and_then, audit_wp.
  intros [[]|e] w3 tr3 Hsame; [|apply if_ok_Err]. apply if_ok_Ok.
  destruct Hheld as (Hwf2 & ? & ? & Hk). split_and!; [by eapply wf_same|done|done|].
  destruct Hsame as (_ & -> & _). exact Hk.
Qed.

Lemma validAllowlist_Ok l l' : validAllowlist l = Ok l' → l' = l.
Proof.
  unfold validAllowlist. destruct l as [l|]; [|by intros [= <-]]. destruct (_ <? _); [done|].
  destruct (valid_aliases _ _); [done|]. by intros [= <-].
Qed.

Lemma transact_holds ch w id p s s' k :
  accounts_wf (sw_db s) → transact ch (UpdateAPIKey uuid_String w id p) s = (s', Ok k) →
  holds_to id (kp_ModelAllowlist p) k (sw_db s').
Proof.
  intros Hwf Ht. unfold transact, UpdateAPIKey in Ht. destruct (validAllowlist _) as [l|e] eqn:Ev; [|done].
  apply validAllowlist_Ok in Ev as ->. simpl in Ht.
  destruct (mutate _ _ _ _ _ s) as [[s1 r]|] eqn:Em; [|done]. injection Ht as -> ->.
  refine (mutate_Ok _ _ _ _ _ _ _ _ (λ k s', holds_to id (kp_ModelAllowlist p) k (sw_db s')) Em _).
  by apply update_key_wp.
Qed.

(** An update that is answered with a key leaves its holder held to what was sent; one without
    the field is refused and changes nothing. *)
Lemma sent_allowlist_held chs r id n s s' res tr :
  accounts_wf (sw_db s) →
  run admin_api_perform chs (Handler_UpdateAPIKey r id n) s = Some (s', res, tr) →
  match res with
  | Ok resp =>
      IsSpecified n = true ∧ (∃ k, re_Body resp = BKey k ∧ gk_Id k = id ∧ gk_ModelAllowlist k = n) ∧
      ∀ hash fault presented i alias, AccountStore.Authenticate hash (sw_db s') fault presented = Ok i → id_KeyID i = id →
        AllowsModel i alias = match n with Value l => existsb (String.eqb alias) l | _ => true end
  | Err e => n = Unspecified → s' = s ∧ tr = [] ∧ Is e ErrInvalid = true
  end.
Proof.
  intros Hwf Hr. unfold Handler_UpdateAPIKey in Hr. destruct n as [| |l].
  { injection Hr as <- <- <-. done. }
  all: cbn [IsSpecified negb fromAllowlist key_answer] in Hr; unfold key_answer, and_then in Hr;
    destruct chs as [|ch chs]; [done|]; cbn [call bind run admin_api_perform] in Hr;
    destruct (transact _ _ s) as [s1 [k|e]] eqn:Et; cbn [bind run] in Hr; simplify_eq; [|done];
    destruct (transact_holds _ _ _ _ _ _ _ Hwf Et) as (Hwf' & Hid & Hl & row & Hk & <-); split; [done|];
    (split; [eexists; split; [done|]; split; [done|]; unfold toKey; simpl; by rewrite Hl|]);
    intros hash fault presented i alias Ha Hi;
    apply Authenticate_Ok in Ha as (id' & k' & t & Hk' & _ & _ & _ & _ & ->); simpl in Hi;
    destruct (aw_key _ Hwf' _ _ Hk') as (Hid' & _); rewrite Hid' in Hi; subst id';
    replace k' with row in * by congruence; unfold AllowsModel; simpl; by rewrite Hl.
Qed.
End Admin.

(** ** Examples *)

Definition ex_ops : AdminCredential := mkAdminCredential 3%N "ops" "gr_admin_" RoleAdmin None 0 None None.
Definition ex_ops_gate : Authenticators :=
  mkAuthenticators (put_credential no_accounts (mkCredentialRow ex_ops (ex_sha (lit "opsecret")))) None empty_db None
    (Some ex_issuer) Second.
Definition ex_ops_request : request :=
  mkRequest "POST" ["admin"; "v1"; "tenants"; "acme"; "keys"] ∅ {["Authorization" := "bearer opsecret"]} "10.0.0.1:5000"
    (lit "{}") None None None None.
Definition ex_text (_ : text) : string := "error".
Definition ex_tok (_ : bytes) : @token toy_Jwt := ex_token.
Definition ex_w : Writer := new_Writer 10.
Definition ex_ops_server : Server :=
  match NewServer ex_text ex_sha ex_tok ex_ops_gate true true (Ok (λ _, None)) (10 * Second) with
  | Ok s => s | Err _ => mkServer api 0 0 end.
Definition ex_ops_called : request :=
  match sv_served (srv_Handler ex_ops_server ex_ops_request ex_w) with Called _ _ r _ => r | Wrote _ => ex_ops_request end.
Lemma ex_ops_gets_in :
  sv_served (srv_Handler ex_ops_server ex_ops_request ex_w) = Called OpCreateAPIKey ["acme"] ex_ops_called ex_w.
Proof. by vm_compute. Qed.
