(* ===== verification/Gateway.v ===== *)
(** The proxy put together: the server of [internal/adapters/inbound/proxyapi/server.go] over the
    handler, and behind the handler the router, the dispatcher with its providers, the quota
    enforcer and the decision sink, wired as [internal/bootstrap] wires them.

    What is outside, the network, the clock and the packages the code calls, is one class. *)
From Stdlib Require Import Ascii.
From S2P Require Import Prelude Bytes Errors Money Quota Records Config Accounts Flusher Sink Enforcer Pricing Routing Dispatch Sse Provider Extract Respond Handler.

(** ** What is outside *)

(** [U] is the network with the clock; [budget] bounds the bytes the upstreams still have to send. *)
Class Outside (U : Type) := {
  clock : U → U * time;
  Do : U → http_Request → U * result error http_Response;
  budget : U → nat;
  SetString : bytes → string → string → result error bytes;
  SetBool : bytes → string → bool → result error bytes;
  bad_url : string → option error;
  render : text → string;
  uuid_string : uuid → string;
  breach_String : QuotaBreach → string;
}.

(** Every answer of an upstream is finite, and so is what is left of them. *)
Class FiniteOutside (U : Type) `{Outside U} : Prop := {
  clock_budget u : (budget (clock u).1 ≤ budget u)%nat;
  Do_budget u req : (budget (Do u req).1 ≤ budget u)%nat;
  Do_finite u req resp :
    (Do u req).2 = Ok resp → (budget (Do u req).1 + S (length (concat (resp_Body resp))) ≤ budget u)%nat;
}.

(** ** A conversation: the dispatcher's environment *)

(** The reader of the response that is open, and the client's stream. *)
Record conversation (U : Type) := mkConversation {
  cv_outside : U;
  cv_reader : option upstream_reader;
  cv_client : ClientStream;
}.
Arguments mkConversation {U} _ _ _.
Arguments cv_outside {U} _.
Arguments cv_reader {U} _.
Arguments cv_client {U} _.

#[export] Instance conversation_environment {U} `{Outside U} : Environment (conversation U) Provider unit := {
  Now x := let '(u, t) := clock (cv_outside x) in (mkConversation u (cv_reader x) (cv_client x), t);
  Stream x p req :=
    let '(ex, r) := Provider_Stream SetString SetBool bad_url Do (cv_outside x) p req in
    match r with
    | Ok rd => (mkConversation (ex_upstream ex) (Some rd) (cv_client x), Ok tt)
    | Err err => (mkConversation (ex_upstream ex) (cv_reader x) (cv_client x), Err err)
    end;
  Next x _ :=
    match cv_reader x with
    | Some rd => let '(rd, ev) := upstream_Next rd in (mkConversation (cv_outside x) (Some rd) (cv_client x), ev)
    | None => (x, Err io_EOF)
    end;
  CloseReader x _ := mkConversation (cv_outside x) None (cv_client x);
  Commit x :=
    let '(c, err) := ClientStream_Commit uuid_string (cv_client x) in
    (mkConversation (cv_outside x) (cv_reader x) c, err);
  Send x ev :=
    let '(c, err) := ClientStream_Send (cv_client x) ev in
    (mkConversation (cv_outside x) (cv_reader x) c, err);
  SendError x cause :=
    let '(c, err) := ClientStream_SendError render (cv_client x) cause in
    (mkConversation (cv_outside x) (cv_reader x) c, err);
}.

(** What the reader may still yield: an event takes a line, and a line a byte. *)
Definition reader_left (r : option upstream_reader) : nat :=
  match r with
  | Some (reader dec) => length (unread (d_r dec))
  | Some (nonStreamReader _ done) => if done then 0%nat else 1%nat
  | None => 0%nat
  end.
Definition conversation_left {U} `{Outside U} (x : conversation U) : nat :=
  (budget (cv_outside x) + reader_left (cv_reader x))%nat.

(** ** The gateway *)

(** What is fixed when the proxy starts.

    [src/internal/bootstrap/boostrap.go:16-21] App *)
Record deployment := mkDeployment {
  dp_table : RoutingTable;
  dp_resolver : Resolver Provider;
  dp_prices : option Table;
  dp_compare : list string;
}.

(** What changes as it runs: the enforcer, absent when no Redis is configured, the sink, and
    what is outside. *)
Record gateway (C W L U : Type) := mkGateway {
  gw_quota : option (Enforcer C W);
  gw_sink : Buffered L;
  gw_outside : U;
}.
Arguments mkGateway {C W L U} _ _ _.
Arguments gw_quota {C W L U} _.
Arguments gw_sink {C W L U} _.
Arguments gw_outside {C W L U} _.

Section Gateway.
Context {C W L U : Type} `{Counters.QuotaCounters C} `{TenantReader W} `{QuotaReader W}
  `{UsageCounterRepository W} `{RecordWriter L} `{Outside U}.
Implicit Types (s : gateway C W L U) (dp : deployment).

(** [src/internal/bootstrap/sink.go:30-39] buildPricingTable *)
Definition buildPricingTable (cfg : Config) : option Table :=
  match pc_Table (c_Pricing cfg) with [] => None | blocks => Some (NewTable blocks) end.
Definition prices dp : option PricingTable := RatesAt <$> dp_prices dp.

(** The sink given to the handler: with prices it prices what it is given first.

    [src/internal/bootstrap/sink.go:16-28] buildSink *)
Definition sunk dp (d : RoutingDecision) : RoutingDecision :=
  match dp_prices dp with Some t => priced (mkPricer (RatesAt t) (dp_compare dp)) d | None => d end.

(** The sink's [Record], when no [Flush] runs between its two steps. *)
Definition sink_Record (b : Buffered L) (d : RoutingDecision) : Buffered L * bool :=
  (Buffered_Record b d,
   negb (negb (b_closed b) && match Channel.try_send (b_ch b) d with Channel.SendPanic => true | _ => false end)).

Definition outside_now s : gateway C W L U * time :=
  let '(u, now) := clock (gw_outside s) in (mkGateway (gw_quota s) (gw_sink s) u, now).

(** Without an enforcer the handler is given none and admits everything.

    [src/internal/adapters/inbound/proxyapi/handler.go:44-61] NewHandler *)
Definition gateway_Reserve dp s (req : QuotaRequest) : gateway C W L U * result error Reservation :=
  match gw_quota s with
  | None => unlimited_Reserve s req
  | Some e =>
      let '(s, now) := outside_now s in
      let '(e, r) := Reserve (prices dp) e now req in
      (mkGateway (Some e) (gw_sink s) (gw_outside s), r)
  end.
Definition gateway_Reconcile dp s (res : Reservation) (o : Outcome) : gateway C W L U :=
  match gw_quota s with
  | None => unlimited_Reconcile s res o
  | Some e => mkGateway (Some (Reconcile (prices dp) e res o)) (gw_sink s) (gw_outside s)
  end.

(** The fuel is one more than the events there can be: see [gateway_Run_returns]. *)
Definition gateway_Run s (targets : list (Target Provider)) (req : ProviderRequest) (out : ClientStream)
    : gateway C W L U * ClientStream * option Outcome :=
  let x := mkConversation (gw_outside s) None out in
  match Run (S (conversation_left x)) x targets req with
  | Some (x, _, o) => (mkGateway (gw_quota s) (gw_sink s) (cv_outside x), cv_client x, Some o)
  | None => (s, out, None)
  end.

(** [src/internal/bootstrap/boostrap.go:59-62] the handler Build makes *)
Definition gateway_handler dp : Handler (gateway C W L U) Provider := {|
  px_Route := Route (dp_table dp);
  px_Resolve := Resolve (dp_resolver dp);
  px_Reserve := gateway_Reserve dp;
  px_Reconcile := gateway_Reconcile dp;
  px_Run := gateway_Run;
  px_Record s d :=
    let '(b, ok) := sink_Record (gw_sink s) (sunk dp d) in (mkGateway (gw_quota s) b (gw_outside s), ok);
|}.

Definition gateway_Completions dp s (w : Writer) (now : time) (id : DecisionID) (r : Request)
    : gateway C W L U * Writer * list effect :=
  Completions (H := gateway_handler dp) render uuid_string breach_String s w now id r.

(** *** The server *)

(** [http.Error] *)
Definition http_Error (w : Writer) (status : Z) (message : string) : Writer :=
  let w := set_header w "Content-Type" "text/plain; charset=utf-8" in
  let w := set_header w "X-Content-Type-Options" "nosniff" in
  (Write (WriteHeader w status) (lit message ++ [LF])).1.

(** The first value of a header, whose names are in canonical form. *)
Definition header_value (h : list (string * list string)) (name : string) : string :=
  match List.find (λ kv, String.eqb kv.1 name) h with Some (_, v :: _) => v | _ => "" end.

Definition with_Identity (r : Request) (i : Identity) : Request :=
  mkRequest (rq_Header r) (rq_Body r) (rq_End r) (Some i).

(** The routes, as [http.ServeMux] matches them: a GET pattern takes HEAD too, a path known under
    other methods is refused with them, and any other path is not found. A path that is not clean
    is redirected before it gets here. [authenticate] is the [ports.Authenticator].

    [src/internal/adapters/inbound/proxyapi/server.go:10-17] NewServer *)
Definition proxy_serve dp (authenticate : string → result error Identity) s (w : Writer) (now : time)
    (id : DecisionID) (method path : string) (r : Request) : gateway C W L U * Writer * list effect :=
  if String.eqb path "/v1/chat/completions" then
    if String.eqb method "POST" then
      Respond.Authenticate render (λ s token, (s, authenticate token))
        (λ s w i, gateway_Completions dp s w now id (with_Identity r i)) (λ s w, (s, w, []))
        s w (lit (header_value (rq_Header r) "Authorization"))
    else (s, http_Error (set_header w "Allow" "POST") 405 "Method Not Allowed", [])
  else if String.eqb path "/healthz" then
    if String.eqb method "GET" || String.eqb method "HEAD" then (s, WriteHeader w 200, [])
    else (s, http_Error (set_header w "Allow" "GET, HEAD") 405 "Method Not Allowed", [])
  else (s, http_Error w 404 "404 page not found", []).

(** *** Wiring *)

(** [headers] is the order the runtime iterates over a provider's extra headers in.

    [src/internal/bootstrap/providers.go:17-27] one provider of the configuration *)
Definition oaicompat_provider (headers : gmap string string → list (string * string)) (name : string)
    (pc : ProviderConfig) : result error Provider :=
  New (mkOaicompatConfig name (pv_BaseURL pc) (pv_APIKey pc) (pv_DisableStreamOptions pc)
         (headers (pv_ExtraHeaders pc))).

(** The enforcer of a deployment with a Redis, whether or not that answers yet.

    [src/internal/bootstrap/quota.go:20-67] buildQuota *)
Definition buildQuota (cfg : Config) (pool : W) (counters : C) : option (Enforcer C W) :=
  if negb (Redis_Enabled (c_Redis cfg)) then None
  else Some (NewEnforcer counters pool
    (mkEnforcerConfig (redis_OnUnavailable (c_Redis cfg)) (qc_DefaultMaxOutputTokens (c_Quota cfg))
       (qc_LimitsTTL (c_Quota cfg)) (qc_FlushInterval (c_Quota cfg)) (qc_FlushBuffer (c_Quota cfg))
       (qc_ResyncInterval (c_Quota cfg)))).

(** [connect] is what connecting to the database and creating the partitions of the day come to.

    [src/internal/bootstrap/boostrap.go:23-73] Build *)
Definition Build headers (cfg : Config) (porder : list (string * ProviderConfig))
    (lorder : list (string * Ladder)) (connect : result error (W * L)) (counters : C) (u : U)
    : result error (deployment * gateway C W L U) :=
  let! providers := buildProviders (oaicompat_provider headers) cfg porder in
  let! routing := FromConfig cfg providers lorder in
  let! stores := connect in
  Ok (mkDeployment routing.1 routing.2 (buildPricingTable cfg) (pc_CompareAgainst (c_Pricing cfg)),
      mkGateway (buildQuota cfg stores.1 counters)
        (NewBuffered stores.2 (mkSinkConfig (sink_BufferSize (c_Sink cfg)) (sink_BatchSize (c_Sink cfg))
                                (sink_Interval (c_Sink cfg)) 0)) u).
End Gateway.
