(* ===== verification/GatewayProps.v ===== *)
(** What the proxy does as a whole: it answers, it charges what it records, it settles the counters,
    and what it refuses reaches no one. *)
From Stdlib Require Import Ascii.
From S2P Require Import Prelude Bytes Errors Money Quota Records Config Accounts Redis Counters Flusher FlusherProps Sink Enforcer EnforcerProps Pricing Routing Dispatch DispatchProps Sse Provider Extract Respond Handler Gateway.

Lemma upstream_Next_left rd rd' ev :
  upstream_Next rd = (rd', ev) →
  (reader_left (Some rd') ≤ reader_left (Some rd))%nat ∧
  (is_ok ev = true → (reader_left (Some rd') < reader_left (Some rd))%nat).
Proof.
  destruct rd as [dec|raw done]; simpl.
  - unfold reader_Next, Decoder_Next. destruct (d_err dec) as [err|]; [by intros [= <- <-]|].
    destruct (next_loop _ dec) as [dec' [e|err]] eqn:En; apply next_loop_unread in En as [H1 H2];
      intros [= <- <-]; simpl; [specialize (H2 e eq_refl)|]; split; try done; lia.
  - unfold nonStreamReader_Next. destruct done; intros [= <- <-]; simpl; split; try done; lia.
Qed.

(** ** One conversation *)

Lemma write_event_sent c data : w_sent (cs_w c) ≠ None → w_sent (cs_w (write_event c data).1) = w_sent (cs_w c).
Proof.
  intros Hs. unfold write_event, WriteEvent, with_w, Flush, Write, WriteHeader.
  destruct (w_sent (cs_w c)) as [h|] eqn:E; [|done]. cbn.
  repeat (case_match; simplify_eq/=); try done.
Qed.

Section Conversation.
Context {U : Type} `{Outside U}.

Lemma Provider_Stream_left `{!FiniteOutside U} p u req :
  let '(ex, r) := Provider_Stream SetString SetBool bad_url Do u p req in
  (budget (ex_upstream ex) + match r with Ok rd => reader_left (Some rd) | Err _ => 0 end ≤ budget u)%nat.
Proof.
  unfold Provider_Stream. destruct (buildBody _ _ _ _) as [body|]; simpl; [|lia].
  destruct (bad_url _); simpl; [lia|]. set (hr := mkHttpRequest _ _ _).
  pose proof (Do_budget u hr) as Hb. pose proof (Do_finite u hr) as Hf.
  destruct (Do u hr) as [u' [resp|err]]; simpl in *; [|lia]. specialize (Hf resp eq_refl).
  repeat case_match; simplify_eq/=; unfold unread; simpl; lia.
Qed.

Lemma conversation_finite `{!FiniteOutside U} : finite_world (X := conversation U) conversation_left.
Proof.
  split; intros x *; unfold conversation_left; simpl.
  - destruct (cv_reader x) as [r|]; [|done]. destruct (upstream_Next r) as [rd' ev'] eqn:E.
    apply upstream_Next_left in E as [_ E]. simpl. intros ->. specialize (E eq_refl). simpl in *. lia.
  - destruct (cv_reader x) as [r|] eqn:Er; [|simpl; by rewrite Er]. destruct (upstream_Next r) as [rd' ev'] eqn:E.
    apply upstream_Next_left in E as [E _]. simpl in *. lia.
  - pose proof (clock_budget (cv_outside x)). destruct (clock _). simpl in *. lia.
  - pose proof (Provider_Stream_left p (cv_outside x) r) as E.
    destruct (Provider_Stream _ _ _ _ _ _ _) as [ex [rd|err]]; simpl in *; lia.
  - lia.
  - by destruct (ClientStream_Commit _ _).
  - by destruct (ClientStream_Send _ _).
  - by destruct (ClientStream_SendError _ _ _).
Qed.
End Conversation.

(** The header is sent once the response was committed, and stays sent. *)
Definition committed_sent {U} (st : Dispatch.state (X := conversation U)) : Prop :=
  cs_committed (cv_client st.1) = true ∨ (∃ e, DidCommit e ∈ st.2) →
  w_sent (cs_w (cv_client st.1)) ≠ None.

Lemma WriteHeader_sent w status : w_sent (WriteHeader w status) ≠ None.
Proof. unfold WriteHeader. by destruct (w_sent w) eqn:E; simpl; rewrite ?E. Qed.

Lemma Write_sent w b : w_sent (Write w b).1 ≠ None.
Proof. unfold Write. pose proof (WriteHeader_sent w 200). by destruct (w_credit _). Qed.

Lemma writeError_sent r w status m ty : w_sent (writeError r w status m ty) ≠ None.
Proof. unfold writeError. apply Write_sent. Qed.

Lemma Commit_sent us c : (cs_committed c = true → w_sent (cs_w c) ≠ None) →
  w_sent (cs_w (ClientStream_Commit us c).1) ≠ None.
Proof.
  intros Hc. unfold ClientStream_Commit. destruct (cs_committed c); [by apply Hc|].
  set (w := if cs_stream c then _ else _). set (w' := set_header w _ _).
  unfold Flush. pose proof (WriteHeader_sent (WriteHeader w' 200) 200) as Hs. by destruct (w_credit _).
Qed.

Lemma Send_keeps c ev : let c' := (ClientStream_Send c ev).1 in
  cs_committed c' = cs_committed c ∧ (w_sent (cs_w c) ≠ None → w_sent (cs_w c') ≠ None).
Proof.
  assert (Hw : ∀ data, cs_committed (write_event c data).1 = cs_committed c)
    by (intros data; unfold write_event; by repeat case_match).
  unfold ClientStream_Send. destruct (negb (cs_stream c)); [|destruct (negb (cs_committed c)); [done|]].
  - pose proof (Write_sent (cs_w c) (lit (ev_Raw ev))). by destruct (Write _ _).
  - split; [apply Hw|]. intros Hs. by rewrite write_event_sent.
Qed.

Lemma SendError_keeps r c cause : let c' := (ClientStream_SendError r c cause).1 in
  cs_committed c' = cs_committed c ∧ (w_sent (cs_w c) ≠ None → w_sent (cs_w c') ≠ None).
Proof.
  assert (Hw : ∀ data, cs_committed (write_event c data).1 = cs_committed c)
    by (intros data; unfold write_event; by repeat case_match).
  unfold ClientStream_SendError. destruct (negb (cs_committed c)); [done|].
  split; [apply Hw|]. intros Hs. by rewrite write_event_sent.
Qed.

Section Answered.
Context {U : Type} `{Outside U}.

Lemma committed_sent_step (st : Dispatch.state (X := conversation U)) x a :
  committed_sent st → (∀ e, a ≠ DidCommit e) →
  cs_committed (cv_client x) = cs_committed (cv_client st.1) →
  (w_sent (cs_w (cv_client st.1)) ≠ None → w_sent (cs_w (cv_client x)) ≠ None) →
  committed_sent (U := U) (x, st.2 ++ [a]).
Proof.
  intros Hi Ha Hc Hw Hor. apply Hw, Hi. simpl in *. destruct Hor as [Hx|[e He]]; [left; congruence|right].
  apply elem_of_app in He as [He|He%list_elem_of_singleton]; [eauto|by destruct (Ha e)].
Qed.

Lemma committed_sent_stable : stable (X := conversation U) committed_sent.
Proof.
  split; intros st *.
  - intros Hi. unfold do_now. simpl. destruct (clock _) as [u t]. exact Hi.
  - intros Hi. unfold do_stream. simpl.
    destruct (Provider_Stream _ _ _ _ _ _ _) as [ex [r|err]]; by apply committed_sent_step.
  - intros Hi. unfold do_next. simpl. destruct (cv_reader st.1) as [r|]; [destruct (upstream_Next r)|];
      by apply committed_sent_step.
  - intros Hi. by apply committed_sent_step.
  - intros Hi. unfold do_commit. simpl. pose proof (Commit_sent uuid_string (cv_client st.1)) as Hs.
    destruct (ClientStream_Commit _ _) as [c err]. intros _. apply Hs. intros Hc. apply Hi. by left.
  - intros Hi. unfold do_send. simpl. destruct (Send_keeps (cv_client st.1) ev) as [Hc Hs].
    destruct (ClientStream_Send _ _) as [c err]. by apply committed_sent_step.
  - intros Hi. unfold do_send_error. simpl. destruct (SendError_keeps render (cv_client st.1) err) as [Hc Hs].
    destruct (ClientStream_SendError _ _ _) as [c err']. by apply committed_sent_step.
Qed.

(** A dispatch that is not exhausted committed its response. *)
Lemma Run_commits {X P R} `{Environment X P R} fuel (x : X) ladder req st o :
  Run fuel x ladder req = Some (st, o) → out_Status o ≠ StatusExhausted → ∃ e, DidCommit e ∈ st.2.
Proof.
  intros (st0 & start & _ & Hr)%Run_inv Hs. apply run_ladder_spec in Hr as [_ (log & Hlog & Hor)].
  destruct Hor as [(_ & ? & _)|(_ & fl & final & -> & _ & Hserved)]; [done|].
  destruct Hserved as (? & ? & ? & e & tail & -> & _). exists e. rewrite Hlog, !elem_of_app. do 2 right. do 2 (apply elem_of_cons; right). by left.
Qed.

Lemma gateway_Run_returns {C W L} `{!FiniteOutside U} (s : gateway C W L U) targets req out :
  ∃ st o, Run (S (conversation_left (mkConversation (gw_outside s) None out)))
            (mkConversation (gw_outside s) None out) targets req = Some (st, o) ∧
    gateway_Run s targets req out = (mkGateway (gw_quota s) (gw_sink s) (cv_outside st.1), cv_client st.1, Some o).
Proof.
  set (x := mkConversation _ _ _). destruct (Run_total conversation_left conversation_finite x targets req) as [[st o] Hr].
  exists st, o. split; [apply Hr; lia|]. unfold gateway_Run. fold x. rewrite Hr by lia. by destruct st.
Qed.
End Answered.

(** ** What a request comes to *)

Section Requests.
Context {C W L U : Type} `{Counters.QuotaCounters C} `{TenantReader W} `{QuotaReader W}
  `{UsageCounterRepository W} `{RecordWriter L} `{Outside U}.
Implicit Types (s : gateway C W L U) (dp : deployment).

(** Only the clock was read. *)
Definition only_time : relation U := rtc (λ u u', u' = (clock u).1).

Lemma gateway_Reserve_outside dp s req : only_time (gw_outside s) (gw_outside (gateway_Reserve dp s req).1).
Proof.
  unfold gateway_Reserve, outside_now. destruct (gw_quota s) as [e|]; [|by apply rtc_refl].
  destruct (clock (gw_outside s)) as [u now] eqn:E. simpl. destruct (Reserve _ _ _ _) as [e' r]. simpl.
  apply rtc_once. by rewrite E.
Qed.

Lemma gateway_Reserve_sink dp s req : gw_sink (gateway_Reserve dp s req).1 = gw_sink s.
Proof.
  unfold gateway_Reserve, outside_now. destruct (gw_quota s) as [e|]; [|done].
  destruct (clock (gw_outside s)) as [u now]. simpl. by destruct (Reserve _ _ _ _) as [e' r].
Qed.

(** What the gateway does with a request that got to the quota gate. *)
Inductive gate_result dp s (now : time) (id : DecisionID) (facts : RequestFacts) (ladder : Ladder)
    (s' : gateway C W L U) (effects : list effect) : Prop :=
| gate_unavailable err :
    gateway_Reserve dp s (quota_request facts ladder now) = (s', Err err) →
    effects = [Reserved (quota_request facts ladder now) (Err err)] →
    gate_result dp s now id facts ladder s' effects
| gate_refused s1 err ok :
    gateway_Reserve dp s (quota_request facts ladder now) = (s1, Err err) →
    ok = (sink_Record (gw_sink s1) (sunk dp (NewRoutingDecision id facts ladder blocked_Outcome))).2 →
    s' = mkGateway (gw_quota s1) (Buffered_Record (gw_sink s1) (sunk dp (NewRoutingDecision id facts ladder blocked_Outcome)))
           (gw_outside s1) →
    effects = [Reserved (quota_request facts ladder now) (Err err);
               Recorded (NewRoutingDecision id facts ladder blocked_Outcome) ok] →
    gate_result dp s now id facts ladder s' effects
| gate_served s1 res u fuel x (targets : list (Target Provider)) preq st o ok :
    gateway_Reserve dp s (quota_request facts ladder now) = (s1, Ok res) →
    ok = (sink_Record (gw_sink s1) (sunk dp (NewRoutingDecision id facts ladder o))).2 →
    Run fuel (mkConversation (U := U) (gw_outside s1) None x) targets preq = Some (st, o) →
    s' = gateway_Reconcile dp
           (mkGateway (gw_quota s1) (Buffered_Record (gw_sink s1) (sunk dp (NewRoutingDecision id facts ladder o))) u) res o →
    effects = [Reserved (quota_request facts ladder now) (Ok res); Dispatched preq (Some o);
               Recorded (NewRoutingDecision id facts ladder o) ok; Reconciled res o] →
    gate_result dp s now id facts ladder s' effects.

Lemma gate_results `{!FiniteOutside U} dp s w now id facts ladder targets raw s' w' effects :
  w_sent w = None →
  reserve_and_dispatch (H := gateway_handler dp) render uuid_string breach_String s w now id facts ladder targets raw
    = (s', w', effects) →
  w_sent w' ≠ None ∧ gate_result dp s now id facts ladder s' effects.
Proof.
  intros Hw. unfold reserve_and_dispatch, Handler.dispatch. cbn [px_Reserve px_Run px_Record px_Reconcile gateway_handler].
  destruct (gateway_Reserve dp s _) as [s1 [res|err]] eqn:Er.
  - set (out := NewClientStream _ _ _). set (preq := mkProviderRequest _ _ _ _).
    destruct (gateway_Run_returns s1 targets preq out) as (st & o & Hrun & ->).
    cbn [gw_sink gw_quota gw_outside sink_Record]. intros [= <- <- <-]. split.
    + destruct (String.eqb_spec (out_Status o) StatusExhausted) as [E|E]; [apply writeError_sent|].
      assert (Hc : committed_sent st).
      { eapply Run_stable; [apply committed_sent_stable| |exact Hrun].
        intros [?|[e []%elem_of_nil]]; done. }
      apply Hc. right. by eapply Run_commits.
    + by eapply gate_served.
  - destruct (as_quota_exceeded err) as [breach|].
    + cbn [gw_sink gw_quota gw_outside sink_Record]. intros [= <- <- <-]. split.
      * destruct (writeQuotaExceeded_status uuid_string breach_String w id breach now Hw) as [h Hh]. by rewrite Hh.
      * by eapply gate_refused.
    + intros [= <- <- <-]. split; [apply writeError_sent|by eapply gate_unavailable].
Qed.

Lemma gateway_passes `{!FiniteOutside U} dp s w now id r s' w' effects :
  w_sent w = None → gateway_Completions dp s w now id r = (s', w', effects) →
  w_sent w' ≠ None ∧
  ((effects = [] ∧ s' = s) ∨
   ∃ facts ladder, admitted (H := gateway_handler (C := C) (W := W) (L := L) dp) now r facts ladder ∧
     gate_result dp s now id facts ladder s' effects).
Proof.
  intros Hw Hc. destruct (Completions_passes _ _ _ _ _ _ _ _ _ _ _ Hw Hc)
    as [(-> & -> & status & _ & [h Hh])|(facts & ladder & ts & raw & Ha & _ & Hr)].
  - split; [by rewrite Hh|by left].
  - destruct (gate_results dp s w now id facts ladder ts raw s' w' effects Hw Hr) as [Hs Hg].
    split; [done|right; eauto].
Qed.

(** A sink is marked closed before its channel is closed, as [Flush] does. *)
Definition sink_shuts (b : Buffered L) : Prop := Channel.ch_closed (b_ch b) = true → b_closed b = true.

Lemma sink_Record_sends (b : Buffered L) d : sink_shuts b → (sink_Record b d).2 = true.
Proof.
  intros Hb. unfold sink_Record, Channel.try_send. cbn [snd]. destruct (b_closed b) eqn:Ec; [done|].
  destruct (Channel.ch_closed (b_ch b)) eqn:Eh; [by rewrite Hb in Ec|]. by destruct (_ <? _).
Qed.

(** C3. Every request is answered: whatever it is, whoever sends it and however the upstreams fail,
    once the handler returns the client has been sent a status. And it returns without panicking,
    supposing that the upstreams' answers are finite, and that no shutdown closes the sink between
    the two steps of recording the decision (a race that panics: [Sink.Record_races_Flush]). *)
Theorem every_request_answered `{!FiniteOutside U} dp authenticate s w now id method path r s' w' effects :
  w_sent w = None → sink_shuts (gw_sink s) →
  proxy_serve dp authenticate s w now id method path r = (s', w', effects) →
  w_sent w' ≠ None ∧ (∀ preq, Dispatched preq None ∉ effects) ∧ (∀ d, Recorded d false ∉ effects).
Proof.
  intros Hw Hsink. unfold proxy_serve, Respond.Authenticate, http_Error.
  assert (Hnil : (∀ preq, Dispatched preq None ∉ @nil effect) ∧ (∀ d, Recorded d false ∉ @nil effect))
    by (split; intros ? []%elem_of_nil).
  destruct (String.eqb path "/v1/chat/completions"); [destruct (String.eqb method "POST")|
    destruct (String.eqb path "/healthz"); [destruct (String.eqb method "GET" || String.eqb method "HEAD")|]];
    try (intros [= <- <- <-]; split; [first [apply Write_sent|apply WriteHeader_sent]|exact Hnil]).
  destruct (authenticate _) as [i|err].
  - intros Hc. destruct (gateway_passes _ _ _ _ _ _ _ _ _ Hw Hc) as [Hs [[-> _]|(facts & ladder & _ & Hg)]];
      (split; [done|]); [exact Hnil|].
    pose proof (gateway_Reserve_sink dp s (quota_request facts ladder now)) as Hsame.
    destruct Hg as [err _ ->|s1 err ok E -> _ ->|s1 res u fuel x ts pr st o ok E -> _ _ ->];
      try rewrite E in Hsame; try rewrite sink_Record_sends by (by simpl in Hsame; rewrite Hsame);
      split; intros ?; rewrite !elem_of_cons, elem_of_nil; naive_solver.
  - intros [= <- <- <-]. split; [|exact Hnil].
    destruct (writeAuthError_status render w err Hw) as (status & _ & [h Hh]). by rewrite Hh.
Qed.

(** C4. Nothing leaves the gateway for a request that is not admitted: if anything but the clock
    was touched outside, the request presented a key the authenticator knows, asked for a model the
    key allows and the routing table has, and a reservation in that key's tenant was granted. *)
Theorem upstream_only_when_admitted `{!FiniteOutside U} dp authenticate s w now id method path r s' w' effects :
  w_sent w = None → proxy_serve dp authenticate s w now id method path r = (s', w', effects) →
  only_time (gw_outside s) (gw_outside s') ∨
  ∃ i facts ladder res, path = "/v1/chat/completions" ∧ method = "POST" ∧
    authenticate (str (bearerToken (lit (header_value (rq_Header r) "Authorization")))) = Ok i ∧
    AllowsModel i (rf_RequestedModel facts) = true ∧ Route (dp_table dp) facts = Ok ladder ∧
    qr_Tenant (quota_request facts ladder now) = id_Tenant i ∧
    Reserved (quota_request facts ladder now) (Ok res) ∈ effects.
Proof.
  intros Hw. assert (Hsame : ∀ w1 (e1 : list effect), (s, w1, e1) = (s', w', effects) → only_time (gw_outside s) (gw_outside s'))
    by (intros w1 e1 [= <- _ _]; by apply rtc_refl).
  unfold proxy_serve, Respond.Authenticate.
  destruct (String.eqb_spec path "/v1/chat/completions") as [->|]; [destruct (String.eqb_spec method "POST") as [->|]|];
    try (repeat case_match; intros Hs; left; by eapply Hsame).
  destruct (authenticate _) as [i|err]; [|intros Hs; left; by eapply Hsame].
  intros Hc. destruct (gateway_passes _ _ _ _ _ _ _ _ _ Hw Hc) as [_ [[_ ->]|(facts & ladder & Ha & Hg)]];
    [left; by apply rtc_refl|].
  pose proof (gateway_Reserve_outside dp s (quota_request facts ladder now)) as Ho.
  destruct Hg as [err E ->|s1 err ok E _ -> ->|s1 res u fuel x ts pr st o ok E _ _ -> ->]; rewrite E in Ho; [by left..|right].
  destruct Ha as (i' & raw & f & Hi & _ & Hx & -> & Hallow & Hroute & _). simpl in Hi. injection Hi as <-.
  apply ExtractFacts_given in Hx as [_ Ht].
  exists i, (with_KeyID f (id_KeyID i)), ladder, res. split_and!; try done. by left.
Qed.

Lemma zero_windows : res_Windows zero_Reservation = [].
Proof. reflexivity. Qed.

(** What an outcome's decision is billed at. *)
Definition billed (d : RoutingDecision) : USD := match d_Cost d with Some cb => Actual cb | None => 0 end.

Lemma billed_cost dp table d res :
  dp_prices dp = Some table → res_At res = d_OccurredAt d → Total (out_Usage (d_Outcome d)) ≠ 0 →
  (out_Status (d_Outcome d) = StatusExhausted → ChosenTarget (d_Outcome d) = "") →
  billed (sunk dp d) = Cost (actualUsage (prices dp) res (d_Outcome d)).
Proof.
  intros Hp Hat Ht Hex. unfold sunk, billed, actualUsage, prices. rewrite Hp. cbn [d_Cost priced fmap option_fmap option_map].
  unfold Price. cbn [pr_table]. destruct (String.eqb_spec (ChosenTarget (d_Outcome d)) "") as [Ec|Ec].
  { by rewrite orb_true_r. }
  destruct (String.eqb_spec (out_Status (d_Outcome d)) StatusExhausted) as [Es|Es]; [by destruct Ec; auto|].
  rewrite (proj2 (Z.eqb_neq _ _)) by done. simpl. rewrite Hat.
  destruct (RatesAt table (d_OccurredAt d) (ChosenTarget (d_Outcome d))) as [[rates v]|]; [|done].
  by rewrite addCounterfactuals_spec.
Qed.

(** C1. The quota is charged what the ledger records: when a request that holds a reservation has
    used tokens, the cost its reservation is corrected to and handed to the durable counters, in
    every window of the reservation, is the cost of the one decision given to the sink. *)
Theorem charged_as_recorded `{!FiniteOutside U} dp table s e w now id r s' w' effects q res o :
  dp_prices dp = Some table → gw_quota s = Some e → w_sent w = None →
  gateway_Completions dp s w now id r = (s', w', effects) →
  Reserved q (Ok res) ∈ effects → Reconciled res o ∈ effects →
  res_Windows res ≠ [] → Total (out_Usage o) ≠ 0 →
  ∃ d e1 e', d_Outcome d = o ∧ gw_sink s' = Buffered_Record (gw_sink s) (sunk dp d) ∧
    e1 = (Reserve (prices dp) e (clock (gw_outside s)).2 q).1 ∧
    gw_quota s' = Some e' ∧ e' = Reconcile (prices dp) e1 res o ∧
    Cost (actualUsage (prices dp) res o) = billed (sunk dp d) ∧
    fl_added (e_flusher e') = fl_added (e_flusher e1) ++
      if QuotaUsage_IsZero (actualUsage (prices dp) res o) then []
      else map (λ win, mkWindowUsage (res_TenantID res) win (actualUsage (prices dp) res o)) (res_Windows res).
Proof.
  intros Hp Hq Hw Hc Hin Hrec Hne Ht.
  destruct (gateway_passes _ _ _ _ _ _ _ _ _ Hw Hc) as [_ [[-> _]|(facts & ladder & Ha & Hg)]]; [by apply elem_of_nil in Hin|].
  destruct Hg as [err _ ->|s1 err ok _ _ _ ->|s1 res' u fuel x ts pr st o' ok Er _ Hrun -> ->]; rewrite !elem_of_cons, !elem_of_nil in *;
    [naive_solver..|].
  assert (res' = res ∧ q = quota_request facts ladder now ∧ o' = o) as (-> & -> & ->) by naive_solver. clear Hin Hrec.
  unfold gateway_Reserve, outside_now in Er. rewrite Hq in Er.
  destruct (clock (gw_outside s)) as [u1 now'] eqn:Ec. simpl in Er.
  destruct (Reserve (prices dp) e now' _) as [e1 r1] eqn:Ee. injection Er as <- ->. simpl.
  apply Reserve_At in Ee as Hat. destruct Hat as [Hat| ->]; [|done].
  destruct Ha as (i & raw & f & _ & _ & [Hx _]%ExtractFacts_given & -> & _).
  eexists (NewRoutingDecision id _ ladder o), e1, _. rewrite Ee. split_and!; try reflexivity.
  - symmetry. apply (billed_cost _ table (NewRoutingDecision id _ ladder o)); [done| |done|].
    + rewrite Hat. simpl. by rewrite Hx.
    + simpl. destruct (Run_inv _ _ _ _ _ _ Hrun) as (st0 & start & _ & Hl).
      apply run_ladder_spec in Hl as [Hwk _]. by eapply walked_exhausted.
  - unfold Reconcile, Reservation_IsZero. rewrite bool_decide_false by done.
    set (actual := actualUsage (prices dp) res o).
    destruct (QuotaUsage_IsZero actual); [by case_match; simpl; rewrite app_nil_r|]. simpl.
    rewrite (fold_Add_added _ (λ win, mkWindowUsage (res_TenantID res) win actual)). by case_match.
Qed.
End Requests.

Section Settled.
Context {C W L U : Type} `{QuotaCountersSpec C} `{TenantReader W} `{QuotaReader W}
  `{UsageCounterRepository W} `{RecordWriter L} `{Outside U}.
Implicit Types (s : gateway C W L U) (dp : deployment).

(** C2. A whole request moves the live counters by what it used and by nothing else: from the
    counters [c] its reservation was decided on, every counter of a window the tenant is limited in
    ends with the actual usage added, whatever was reserved and however the dispatch went, and every
    other counter is as it was; as long as the stores answer. *)
Theorem request_settles_counters `{!FiniteOutside U} dp s e w now id r s' w' effects q res o e1 tl amount c :
  gw_quota s = Some e → w_sent w = None →
  gateway_Completions dp s w now id r = (s', w', effects) →
  Reserved q (Ok res) ∈ effects → Reconciled res o ∈ effects →
  get_tenantLimits e (clock (gw_outside s)).2 (qr_Tenant q) = (e1, Ok tl) →
  let limits := ApplicableLimits (tl_quotas tl) (qr_At q) in
  limits ≠ [] → request_amount (prices dp) (e_cfg e1) q = Some amount → usage_wf amount →
  counters_answer e1 (tl_tenantID tl) limits amount c →
  let e2 := (Reserve (prices dp) e (clock (gw_outside s)).2 q).1 in
  let delta := QuotaUsage_Sub (actualUsage (prices dp) res o) amount in
  adjust_pre (e_counters e2) (tl_tenantID tl) (map wl_Window limits) delta →
  (qc_Adjust (e_counters e2) (tl_tenantID tl) (map wl_Window limits) delta).2 = None →
  ∃ e', gw_quota s' = Some e' ∧
    (∀ win u, window_id win ∈ map (window_id ∘ wl_Window) limits → usage_wf u →
       live c (tl_tenantID tl) win = Some u →
       live (e_counters e') (tl_tenantID tl) win = Some (QuotaUsage_Add u (actualUsage (prices dp) res o))) ∧
    (∀ t win, t ≠ tl_tenantID tl ∨ window_id win ∉ map (window_id ∘ wl_Window) limits →
       live (e_counters e') t win = live c t win).
Proof.
  intros Hq Hw Hc Hin Hrec Ht limits Hl Ha Hwf Hans e2 delta Hpre Hadj.
  destruct (gateway_passes _ _ _ _ _ _ _ _ _ Hw Hc) as [_ [[-> _]|(facts & ladder & _ & Hg)]]; [by apply elem_of_nil in Hin|].
  destruct Hg as [err _ ->|s1 err ok _ _ _ ->|s1 res' u fuel x ts pr st o' ok Er _ Hrun -> ->]; rewrite !elem_of_cons, !elem_of_nil in *;
    [naive_solver..|].
  assert (res' = res ∧ q = quota_request facts ladder now ∧ o' = o) as (-> & -> & ->) by naive_solver. clear Hin Hrec.
  set (q := quota_request facts ladder now) in *.
  destruct (Reserve_contract (prices dp) e _ q e1 tl amount c Ht Hl Ha Hans) as (e'' & He & Hm & _).
  fold limits in He, Hm. set (rs := reserve_spec (live c (tl_tenantID tl)) limits amount) in *.
  unfold gateway_Reserve, outside_now in Er. rewrite Hq in Er.
  assert (E2 : e2 = e'') by (unfold e2; by rewrite He). clearbody e2. subst e2.
  destruct (clock (gw_outside s)) as [u1 now'] eqn:Ec. simpl in Er, He. rewrite He in Er. injection Er as <- Hd.
  unfold decided in Hd. destruct (Blocked rs) as [b|] eqn:Eb; [done|]. injection Hd as Hres.
  assert (Ewin : res_Windows res = map wl_Window limits) by (by rewrite <- Hres).
  assert (Eten : res_TenantID res = tl_tenantID tl) by (by rewrite <- Hres).
  assert (Eamt : res_Reserved res = amount) by (by rewrite <- Hres).
  assert (Emap : map window_id (map wl_Window limits) = map (window_id ∘ wl_Window) limits) by apply map_map.
  destruct (Reconcile_contract (prices dp) e'' res o) as (Hin & Hout & _).
  { rewrite Ewin. by destruct limits. }
  { by rewrite Eamt. }
  { by rewrite Ewin, Eten, Eamt. }
  { by rewrite Ewin, Eten, Eamt. }
  rewrite Eten, Ewin, Eamt, Emap in *. eexists. split; [reflexivity|]. split.
  - intros win v Hwin Hv Hlive. apply Hin; [done|done|].
    rewrite (Hm (tl_tenantID tl) win), Hlive. simpl. by rewrite decide_True.
  - intros t win Hor. rewrite Hout by done. rewrite (Hm t win).
    destruct (live c t win) as [v|]; simpl; [|done]. f_equal. rewrite decide_False; [done|]. naive_solver.
Qed.
End Settled.

(** ** Booting *)

Section Booting.
Context {C W L U : Type} `{Counters.QuotaCounters C} `{TenantReader W} `{QuotaReader W}
  `{UsageCounterRepository W} `{RecordWriter L} `{Outside U}.

Lemma is_ok_inv {A} (r : result error A) : is_ok r = true → ∃ a, r = Ok a.
Proof. destruct r; [by eexists|done]. Qed.

(** The client of a provider's section, and when one can be made. *)
Lemma oaicompat_provider_made headers name pc :
  pv_BaseURL pc ≠ "" →
  oaicompat_provider headers name pc =
    if String.eqb name "" then Err (Errorf "oaicompat: Name is required" [])
    else Ok (mkProvider (mkOaicompatConfig name (str (trim_right "/" (lit (pv_BaseURL pc))))
      (pv_APIKey pc) (pv_DisableStreamOptions pc) (headers (pv_ExtraHeaders pc)))).
Proof. intros Hb. unfold oaicompat_provider, New. simpl. by destruct (String.eqb name ""), (String.eqb_spec (pv_BaseURL pc) ""). Qed.

(** C16. What passes validation boots, in whatever order the runtime iterates the maps: the
    application is built exactly when the database and its partitions answer and no provider
    is named by the empty string, which validation lets through and the client refuses. Once
    built, every configured alias, and no other, routes to a ladder, which resolves to one
    target per name of it, in the configured order: with the target's own upstream model, and
    a client of the target's own provider, whose name, key, headers and base URL without its
    trailing slashes are those of that provider's section. *)
Theorem validated_config_boots headers cfg (porder : list (string * ProviderConfig))
    (lorder : list (string * Ladder)) (connect : result error (W * L)) (counters : C) (u : U) :
  validate cfg = None →
  porder ≡ₚ map_to_list (c_Providers cfg) → lorder ≡ₚ map_to_list (ladders_of cfg) →
  is_ok (Build headers cfg porder lorder connect counters u) =
    is_ok connect && bool_decide (c_Providers cfg !! "" = None) ∧
  ∀ dp g, Build headers cfg porder lorder connect counters u = Ok (dp, g) →
  ∀ facts, match c_Models cfg !! rf_RequestedModel facts with
    | None => is_ok (Route (dp_table dp) facts) = false
    | Some names => names ≠ [] ∧ ∃ l ts,
        Route (dp_table dp) facts = Ok l ∧ Resolve (dp_resolver dp) l = Ok ts ∧
        Forall2 (λ t n, ∃ tc pc,
          c_Targets cfg !! n = Some tc ∧ c_Providers cfg !! tg_Provider tc = Some pc ∧
          ref_Name (t_Ref t) = n ∧ t_Model t = tg_Model tc ∧
          t_Provider t = mkProvider (mkOaicompatConfig (tg_Provider tc)
            (str (trim_right "/" (lit (pv_BaseURL pc)))) (pv_APIKey pc) (pv_DisableStreamOptions pc)
            (headers (pv_ExtraHeaders pc)))) ts names
    end.
Proof.
  intros Hwf%validate_wf Hpo Hlo. pose proof Hwf as [_ Hl _ Hp]. unfold Build.
  case_bool_decide as Hno.
  - destruct (valid_config_routes (oaicompat_provider headers) cfg porder lorder Hwf)
      as (ps & table & rv & Hps & Hfc & Hr); [|done..|].
    { intros name pc E. rewrite oaicompat_provider_made by by apply (Hp name).
      destruct (String.eqb_spec name ""); [congruence|done]. }
    rewrite Hps. simpl. rewrite Hfc. simpl. rewrite andb_true_r. split; [by destruct connect|]. intros dp g Hb facts.
    destruct connect as [stores|]; [|done]. injection Hb as <- _. simpl. specialize (Hr facts).
    destruct (c_Models cfg !! _) as [names|] eqn:En; [|done]. split; [by apply (Hl _ _ En)|].
    destruct Hr as (l & ts & Hro & Hre & Hf). exists l, ts. split_and!; [done..|].
    eapply Forall2_impl; [exact Hf|]. intros t n (tc & Htc & Hm & (pc & Hpc & Hmade) & Hn).
    exists tc, pc. split_and!; [done..|]. rewrite oaicompat_provider_made in Hmade by by apply (Hp _ _ Hpc).
    destruct (String.eqb _ _); [done|]. by injection Hmade as <-.
  - destruct (c_Providers cfg !! "") as [pc|] eqn:E; [|done].
    assert (Hf : is_ok (buildProviders (oaicompat_provider headers) cfg porder) = false).
    { eapply build_providers_fails.
      - rewrite Hpo. by apply elem_of_map_to_list.
      - rewrite oaicompat_provider_made by by apply (Hp "" pc). done. }
    destruct (buildProviders _ _ _); [done|]. by rewrite andb_false_r.
Qed.
End Booting.
