(* ===== verification/GatewayExamples.v ===== *)
(** The proxy on a concrete deployment: one tenant, one key, one model behind one provider. *)
From Stdlib Require Import Ascii.
From S2P Require Import Prelude Calendar Bytes Errors Money Quota Records Config Accounts Redis Counters CounterProps Channel Json Flusher FlusherProps Sink Enforcer EnforcerProps Pricing Routing Dispatch DispatchProps Sse Provider Extract Respond Handler Gateway GatewayProps.

(** ** A network with scripted answers *)

Record ex_net := mkExNet { net_time : time; net_answers : list http_Response }.

Definition answer_size (r : http_Response) : nat := S (length (concat (resp_Body r))).

#[export] Instance ex_outside : Outside ex_net := {
  clock u := (mkExNet (net_time u + Millisecond) (net_answers u), net_time u);
  Do u _ := match net_answers u with
            | [] => (u, Err (Sentinel "dial tcp: connection refused"))
            | r :: rs => (mkExNet (net_time u) rs, Ok r)
            end;
  budget u := sum_list (map answer_size (net_answers u));
  SetString := ex_set;
  SetBool := ex_set_bool;
  bad_url _ := None;
  render _ := "error";
  uuid_string := example_uuid_string;
  breach_String _ := "breach";
}.

#[export] Instance ex_outside_finite : FiniteOutside ex_net.
Proof.
  split.
  - intros [t rs]. simpl. lia.
  - intros [t [|r rs]] req; cbn -[answer_size]; lia.
  - intros [t [|r rs]] req resp; cbn -[answer_size]; [done|]. intros [= ->]. unfold answer_size. lia.
Qed.

(** ** A deployment *)

Definition ex_ladder : Ladder :=
  mkLadder [mkTargetRef "openai/gpt-5" "openai" "gpt-5" ""] (mkReason ReasonModelAlias "chat" "" 0).
Definition ex_prices : Table := mkTable [mkBlock 0 "2026-08-01" {["openai/gpt-5" := ex_rates]}].
Definition ex_deployment : deployment :=
  mkDeployment (mkRoutingTable {["chat" := ex_ladder]} ["chat"]) (mkResolver {["openai" := ex_provider]})
    (Some ex_prices) [].

(** Tenant 7 of [ex_world] with its cap of a dollar a day, and an upstream with one answer ready. *)
Definition ex_gateway (answers : list http_Response) : gateway (redis_client map_redis) ex_db unit ex_net :=
  mkGateway (Some (ex_enforcer FailClosed [])) (NewBuffered tt (mkSinkConfig 0 0 0 0)) (mkExNet ex_now answers).

Definition ex_good : http_Response :=
  mkHttpResponse 200 [quoted "{'choices':[{'message':{'content':'hi'}}],'usage':{'prompt_tokens':100,'completion_tokens':20}}"] io_EOF.

Definition ex_authenticate (token : string) : result error Identity :=
  if String.eqb token "sk-1" then Ok (mkIdentity "acme" 9%N (Some ["chat"])) else Err ErrUnknownKey.

Definition ex_proxy_request (token : string) : Request :=
  mkRequest [("Authorization", ["Bearer " +:+ token])]
    (quoted "{'model':'chat','max_tokens':1000,'messages':[{'role':'user','content':'hello'}]}") io_EOF None.

Definition ex_served (token : string) (answers : list http_Response) :=
  proxy_serve ex_deployment ex_authenticate (ex_gateway answers) (new_Writer 100) ex_now 5%N "POST" "/v1/chat/completions"
    (ex_proxy_request token).

Lemma triple_eta {A B C} (p : A * B * C) : p = (p.1.1, p.1.2, p.2).
Proof. by destruct p as [[? ?] ?]. Qed.

(** The same request past the server's authentication. *)
Definition ex_completed :=
  gateway_Completions ex_deployment (ex_gateway [ex_good]) (new_Writer 100) ex_now 5%N
    (with_Identity (ex_proxy_request "sk-1") (mkIdentity "acme" 9%N (Some ["chat"]))).
Definition ex_quota_request : QuotaRequest :=
  mkQuotaRequest "acme" ex_now (mkPromptSize 5 1 0) 1000 0 ["openai/gpt-5"].
Definition ex_reserved : QuotaUsage := mkQuotaUsage 1 1006 10015000.
Definition ex_granted : Reservation := mkReservation 7%N ex_now [ex_day_window] ex_reserved.
Definition ex_served_outcome : Outcome :=
  mkOutcome StatusOK [mkAttempt "openai/gpt-5" (ex_now + 2 * Millisecond) 2 None] (mkTokenUsage 100 20 0 0 0) 2 4.

Ltac in_effects i := apply (list_elem_of_lookup_2 _ i); vm_compute; reflexivity.

(** ** Witnesses *)

Lemma every_request_answered_witness :
  w_sent (ex_served "sk-1" [ex_good]).1.2 ≠ None ∧
  fst <$> w_sent (ex_served "sk-1" [ex_good]).1.2 = Some 200 ∧
  fst <$> w_sent (ex_served "sk-1" []).1.2 = Some 502 ∧
  fst <$> w_sent (ex_served "sk-2" []).1.2 = Some 401.
Proof.
  split_and!; [|vm_compute; reflexivity..].
  exact (proj1 (every_request_answered ex_deployment ex_authenticate (ex_gateway [ex_good]) (new_Writer 100) ex_now 5%N
    "POST" "/v1/chat/completions" (ex_proxy_request "sk-1") _ _ _ eq_refl ltac:(by vm_compute) (triple_eta (ex_served "sk-1" [ex_good])))).
Defined.

Lemma upstream_only_when_admitted_witness :
  net_answers (gw_outside (ex_served "sk-2" [ex_good]).1.1) = [ex_good] ∧
  net_answers (gw_outside (ex_served "sk-1" [ex_good]).1.1) = [] ∧
  (only_time (gw_outside (ex_gateway [ex_good])) (gw_outside (ex_served "sk-1" [ex_good]).1.1) ∨
   ∃ i, ex_authenticate "sk-1" = Ok i).
Proof.
  split_and!; [vm_compute; reflexivity..|].
  destruct (upstream_only_when_admitted ex_deployment ex_authenticate (ex_gateway [ex_good]) (new_Writer 100) ex_now 5%N
    "POST" "/v1/chat/completions" (ex_proxy_request "sk-1") _ _ _ eq_refl (triple_eta (ex_served "sk-1" [ex_good])))
    as [?|(i & _ & _ & _ & _ & _ & Hi & _)]; [by left|right; exists i; exact Hi].
Defined.

Lemma charged_as_recorded_witness :
  Cost (actualUsage (prices ex_deployment) ex_granted ex_served_outcome) = 450000 ∧
  ∃ d, gw_sink ex_completed.1.1 = Buffered_Record (gw_sink (ex_gateway [])) (sunk ex_deployment d) ∧
    billed (sunk ex_deployment d) = 450000.
Proof.
  split; [vm_compute; reflexivity|].
  destruct (charged_as_recorded ex_deployment ex_prices (ex_gateway [ex_good]) (ex_enforcer FailClosed []) (new_Writer 100) ex_now 5%N
    (with_Identity (ex_proxy_request "sk-1") (mkIdentity "acme" 9%N (Some ["chat"]))) _ _ _
    ex_quota_request ex_granted ex_served_outcome eq_refl eq_refl eq_refl (triple_eta ex_completed))
    as (d & e1 & e' & _ & Hs & _ & _ & _ & Hc & _).
  - in_effects 0%nat.
  - in_effects 3%nat.
  - discriminate.
  - vm_compute. discriminate.
  - exists d. split; [exact Hs|]. rewrite <- Hc. vm_compute. reflexivity.
Defined.

(** The counters once the day's was seeded from the durable one, which counts nothing yet. *)
Definition ex_seeded : redis_client map_redis :=
  (qc_Seed (ex_redis []) [mkWindowUsage 7%N ex_day_window zero_QuotaUsage]).1.
Definition ex_limit : WindowLimit := mkWindowLimit ex_day_window one_dollar true.

Lemma ex_reserve_pre c : c = ex_redis [] ∨ c = ex_seeded → reserve_pre c 7%N [ex_limit] ex_reserved.
Proof.
  intros [-> | ->]; (split_and!; [split; [eval_le|]|..]);
    [apply Forall_cons; split; [split_and!; eval_le|by apply Forall_nil]
    |apply Forall_cons; split; [split; [eval_fields|done]|by apply Forall_nil]
    |apply (bool_decide_unpack (NoDup _)); vm_compute; exact I
    |apply Forall_cons; split; [split_and!; eval_le|by apply Forall_nil]
    |apply Forall_cons; split; [split; [eval_fields|done]|by apply Forall_nil]
    |apply (bool_decide_unpack (NoDup _)); vm_compute; exact I].
Qed.

Lemma ex_answers :
  counters_answer (get_tenantLimits (ex_enforcer FailClosed []) ex_now "acme").1 7%N [ex_limit] ex_reserved ex_seeded.
Proof.
  eapply (answer_after_seed _ _ _ _ (ex_redis []) (mkCounterReservation [ex_day_window] None [])
            (EnforcerProps.ex_world true) [mkWindowUsage 7%N ex_day_window zero_QuotaUsage] ex_seeded).
  - apply ex_reserve_pre. by left.
  - vm_compute. reflexivity.
  - discriminate.
  - vm_compute. reflexivity.
  - apply Forall_cons; split; [|by apply Forall_nil]. split_and!; [|discriminate|done].
    intros f. unfold usage_field. repeat case_match; eval_le.
  - reflexivity.
  - apply ex_reserve_pre. by right.
  - vm_compute. reflexivity.
Qed.

Lemma request_settles_counters_witness :
  ∃ e', gw_quota ex_completed.1.1 = Some e' ∧ live (e_counters e') 7%N ex_day_window = Some (mkQuotaUsage 1 120 450000).
Proof.
  destruct (request_settles_counters ex_deployment (ex_gateway [ex_good]) (ex_enforcer FailClosed []) (new_Writer 100) ex_now 5%N
    (with_Identity (ex_proxy_request "sk-1") (mkIdentity "acme" 9%N (Some ["chat"]))) _ _ _
    ex_quota_request ex_granted ex_served_outcome (get_tenantLimits (ex_enforcer FailClosed []) ex_now "acme").1
    (mkTenantLimits 7%N [ex_quota] ex_now) ex_reserved ex_seeded eq_refl eq_refl (triple_eta ex_completed))
    as (e' & He & Hlive & _).
  - in_effects 0%nat.
  - in_effects 3%nat.
  - vm_compute. reflexivity.
  - vm_compute. discriminate.
  - vm_compute. reflexivity.
  - split_and!; eval_int64.
  - exact ex_answers.
  - split.
    + apply (bool_decide_unpack (NoDup _)). vm_compute. exact I.
    + intros w Hw _. change (map wl_Window _) with [ex_day_window] in Hw.
      apply list_elem_of_singleton in Hw as ->. eval_fields.
  - vm_compute. reflexivity.
  - exists e'. split; [exact He|]. etransitivity; [apply (Hlive ex_day_window zero_QuotaUsage)|].
    + by left.
    + split_and!; eval_int64.
    + vm_compute. reflexivity.
    + vm_compute. reflexivity.
Defined.

Definition ex_Build (cfg : Config) :=
  Build (W := ex_db) (L := unit) map_to_list cfg (map_to_list (c_Providers cfg)) (map_to_list (ladders_of cfg))
    (Ok (EnforcerProps.ex_world true, tt)) (ex_redis []) (mkExNet ex_now []).

(** The deployment of [ex_routes], and the same with a provider of no name. *)
Definition ex_nameless : Config :=
  mkConfig ":4000" (<["" := mkProviderConfig "oaicompat" "http://q" "" false ∅]> (c_Providers ex_routes))
    (c_Targets ex_routes) (c_Models ex_routes) (c_Sink ex_routes) (c_Pricing ex_routes) (c_Redis ex_routes)
    (c_Quota ex_routes).

Lemma validated_config_boots_witness :
  (∃ dp g l ts, ex_Build ex_routes = Ok (dp, g) ∧
    Route (dp_table dp) (ex_facts "chat") = Ok l ∧ Resolve (dp_resolver dp) l = Ok ts ∧
    map (oc_BaseURL ∘ p_cfg ∘ t_Provider) ts = ["http://p"; "http://p"] ∧ map t_Model ts = ["gpt-5-mini"; "gpt-5"] ∧
    is_ok (Route (dp_table dp) (ex_facts "cha")) = false) ∧
  validate ex_nameless = None ∧ is_ok (ex_Build ex_nameless) = false.
Proof.
  assert (Hv : validate ex_routes = None) by (vm_compute; reflexivity).
  assert (Hv' : validate ex_nameless = None) by (vm_compute; reflexivity).
  destruct (validated_config_boots map_to_list ex_routes _ _ (Ok (EnforcerProps.ex_world true, tt)) (ex_redis [])
    (mkExNet ex_now []) Hv (Permutation_refl _) (Permutation_refl _)) as [_ Hr].
  destruct (validated_config_boots map_to_list ex_nameless _ _ (Ok (EnforcerProps.ex_world true, tt)) (ex_redis [])
    (mkExNet ex_now []) Hv' (Permutation_refl _) (Permutation_refl _)) as [Hf _].
  split; [|split; [exact Hv'|exact Hf]].
  assert (Hok : is_ok (ex_Build ex_routes) = true) by (vm_compute; reflexivity).
  destruct (is_ok_inv _ Hok) as [[dp g] Hb]. specialize (Hr dp g Hb).
  pose proof (Hr (ex_facts "chat")) as H1. pose proof (Hr (ex_facts "cha")) as H2.
  change (c_Models ex_routes !! rf_RequestedModel (ex_facts "chat")) with (Some ["fast"; "big"]) in H1.
  change (c_Models ex_routes !! rf_RequestedModel (ex_facts "cha")) with (@None (list string)) in H2.
  destruct H1 as (_ & l & ts & Hl & Hts & Hts2). exists dp, g, l, ts.
  split_and!; [exact Hb|exact Hl|exact Hts| | |exact H2]; clear - Hts2;
    inversion_clear Hts2 as [|t1 ? ts1 ? (tc1 & pc1 & E1 & P1 & _ & M1 & T1) Hts3];
    inversion_clear Hts3 as [|t2 ? ts2 ? (tc2 & pc2 & E2 & P2 & _ & M2 & T2) Hts4];
    inversion_clear Hts4; vm_compute in E1, E2; injection E1 as <-; injection E2 as <-;
    vm_compute in P1, P2; injection P1 as <-; injection P2 as <-.
  - change (oc_BaseURL (p_cfg (t_Provider t1)) :: oc_BaseURL (p_cfg (t_Provider t2)) :: [] = ["http://p"; "http://p"]).
    rewrite T1, T2. reflexivity.
  - change ([t_Model t1; t_Model t2] = ["gpt-5-mini"; "gpt-5"]). rewrite M1, M2. reflexivity.
Defined.
