(* ===== verification/Clitime.v ===== *)
(** Lengths of time and dates as the command lines take them: [src/internal/clitime], over
    [time.ParseDuration] and [time.Parse] of the standard library.

    A length of time is built in a 64-bit word from digits, a fraction in binary64 and a unit. A
    date is read element by element of its layout. *)
From Stdlib Require Import Ascii SpecFloat.
From S2P Require Import Prelude Errors Calendar Bytes Money Config Respond.

(** ** [time.ParseDuration] *)

(** [leadingInt]: the digits in front as an unsigned word, refused above [1 << 63]. *)
Fixpoint leadingInt (x : Z) (s : bytes) : option (Z * bytes) :=
  match s with
  | c :: s' =>
      if is_digit c then
        if 2 ^ 63 / 10 <? x then None
        else let x := 10 * x + (code c - 48) in
             if 2 ^ 63 <? x then None else leadingInt x s'
      else Some (x, s)
  | [] => Some (x, [])
  end.

(** [leadingFraction]: digits past what fits in 63 bits are skipped. *)
Fixpoint leadingFraction (x : Z) (scale : float64) (overflow : bool) (s : bytes) : Z * float64 * bytes :=
  match s with
  | c :: s' =>
      if is_digit c then
        let y := 10 * x + (code c - 48) in
        if overflow || ((2 ^ 63 - 1) / 10 <? x) || (2 ^ 63 <? y) then leadingFraction x scale true s'
        else leadingFraction y (f64_mul scale (f64_of_Z 10)) false s'
      else (x, scale, s)
  | [] => (x, scale, [])
  end.

(** The unit: everything up to the next digit or point. *)
Fixpoint span_unit (s : bytes) : bytes * bytes :=
  match s with
  | c :: s' => if Ascii.eqb c "."%char || is_digit c then ([], s) else let '(u, r) := span_unit s' in (c :: u, r)
  | [] => ([], [])
  end.
Definition unitMap (u : bytes) : option Z :=
  let s := str u in
  if String.eqb s "ns" then Some Nanosecond
  else if String.eqb s "us" || String.eqb s "µs" || String.eqb s "μs" then Some Microsecond
  else if String.eqb s "ms" then Some Millisecond
  else if String.eqb s "s" then Some Second
  else if String.eqb s "m" then Some Minute
  else if String.eqb s "h" then Some Hour
  else None.

(** The digits, the point and the digits after it; [None] where there is no digit at all. *)
Definition parse_number (s : bytes) : option (Z * Z * float64 * bytes) :=
  match s with
  | c :: _ =>
      if Ascii.eqb c "."%char || is_digit c then
        match leadingInt 0 s with
        | None => None
        | Some (v, r) =>
            let pre := negb (Nat.eqb (length r) (length s)) in
            let plain := if pre then Some (v, 0, f64_of_Z 1, r) else None in
            match r with
            | c :: r =>
                if Ascii.eqb c "." then
                  let '(f, scale, r') := leadingFraction 0 (f64_of_Z 1) false r in
                  if pre || negb (Nat.eqb (length r') (length r)) then Some (v, f, scale, r') else None
                else plain
            | [] => plain
            end
        end
      else None
  | [] => None
  end.

(** One number with its unit, in nanoseconds. *)
Definition parse_term (s : bytes) : option (Z * bytes) :=
  match parse_number s with
  | None => None
  | Some (v, f, scale, r) =>
      let '(u, r) := span_unit r in
      if bool_decide (u = []) then None
      else match unitMap u with
           | None => None
           | Some unit =>
               if 2 ^ 63 / unit <? v then None
               else
                 let v := v * unit in
                 if 0 <? f then
                   let v := v + default 0 (f64_trunc (f64_mul (f64_of_Z f) (f64_div (f64_of_Z unit) scale))) in
                   if 2 ^ 63 <? v then None else Some (v, r)
                 else Some (v, r)
           end
  end.

(** The terms added up; each takes a byte at least, so the bytes there are suffice as fuel. *)
Fixpoint parse_terms (fuel : nat) (d : Z) (s : bytes) : option Z :=
  match fuel, s with
  | _, [] => Some d
  | O, _ => None
  | S fuel, _ =>
      match parse_term s with
      | None => None
      | Some (v, r) => let d := d + v in if 2 ^ 63 <? d then None else parse_terms fuel d r
      end
  end.

Definition split_sign (s : bytes) : bool * bytes :=
  match s with
  | "-"%char :: r => (true, r)
  | "+"%char :: r => (false, r)
  | _ => (false, s)
  end.

Definition time_ParseDuration (s : bytes) : option duration :=
  let '(neg, s) := split_sign s in
  if bool_decide (s = ["0"%char]) then Some 0
  else if bool_decide (s = []) then None
  else match parse_terms (length s) 0 s with
       | None => None
       | Some d =>
           if neg then Some (wrap64 (- wrap64 d))
           else if 2 ^ 63 - 1 <? d then None else Some d
       end.

(** *** The fuel suffices *)

Lemma leadingInt_rest s : ∀ x v r, leadingInt x s = Some (v, r) → (length r ≤ length s)%nat.
Proof.
  induction s as [|c s IH]; intros x v r; cbn [leadingInt]; [by intros [= _ <-]|].
  destruct (is_digit c); [|by intros [= _ <-]]. destruct (_ <? x); [done|]. cbv zeta. destruct (_ <? _); [done|].
  intros Hr%IH. cbn [length]. lia.
Qed.

Lemma leadingFraction_rest s : ∀ x scale o, (length (leadingFraction x scale o s).2 ≤ length s)%nat.
Proof.
  induction s as [|c s IH]; intros x scale o; cbn [leadingFraction]; [done|].
  destruct (is_digit c); [|done]. cbv zeta. destruct (_ || _); etrans; [apply IH|cbn [length]; lia|apply IH|cbn [length]; lia].
Qed.

Lemma span_unit_rest s : ∀ u r, span_unit s = (u, r) → u ≠ [] → (length r < length s)%nat.
Proof.
  assert (Hle : ∀ s u r, span_unit s = (u, r) → (length r ≤ length s)%nat).
  { clear. intros s. induction s as [|c s IH]; intros u r; cbn [span_unit]; [by intros [= _ <-]|].
    destruct (Ascii.eqb c "." || is_digit c); [by intros [= _ <-]|].
    destruct (span_unit s) as [u' r']. intros [= _ <-]. specialize (IH _ _ eq_refl). cbn [length]. lia. }
  intros u r. destruct s as [|c s]; cbn [span_unit]; [by intros [= <- _]|].
  destruct (Ascii.eqb c "." || is_digit c); [by intros [= <- _]|].
  destruct (span_unit s) as [u' r'] eqn:E. intros [= _ <-] _. apply Hle in E. cbn [length]. lia.
Qed.

Lemma parse_number_rest s v f scale r : parse_number s = Some (v, f, scale, r) → (length r ≤ length s)%nat.
Proof.
  unfold parse_number. destruct s as [|c s]; [done|]. destruct (Ascii.eqb c "." || is_digit c); [|done].
  destruct (leadingInt 0 (c :: s)) as [[v' r']|] eqn:E; [|done]. apply leadingInt_rest in E. cbv zeta.
  set (pre := negb _). intros Hr.
  assert (Hcase : r = r' ∨ ∃ r1, r' = "."%char :: r1 ∧ r = (leadingFraction 0 (f64_of_Z 1) false r1).2).
  { destruct r' as [|c' r']; [left; by destruct pre; simplify_eq|].
    destruct (Ascii.eqb_spec c' ".") as [->|Hc].
    - right. exists r'. split; [done|]. destruct (leadingFraction _ _ _ r') as [[f' scale'] r'']. by case_match; simplify_eq.
    - left. by destruct pre; simplify_eq. }
  destruct Hcase as [->|(r1 & -> & ->)]; [done|]. pose proof (leadingFraction_rest r1 0 (f64_of_Z 1) false).
  cbn [length] in *. lia.
Qed.

Lemma parse_term_rest s v r : parse_term s = Some (v, r) → (length r < length s)%nat.
Proof.
  unfold parse_term. destruct (parse_number s) as [[[[v' f] scale] r']|] eqn:E; [|done]. apply parse_number_rest in E.
  destruct (span_unit r') as [u r''] eqn:Eu. case_bool_decide as Hu; [done|]. pose proof (span_unit_rest _ _ _ Eu Hu).
  destruct (unitMap u) as [unit|]; [|done]. repeat case_match; intros; simplify_eq; lia.
Qed.

(** More fuel than there are bytes changes nothing, so [None] is the code's error and not fuel spent. *)
Lemma parse_terms_fuel fuel : ∀ fuel' d s, (length s ≤ fuel)%nat → (length s ≤ fuel')%nat →
  parse_terms fuel d s = parse_terms fuel' d s.
Proof.
  induction fuel as [|fuel IH]; intros fuel' d s Hs Hs'.
  - destruct s; [by destruct fuel'|]. cbn [length] in Hs. lia.
  - destruct s as [|c s]; [by destruct fuel'|]. destruct fuel' as [|fuel']; [cbn [length] in Hs'; lia|].
    cbn [parse_terms]. destruct (parse_term (c :: s)) as [[v r]|] eqn:E; [|done]. apply parse_term_rest in E.
    cbv zeta. destruct (_ <? _); [done|]. apply IH; lia.
Qed.

(** ** [time.Parse] *)

(** The elements of the three layouts; a space stands for any number of spaces. *)
Inductive element :=
| Lit (c : ascii)
| Space
| LongYear
| ZeroMonth
| ZeroDay
| HourOfDay
| ZeroMinute
| ZeroSecond
| ColonTZ.

Definition RFC3339 : list element :=
  [LongYear; Lit "-"; ZeroMonth; Lit "-"; ZeroDay; Lit "T"; HourOfDay; Lit ":"; ZeroMinute; Lit ":"; ZeroSecond; ColonTZ].
Definition DateTime : list element :=
  [LongYear; Lit "-"; ZeroMonth; Lit "-"; ZeroDay; Space; HourOfDay; Lit ":"; ZeroMinute].
Definition DateOnly : list element := [LongYear; Lit "-"; ZeroMonth; Lit "-"; ZeroDay].

(** What has been read of a time; the offset of its zone is in seconds. *)
Record fields := mkFields {
  fl_year : Z; fl_month : Z; fl_day : Z; fl_hour : Z; fl_min : Z; fl_sec : Z; fl_nsec : Z; fl_offset : Z;
}.

(** [getnum]: two digits, or one where a second is not required. *)
Definition getnum (fixed : bool) (s : bytes) : option (Z * bytes) :=
  match s with
  | a :: s' =>
      if is_digit a then
        match s' with
        | b :: r => if is_digit b then Some (decimal [a; b], r) else if fixed then None else Some (decimal [a], s')
        | [] => if fixed then None else Some (decimal [a], [])
        end
      else None
  | [] => None
  end.

Definition in_range (lo hi : Z) (r : option (Z * bytes)) : option (Z * bytes) :=
  match r with
  | Some (z, s) => if (lo <=? z) && (z <=? hi) then Some (z, s) else None
  | None => None
  end.

Definition long_year (s : bytes) : option (Z * bytes) :=
  let p := take 4 s in
  if Nat.eqb (length p) 4 && forallb is_digit p then Some (decimal p, drop 4 s) else None.

(** The seconds, and a fraction of them after a point or a comma where one follows: nine digits
    count. *)
Definition seconds (s : bytes) : option (Z * Z * bytes) :=
  match in_range 0 59 (getnum true s) with
  | None => None
  | Some (sec, r) =>
      match r with
      | c :: r' =>
          if Ascii.eqb c "."%char || Ascii.eqb c ","%char then
            match digits r' with
            | ([], _) => Some (sec, 0, r)
            | (ds, rest) =>
                let ds := take 9 ds in
                Some (sec, decimal ds * 10 ^ (9 - blen ds), rest)
            end
          else Some (sec, 0, r)
      | [] => Some (sec, 0, [])
      end
  end.

Definition zone (s : bytes) : option (Z * bytes) :=
  match s with
  | "Z"%char :: r => Some (0, r)
  | sign :: h1 :: h2 :: ":"%char :: m1 :: m2 :: r =>
      match in_range 0 24 (getnum true [h1; h2]), in_range 0 60 (getnum true [m1; m2]) with
      | Some (hr, _), Some (mm, _) =>
          let off := (hr * 60 + mm) * 60 in
          if Ascii.eqb sign "+" then Some (off, r)
          else if Ascii.eqb sign "-" then Some (- off, r)
          else None
      | _, _ => None
      end
  | _ => None
  end.

Definition cutspace (s : bytes) : bytes :=
  (fix go (s : bytes) := match s with c :: r => if Ascii.eqb c " " then go r else s | [] => [] end) s.

Definition read_element (e : element) (f : fields) (s : bytes) : option (fields * bytes) :=
  let '(mkFields y mo d h mi sc ns off) := f in
  match e with
  | Lit c => match s with a :: r => if Ascii.eqb a c then Some (f, r) else None | [] => None end
  | Space => match s with
             | a :: _ => if Ascii.eqb a " " then Some (f, cutspace s) else None
             | [] => Some (f, [])
             end
  | LongYear => '(y, r) ← long_year s; Some (mkFields y mo d h mi sc ns off, r)
  | ZeroMonth => '(mo, r) ← in_range 1 12 (getnum true s); Some (mkFields y mo d h mi sc ns off, r)
  | ZeroDay => '(d, r) ← getnum true s; Some (mkFields y mo d h mi sc ns off, r)
  | HourOfDay => '(h, r) ← in_range 0 23 (getnum false s); Some (mkFields y mo d h mi sc ns off, r)
  | ZeroMinute => '(mi, r) ← in_range 0 59 (getnum true s); Some (mkFields y mo d h mi sc ns off, r)
  | ZeroSecond => '(sc, ns, r) ← seconds s; Some (mkFields y mo d h mi sc ns off, r)
  | ColonTZ => '(off, r) ← zone s; Some (mkFields y mo d h mi sc ns off, r)
  end.

Fixpoint read_layout (l : list element) (f : fields) (s : bytes) : option fields :=
  match l with
  | [] => if bool_decide (s = []) then Some f else None
  | e :: l => '(f, s) ← read_element e f s; read_layout l f s
  end.

(** The days in a month, which the day read must be among. *)
Definition days_in (y m : Z) : Z := days_before y (m + 1) - days_before y m.

Definition time_Parse (layout : list element) (s : bytes) : option time :=
  match read_layout layout (mkFields 1 1 1 0 0 0 0 0) s with
  | None => None
  | Some f =>
      if (fl_day f <? 1) || (days_in (fl_year f) (fl_month f) <? fl_day f) then None
      else Some (Date (fl_year f) (fl_month f) (fl_day f)
                 + (fl_hour f * 3600 + fl_min f * 60 + fl_sec f - fl_offset f) * Second + fl_nsec f)
  end.

(** ** The package *)

(** [src/internal/clitime/clitime.go:40-50] parseDayDuration *)
Definition parseDayDuration (s : string) : option duration :=
  match reverse (lit s) with
  | "d"%char :: r =>
      match ParseInt (reverse r) with
      | None => None
      | Some n => if n <? 0 then None else Some (wrap64 (wrap64 (n * 24) * Hour))
      end
  | _ => None
  end.

(** [src/internal/clitime/clitime.go:14-23] ParseDuration *)
Definition ParseDuration (s : string) : result error duration :=
  match parseDayDuration s with
  | Some d => Ok d
  | None =>
      match time_ParseDuration (lit s) with
      | None => Err (Errorf "%q is not a duration (30d, 24h, 90m)" [AStr s])
      | Some d => Ok d
      end
  end.

(** [src/internal/clitime/clitime.go:25-38] ParseWhen *)
Definition ParseWhen (s : string) (now : time) : result error time :=
  match ParseDuration s with
  | Ok d => Ok (Add now (wrap64 (- d)))
  | Err _ =>
      match list_find is_Some (map (λ layout, time_Parse layout (lit s)) [RFC3339; DateTime; DateOnly]) with
      | Some (_, Some t) => Ok t
      | _ => Err (Errorf "%q is neither a duration (30d, 24h) nor a date (2026-08-01)" [AStr s])
      end
  end.

(** ** Days *)

Lemma lit_append s t : lit (s +:+ t) = lit s ++ lit t.
Proof.
  induction s as [|c s IH]; [done|]. change (String c s +:+ t) with (String c (s +:+ t)).
  by rewrite !lit_cons, IH.
Qed.

Lemma parseDayDuration_days s n :
  ParseInt (lit s) = Some n → 0 ≤ n → parseDayDuration (s +:+ "d") = Some (wrap64 (n * (24 * Hour))).
Proof.
  intros Hn H0. unfold parseDayDuration.
  rewrite lit_append. change (lit "d") with ["d"%char]. rewrite reverse_snoc, reverse_involutive, Hn, (proj2 (Z.ltb_ge n 0)) by done. f_equal.
  apply wrap64_eq_mod. rewrite Z.mul_mod, wrap64_mod, <- Z.mul_mod by lia. f_equal. lia.
Qed.

(** [n] days are [n] times 24 hours, modulo the 64 bits of a [time.Duration]: exactly that up to
    106751 days. *)
Theorem ParseDuration_days n :
  0 ≤ n < 2 ^ 63 →
  ParseDuration (pretty n +:+ "d") = Ok (wrap64 (n * (24 * Hour))) ∧
  (n ≤ 106751 → wrap64 (n * (24 * Hour)) = n * (24 * Hour)).
Proof.
  intros Hn. split.
  - unfold ParseDuration. rewrite (parseDayDuration_days _ n); [done| |lia].
    apply ParseInt_FormatInt. unfold int64_range. lia.
  - intros Hx. apply wrap64_id. unfold int64_range, Hour, Minute, Second. lia.
Qed.

(** ** A date written is read back *)

Definition padded_ok (n : nat) (pad : Z → string) (z : Z) : bool :=
  let b := lit (pad z) in Nat.eqb (length b) n && forallb is_digit b && (decimal b =? z).

Lemma padded_all n pad (hi : Z) :
  forallb (padded_ok n pad) (map Z.of_nat (seq 0 (Z.to_nat hi))) = true →
  ∀ z, 0 ≤ z < hi → length (lit (pad z)) = n ∧ forallb is_digit (lit (pad z)) = true ∧ decimal (lit (pad z)) = z.
Proof.
  intros H z Hz. rewrite forallb_forall in H.
  assert (Hi : In z (map Z.of_nat (seq 0 (Z.to_nat hi)))).
  { apply in_map_iff. exists (Z.to_nat z). split; [lia|]. apply in_seq. lia. }
  specialize (H z Hi). unfold padded_ok in H. bool_prop. rewrite Nat.eqb_eq in *. auto.
Qed.

Lemma pad4_digits z : 0 ≤ z < 10000 →
  length (lit (pad4 z)) = 4%nat ∧ forallb is_digit (lit (pad4 z)) = true ∧ decimal (lit (pad4 z)) = z.
Proof. apply padded_all. by vm_compute. Qed.

Lemma pad2_digits z : 0 ≤ z < 100 →
  length (lit (pad2 z)) = 2%nat ∧ forallb is_digit (lit (pad2 z)) = true ∧ decimal (lit (pad2 z)) = z.
Proof. apply padded_all. by vm_compute. Qed.

Lemma Day_range t : 1 ≤ Day t ≤ days_in (Year t) (Month t).
Proof.
  pose proof (month_index_spec t) as Hi. pose proof (Month_range t) as Hm. unfold month_index in *.
  pose proof (year_of_day_spec (abs_day t)) as Hy. fold (Year t) in Hy. rewrite year_step in Hy.
  destruct (month_of_yday_spec (Year t) (abs_day t - year_start (Year t)) ltac:(lia)) as (_ & Hd).
  fold (Month t) in Hd. unfold Day, days_in, month_start.
  replace ((12 * Year t + Month t - 1) / 12) with (Year t) by lia.
  replace ((12 * Year t + Month t - 1) mod 12 + 1) with (Month t) by lia. lia.
Qed.

Lemma digit_code c : is_digit c = true → 0 ≤ code c - 48 ≤ 9.
Proof. unfold is_digit. intros H. bool_prop. lia. Qed.

Lemma digit_not_lit c x : is_digit c = true → is_digit x = false → Ascii.eqb c x = false.
Proof. intros Hc Hx. apply Ascii.eqb_neq. intros ->. congruence. Qed.

Lemma getnum_two a b r : is_digit a = true → is_digit b = true →
  getnum true (a :: b :: r) = Some (decimal [a; b], r).
Proof. intros Ha Hb. unfold getnum. by rewrite Ha, Hb. Qed.

Lemma in_range_Some lo hi z r : lo ≤ z ≤ hi → in_range lo hi (Some (z, r)) = Some (z, r).
Proof. intros H. unfold in_range. by rewrite (proj2 (Z.leb_le lo z)), (proj2 (Z.leb_le z hi)) by lia. Qed.

Lemma two_digits s : length s = 2%nat → forallb is_digit s = true →
  ∃ a b, s = [a; b] ∧ is_digit a = true ∧ is_digit b = true.
Proof.
  intros Hl Hd. destruct s as [|a [|b [|]]]; try discriminate Hl. exists a, b. cbn [forallb] in Hd.
  bool_prop. auto.
Qed.

(** What [FormatDate] writes: four digits, two and two. *)
Lemma written_date t : 0 ≤ Year t < 10000 →
  ∃ y a b c d, lit (FormatDate t) = y ++ "-"%char :: a :: b :: "-"%char :: [c; d] ∧
    length y = 4%nat ∧ forallb is_digit (y ++ [a; b; c; d]) = true ∧
    decimal y = Year t ∧ decimal [a; b] = Month t ∧ decimal [c; d] = Day t.
Proof.
  intros Hy. pose proof (Month_range t) as Hm. pose proof (Day_range t) as Hd.
  destruct (days_before_step (Year t) (Month t) Hm) as [_ Hs]. unfold days_in in Hd.
  destruct (pad4_digits (Year t) Hy) as (Ly & Dy & Vy).
  destruct (pad2_digits (Month t) ltac:(lia)) as (Lm & Dm & Vm).
  destruct (pad2_digits (Day t) ltac:(lia)) as (Ld & Dd & Vd).
  destruct (two_digits _ Lm Dm) as (a & b & Em & Ha & Hb).
  destruct (two_digits _ Ld Dd) as (c & d & Ed & Hc & Hdd).
  rewrite Em in Vm. rewrite Ed in Vd. exists (lit (pad4 (Year t))), a, b, c, d. split_and!; try done.
  - unfold FormatDate. rewrite !lit_append, Em, Ed. done.
  - rewrite forallb_app, Dy. cbn [forallb]. by rewrite Ha, Hb, Hc, Hdd.
Qed.

Lemma read_lit c f r : read_element (Lit c) f (c :: r) = Some (f, r).
Proof. destruct f. cbn [read_element]. by rewrite Ascii.eqb_refl. Qed.

Definition set_year y f := mkFields y (fl_month f) (fl_day f) (fl_hour f) (fl_min f) (fl_sec f) (fl_nsec f) (fl_offset f).
Definition set_month m f := mkFields (fl_year f) m (fl_day f) (fl_hour f) (fl_min f) (fl_sec f) (fl_nsec f) (fl_offset f).
Definition set_day d f := mkFields (fl_year f) (fl_month f) d (fl_hour f) (fl_min f) (fl_sec f) (fl_nsec f) (fl_offset f).

Lemma read_year y r f : length y = 4%nat → forallb is_digit y = true →
  read_element LongYear f (y ++ r) = Some (set_year (decimal y) f, r).
Proof.
  intros Ly Hy. destruct f. cbn [read_element]. unfold long_year.
  by rewrite take_app_length', drop_app_length', Ly, Hy by done.
Qed.

Lemma read_month a b r f : is_digit a = true → is_digit b = true → 1 ≤ decimal [a; b] ≤ 12 →
  read_element ZeroMonth f (a :: b :: r) = Some (set_month (decimal [a; b]) f, r).
Proof. intros Ha Hb Hm. destruct f. cbn [read_element]. by rewrite getnum_two, in_range_Some by done. Qed.

Lemma read_day a b r f : is_digit a = true → is_digit b = true →
  read_element ZeroDay f (a :: b :: r) = Some (set_day (decimal [a; b]) f, r).
Proof. intros Ha Hb. destruct f. cbn [read_element]. by rewrite getnum_two by done. Qed.

Lemma read_date_only y a b c d :
  length y = 4%nat → forallb is_digit (y ++ [a; b; c; d]) = true → 1 ≤ decimal [a; b] ≤ 12 →
  ∀ l r, read_layout (DateOnly ++ l) (mkFields 1 1 1 0 0 0 0 0) (y ++ "-"%char :: a :: b :: "-"%char :: c :: d :: r) =
         read_layout l (mkFields (decimal y) (decimal [a; b]) (decimal [c; d]) 0 0 0 0 0) r.
Proof.
  intros Ly Hd Hm l r. rewrite forallb_app in Hd. apply andb_true_iff in Hd as [Hy Hd]. cbn [forallb] in Hd.
  bool_prop.
  unfold DateOnly. cbn [app read_layout].
  rewrite read_year by done. cbn [mbind option_bind]. rewrite read_lit. cbn [mbind option_bind].
  rewrite read_month by done. cbn [mbind option_bind fl_year fl_month fl_day fl_hour fl_min fl_sec fl_nsec fl_offset].
  rewrite read_lit. cbn [mbind option_bind]. by rewrite read_day.
Qed.

(** Digits in front, where they stay below the bound. *)
Lemma leadingInt_digits ds : ∀ x r,
  forallb is_digit ds = true → (∀ c r', r = c :: r' → is_digit c = false) →
  0 ≤ x → (x + 1) * 10 ^ Z.of_nat (length ds) ≤ 2 ^ 63 / 10 →
  leadingInt x (ds ++ r) = Some (fold_left (λ acc c, 10 * acc + (code c - 48)) ds x, r).
Proof.
  induction ds as [|c ds IH]; intros x r Hd Hr H0 Hx.
  - cbn [app fold_left]. destruct r as [|c r]; [done|]. cbn [leadingInt]. by rewrite (Hr c r eq_refl).
  - cbn [forallb] in Hd. apply andb_true_iff in Hd as [Hc Hd]. pose proof (digit_code c Hc) as Hk.
    cbn [app leadingInt length fold_left] in *. rewrite Hc.
    rewrite Nat2Z.inj_succ, Z.pow_succ_r in Hx by lia.
    assert (0 < 10 ^ Z.of_nat (length ds)) by (apply Z.pow_pos_nonneg; lia).
    change (2 ^ 63 / 10) with 922337203685477580 in *. change (2 ^ 63) with 9223372036854775808.
    assert (x + 1 <= 92233720368547758) by nia.
    rewrite (proj2 (Z.ltb_ge _ x)), (proj2 (Z.ltb_ge _ (10 * x + (code c - 48)))) by lia.
    apply IH; [done..|lia|]. change (2 ^ 63 / 10) with 922337203685477580. nia.
Qed.

Lemma split_sign_digit c s : is_digit c = true → split_sign (c :: s) = (false, c :: s).
Proof. by destruct c as [[] [] [] [] [] [] [] []]. Qed.

(** A date is not a length of time. *)
Lemma date_is_no_duration y a b c d :
  length y = 4%nat → forallb is_digit (y ++ [a; b; c; d]) = true →
  parseDayDuration (str (y ++ "-"%char :: a :: b :: "-"%char :: [c; d])) = None ∧
  time_ParseDuration (y ++ "-"%char :: a :: b :: "-"%char :: [c; d]) = None.
Proof.
  intros Ly Hd. rewrite forallb_app in Hd. apply andb_true_iff in Hd as [Hy Hd]. cbn [forallb] in Hd. bool_prop.
  split.
  - unfold parseDayDuration. rewrite lit_str.
    replace (y ++ "-"%char :: a :: b :: "-"%char :: [c; d]) with ((y ++ ["-"%char; a; b; "-"%char; c]) ++ [d])
      by by rewrite <- app_assoc.
    rewrite reverse_snoc. by destruct d as [[] [] [] [] [] [] [] []].
  - assert (Hl : leadingInt 0 (y ++ "-"%char :: a :: b :: "-"%char :: [c; d]) =
                 Some (decimal y, "-"%char :: a :: b :: "-"%char :: [c; d])).
    { apply leadingInt_digits; [done| |lia|by rewrite Ly]. by intros ? ? [= <- <-]. }
    destruct y as [|y0 y]; [done|]. cbn [forallb] in Hy. apply andb_true_iff in Hy as [Hy0 Hy].
    set (r := "-"%char :: a :: b :: "-"%char :: [c; d]) in *. cbn [app] in *.
    assert (Hp : parse_term (y0 :: y ++ r) = None).
    { unfold parse_term, parse_number. rewrite Hy0, orb_true_r, Hl.
      assert (E : Nat.eqb (length r) (length (y0 :: y ++ r)) = false).
      { apply Nat.eqb_neq. cbn [length]. rewrite length_app. lia. }
      rewrite E. unfold r. cbn [negb]. cbv zeta. change (Ascii.eqb "-" ".") with false. cbn match. cbn [span_unit].
      change (Ascii.eqb "-" "." || is_digit "-") with false. cbn match. rewrite H, orb_true_r. done. }
    unfold time_ParseDuration.
    rewrite split_sign_digit, bool_decide_eq_false_2.
    + rewrite bool_decide_eq_false_2 by done. cbn [length parse_terms]. by rewrite Hp.
    + intros [= _ E]. by destruct y.
    + done.
Qed.

(** A date read back: midnight of the day [FormatDate] was given, whatever the time is now. *)
Theorem ParseWhen_FormatDate t now :
  0 ≤ Year t < 10000 → ParseWhen (FormatDate t) now = Ok (day_time (abs_day t)).
Proof.
  intros Hy. destruct (written_date t Hy) as (y & a & b & c & d & E & Ly & Hd & Vy & Vm & Vd).
  destruct (date_is_no_duration y a b c d Ly Hd) as [Hday Hdur].
  pose proof (Month_range t) as Hm. pose proof (Day_range t) as Hdr.
  assert (Es : FormatDate t = str (y ++ "-"%char :: a :: b :: "-"%char :: [c; d])) by by rewrite <- E, str_lit.
  unfold ParseWhen, ParseDuration. rewrite Es, Hday, lit_str, Hdur.
  assert (Hr := read_date_only y a b c d Ly Hd ltac:(lia)).
  assert (H1 : time_Parse RFC3339 (y ++ "-"%char :: a :: b :: "-"%char :: [c; d]) = None).
  { unfold time_Parse. change RFC3339 with (DateOnly ++ Lit "T" :: drop 6 RFC3339). by rewrite Hr. }
  assert (H2 : time_Parse DateTime (y ++ "-"%char :: a :: b :: "-"%char :: [c; d]) = None).
  { unfold time_Parse. change DateTime with (DateOnly ++ Space :: drop 6 DateTime). by rewrite Hr. }
  assert (H3 : time_Parse DateOnly (y ++ "-"%char :: a :: b :: "-"%char :: [c; d]) = Some (day_time (abs_day t))).
  { unfold time_Parse. rewrite <- (app_nil_r DateOnly), Hr. cbn [read_layout].
    rewrite bool_decide_eq_true_2 by done. cbn [fl_day fl_year fl_month fl_hour fl_min fl_sec fl_offset fl_nsec].
    rewrite Vy, Vm, Vd, (proj2 (Z.ltb_ge (Day t) 1)), (proj2 (Z.ltb_ge _ (Day t))) by lia. cbn [orb].
    f_equal. rewrite Date_civil. lia. }
  cbn [map]. by rewrite H1, H2, H3.
Qed.

(** *** What the overflow of days does

    [1 + 2^64 / (24 hours)] days come to less than half an hour: the product is not checked. *)
Example long_lifetimes_wrap :
  ParseDuration "213504d" = Ok 1526290448384 ∧ ParseDuration "106752d" = Ok (- 9223371273709551616).
Proof. by vm_compute. Qed.
