(* ===== verification/Display.v ===== *)
(** How figures are shown: amounts of [src/internal/core/domains/money.go], and the cells of
    [src/cmd/go-route/format.go].

    A float is written in the exact decimal of its binary value, rounded half to even to the places
    asked for, as [strconv.FormatFloat] does with the format ['f']. *)
From Stdlib Require Import Ascii SpecFloat.
From S2P Require Import Prelude Sorting Errors Calendar Bytes Money Quota Records Config Respond.

(** ** Floats as decimals *)

(** [n / d] to the nearest integer, a tie to the even one. *)
Definition round_half_even (n d : Z) : Z :=
  let q := n / d in
  let r := n mod d in
  if (2 * r <? d) || ((2 * r =? d) && Z.even q) then q else q + 1.

Fixpoint pad_zeros (n : nat) (s : string) : string :=
  match n with O => s | S n => "0" +:+ pad_zeros n s end.
Definition zero_padded (width : Z) (z : Z) : string :=
  let s := pretty z in pad_zeros (Z.to_nat width - String.length s) s.

(** [n] units of the last of [prec] places. *)
Definition fixed_point (prec n : Z) : string :=
  pretty (n / 10 ^ prec) +:+ (if prec =? 0 then "" else "." +:+ zero_padded prec (n mod 10 ^ prec)).

Definition FormatFloat (prec : Z) (f : float64) : string :=
  let sign (s : bool) := if s then "-" else "" in
  match f with
  | S754_zero s => sign s +:+ fixed_point prec 0
  | S754_finite s m e =>
      sign s +:+ fixed_point prec
        (if 0 <=? e then Zpos m * 2 ^ e * 10 ^ prec else round_half_even (Zpos m * 10 ^ prec) (2 ^ (- e)))
  | S754_infinity s => if s then "-Inf" else "+Inf"
  | S754_nan => "NaN"
  end.

(** ** Amounts *)

(** [src/internal/core/domains/money.go:19-23] USD.Dollars *)
Definition Dollars (u : USD) : float64 := f64_div (f64_of_Z u) (f64_of_Z nanosPerDollar).

(** [src/internal/core/domains/money.go:25-29] USD.String *)
Definition USD_String (u : USD) : string := "$" +:+ FormatFloat 6 (Dollars u).

(** [src/internal/core/domains/money.go:31-35] USD.Format *)
Definition USD_Format (u : USD) (decimals : Z) : string := "$" +:+ FormatFloat decimals (Dollars u).

(** The float the literal [0.01] is. *)
Definition f64_cent : float64 := f64_div (f64_of_Z 1) (f64_of_Z 100).

(** [src/internal/core/domains/money.go:46-63] USD.Auto *)
Definition USD_Auto (u : USD) : string :=
  let d := Dollars u in
  let d := if SFltb d f64_zero then SFopp d else d in
  if u =? 0 then "$0.00"
  else if SFltb d f64_cent then USD_Format u 6
  else if SFltb d (f64_of_Z 1) then USD_Format u 4
  else USD_Format u 2.

(** [src/internal/core/domains/report.go:61-68] ReportRow.Coverage *)
Definition Coverage (r : ReportRow) : float64 :=
  if row_Requests r =? 0 then f64_of_Z 1
  else f64_div (f64_of_Z (wrap64 (row_Requests r - row_Unpriced r))) (f64_of_Z (row_Requests r)).

(** ** Cells *)

(** [src/cmd/go-route/format.go:25-30] orDash *)
Definition orDash (s : string) : string := if String.eqb s "" then "—" else s.

(** [src/cmd/go-route/format.go:32-37] yesNo *)
Definition yesNo (b : bool) : string := if b then "yes" else "no".

(** [src/cmd/go-route/format.go:39-44] pct *)
Definition pct (part whole : Z) : string :=
  if whole =? 0 then "—"
  else FormatFloat 0 (f64_div (f64_mul (f64_of_Z 100) (f64_of_Z part)) (f64_of_Z whole)) +:+ "%".

(** [src/cmd/go-route/format.go:46-59] humanCount *)
Definition humanCount (n : Z) : string :=
  let s := FormatInt n in
  if Nat.leb (length s) 3 then str s
  else str (concat (imap (λ i c,
         if Nat.ltb 0 i && Nat.eqb ((length s - i) mod 3) 0 then [","%char; c] else [c]) s)).

(** [src/cmd/go-route/format.go:61-69] signed *)
Definition signed (d : USD) : string :=
  if d <? 0 then "+" +:+ USD_String (wrap64 (- d)) else "-" +:+ USD_String d.

(** [strings.Join] *)
Fixpoint join (sep : string) (l : list string) : string :=
  match l with
  | [] => ""
  | [s] => s
  | s :: l => s +:+ sep +:+ join sep l
  end.

(** [src/cmd/go-route/format.go:71-83] formatMetadata *)
Definition formatMetadata (m : gmap string string) : string :=
  join " " (map (λ k, k +:+ "=" +:+ default "" (m !! k)) (sort_strings (elements (dom m)))).

(** [src/cmd/go-route/format.go:96-102] formatLadder *)
Definition formatLadder (refs : list TargetRef) : string := join " → " (map ref_Name refs).

(** [src/cmd/go-route/serve.go:100-107] modelNames *)
Definition modelNames (cfg : Config) : list string := sort_strings (elements (dom (c_Models cfg))).

Section Quoting.
(** [strconv.Quote], which [%q] is. *)
Context (Quote : string → string).

(** [src/cmd/go-route/format.go:85-94] formatReason *)
Definition formatReason (r : Reason) : string :=
  if String.eqb (reason_Kind r) ReasonModelAlias then "model alias " +:+ Quote (reason_ModelAlias r)
  else if String.eqb (reason_Kind r) ReasonRuleMatch
  then "rule " +:+ Quote (reason_RuleName r) +:+ " (policy v" +:+ pretty (reason_PolicyVersion r) +:+ ")"
  else reason_Kind r.
End Quoting.

(** [t.UTC().Format("2006-01-02 15:04")], and with the seconds and the zone. *)
Definition time_of_day (t : time) : Z := (t - zero_time) mod DayLen.
Definition FormatMinute (t : time) : string :=
  FormatDate t +:+ " " +:+ pad2 (time_of_day t / Hour) +:+ ":" +:+ pad2 (time_of_day t / Minute mod 60).
Definition FormatSecond (t : time) : string :=
  FormatMinute t +:+ ":" +:+ pad2 (time_of_day t / Second mod 60) +:+ " UTC".

(** [t.UTC().Format(time.RFC3339)] *)
Definition FormatRFC3339 (t : time) : string :=
  FormatDate t +:+ "T" +:+ pad2 (time_of_day t / Hour) +:+ ":" +:+ pad2 (time_of_day t / Minute mod 60) +:+ ":" +:+
  pad2 (time_of_day t / Second mod 60) +:+ "Z".

(** [src/internal/core/domains/quota.go:132-136] QuotaBreach.String *)
Definition QuotaBreach_String (b : QuotaBreach) : string :=
  "spend per " +:+ Window_Kind (Breach_Window b) +:+ ": used " +:+ USD_Auto (Breach_Used b) +:+ " of " +:+
  USD_Auto (Breach_Limit b) +:+ ", this request needs up to " +:+ USD_Auto (Breach_Requested b) +:+ " more; resets " +:+
  FormatRFC3339 (ResetAt b).

Example breach_shown :
  QuotaBreach_String (mkQuotaBreach (mkWindow WindowDay (Date 2026 8 31) (Date 2026 9 1)) 9990000000 25000000 10000000000) =
  "spend per day: used $9.99 of $10.00, this request needs up to $0.0250 more; resets 2026-09-01T00:00:00Z".
Proof. by vm_compute. Qed.

(** ** Amounts as they are shown *)

Example amounts_shown :
  map USD_String [0; 1; 1500; 1234567890; -2500000] = ["$0.000000"; "$0.000000"; "$0.000002"; "$1.234568"; "$-0.002500"] ∧
  map USD_Auto [0; 1500000; 9999999; 10000000; 999999999; 1000000000; 123456789012] =
    ["$0.00"; "$0.001500"; "$0.010000"; "$0.0100"; "$1.0000"; "$1.00"; "$123.46"] ∧
  map signed [-310000000; 310000000; 0] = ["+$0.310000"; "-$0.310000"; "-$0.000000"] ∧
  [pct 1 3; pct 1 200; pct 3 200; pct 5 5; pct 1 0] = ["33%"; "0%"; "2%"; "100%"; "—"].
Proof. by vm_compute. Qed.

Example counts_shown : map humanCount [0; 999; 1000; 12345; 123456; 1234567] =
  ["0"; "999"; "1,000"; "12,345"; "123,456"; "1,234,567"].
Proof. by vm_compute. Qed.

(** ** Counts *)

Lemma without_commas s : (∀ c, c ∈ s → c ≠ ","%char) → ∀ p : nat → bool,
  List.filter (λ c, negb (Ascii.eqb c ",")) (concat (imap (λ i c, if p i then [","%char; c] else [c]) s)) = s.
Proof.
  induction s as [|c s IH]; intros Hs p; [done|]. rewrite imap_cons. cbn [concat]. rewrite List.filter_app.
  assert (Ht := IH (λ c Hc, Hs c (list_elem_of_further _ _ _ Hc)) (λ i, p (S i))).
  unfold compose in *. rewrite Ht.
  assert (Hc : Ascii.eqb c "," = false) by (apply Ascii.eqb_neq, Hs; left).
  destruct (p 0%nat); cbn [List.filter negb]; by rewrite ?Ascii.eqb_refl, Hc.
Qed.

(** The commas taken out, a count is the number. *)
Theorem humanCount_number n :
  List.filter (λ c, negb (Ascii.eqb c ",")) (lit (humanCount n)) = FormatInt n.
Proof.
  assert (Hc : ∀ c, c ∈ FormatInt n → c ≠ ","%char) by (by intros c [Hd|Hd]%FormatInt_chars Ec; subst c).
  unfold humanCount. cbv zeta. destruct (Nat.leb _ 3).
  - rewrite lit_str. clear -Hc. induction (FormatInt n) as [|c s IH]; [done|]. cbn [List.filter].
    rewrite (proj2 (Ascii.eqb_neq c _)) by (apply Hc; left). cbn [negb]. f_equal.
    apply IH. intros c' H. apply Hc. by right.
  - rewrite lit_str. by apply (without_commas _ Hc (λ i, Nat.ltb 0 i && Nat.eqb ((length (FormatInt n) - i) mod 3) 0)).
Qed.
