(* ===== verification/AdminCodec.v ===== *)
(** The admin contract in JSON: how the types of [schemas/admin/gen] are written into an answer
    and read from a request's body, with what [time.Time], the tags' [omitempty] and null make
    of a field.

    Each encoder lists the members of its struct in their order; one that is left out is
    [None]. *)
From Stdlib Require Import Ascii.
From stdpp Require Import gmap.
From S2P Require Import Prelude Sorting Errors Env Calendar Bytes Utf8 Json JsonText Config Money Quota Records Accounts Tokens UsageReport AuditPage AdminGate AdminWire AdminHandlers Clitime Display.

(** ** Objects and arrays *)

(** The members of a struct that are there, or the first failure among them. *)
Fixpoint written (ms : list (string * option (result error doc))) : result error (list (string * doc)) :=
  match ms with
  | [] => Ok []
  | (_, None) :: ms => written ms
  | (k, Some d) :: ms => let! d := d in let! ms := written ms in Ok ((k, d) :: ms)
  end.
Definition object (ms : list (string * option (result error doc))) : result error doc :=
  let! ms := written ms in Ok (DObj ms).
Fixpoint each {A} (f : A → result error doc) (l : list A) : result error (list doc) :=
  match l with
  | [] => Ok []
  | a :: l => let! d := f a in let! ds := each f l in Ok (d :: ds)
  end.
Definition array {A} (f : A → result error doc) (l : list A) : result error doc :=
  let! ds := each f l in Ok (DArr ds).

Definition text_doc (s : string) : result error doc := Ok (DStr (lit s)).
Definition int_doc (z : Z) : result error doc := Ok (DInt z).
Definition bool_doc (b : bool) : result error doc := Ok (DBool b).
(** A [json.RawMessage]: written if it is JSON. *)
Definition raw_doc (s : string) : result error doc :=
  match parse (lit s) with Some _ => Ok (DRaw (lit s)) | None => Err syntax_error end.
(** A [map[string]string], by its keys. *)
Definition strings_doc (m : gmap string string) : result error doc :=
  Ok (DObj (map (λ k, (k, DStr (lit (default "" (m !! k))))) (sort_strings (elements (dom m))))).

(** A pointer with [omitempty]. *)
Definition omitempty {A} (f : A → result error doc) (o : option A) : option (result error doc) := f <$> o.
(** [nullable.Nullable]: what is unspecified is written as the zero value of its type, unless
    [omitempty] leaves it out. *)
Definition nullable_doc {A} (zero : A) (f : A → result error doc) (n : nullable A) : result error doc :=
  match n with Null => Ok DNull | Value a => f a | Unspecified => f zero end.
Definition nullable_omitempty {A} (f : A → result error doc) (n : nullable A) : option (result error doc) :=
  match n with Null => Some (Ok DNull) | Value a => Some (f a) | Unspecified => None end.

Definition into_text : decoder string := λ old n, let! b := into_string (lit old) n in Ok (str b).
Definition into_nullable {A} (zero : A) (d : decoder A) : decoder (nullable A) := λ _ n,
  match node_value n with JNull => Ok Null | _ => let! a := d zero n in Ok (Value a) end.

(** A slice that tells nil from empty. The elements that were there are decoded into again, as
    far as they go: what a longer slice left behind a shorter one is not. *)
Fixpoint decode_over {A} (zero : A) (d : decoder A) (old : list A) (l : list node) : result error (list A) :=
  match l with
  | [] => Ok []
  | n :: l =>
      let! a := d match old with a :: _ => a | [] => zero end n in
      let! r := decode_over zero d (tail old) l in Ok (a :: r)
  end.
Definition into_list {A} (zero : A) (d : decoder A) : decoder (option (list A)) := λ old n,
  match node_value n with
  | JArray l => let! l := decode_over zero d (default [] old) l in Ok (Some l)
  | JNull => Ok None
  | _ => Err type_error
  end.

(** ** Times *)

(** The process's time zone: minutes east of UTC at an instant. *)
Definition Location := time → Z.
Definition UTC : Location := λ _, 0.

(** The digits of the nanoseconds without the zeros that end them. *)
Fixpoint trim_zeros (b : bytes) : bytes :=
  match b with
  | [] => []
  | c :: r => match trim_zeros r with
              | [] => if Ascii.eqb c "0" then [] else [c]
              | r => c :: r
              end
  end.
Definition fraction (nanos : Z) : bytes :=
  match trim_zeros (lit (zero_padded 9 nanos)) with [] => [] | ds => "."%char :: ds end.
Definition offset_text (minutes : Z) : bytes :=
  if minutes =? 0 then lit "Z"
  else lit (if minutes <? 0 then "-" else "+") ++ lit (pad2 (Z.abs minutes / 60)) ++ lit ":" ++ lit (pad2 (Z.abs minutes mod 60)).
(** [t.Format(time.RFC3339Nano)] of a time shown at an offset, for years of four digits. *)
Definition FormatRFC3339Nano (minutes : Z) (t : time) : bytes :=
  let t := t + minutes * Minute in
  lit (FormatDate t) ++ lit "T" ++ lit (pad2 (time_of_day t / Hour)) ++ lit ":" ++
  lit (pad2 (time_of_day t / Minute mod 60)) ++ lit ":" ++ lit (pad2 (time_of_day t / Second mod 60)) ++
  fraction (time_of_day t mod Second) ++ offset_text minutes.

(** [time.Time.MarshalJSON] *)
Definition time_doc (loc : Location) (t : time) : result error doc :=
  let minutes := loc t in
  let y := Year (t + minutes * Minute) in
  if (y <? 0) || (9999 <? y)
  then Err (Sentinel "Time.MarshalJSON: year outside of range [0,9999]")
  else if 24 * 60 <=? Z.abs minutes
  then Err (Sentinel "Time.MarshalJSON: timezone hour outside of range [0,23]")
  else Ok (DStr (FormatRFC3339Nano minutes t)).
(** [time.Time.UnmarshalJSON]: the text between the quotes is read as it stands. *)
Definition into_time : decoder time := λ old n,
  match node_value n with
  | JNull => Ok old
  | JString _ =>
      let raw := node_raw n in
      match time_Parse RFC3339 (take (length raw - 2) (drop 1 raw)) with
      | Some t => Ok t
      | None => Err (Sentinel "parsing time")
      end
  | _ => Err (Sentinel "Time.UnmarshalJSON: input is not a JSON string")
  end.

(** [3 Mar 2024 12:00:00.05 UTC], shown there and an hour and a half east of it. *)
Example rfc3339_nano :
  let t := Date 2024 3 3 + 12 * Hour + 50 * Millisecond in
  map str [FormatRFC3339Nano 0 t; FormatRFC3339Nano 90 t; FormatRFC3339Nano (-90) (t - 50 * Millisecond)] =
    ["2024-03-03T12:00:00.05Z"; "2024-03-03T13:30:00.05+01:30"; "2024-03-03T10:30:00-01:30"].
Proof. by vm_compute. Qed.

(** ** Answers *)

Section Encoding.
(** Texts of errors, tokens and ids; how [openapi_types.Email] writes itself; the time zone. *)
Context `{Jwt} (render : text → string) (token_String : token → string)
  (Email_MarshalJSON : string → result error doc) (loc : Location).
Local Notation time_doc := (time_doc loc).

Definition uuid_doc (u : uuid) : result error doc := text_doc (uuid_String u).
Definition nullable_time := nullable_doc zero_time time_doc.

(** [src/schemas/admin/gen/admin.gen.go:441-451] Error, ErrorBody *)
Definition error_doc (message errType : string) : result error doc :=
  object [("error", Some (object [("message", Some (text_doc message)); ("type", Some (text_doc errType))]))].

(** [src/schemas/admin/gen/admin.gen.go:262-275] AdminUser *)
Definition user_doc (u : gen_AdminUser) : result error doc :=
  object [("created_at", Some (time_doc (gu_CreatedAt u)));
          ("disabled_at", nullable_omitempty time_doc (gu_DisabledAt u));
          ("email", Some (Email_MarshalJSON (gu_Email u)));
          ("id", Some (uuid_doc (gu_Id u)));
          ("last_login_at", nullable_omitempty time_doc (gu_LastLoginAt u));
          ("role", Some (text_doc (gu_Role u)))].
(** [src/schemas/admin/gen/admin.gen.go:458-466] Identity *)
Definition identity_doc (i : gen_Identity) : result error doc :=
  object [("actor", Some (text_doc (gid_Actor i))); ("kind", Some (text_doc (gid_Kind i)));
          ("role", Some (text_doc (gid_Role i))); ("user", omitempty user_doc (gid_User i))].
(** [src/schemas/admin/gen/admin.gen.go:600-610] Session *)
Definition session_doc (s : gen_Session) : result error doc :=
  object [("access_token", Some (text_doc (token_String (gs_AccessToken s))));
          ("expires_at", Some (time_doc (gs_ExpiresAt s)));
          ("refresh_token", Some (text_doc (gs_RefreshToken s)));
          ("token_type", Some (text_doc (gs_TokenType s)));
          ("user", Some (user_doc (gs_User s)))].

(** [src/schemas/admin/gen/admin.gen.go:616-630] Tenant *)
Definition tenant_doc (t : gen_Tenant) : result error doc :=
  object [("created_at", Some (time_doc (gt_CreatedAt t))); ("disabled_at", Some (nullable_time (gt_DisabledAt t)));
          ("external_id", Some (text_doc (gt_ExternalId t))); ("id", Some (uuid_doc (gt_Id t)));
          ("metadata", Some (raw_doc (gt_Metadata t))); ("name", Some (text_doc (gt_Name t)))].
(** [src/schemas/admin/gen/admin.gen.go:645-648] TenantList *)
Definition tenants_doc (l : list gen_Tenant) : result error doc := object [("tenants", Some (array tenant_doc l))].

(** [src/schemas/admin/gen/admin.gen.go:508-508] ModelAllowlist *)
Definition allowlist_doc (l : list string) : result error doc := array text_doc l.
Definition key_members (k : gen_APIKey) : list (string * option (result error doc)) :=
  [("created_at", Some (time_doc (gk_CreatedAt k))); ("id", Some (uuid_doc (gk_Id k)));
   ("key_prefix", Some (text_doc (gk_KeyPrefix k))); ("last_used_at", Some (nullable_time (gk_LastUsedAt k)));
   ("model_allowlist", Some (nullable_doc [] allowlist_doc (gk_ModelAllowlist k)));
   ("revoked_at", Some (nullable_time (gk_RevokedAt k)))].
(** [src/schemas/admin/gen/admin.gen.go:216-231] APIKey *)
Definition key_doc (k : gen_APIKey) : result error doc :=
  object (key_members k ++ [("tenant_id", Some (uuid_doc (gk_TenantId k)))]).
(** [src/schemas/admin/gen/admin.gen.go:472-490] IssuedAPIKey *)
Definition issued_key_doc (k : gen_IssuedAPIKey) : result error doc :=
  object (key_members (gi_Key k) ++
          [("secret", Some (text_doc (gi_Secret k))); ("tenant_id", Some (uuid_doc (gk_TenantId (gi_Key k))))]).
(** [src/schemas/admin/gen/admin.gen.go:246-249] APIKeyList *)
Definition keys_doc (l : list gen_APIKey) : result error doc := object [("keys", Some (array key_doc l))].

(** [src/schemas/admin/gen/admin.gen.go:530-543] Quota *)
Definition quota_doc (q : gen_Quota) : result error doc :=
  object [("max_cost_nanos", Some (int_doc (gq_MaxCostNanos q))); ("on_exceed", Some (text_doc (gq_OnExceed q)));
          ("period_end", Some (nullable_time (gq_PeriodEnd q))); ("period_start", Some (nullable_time (gq_PeriodStart q)));
          ("updated_at", Some (time_doc (gq_UpdatedAt q))); ("window_kind", Some (text_doc (gq_WindowKind q)))].
(** [src/schemas/admin/gen/admin.gen.go:583-586] QuotaList *)
Definition quotas_doc (l : list gen_Quota) : result error doc := object [("quotas", Some (array quota_doc l))].

(** [src/schemas/admin/gen/admin.gen.go:662-669] TokenCounts *)
Definition tokens_doc (t : gen_TokenCounts) : result error doc :=
  object [("cache_read", Some (int_doc (gc_CacheRead t))); ("cache_write", Some (int_doc (gc_CacheWrite t)));
          ("input", Some (int_doc (gc_Input t))); ("output", Some (int_doc (gc_Output t)));
          ("reasoning", Some (int_doc (gc_Reasoning t)))].
(** [src/schemas/admin/gen/admin.gen.go:671-679] UsageComparison *)
Definition comparison_doc (c : gen_UsageComparison) : result error doc :=
  object [("cost_nanos", Some (int_doc (gcmp_CostNanos c))); ("requests", Some (int_doc (gcmp_Requests c)));
          ("target", Some (text_doc (gcmp_Target c)))].
(** [src/schemas/admin/gen/admin.gen.go:756-782] UsageTotals *)
Definition totals_doc (t : gen_UsageTotals) : result error doc :=
  object [("comparisons", Some (array comparison_doc (gut_Comparisons t))); ("cost_nanos", Some (int_doc (gut_CostNanos t)));
          ("disconnected", Some (int_doc (gut_Disconnected t))); ("failed", Some (int_doc (gut_Failed t)));
          ("ok", Some (int_doc (gut_Ok t))); ("requests", Some (int_doc (gut_Requests t)));
          ("tokens", Some (tokens_doc (gut_Tokens t))); ("truncated", Some (int_doc (gut_Truncated t)));
          ("unpriced", Some (int_doc (gut_Unpriced t)))].
(** [src/schemas/admin/gen/admin.gen.go:698-737] UsageRow *)
Definition usage_row_doc (r : gen_UsageRow) : result error doc :=
  let t := gur_Totals r in
  object [("comparisons", Some (array comparison_doc (gut_Comparisons t))); ("cost_nanos", Some (int_doc (gut_CostNanos t)));
          ("disconnected", Some (int_doc (gut_Disconnected t))); ("failed", Some (int_doc (gut_Failed t)));
          ("key", Some (text_doc (gur_Key r))); ("ok", Some (int_doc (gut_Ok t)));
          ("p50_ttft_ms", Some (int_doc (gur_P50TtftMs r))); ("p95_total_ms", Some (int_doc (gur_P95TotalMs r)));
          ("p95_ttft_ms", Some (int_doc (gur_P95TtftMs r))); ("requests", Some (int_doc (gut_Requests t)));
          ("tokens", Some (tokens_doc (gut_Tokens t))); ("truncated", Some (int_doc (gut_Truncated t)));
          ("unpriced", Some (int_doc (gut_Unpriced t)))].
(** [src/schemas/admin/gen/admin.gen.go:739-754] UsageSpec *)
Definition usage_spec_doc (s : gen_UsageSpec) : result error doc :=
  object [("group_by", Some (text_doc (gus_GroupBy s))); ("meta_key", omitempty text_doc (gus_MetaKey s));
          ("since", Some (time_doc (gus_Since s))); ("tenant", Some (text_doc (gus_Tenant s)));
          ("until", Some (time_doc (gus_Until s)))].
(** [src/schemas/admin/gen/admin.gen.go:685-696] UsageReport *)
Definition usage_doc (r : gen_UsageReport) : result error doc :=
  object [("rows", Some (array usage_row_doc (gr_Rows r))); ("spec", Some (usage_spec_doc (gr_Spec r)));
          ("total", Some (totals_doc (gr_Total r))); ("truncated_groups", Some (int_doc (gr_TruncatedGroups r)))].

(** [src/schemas/admin/gen/admin.gen.go:277-308] AuditEvent *)
Definition audit_event_doc (e : gen_AuditEvent) : result error doc :=
  object [("action", Some (text_doc (ge_Action e))); ("actor", Some (text_doc (ge_Actor e)));
          ("at", Some (time_doc (ge_At e))); ("detail", nullable_omitempty text_doc (ge_Detail e));
          ("error", nullable_omitempty text_doc (ge_Error e));
          ("final_target", nullable_omitempty text_doc (ge_FinalTarget e));
          ("id", Some (uuid_doc (ge_Id e))); ("key_id", nullable_omitempty uuid_doc (ge_KeyId e));
          ("request_id", nullable_omitempty text_doc (ge_RequestId e));
          ("status_code", nullable_omitempty int_doc (ge_StatusCode e));
          ("tenant_id", nullable_omitempty uuid_doc (ge_TenantId e))].
(** [src/schemas/admin/gen/admin.gen.go:310-317] AuditPage *)
Definition audit_page_doc (p : gen_AuditPage) : result error doc :=
  object [("events", Some (array audit_event_doc (gp_Events p)));
          ("next_cursor", Some (nullable_doc [] (λ c, Ok (DStr c)) (gp_NextCursor p)))].

(** [src/schemas/admin/gen/admin.gen.go:365-376] DecisionAttemptFailure *)
Definition attempt_failure_doc (f : gen_DecisionAttemptFailure) : result error doc :=
  object [("kind", Some (text_doc (gdf_Kind f))); ("message", Some (text_doc (render (gdf_Message f))));
          ("retryable", Some (bool_doc (gdf_Retryable f))); ("status_code", omitempty int_doc (gdf_StatusCode f))].
(** [src/schemas/admin/gen/admin.gen.go:356-363] DecisionAttempt *)
Definition attempt_doc (a : gen_DecisionAttempt) : result error doc :=
  object [("duration_ms", Some (int_doc (gda_DurationMs a))); ("failure", omitempty attempt_failure_doc (gda_Failure a));
          ("started_at", Some (time_doc (gda_StartedAt a))); ("target", Some (text_doc (gda_Target a)))].
(** [src/schemas/admin/gen/admin.gen.go:388-393] DecisionCounterfactual *)
Definition counterfactual_doc (c : gen_DecisionCounterfactual) : result error doc :=
  object [("cost_nanos", Some (int_doc (gdc_CostNanos c))); ("target", Some (text_doc (gdc_Target c)))].
(** [src/schemas/admin/gen/admin.gen.go:378-386] DecisionCost *)
Definition decision_cost_doc (c : gen_DecisionCost) : result error doc :=
  object [("actual_nanos", Some (int_doc (gco_ActualNanos c)));
          ("counterfactuals", omitempty (array counterfactual_doc) (gco_Counterfactuals c));
          ("price_table_version", omitempty text_doc (gco_PriceTableVersion c))].
(** [src/schemas/admin/gen/admin.gen.go:424-430] DecisionTarget *)
Definition decision_target_doc (t : gen_DecisionTarget) : result error doc :=
  object [("name", Some (text_doc (gdt_Name t))); ("provider", omitempty text_doc (gdt_Provider t));
          ("region", omitempty text_doc (gdt_Region t)); ("upstream_model", omitempty text_doc (gdt_UpstreamModel t))].
(** [src/schemas/admin/gen/admin.gen.go:395-407] DecisionLadder *)
Definition ladder_doc (l : gen_DecisionLadder) : result error doc :=
  object [("model_alias", omitempty text_doc (gdl_ModelAlias l)); ("policy_version", omitempty int_doc (gdl_PolicyVersion l));
          ("reason_kind", omitempty text_doc (gdl_ReasonKind l)); ("rule_name", omitempty text_doc (gdl_RuleName l));
          ("targets", Some (array decision_target_doc (gdl_Targets l)))].
(** [src/schemas/admin/gen/admin.gen.go:409-418] DecisionRequest *)
Definition decision_request_doc (r : gen_DecisionRequest) : result error doc :=
  object [("metadata", Some (strings_doc (gdr_Metadata r))); ("requested_model", Some (text_doc (gdr_RequestedModel r)));
          ("stream", Some (bool_doc (gdr_Stream r))); ("wants_usage", Some (bool_doc (gdr_WantsUsage r)))].
(** [src/schemas/admin/gen/admin.gen.go:432-438] DecisionTiming *)
Definition timing_doc (t : gen_DecisionTiming) : result error doc :=
  object [("total_ms", Some (int_doc (gdg_TotalMs t))); ("ttft_ms", Some (int_doc (gdg_TtftMs t)))].
(** [src/schemas/admin/gen/admin.gen.go:319-354] Decision *)
Definition decision_doc (d : gen_Decision) : result error doc :=
  object [("attempts", Some (array attempt_doc (gd_Attempts d))); ("chosen_target", omitempty text_doc (gd_ChosenTarget d));
          ("cost", omitempty decision_cost_doc (gd_Cost d)); ("id", Some (text_doc (gd_Id d)));
          ("key_id", nullable_omitempty uuid_doc (gd_KeyId d)); ("ladder", Some (ladder_doc (gd_Ladder d)));
          ("occurred_at", Some (time_doc (gd_OccurredAt d))); ("request", Some (decision_request_doc (gd_Request d)));
          ("status", Some (text_doc (gd_Status d))); ("tenant", Some (text_doc (gd_Tenant d)));
          ("timing", Some (timing_doc (gd_Timing d))); ("tokens", Some (tokens_doc (gd_Tokens d)))].

(** The body of an answer that has one. *)
Definition body_doc (b : body) : result error doc :=
  match b with
  | BSession s => session_doc s | BIdentity i => identity_doc i
  | BTenant t => tenant_doc t | BTenants l => tenants_doc l
  | BKey k => key_doc k | BIssuedKey k => issued_key_doc k | BKeys l => keys_doc l
  | BQuota q => quota_doc q | BQuotas l => quotas_doc l
  | BUsage r => usage_doc r | BAudit p => audit_page_doc p | BDecision d => decision_doc d
  | BError message errType => error_doc message errType
  | BNone => Ok DNull
  end.
End Encoding.

(** ** Bodies *)

Section Decoding.
(** How [openapi_types.Email] reads itself. *)
Context (Email_UnmarshalJSON : decoder string).

(** [src/schemas/admin/gen/admin.gen.go:492-499] LoginRequest *)
Record gen_LoginRequest := mkGenLoginRequest { glr_Email : string; glr_Password : string }.
(** [src/schemas/admin/gen/admin.gen.go:492-499] LoginRequest *)
Definition into_LoginRequest : decoder gen_LoginRequest := into_struct
  [("email", field glr_Email (λ v r, mkGenLoginRequest v (glr_Password r)) Email_UnmarshalJSON);
   ("password", field glr_Password (λ v r, mkGenLoginRequest (glr_Email r) v) into_text)].

(** [src/schemas/admin/gen/admin.gen.go:501-504] LogoutRequest
    [src/schemas/admin/gen/admin.gen.go:594-597] RefreshRequest *)
Record gen_RefreshRequest := mkGenRefreshRequest { grr_RefreshToken : string }.
(** [src/schemas/admin/gen/admin.gen.go:594-597] RefreshRequest *)
Definition into_RefreshRequest : decoder gen_RefreshRequest := into_struct
  [("refresh_token", field grr_RefreshToken (λ v _, mkGenRefreshRequest v) into_text)].

(** [json.RawMessage] behind a pointer: a null is no metadata at all. *)
Definition into_metadata : decoder (option string) := into_ptr "" (λ _ n, Ok (str (node_raw n))).

(** [src/schemas/admin/gen/admin.gen.go:517-528] NewTenant *)
Record gen_NewTenant := mkGenNewTenant { gnt_ExternalId : string; gnt_Metadata : option string; gnt_Name : string }.
(** [src/schemas/admin/gen/admin.gen.go:517-528] NewTenant *)
Definition into_NewTenant : decoder gen_NewTenant := into_struct
  [("external_id", field gnt_ExternalId (λ v r, mkGenNewTenant v (gnt_Metadata r) (gnt_Name r)) into_text);
   ("metadata", field gnt_Metadata (λ v r, mkGenNewTenant (gnt_ExternalId r) v (gnt_Name r)) into_metadata);
   ("name", field gnt_Name (λ v r, mkGenNewTenant (gnt_ExternalId r) (gnt_Metadata r) v) into_text)].

(** [src/schemas/admin/gen/admin.gen.go:654-660] TenantPatch *)
Record gen_TenantPatch := mkGenTenantPatch { gtp_Metadata : option string; gtp_Name : option string }.
(** [src/schemas/admin/gen/admin.gen.go:654-660] TenantPatch *)
Definition into_TenantPatch : decoder gen_TenantPatch := into_struct
  [("metadata", field gtp_Metadata (λ v r, mkGenTenantPatch v (gtp_Name r)) into_metadata);
   ("name", field gtp_Name (λ v r, mkGenTenantPatch (gtp_Metadata r) v) (into_ptr "" into_text))].

(** The aliases of a list: one that is null is read as the empty name. *)
Definition into_allowlist : decoder (nullable (list string)) :=
  into_nullable [] (into_slice "" into_text).
(** [src/schemas/admin/gen/admin.gen.go:510-515] NewAPIKey
    [src/schemas/admin/gen/admin.gen.go:251-256] APIKeyPatch *)
Record gen_APIKeyPatch := mkGenAPIKeyPatch { gap_ModelAllowlist : nullable (list string) }.
(** [src/schemas/admin/gen/admin.gen.go:251-256] APIKeyPatch *)
Definition into_APIKeyPatch : decoder gen_APIKeyPatch := into_struct
  [("model_allowlist", field gap_ModelAllowlist (λ v _, mkGenAPIKeyPatch v) into_allowlist)].

(** [src/schemas/admin/gen/admin.gen.go:564-581] QuotaInput *)
Definition QuotaInput_fields : Json.fields gen_QuotaInput :=
  [("max_cost_nanos", field gqi_MaxCostNanos
      (λ v q, mkGenQuotaInput v (gqi_OnExceed q) (gqi_PeriodEnd q) (gqi_PeriodStart q) (gqi_WindowKind q)) into_int);
   ("on_exceed", field gqi_OnExceed
      (λ v q, mkGenQuotaInput (gqi_MaxCostNanos q) v (gqi_PeriodEnd q) (gqi_PeriodStart q) (gqi_WindowKind q)) (into_ptr "" into_text));
   ("period_end", field gqi_PeriodEnd
      (λ v q, mkGenQuotaInput (gqi_MaxCostNanos q) (gqi_OnExceed q) v (gqi_PeriodStart q) (gqi_WindowKind q))
      (into_nullable zero_time into_time));
   ("period_start", field gqi_PeriodStart
      (λ v q, mkGenQuotaInput (gqi_MaxCostNanos q) (gqi_OnExceed q) (gqi_PeriodEnd q) v (gqi_WindowKind q))
      (into_nullable zero_time into_time));
   ("window_kind", field gqi_WindowKind
      (λ v q, mkGenQuotaInput (gqi_MaxCostNanos q) (gqi_OnExceed q) (gqi_PeriodEnd q) (gqi_PeriodStart q) v) (into_ptr "" into_text))].
Definition into_QuotaInput : decoder gen_QuotaInput := into_struct QuotaInput_fields.
Definition zero_QuotaInput : gen_QuotaInput := mkGenQuotaInput 0 None Unspecified Unspecified None.

(** [src/schemas/admin/gen/admin.gen.go:588-592] QuotaSet *)
Record gen_QuotaSet := mkGenQuotaSet { gqs_Quotas : option (list gen_QuotaInput) }.
(** [src/schemas/admin/gen/admin.gen.go:588-592] QuotaSet *)
Definition into_QuotaSet : decoder gen_QuotaSet := into_struct
  [("quotas", field gqs_Quotas (λ v _, mkGenQuotaSet v) (into_list zero_QuotaInput into_QuotaInput))].
End Decoding.

(** [json.NewDecoder(r.Body).Decode]: the value the body starts with. *)
Definition Decode {A} (d : decoder A) (zero : A) (b : bytes) : result error A :=
  match skip_ws b with
  | [] => Err io_EOF
  | b' => match scan_value (2 * length b) 0 b' with Some (n, _) => d zero n | None => Err syntax_error end
  end.

(** ** A time written is read back *)

Lemma decimal_app_digits a b : decimal (a ++ b) = decimal a * 10 ^ blen b + decimal b.
Proof.
  induction b as [|c b IH] using rev_ind.
  - rewrite app_nil_r. unfold blen, decimal. cbn. lia.
  - rewrite app_assoc, !decimal_app, IH. unfold blen. rewrite length_app. cbn [length].
    replace (Z.of_nat (length b + 1)) with (Z.of_nat (length b) + 1) by lia. rewrite Z.pow_add_r by lia. lia.
Qed.
Lemma decimal_nonneg ds : forallb is_digit ds = true → 0 ≤ decimal ds.
Proof.
  induction ds as [|c ds IH] using rev_ind; [by unfold decimal|]. rewrite forallb_app, decimal_app. intros H.
  apply andb_true_iff in H as [Hd Hc]. cbn [forallb] in Hc. rewrite andb_true_r in Hc. pose proof (digit_code c Hc).
  specialize (IH Hd). lia.
Qed.
Lemma decimal_zeros n : decimal (replicate n "0"%char) = 0.
Proof. induction n as [|n IH]; [done|]. rewrite replicate_S_end, decimal_app, IH. done. Qed.

Lemma trim_zeros_spec b : ∃ n, b = trim_zeros b ++ replicate n "0"%char.
Proof.
  induction b as [|c b [n IH]]; [by exists 0%nat|]. cbn [trim_zeros]. destruct (trim_zeros b) as [|c' r'] eqn:E.
  - cbn [app] in IH. destruct (Ascii.eqb_spec c "0") as [->|].
    + exists (S n). cbn. by rewrite <- IH.
    + exists n. cbn. by rewrite <- IH.
  - exists n. cbn. by rewrite IH at 1.
Qed.

Lemma pretty_short n k : 0 ≤ n < 10 ^ Z.of_nat (S k) → (length (lit (pretty n)) ≤ S k)%nat.
Proof.
  intros Hn. assert (Hp : pretty n = pretty (Z.to_N n)) by (destruct n; [done|done|lia]). rewrite Hp.
  destruct (pretty_N_form (Z.to_N n)) as (Hd & Hne & Hh & Hv). set (ds := lit _) in *. clearbody ds.
  destruct Hh as [Hh| ->]; [|cbn; lia]. destruct ds as [|c ds]; [done|]. cbn [forallb] in Hd.
  apply andb_true_iff in Hd as [Hc Hd]. pose proof (digit_code c Hc). pose proof (decimal_nonneg ds Hd).
  assert (Hc0 : 0 < code c - 48).
  { assert (code c ≠ 48); [|lia]. intros E. apply Hh. cbn. f_equal. apply code_inj. by rewrite E. }
  change (c :: ds) with ([c] ++ ds) in Hv. rewrite decimal_app_digits in Hv. unfold decimal at 1 in Hv. cbn [fold_left] in Hv.
  assert (Hp10 : 10 ^ blen ds < 10 ^ Z.of_nat (S k)) by nia.
  apply Z.pow_lt_mono_r_iff in Hp10; [|lia|lia]. unfold blen in Hp10. cbn [length]. lia.
Qed.

Lemma zero_padded_spec k z : 0 ≤ z < 10 ^ Z.of_nat (S k) →
  length (lit (zero_padded (Z.of_nat (S k)) z)) = S k ∧ forallb is_digit (lit (zero_padded (Z.of_nat (S k)) z)) = true ∧
  decimal (lit (zero_padded (Z.of_nat (S k)) z)) = z.
Proof.
  intros Hz. pose proof (pretty_short z k Hz) as Hl. unfold zero_padded. rewrite Nat2Z.id.
  assert (Hp : pretty z = pretty (Z.to_N z)) by (destruct z; [done|done|lia]).
  assert (Hlen : String.length (pretty z) = length (lit (pretty z))).
  { generalize (pretty z). intros s. induction s as [|c s IH]; [done|]. cbn. by rewrite IH. }
  destruct (pretty_N_digits (Z.to_N z)) as (Hd & Hv & _). rewrite <- Hp in Hd, Hv. rewrite Hlen.
  assert (Hpad : ∀ n s, lit (pad_zeros n s) = replicate n "0"%char ++ lit s).
  { induction n as [|n IH]; intros s; [done|]. cbn [pad_zeros]. rewrite lit_append, IH. done. }
  rewrite Hpad, length_app, length_replicate, forallb_app, Hd, andb_true_r, decimal_app_digits, decimal_zeros, Hv.
  split_and!; [lia| |lia]. apply forallb_forall. intros c Hc. apply list_elem_of_In, elem_of_replicate in Hc as [-> _]. done.
Qed.

Lemma pad2_two z : 0 ≤ z < 100 →
  ∃ a b, lit (pad2 z) = [a; b] ∧ is_digit a = true ∧ is_digit b = true ∧ decimal [a; b] = z.
Proof.
  intros Hz. destruct (pad2_digits z Hz) as (Hl & Hd & Hv). destruct (two_digits _ Hl Hd) as (a & b & E & Ha & Hb).
  exists a, b. rewrite E in Hv. auto.
Qed.

(** What may follow the seconds: no digit and no point. *)
Definition ends_seconds (r : bytes) : Prop :=
  match r with c :: _ => is_digit c = false ∧ Ascii.eqb c "." = false ∧ Ascii.eqb c "," = false | [] => True end.

Lemma digits_end ds r : forallb is_digit ds = true → ends_seconds r → digits (ds ++ r) = (ds, r).
Proof.
  intros Hd Hr. induction ds as [|c ds IH]; cbn [app].
  - destruct r as [|c r]; [done|]. destruct Hr as [Hc _]. cbn [digits]. by rewrite Hc.
  - cbn [forallb] in Hd. apply andb_true_iff in Hd as [Hc Hd]. cbn [digits]. by rewrite Hc, IH.
Qed.

Lemma read_seconds a b n r : is_digit a = true → is_digit b = true → decimal [a; b] ≤ 59 → 0 ≤ n < 10 ^ 9 → ends_seconds r →
  seconds (a :: b :: fraction n ++ r) = Some (decimal [a; b], n, r).
Proof.
  intros Ha Hb Hs Hn Hr. pose proof (decimal_nonneg [a; b]) as H0. cbn [forallb] in H0. rewrite Ha, Hb in H0. specialize (H0 eq_refl).
  unfold seconds. rewrite getnum_two, in_range_Some by done || lia.
  destruct (zero_padded_spec 8 n Hn) as (Hl & Hd & Hv). change (Z.of_nat 9) with 9 in *.
  unfold fraction. destruct (trim_zeros_spec (lit (zero_padded 9 n))) as [k Hk]. set (ds := trim_zeros _) in *. clearbody ds.
  assert (Hds : forallb is_digit ds = true) by (rewrite Hk, forallb_app in Hd; by apply andb_true_iff in Hd as [? _]).
  rewrite Hk, decimal_app_digits, decimal_zeros in Hv. rewrite Hk, length_app, length_replicate in Hl.
  destruct ds as [|c ds].
  - cbn [app]. unfold decimal in Hv. cbn in Hv. destruct r as [|c r]; [by rewrite <- Hv|].
    destruct Hr as (_ & -> & ->). cbn [orb]. by rewrite <- Hv.
  - cbn [app]. rewrite Ascii.eqb_refl. cbn [orb]. change (c :: ds ++ r) with ((c :: ds) ++ r). rewrite digits_end by done.
    rewrite take_ge by (cbn [length] in *; lia). unfold blen in *. rewrite length_replicate in Hv.
    replace (9 - Z.of_nat (length (c :: ds))) with (Z.of_nat k) by (cbn [length] in *; lia).
    rewrite Z.add_0_r in Hv. by rewrite Hv.
Qed.

Lemma read_zone minutes : Z.abs minutes < 24 * 60 → zone (offset_text minutes) = Some (minutes * 60, []).
Proof.
  intros Hm. unfold offset_text. destruct (Z.eqb_spec minutes 0) as [->|Hn]; [done|].
  destruct (pad2_two (Z.abs minutes / 60) ltac:(lia)) as (a & b & -> & Ha & Hb & Hh).
  destruct (pad2_two (Z.abs minutes mod 60) ltac:(lia)) as (c & d & -> & Hc & Hd & Hmm).
  destruct (Z.ltb_spec minutes 0); cbn [lit String.list_ascii_of_string app]; unfold zone;
    rewrite !getnum_two, Hh, Hmm, !in_range_Some by done || lia; cbn; do 2 f_equal; lia.
Qed.
Lemma offset_ends minutes : ends_seconds (offset_text minutes).
Proof. unfold offset_text. destruct (minutes =? 0); [done|]. by destruct (minutes <? 0). Qed.

Lemma read_hour a b r f : is_digit a = true → is_digit b = true → decimal [a; b] ≤ 23 →
  read_element HourOfDay f (a :: b :: r) =
    Some (mkFields (fl_year f) (fl_month f) (fl_day f) (decimal [a; b]) (fl_min f) (fl_sec f) (fl_nsec f) (fl_offset f), r).
Proof.
  intros Ha Hb Hh. pose proof (decimal_nonneg [a; b]) as H0. cbn [forallb] in H0. rewrite Ha, Hb in H0. specialize (H0 eq_refl).
  destruct f. cbn [read_element]. assert (E : getnum false (a :: b :: r) = Some (decimal [a; b], r)) by (unfold getnum; by rewrite Ha, Hb).
  by rewrite E, in_range_Some.
Qed.
Lemma read_minute a b r f : is_digit a = true → is_digit b = true → decimal [a; b] ≤ 59 →
  read_element ZeroMinute f (a :: b :: r) =
    Some (mkFields (fl_year f) (fl_month f) (fl_day f) (fl_hour f) (decimal [a; b]) (fl_sec f) (fl_nsec f) (fl_offset f), r).
Proof.
  intros Ha Hb Hh. pose proof (decimal_nonneg [a; b]) as H0. cbn [forallb] in H0. rewrite Ha, Hb in H0. specialize (H0 eq_refl).
  destruct f. cbn [read_element]. by rewrite getnum_two, in_range_Some.
Qed.

Lemma time_Parse_written minutes t :
  0 ≤ Year (t + minutes * Minute) ≤ 9999 → Z.abs minutes < 24 * 60 →
  time_Parse RFC3339 (FormatRFC3339Nano minutes t) = Some t.
Proof.
  intros Hy Hm. unfold FormatRFC3339Nano. set (t' := t + minutes * Minute) in *.
  assert (Htod : 0 ≤ time_of_day t' < DayLen) by (unfold time_of_day; apply Z.mod_pos_bound; done).
  assert (Hh : 0 ≤ time_of_day t' / Hour < 24) by (split; [apply Z.div_pos; [lia|done]|apply Z.div_lt_upper_bound; [done|exact (proj2 Htod)]]).
  assert (Hsplit : time_of_day t' = (time_of_day t' / Hour) * Hour + (time_of_day t' / Minute mod 60) * Minute +
      (time_of_day t' / Second mod 60) * Second + time_of_day t' mod Second).
  { unfold Hour, Minute, Second, Millisecond, Microsecond, Nanosecond in *. clear -Htod. lia. }
  destruct (written_date t' ltac:(lia)) as (y & a & b & c & d & -> & Ly & Hd & Vy & Vm & Vd).
  destruct (pad2_two (time_of_day t' / Hour) ltac:(lia)) as (h1 & h2 & -> & Hh1 & Hh2 & Vh).
  destruct (pad2_two (time_of_day t' / Minute mod 60) ltac:(lia)) as (m1 & m2 & -> & Hm1 & Hm2 & Vmi).
  destruct (pad2_two (time_of_day t' / Second mod 60) ltac:(lia)) as (s1 & s2 & -> & Hs1 & Hs2 & Vs).
  pose proof (Month_range t') as Hmo. pose proof (Day_range t') as Hdr.
  rewrite <- app_assoc. cbn [app lit String.list_ascii_of_string].
  unfold time_Parse. change RFC3339 with (DateOnly ++ drop 5 RFC3339). rewrite read_date_only by (done || lia).
  cbn [drop RFC3339 read_layout]. rewrite read_lit. cbn [mbind option_bind]. rewrite read_hour by (done || lia).
  cbn [mbind option_bind]. rewrite read_lit. cbn [mbind option_bind]. rewrite read_minute by (done || lia).
  cbn [mbind option_bind]. rewrite read_lit. cbn [mbind option_bind read_element fl_year fl_month fl_day fl_hour fl_min fl_sec fl_nsec fl_offset].
  rewrite read_seconds; [|done|done|lia|apply Z.mod_pos_bound; done|apply offset_ends].
  cbn [mbind option_bind]. cbn [read_element]. rewrite read_zone by done. cbn [mbind option_bind]. rewrite bool_decide_eq_true_2 by done.
  cbn [fl_year fl_month fl_day fl_hour fl_min fl_sec fl_nsec fl_offset]. rewrite Vy, Vm, Vd, Vh, Vmi, Vs.
  rewrite (proj2 (Z.ltb_ge (Day t') 1)), (proj2 (Z.ltb_ge _ (Day t'))) by lia. cbn [orb].
  f_equal. rewrite Date_civil. unfold day_time, abs_day.
  assert (Hday : (t' - zero_time) / DayLen * DayLen + time_of_day t' = t' - zero_time).
  { rewrite Z.mul_comm. symmetry. apply Z_div_mod_eq_full. }
  assert (Ht : t = t' - minutes * Minute) by (unfold t'; lia). rewrite Ht. clearbody t'. clear Ht.
  change Hour with (3600 * Second) in Hsplit |- *. change Minute with (60 * Second) in Hsplit |- *.
  set (dd := (t' - zero_time) / DayLen * DayLen) in *. set (h := time_of_day t' / _) in *. set (mi := time_of_day t' / _ mod 60) in *.
  set (sc := time_of_day t' / _ mod 60) in *. set (ns := time_of_day t' mod _) in *. clearbody dd h mi sc ns.
  set (S1 := Second) in *. clearbody S1. lia.
Qed.

(** Characters that are written as they are. *)
Definition plain (c : ascii) : bool := is_digit c || bool_decide (c ∈ ["-"; ":"; "T"; "."; "Z"; "+"]%char).
Lemma plain_written c : plain c = true → code c < 128 ∧ json_ascii c = [c].
Proof.
  assert (Hall : forallb (λ n, implb (plain (ascii_of_nat n))
      ((code (ascii_of_nat n) <? 128) && bool_decide (json_ascii (ascii_of_nat n) = [ascii_of_nat n]))) (seq 0 256) = true)
    by by vm_compute.
  intros Hc. rewrite forallb_forall in Hall. pose proof (nat_ascii_bounded c). specialize (Hall (nat_of_ascii c)).
  rewrite in_seq in Hall. rewrite ascii_nat_embedding, Hc in Hall. cbn [implb] in Hall.
  specialize (Hall ltac:(lia)). apply andb_true_iff in Hall as [H1 H2]. split; [lia|by apply bool_decide_eq_true in H2].
Qed.
Lemma plain_chars b : forallb plain b = true → ∀ n, (length b ≤ n)%nat → json_chars n b = b.
Proof.
  induction b as [|c b IH]; intros Hb n Hn; [by destruct n|]. cbn [forallb length] in Hb, Hn.
  apply andb_true_iff in Hb as [Hc Hb]. destruct n as [|n]; [lia|]. destruct (plain_written c Hc) as [Hlt Hj].
  cbn [json_chars]. rewrite (proj2 (Z.ltb_lt (code c) 128)), Hj, IH by (done || lia). done.
Qed.
Lemma plain_valid b : forallb plain b = true → ValidString b = true.
Proof.
  intros Hb. unfold ValidString. assert (Hgo : ∀ n, forallb id (runes n b) = true); [|apply Hgo].
  induction b as [|c b IH]; intros [|n]; cbn [forallb] in Hb; try done. apply andb_true_iff in Hb as [Hc Hb].
  destruct (plain_written c Hc) as [Hlt _]. cbn [runes rune_width]. rewrite (proj2 (Z.ltb_lt (code c) 128)) by done. by apply IH.
Qed.
Lemma digits_plain b : forallb is_digit b = true → forallb plain b = true.
Proof.
  intros Hb. rewrite forallb_forall in Hb |- *. intros c Hc. unfold plain. by rewrite Hb.
Qed.

Lemma FormatRFC3339Nano_plain minutes t :
  0 ≤ Year (t + minutes * Minute) ≤ 9999 → Z.abs minutes < 24 * 60 → forallb plain (FormatRFC3339Nano minutes t) = true.
Proof.
  intros Hy Hm. unfold FormatRFC3339Nano. set (t' := t + minutes * Minute) in *. clearbody t'.
  assert (Htod : 0 ≤ time_of_day t' < DayLen) by (unfold time_of_day; apply Z.mod_pos_bound; done).
  assert (Hh : 0 ≤ time_of_day t' / Hour < 24) by (split; [apply Z.div_pos; [lia|done]|apply Z.div_lt_upper_bound; [done|exact (proj2 Htod)]]).
  assert (Hp : ∀ z, 0 ≤ z < 100 → forallb plain (lit (pad2 z)) = true).
  { intros z Hz. apply digits_plain, pad2_digits, Hz. }
  destruct (written_date t' ltac:(lia)) as (y & a & b & c & d & -> & _ & Hd & _).
  assert (Hf : forallb plain (fraction (time_of_day t' mod Second)) = true).
  { destruct (zero_padded_spec 8 (time_of_day t' mod Second) ltac:(apply Z.mod_pos_bound; done)) as (_ & Hz & _).
    unfold fraction. destruct (trim_zeros_spec (lit (zero_padded 9 (time_of_day t' mod Second)))) as [k Hk].
    change (Z.of_nat 9) with 9 in Hz. rewrite Hk, forallb_app in Hz. apply andb_true_iff in Hz as [Hz _].
    destruct (trim_zeros _) as [|x xs]; [done|]. exact (digits_plain _ Hz). }
  assert (Ho : forallb plain (offset_text minutes) = true).
  { unfold offset_text. destruct (_ =? _); [done|]. destruct (_ <? _); rewrite !forallb_app, !Hp by lia; done. }
  rewrite forallb_app in Hd. apply andb_true_iff in Hd as [Hdy Hd]. apply digits_plain in Hdy, Hd.
  assert (Hrest : forallb plain ("-"%char :: a :: b :: "-"%char :: [c; d]) = true).
  { cbn [forallb] in Hd |- *. bool_prop. by repeat match goal with E : plain _ = true |- _ => rewrite E; clear E end. }
  rewrite !forallb_app, !Hp, Hf, Ho, Hdy, Hrest by lia. done.
Qed.

(** A time decoded from what it was encoded as. *)
Lemma time_roundtrip loc t d old : time_doc loc t = Ok d → into_time old (node_of d) = Ok t ∧ clean d = true ∧ d ≠ DNull.
Proof.
  unfold time_doc. destruct (_ || _) eqn:Ey; [done|]. apply orb_false_iff in Ey as [?%Z.ltb_ge ?%Z.ltb_ge].
  destruct (_ <=? _) eqn:Eo; [done|]. apply Z.leb_gt in Eo. intros [= <-].
  pose proof (FormatRFC3339Nano_plain (loc t) t ltac:(lia) ltac:(lia)) as Hp.
  pose proof (time_Parse_written (loc t) t ltac:(lia) ltac:(lia)) as Hr.
  set (b := FormatRFC3339Nano _ _) in *. clearbody b. split_and!; [|by apply plain_valid|done].
  unfold into_time. cbn [node_of node_value node_raw print]. unfold json_string. rewrite (plain_chars b Hp) by done.
  assert (E : take (length ([QUOTE] ++ b ++ [QUOTE]) - 2) (drop 1 ([QUOTE] ++ b ++ [QUOTE])) = b).
  { cbn [app drop length]. rewrite length_app. cbn [length]. replace (_ - 2)%nat with (length b) by lia. apply take_app_length. }
  by rewrite E, Hr.
Qed.

(** ** What is sent is what is read *)

(** A struct's member is written and read into its field, or left out and the field with it. *)
Definition member_read {A} (fs : Json.fields A) (acc : A) (m : string * option (result error doc)) (acc' : A) : Prop :=
  match m.2 with
  | None => acc' = acc
  | Some r => ∀ d, r = Ok d → clean d = true ∧ ∃ dec, field_of fs (lit m.1) = Some dec ∧ dec acc (node_of d) = Ok acc'
  end.
Inductive members_read {A} (fs : Json.fields A) : A → list (string * option (result error doc)) → A → Prop :=
| read_none acc : members_read fs acc [] acc
| read_one acc acc1 acc2 m ms : ValidString (lit m.1) = true → member_read fs acc m acc1 → members_read fs acc1 ms acc2 →
    members_read fs acc (m :: ms) acc2.

Lemma written_read {A} (fs : Json.fields A) acc ms acc' ds : members_read fs acc ms acc' → written ms = Ok ds →
  decode_members fs acc (map (λ kd, (lit kd.1, node_of kd.2)) ds) = Ok acc' ∧ clean (DObj ds) = true.
Proof.
  intros Hr. revert ds. induction Hr as [acc|acc acc1 acc2 [k [r|]] ms Hk Hm Hr IH]; intros ds Hw; cbn [written] in Hw.
  - by injection Hw as <-.
  - apply result_bind_ok in Hw as (d & -> & Hw). apply result_bind_ok in Hw as (ds' & Hds & [= <-]).
    destruct (Hm d eq_refl) as (Hc & dec & Hf & Hd). destruct (IH _ Hds) as [Hrest Hcl].
    cbn [fst] in Hf, Hk. cbn [map decode_members fst snd]. rewrite Hf, Hd. split; [done|]. cbn [clean forallb fst snd] in *. by rewrite Hk, Hc.
  - cbn [member_read snd] in Hm. subst acc1. by apply IH.
Qed.

Lemma object_read {A} (fs : Json.fields A) acc ms acc' d : members_read fs acc ms acc' → object ms = Ok d →
  into_struct fs acc (node_of d) = Ok acc' ∧ clean d = true.
Proof.
  intros Hr Ho. unfold object in Ho. apply result_bind_ok in Ho as (ds & Hds & [= <-]). by eapply written_read.
Qed.

Lemma array_read {A} zero (dec : decoder A) f l ds :
  (∀ a d, a ∈ l → f a = Ok d → dec zero (node_of d) = Ok a ∧ clean d = true) → each f l = Ok ds →
  decode_over zero dec [] (map node_of ds) = Ok l ∧ forallb clean ds = true.
Proof.
  revert ds. induction l as [|a l IH]; intros ds Hf He; cbn [each] in He; [by injection He as <-|].
  apply result_bind_ok in He as (d & Hd & He). apply result_bind_ok in He as (ds' & Hds & [= <-]).
  destruct (Hf a d ltac:(set_solver) Hd) as [Ha Hc]. destruct (IH ds' ltac:(intros; apply Hf; set_solver) Hds) as [Hl Hcl].
  cbn [map decode_over forallb tail]. by rewrite Ha, Hl, Hc.
Qed.

Lemma into_text_doc old s : into_text old (node_of (DStr (lit s))) = Ok s.
Proof. unfold into_text, into_string. cbn. by rewrite str_lit. Qed.
Lemma into_ptr_text old s : into_ptr "" into_text old (node_of (DStr (lit s))) = Ok (Some s).
Proof. unfold into_ptr. cbn [node_of node_value]. unfold into_text, into_string. cbn. by rewrite str_lit. Qed.
Lemma into_int_doc old z : int64_range z → into_int old (node_of (DInt z)) = Ok z.
Proof. intros Hz. unfold into_int. cbn [node_of node_value node_raw print]. by rewrite parse_int_FormatInt. Qed.
Lemma into_nullable_time loc n d old : nullable_omitempty (time_doc loc) n = Some (Ok d) →
  into_nullable zero_time into_time old (node_of d) = Ok n ∧ clean d = true.
Proof.
  destruct n as [| |t]; cbn [nullable_omitempty]; [done|by intros [= <-]|]. intros [= Ht].
  pose proof (time_roundtrip _ _ _ zero_time Ht) as (Hr & Hc & _). split; [|done]. unfold into_nullable.
  unfold time_doc in Ht. destruct (_ || _); [done|]. destruct (_ <=? _); [done|]. injection Ht as <-. cbn [node_of node_value] in *.
  by rewrite Hr.
Qed.

Ltac in_field := eexists; split; [reflexivity|]; cbn [snd]; unfold field; cbv beta.

Section Sending.
Context (loc : Location).

(** A quota as a caller writes it, by the tags of its type.

    [src/schemas/admin/gen/admin.gen.go:564-581] QuotaInput *)
Definition quota_input_doc (q : gen_QuotaInput) : result error doc :=
  object [("max_cost_nanos", Some (int_doc (gqi_MaxCostNanos q))); ("on_exceed", omitempty text_doc (gqi_OnExceed q));
          ("period_end", nullable_omitempty (time_doc loc) (gqi_PeriodEnd q));
          ("period_start", nullable_omitempty (time_doc loc) (gqi_PeriodStart q));
          ("window_kind", omitempty text_doc (gqi_WindowKind q))].
(** [src/schemas/admin/gen/admin.gen.go:588-592] QuotaSet *)
Definition quota_set_doc (set : list gen_QuotaInput) : result error doc :=
  object [("quotas", Some (array quota_input_doc set))].

Definition valid_text (s : string) : Prop := ValidString (lit s) = true.
(** What Go's types and JSON's text can hold. *)
Definition sendable (q : gen_QuotaInput) : Prop :=
  int64_range (gqi_MaxCostNanos q) ∧ (∀ s, gqi_OnExceed q = Some s → valid_text s) ∧
  (∀ s, gqi_WindowKind q = Some s → valid_text s).

Lemma quota_input_read q d : sendable q → quota_input_doc q = Ok d →
  into_QuotaInput zero_QuotaInput (node_of d) = Ok q ∧ clean d = true.
Proof.
  intros (Hcost & Hon & Hkind). apply object_read. destruct q as [cost on pend pstart kind]. cbn in *.
  eapply (read_one _ _ (mkGenQuotaInput cost None Unspecified Unspecified None)); [done| |].
  { intros d' [= <-]. split; [done|]. in_field. by rewrite into_int_doc. }
  eapply (read_one _ _ (mkGenQuotaInput cost on Unspecified Unspecified None)); [done| |].
  { destruct on as [s|]; [|done]. intros d' [= <-]. split; [by apply Hon|]. in_field. by rewrite into_ptr_text. }
  eapply (read_one _ _ (mkGenQuotaInput cost on pend Unspecified None)); [done| |].
  { destruct (nullable_omitempty _ pend) as [r|] eqn:E; [|by destruct pend]. intros d' Hd'. cbn in Hd'. subst r.
    destruct (into_nullable_time _ _ _ Unspecified E) as [Hr Hc]. split; [done|]. in_field. cbn [gqi_PeriodEnd]. by rewrite Hr. }
  eapply (read_one _ _ (mkGenQuotaInput cost on pend pstart None)); [done| |].
  { destruct (nullable_omitempty _ pstart) as [r|] eqn:E; [|by destruct pstart]. intros d' Hd'. cbn in Hd'. subst r.
    destruct (into_nullable_time _ _ _ Unspecified E) as [Hr Hc]. split; [done|]. in_field. cbn [gqi_PeriodStart]. by rewrite Hr. }
  eapply read_one; [done| |apply read_none].
  destruct kind as [s|]; [|done]. intros d' [= <-]. split; [by apply Hkind|]. in_field. by rewrite into_ptr_text.
Qed.

Lemma quota_set_read set d : (∀ q, q ∈ set → sendable q) → quota_set_doc set = Ok d →
  into_QuotaSet (mkGenQuotaSet None) (node_of d) = Ok (mkGenQuotaSet (Some set)) ∧ clean d = true.
Proof.
  intros Hs. apply object_read. eapply read_one; [done| |apply read_none].
  intros d' Hd'. unfold array in Hd'. apply result_bind_ok in Hd' as (ds & Hds & [= <-]).
  destruct (array_read zero_QuotaInput into_QuotaInput _ _ _ (λ q d Hq, quota_input_read q d (Hs q Hq)) Hds) as [Hl Hc].
  split; [done|]. in_field. unfold into_list. cbn [node_of node_value gqs_Quotas default].
  by rewrite Hl.
Qed.
(** It is not deep: three levels. *)
Lemma written_depth n ms ds : 0 ≤ n → (∀ k r d, (k, Some r) ∈ ms → r = Ok d → depth_of d ≤ n) → written ms = Ok ds →
  depth_of (DObj ds) ≤ 1 + n.
Proof.
  intros Hn. revert ds. induction ms as [|[k [r|]] ms IH]; intros ds Hm Hw; cbn [written] in Hw.
  - injection Hw as <-. cbn. lia.
  - apply result_bind_ok in Hw as (d & Hr & Hw). apply result_bind_ok in Hw as (ds' & Hds & [= <-]).
    assert (Hd : depth_of d ≤ n) by (eapply Hm; [apply elem_of_cons; by left|done]).
    specialize (IH ds' ltac:(intros k' r' d' Hin; apply (Hm k' r' d'); set_solver) Hds). cbn [depth_of foldr snd] in *. lia.
  - apply IH; [|done]. intros k' r' d' Hin. apply (Hm k' r' d'). set_solver.
Qed.
Lemma leaf_time n d r : nullable_omitempty (time_doc loc) n = Some r → r = Ok d → depth_of d = 0.
Proof.
  destruct n as [| |t]; cbn; [done|by intros [= <-] [= <-]|]. intros [= <-]. unfold time_doc.
  destruct (_ || _); [done|]. destruct (_ <=? _); [done|]. by intros [= <-].
Qed.
Lemma quota_input_depth q d : quota_input_doc q = Ok d → depth_of d ≤ 1.
Proof.
  intros Hd. unfold quota_input_doc, object in Hd. apply result_bind_ok in Hd as (ds & Hds & [= <-]).
  apply (written_depth 0 _ _ ltac:(lia)) in Hds; [done|]. intros k r d' Hin Hr.
  repeat (apply elem_of_cons in Hin as [Hin|Hin]); [| | | | |by apply elem_of_nil in Hin];
    apply (f_equal snd) in Hin; cbn [snd] in Hin.
  - injection Hin as ->. by injection Hr as <-.
  - destruct (gqi_OnExceed q); [|done]. injection Hin as ->. by injection Hr as <-.
  - by rewrite (leaf_time _ d' r (eq_sym Hin) Hr).
  - by rewrite (leaf_time _ d' r (eq_sym Hin) Hr).
  - destruct (gqi_WindowKind q); [|done]. injection Hin as ->. by injection Hr as <-.
Qed.
Lemma quota_set_depth set d : quota_set_doc set = Ok d → depth_of d ≤ maxNestingDepth.
Proof.
  intros Hd. unfold quota_set_doc, object in Hd. apply result_bind_ok in Hd as (ds & Hds & [= <-]).
  apply (written_depth 2 _ _ ltac:(lia)) in Hds; [unfold maxNestingDepth; lia|]. intros k r d' Hin Hr.
  apply list_elem_of_singleton in Hin as [= _ ->]. unfold array in Hr. apply result_bind_ok in Hr as (l & Hl & [= <-]).
  cbn [depth_of]. assert (Hg : foldr (λ d n, Z.max (depth_of d) n) 0 l ≤ 1); [|lia].
  clear Hds. revert l Hl. induction set as [|q set IH]; intros l Hl; cbn [each] in Hl; [by injection Hl as <-|].
  apply result_bind_ok in Hl as (d & Hq & Hl). apply result_bind_ok in Hl as (l' & Hl' & [= <-]).
  apply quota_input_depth in Hq. cbn [foldr]. specialize (IH l' Hl'). lia.
Qed.

Lemma Decode_print {A} (dec : decoder A) zero d t : clean d = true → depth_of d ≤ maxNestingDepth → forallb is_space t = true →
  Decode dec zero (print d ++ t) = dec zero (node_of d).
Proof.
  intros Hc Hd Ht. pose proof (scan_text d t Hc Hd Ht) as Hs. unfold Decode.
  rewrite skip_print in Hs |- * by done. destruct (print_head d Hc) as (c & r & E & _). rewrite E in Hs |- *. cbn [app] in *.
  by rewrite Hs.
Qed.

(** The text of a quota set, on a line of its own or not, is read as that set. *)
Lemma quota_set_decoded set d t : (∀ q, q ∈ set → sendable q) → quota_set_doc set = Ok d → forallb is_space t = true →
  Decode into_QuotaSet (mkGenQuotaSet None) (print d ++ t) = Ok (mkGenQuotaSet (Some set)).
Proof.
  intros Hs Hd Ht. destruct (quota_set_read set d Hs Hd) as [Hr Hc]. rewrite Decode_print; [done|done| |done].
  by eapply quota_set_depth.
Qed.
End Sending.
