(* ===== verification/AdminServer.v ===== *)
(** The server that the contract generates, [schemas/admin/gen]: from the operation a route
    names and the bytes of its request to the handler of [adminapi], and from what that says to
    the bytes of the answer.

    A wrapper reads the parameters of the path and the query, the strict handler behind it reads
    the body, calls the operation and writes what it answers. [HandlerWithOptions] and
    [NewServer] put these behind the gate. *)
From Stdlib Require Import Ascii.
From stdpp Require Import gmap.
From S2P Require Import Prelude Errors Env Bytes Json JsonText Records Accounts Tokens Programs AdminDb UsageReport AuditPage Respond AdminGate AdminWire AdminHandlers AdminCodec.

(** ** The answers of each operation

    An operation answers with one of the types made for it: a status and the body it carries. *)
Inductive shape :=
| SSession | SIdentity | STenant | STenants | SKey | SIssuedKey | SKeys | SQuota | SQuotas | SUsage | SAudit | SDecision
| SError | SNone.
#[export] Instance shape_eq_dec : EqDecision shape.
Proof. solve_decision. Defined.
Inductive response_kind := KJSON (s : shape) | KUnauthorized | KEmpty.
Definition response_type : Type := Z * response_kind.

Definition shape_of `{Jwt} (b : body) : shape :=
  match b with
  | BSession _ => SSession | BIdentity _ => SIdentity | BTenant _ => STenant | BTenants _ => STenants
  | BKey _ => SKey | BIssuedKey _ => SIssuedKey | BKeys _ => SKeys | BQuota _ => SQuota | BQuotas _ => SQuotas
  | BUsage _ => SUsage | BAudit _ => SAudit | BDecision _ => SDecision | BError _ _ => SError | BNone => SNone
  end.
(** Whether an answer is of a type. *)
Definition of_type `{Jwt} (rsp : response) (t : response_type) : bool :=
  (re_Status rsp =? t.1) &&
  match t.2 with
  | KJSON s => bool_decide (shape_of (re_Body rsp) = s) && bool_decide (re_WWWAuthenticate rsp = None)
  | KUnauthorized => bool_decide (shape_of (re_Body rsp) = SError)
  | KEmpty => bool_decide (shape_of (re_Body rsp) = SNone) && bool_decide (re_WWWAuthenticate rsp = None)
  end.

(** [src/schemas/admin/gen/admin.gen.go:1861-1950] LoginResponseObject *)
Definition LoginResponses : list response_type :=
  [(200, KJSON SSession); (400, KJSON SError); (401, KUnauthorized); (413, KJSON SError); (500, KJSON SError);
   (504, KJSON SError)].
(** [src/schemas/admin/gen/admin.gen.go:1956-2039] LogoutResponseObject *)
Definition LogoutResponses : list response_type :=
  [(204, KEmpty); (400, KJSON SError); (401, KUnauthorized); (413, KJSON SError); (500, KJSON SError);
   (504, KJSON SError)].
(** [src/schemas/admin/gen/admin.gen.go:2044-2105] WhoamiResponseObject *)
Definition WhoamiResponses : list response_type :=
  [(200, KJSON SIdentity); (401, KUnauthorized); (500, KJSON SError); (504, KJSON SError)].
(** [src/schemas/admin/gen/admin.gen.go:2111-2200] RefreshSessionResponseObject *)
Definition RefreshSessionResponses : list response_type :=
  [(200, KJSON SSession); (400, KJSON SError); (401, KUnauthorized); (413, KJSON SError); (500, KJSON SError);
   (504, KJSON SError)].
(** [src/schemas/admin/gen/admin.gen.go:2206-2323] RevokeAPIKeyResponseObject *)
Definition RevokeAPIKeyResponses : list response_type :=
  [(200, KJSON SKey); (400, KJSON SError); (401, KUnauthorized); (403, KJSON SError); (404, KJSON SError);
   (413, KJSON SError); (500, KJSON SError); (504, KJSON SError)].
(** [src/schemas/admin/gen/admin.gen.go:2329-2418] GetAPIKeyResponseObject *)
Definition GetAPIKeyResponses : list response_type :=
  [(200, KJSON SKey); (400, KJSON SError); (401, KUnauthorized); (404, KJSON SError); (500, KJSON SError);
   (504, KJSON SError)].
(** [src/schemas/admin/gen/admin.gen.go:2425-2556] UpdateAPIKeyResponseObject *)
Definition UpdateAPIKeyResponses : list response_type :=
  [(200, KJSON SKey); (400, KJSON SError); (401, KUnauthorized); (403, KJSON SError); (404, KJSON SError);
   (409, KJSON SError); (413, KJSON SError); (500, KJSON SError); (504, KJSON SError)].
(** [src/schemas/admin/gen/admin.gen.go:2562-2651] GetRequestResponseObject *)
Definition GetRequestResponses : list response_type :=
  [(200, KJSON SDecision); (400, KJSON SError); (401, KUnauthorized); (404, KJSON SError); (500, KJSON SError);
   (504, KJSON SError)].
(** [src/schemas/admin/gen/admin.gen.go:2657-2732] ListTenantsResponseObject *)
Definition ListTenantsResponses : list response_type :=
  [(200, KJSON STenants); (400, KJSON SError); (401, KUnauthorized); (500, KJSON SError); (504, KJSON SError)].
(** [src/schemas/admin/gen/admin.gen.go:2738-2869] CreateTenantResponseObject *)
Definition CreateTenantResponses : list response_type :=
  [(200, KJSON STenant); (201, KJSON STenant); (400, KJSON SError); (401, KUnauthorized); (403, KJSON SError);
   (409, KJSON SError); (413, KJSON SError); (500, KJSON SError); (504, KJSON SError)].
(** [src/schemas/admin/gen/admin.gen.go:2875-2992] DisableTenantResponseObject *)
Definition DisableTenantResponses : list response_type :=
  [(200, KJSON STenant); (400, KJSON SError); (401, KUnauthorized); (403, KJSON SError); (404, KJSON SError);
   (413, KJSON SError); (500, KJSON SError); (504, KJSON SError)].
(** [src/schemas/admin/gen/admin.gen.go:2998-3087] GetTenantResponseObject *)
Definition GetTenantResponses : list response_type :=
  [(200, KJSON STenant); (400, KJSON SError); (401, KUnauthorized); (404, KJSON SError); (500, KJSON SError);
   (504, KJSON SError)].
(** [src/schemas/admin/gen/admin.gen.go:3094-3211] UpdateTenantResponseObject *)
Definition UpdateTenantResponses : list response_type :=
  [(200, KJSON STenant); (400, KJSON SError); (401, KUnauthorized); (403, KJSON SError); (404, KJSON SError);
   (413, KJSON SError); (500, KJSON SError); (504, KJSON SError)].
(** [src/schemas/admin/gen/admin.gen.go:3218-3307] ListAuditResponseObject *)
Definition ListAuditResponses : list response_type :=
  [(200, KJSON SAudit); (400, KJSON SError); (401, KUnauthorized); (404, KJSON SError); (500, KJSON SError);
   (504, KJSON SError)].
(** [src/schemas/admin/gen/admin.gen.go:3313-3430] EnableTenantResponseObject *)
Definition EnableTenantResponses : list response_type :=
  [(200, KJSON STenant); (400, KJSON SError); (401, KUnauthorized); (403, KJSON SError); (404, KJSON SError);
   (413, KJSON SError); (500, KJSON SError); (504, KJSON SError)].
(** [src/schemas/admin/gen/admin.gen.go:3436-3525] ListAPIKeysResponseObject *)
Definition ListAPIKeysResponses : list response_type :=
  [(200, KJSON SKeys); (400, KJSON SError); (401, KUnauthorized); (404, KJSON SError); (500, KJSON SError);
   (504, KJSON SError)].
(** [src/schemas/admin/gen/admin.gen.go:3532-3663] CreateAPIKeyResponseObject *)
Definition CreateAPIKeyResponses : list response_type :=
  [(201, KJSON SIssuedKey); (400, KJSON SError); (401, KUnauthorized); (403, KJSON SError); (404, KJSON SError);
   (409, KJSON SError); (413, KJSON SError); (500, KJSON SError); (504, KJSON SError)].
(** [src/schemas/admin/gen/admin.gen.go:3669-3758] ListQuotasResponseObject *)
Definition ListQuotasResponses : list response_type :=
  [(200, KJSON SQuotas); (400, KJSON SError); (401, KUnauthorized); (404, KJSON SError); (500, KJSON SError);
   (504, KJSON SError)].
(** [src/schemas/admin/gen/admin.gen.go:3765-3882] ReplaceQuotasResponseObject *)
Definition ReplaceQuotasResponses : list response_type :=
  [(200, KJSON SQuotas); (400, KJSON SError); (401, KUnauthorized); (403, KJSON SError); (404, KJSON SError);
   (413, KJSON SError); (500, KJSON SError); (504, KJSON SError)].
(** [src/schemas/admin/gen/admin.gen.go:3889-4000] DeleteQuotaResponseObject *)
Definition DeleteQuotaResponses : list response_type :=
  [(204, KEmpty); (400, KJSON SError); (401, KUnauthorized); (403, KJSON SError); (404, KJSON SError);
   (413, KJSON SError); (500, KJSON SError); (504, KJSON SError)].
(** [src/schemas/admin/gen/admin.gen.go:4007-4096] GetQuotaResponseObject *)
Definition GetQuotaResponses : list response_type :=
  [(200, KJSON SQuota); (400, KJSON SError); (401, KUnauthorized); (404, KJSON SError); (500, KJSON SError);
   (504, KJSON SError)].
(** [src/schemas/admin/gen/admin.gen.go:4104-4221] PutQuotaResponseObject *)
Definition PutQuotaResponses : list response_type :=
  [(200, KJSON SQuota); (400, KJSON SError); (401, KUnauthorized); (403, KJSON SError); (404, KJSON SError);
   (413, KJSON SError); (500, KJSON SError); (504, KJSON SError)].
(** [src/schemas/admin/gen/admin.gen.go:4228-4317] GetUsageResponseObject *)
Definition GetUsageResponses : list response_type :=
  [(200, KJSON SUsage); (400, KJSON SError); (401, KUnauthorized); (404, KJSON SError); (500, KJSON SError);
   (504, KJSON SError)].

Definition responses_of (op : operation) : list response_type :=
  match op with
  | OpLogin => LoginResponses
  | OpLogout => LogoutResponses
  | OpWhoami => WhoamiResponses
  | OpRefreshSession => RefreshSessionResponses
  | OpRevokeAPIKey => RevokeAPIKeyResponses
  | OpGetAPIKey => GetAPIKeyResponses
  | OpUpdateAPIKey => UpdateAPIKeyResponses
  | OpGetRequest => GetRequestResponses
  | OpListTenants => ListTenantsResponses
  | OpCreateTenant => CreateTenantResponses
  | OpDisableTenant => DisableTenantResponses
  | OpGetTenant => GetTenantResponses
  | OpUpdateTenant => UpdateTenantResponses
  | OpListAudit => ListAuditResponses
  | OpEnableTenant => EnableTenantResponses
  | OpListAPIKeys => ListAPIKeysResponses
  | OpCreateAPIKey => CreateAPIKeyResponses
  | OpListQuotas => ListQuotasResponses
  | OpReplaceQuotas => ReplaceQuotasResponses
  | OpDeleteQuota => DeleteQuotaResponses
  | OpGetQuota => GetQuotaResponses
  | OpPutQuota => PutQuotaResponses
  | OpGetUsage => GetUsageResponses
  end.

(** ** Writing an answer *)

(** The libraries the generated code is built on: [openapi_types.Email] and the binders of
    [oapi-codegen/runtime], each of which reads a parameter of a name into a Go value. A query
    parameter that is required and left out is told apart from one that cannot be read. *)
Inductive bind_error := RequiredParameterError | BindError (err : error).
Class Runtime := {
  Email_MarshalJSON : string → result error doc;
  Email_UnmarshalJSON : decoder string;
  BindStyledString : string → string → result error string;
  BindStyledUUID : string → string → result error uuid;
  BindQueryString : bool → string → Values → result bind_error (option string);
  BindQueryBool : bool → string → Values → result bind_error (option bool);
  BindQueryInt : bool → string → Values → result bind_error (option Z);
  BindQueryTime : bool → string → Values → result bind_error (option time);
}.

Section Server.
(** Texts of errors and tokens, the time zone of the process, and whether a request's context is
    done by the time its handler fails. *)
Context `{Jwt} `{Runtime} (render : text → string) (token_String : token → string) (loc : Location) (ctxErr : bool).
Local Notation replies := (prog api_call (result error response)).
Local Notation answers := (prog api_call Writer).
Local Notation badRequest := (badRequest render).
Local Notation fail := (fail_with render ctxErr).
Local Notation body_doc := (body_doc render token_String Email_MarshalJSON loc).

(** What every [Visit] method does for its type: the body is written to a buffer first, so
    nothing is sent if it cannot be.

    [src/schemas/admin/gen/admin.gen.go:1832-1855] JSONResponse types, UnauthorizedResponseHeaders *)
Definition Visit (rsp : response) (k : response_kind) (w : Writer) : Writer * option error :=
  match k with
  | KEmpty => (WriteHeader w (re_Status rsp), None)
  | _ =>
      match body_doc (re_Body rsp) with
      | Err err => (w, Some err)
      | Ok d =>
          let w := set_header w "Content-Type" "application/json" in
          let w := match re_WWWAuthenticate rsp with Some v => set_header w "WWW-Authenticate" v | None => w end in
          Write (WriteHeader w (re_Status rsp)) (print d ++ [LF])
      end
  end.

(** The end of every method of the strict handler.

    [src/schemas/admin/gen/admin.gen.go:4449-4460] strictHandler.Login *)
Definition finish (op : operation) (w : Writer) (res : result error response) : Writer :=
  match res with
  | Err err => fail w err
  | Ok rsp =>
      match List.find (of_type rsp) (responses_of op) with
      | Some t =>
          match Visit rsp t.2 w with
          | (w, Some err) => fail w err
          | (w, None) => w
          end
      | None => fail w (Errorf "unexpected response type" [])
      end
  end.
Definition answer_with (op : operation) (w : Writer) (p : replies) : answers :=
  do res <- p; Ret (finish op w res).

(** The start of those that take a body.

    [src/schemas/admin/gen/admin.gen.go:4435-4440] strictHandler.Login *)
Definition with_json_body {A} (d : decoder A) (zero : A) (r : request) (w : Writer) (k : A → answers) : answers :=
  match Decode d zero (rq_Body r) with
  | Err err => Ret (badRequest w (OtherError (Errorf "can't decode JSON body: %w" [AWrap err])))
  | Ok body => k body
  end.

(** ** The strict handlers *)

(** [src/schemas/admin/gen/admin.gen.go:4431-4460] strictHandler.Login *)
Definition strict_Login (r : request) (w : Writer) : answers :=
  with_json_body (into_LoginRequest Email_UnmarshalJSON) (mkGenLoginRequest "" "") r w (λ body,
    answer_with OpLogin w (Handler_Login r (glr_Email body) (glr_Password body))).
(** [src/schemas/admin/gen/admin.gen.go:4462-4491] strictHandler.Logout *)
Definition strict_Logout (r : request) (w : Writer) : answers :=
  with_json_body into_RefreshRequest (mkGenRefreshRequest "") r w (λ body,
    answer_with OpLogout w (Handler_Logout r (grr_RefreshToken body))).
(** [src/schemas/admin/gen/admin.gen.go:4493-4515] strictHandler.Whoami *)
Definition strict_Whoami (r : request) (w : Writer) : answers :=
  answer_with OpWhoami w (Handler_Whoami r).
(** [src/schemas/admin/gen/admin.gen.go:4517-4546] strictHandler.RefreshSession *)
Definition strict_RefreshSession (r : request) (w : Writer) : answers :=
  with_json_body into_RefreshRequest (mkGenRefreshRequest "") r w (λ body,
    answer_with OpRefreshSession w (Handler_RefreshSession (grr_RefreshToken body))).
(** [src/schemas/admin/gen/admin.gen.go:4548-4572] strictHandler.RevokeAPIKey *)
Definition strict_RevokeAPIKey (r : request) (w : Writer) (key : uuid) : answers :=
  answer_with OpRevokeAPIKey w (Handler_RevokeAPIKey r key).
(** [src/schemas/admin/gen/admin.gen.go:4574-4598] strictHandler.GetAPIKey *)
Definition strict_GetAPIKey (r : request) (w : Writer) (key : uuid) : answers :=
  answer_with OpGetAPIKey w (Handler_GetAPIKey key).
(** [src/schemas/admin/gen/admin.gen.go:4600-4631] strictHandler.UpdateAPIKey *)
Definition strict_UpdateAPIKey (r : request) (w : Writer) (key : uuid) : answers :=
  with_json_body into_APIKeyPatch (mkGenAPIKeyPatch Unspecified) r w (λ body,
    answer_with OpUpdateAPIKey w (Handler_UpdateAPIKey r key (gap_ModelAllowlist body))).
(** [src/schemas/admin/gen/admin.gen.go:4633-4657] strictHandler.GetRequest *)
Definition strict_GetRequest (r : request) (w : Writer) (decisionId : string) : answers :=
  answer_with OpGetRequest w (Handler_GetRequest decisionId).
(** [src/schemas/admin/gen/admin.gen.go:4659-4683] strictHandler.ListTenants *)
Definition strict_ListTenants (r : request) (w : Writer) (includeDisabled : option bool) (limit : option Z) : answers :=
  answer_with OpListTenants w (Handler_ListTenants includeDisabled limit).
(** [src/schemas/admin/gen/admin.gen.go:4685-4714] strictHandler.CreateTenant *)
Definition strict_CreateTenant (r : request) (w : Writer) : answers :=
  with_json_body into_NewTenant (mkGenNewTenant "" None "") r w (λ body,
    answer_with OpCreateTenant w (Handler_CreateTenant r (gnt_ExternalId body) (gnt_Name body) (gnt_Metadata body))).
(** [src/schemas/admin/gen/admin.gen.go:4716-4740] strictHandler.DisableTenant *)
Definition strict_DisableTenant (r : request) (w : Writer) (tenant : string) : answers :=
  answer_with OpDisableTenant w (Handler_DisableTenant r tenant).
(** [src/schemas/admin/gen/admin.gen.go:4742-4766] strictHandler.GetTenant *)
Definition strict_GetTenant (r : request) (w : Writer) (tenant : string) : answers :=
  answer_with OpGetTenant w (Handler_GetTenant tenant).
(** [src/schemas/admin/gen/admin.gen.go:4768-4799] strictHandler.UpdateTenant *)
Definition strict_UpdateTenant (r : request) (w : Writer) (tenant : string) : answers :=
  with_json_body into_TenantPatch (mkGenTenantPatch None None) r w (λ body,
    answer_with OpUpdateTenant w (Handler_UpdateTenant r tenant (gtp_Name body) (gtp_Metadata body))).
(** [src/schemas/admin/gen/admin.gen.go:4801-4826] strictHandler.ListAudit *)
Definition strict_ListAudit (r : request) (w : Writer) (tenant : string) (params : ListAuditParams) : answers :=
  answer_with OpListAudit w (Handler_ListAudit tenant params).
(** [src/schemas/admin/gen/admin.gen.go:4828-4852] strictHandler.EnableTenant *)
Definition strict_EnableTenant (r : request) (w : Writer) (tenant : string) : answers :=
  answer_with OpEnableTenant w (Handler_EnableTenant r tenant).
(** [src/schemas/admin/gen/admin.gen.go:4854-4878] strictHandler.ListAPIKeys *)
Definition strict_ListAPIKeys (r : request) (w : Writer) (tenant : string) : answers :=
  answer_with OpListAPIKeys w (Handler_ListAPIKeys tenant).
(** The body may be left out.

    [src/schemas/admin/gen/admin.gen.go:4880-4914] strictHandler.CreateAPIKey *)
Definition strict_CreateAPIKey (r : request) (w : Writer) (tenant : string) : answers :=
  match Decode into_APIKeyPatch (mkGenAPIKeyPatch Unspecified) (rq_Body r) with
  | Ok body => answer_with OpCreateAPIKey w (Handler_CreateAPIKey r tenant (Some (gap_ModelAllowlist body)))
  | Err err =>
      if Is err io_EOF then answer_with OpCreateAPIKey w (Handler_CreateAPIKey r tenant None)
      else Ret (badRequest w (OtherError (Errorf "can't decode JSON body: %w" [AWrap err])))
  end.
(** [src/schemas/admin/gen/admin.gen.go:4916-4940] strictHandler.ListQuotas *)
Definition strict_ListQuotas (r : request) (w : Writer) (tenant : string) : answers :=
  answer_with OpListQuotas w (Handler_ListQuotas tenant).
(** [src/schemas/admin/gen/admin.gen.go:4942-4973] strictHandler.ReplaceQuotas *)
Definition strict_ReplaceQuotas (r : request) (w : Writer) (tenant : string) : answers :=
  with_json_body into_QuotaSet (mkGenQuotaSet None) r w (λ body,
    answer_with OpReplaceQuotas w (Handler_ReplaceQuotas r tenant (gqs_Quotas body))).
(** [src/schemas/admin/gen/admin.gen.go:4975-5000] strictHandler.DeleteQuota *)
Definition strict_DeleteQuota (r : request) (w : Writer) (tenant window : string) : answers :=
  answer_with OpDeleteQuota w (Handler_DeleteQuota r tenant window).
(** [src/schemas/admin/gen/admin.gen.go:5002-5027] strictHandler.GetQuota *)
Definition strict_GetQuota (r : request) (w : Writer) (tenant window : string) : answers :=
  answer_with OpGetQuota w (Handler_GetQuota tenant window).
(** [src/schemas/admin/gen/admin.gen.go:5029-5061] strictHandler.PutQuota *)
Definition strict_PutQuota (r : request) (w : Writer) (tenant window : string) : answers :=
  with_json_body into_QuotaInput zero_QuotaInput r w (λ body,
    answer_with OpPutQuota w (Handler_PutQuota r tenant window body)).
(** [src/schemas/admin/gen/admin.gen.go:5063-5088] strictHandler.GetUsage *)
Definition strict_GetUsage (r : request) (w : Writer) (tenant : string) (params : GetUsageParams) : answers :=
  answer_with OpGetUsage w (Handler_GetUsage tenant params).

(** ** Parameters *)

(** [src/schemas/admin/gen/admin.gen.go:1711-1717] RequiredParamError *)
Definition RequiredParamError (name : string) : error :=
  Errorf "Query argument %s is required, but not found" [AStr name].
Definition PathValue (vars : list string) (n : nat) : string := nth n vars "".

(** A parameter of the path, or of the query, and how its reading fails.

    [src/schemas/admin/gen/admin.gen.go:1732-1743] InvalidParamFormatError *)
Definition bound {A} (w : Writer) (name : string) (res : result error A) (k : A → answers) : answers :=
  match res with
  | Err err => Ret (badRequest w (InvalidParamFormat name err))
  | Ok v => k v
  end.
Definition bound_query {A} (w : Writer) (name : string) (res : result bind_error A) (k : A → answers) : answers :=
  match res with
  | Err RequiredParameterError => Ret (badRequest w (OtherError (RequiredParamError name)))
  | Err (BindError err) => Ret (badRequest w (InvalidParamFormat name err))
  | Ok v => k v
  end.

(** ** The wrappers *)

(** [src/schemas/admin/gen/admin.gen.go:977-989] ServerInterfaceWrapper.Login *)
Definition wrapper_Login (r : request) (w : Writer) : answers :=
  strict_Login r w.
(** [src/schemas/admin/gen/admin.gen.go:991-1003] ServerInterfaceWrapper.Logout *)
Definition wrapper_Logout (r : request) (w : Writer) : answers :=
  strict_Logout r w.
(** [src/schemas/admin/gen/admin.gen.go:1005-1017] ServerInterfaceWrapper.Whoami *)
Definition wrapper_Whoami (r : request) (w : Writer) : answers :=
  strict_Whoami r w.
(** [src/schemas/admin/gen/admin.gen.go:1019-1031] ServerInterfaceWrapper.RefreshSession *)
Definition wrapper_RefreshSession (r : request) (w : Writer) : answers :=
  strict_RefreshSession r w.
(** [src/schemas/admin/gen/admin.gen.go:1033-1057] ServerInterfaceWrapper.RevokeAPIKey *)
Definition wrapper_RevokeAPIKey (r : request) (w : Writer) (vars : list string) : answers :=
  bound w "key" (BindStyledUUID "key" (PathValue vars 0)) (λ key,
  strict_RevokeAPIKey r w key).
(** [src/schemas/admin/gen/admin.gen.go:1059-1083] ServerInterfaceWrapper.GetAPIKey *)
Definition wrapper_GetAPIKey (r : request) (w : Writer) (vars : list string) : answers :=
  bound w "key" (BindStyledUUID "key" (PathValue vars 0)) (λ key,
  strict_GetAPIKey r w key).
(** [src/schemas/admin/gen/admin.gen.go:1085-1109] ServerInterfaceWrapper.UpdateAPIKey *)
Definition wrapper_UpdateAPIKey (r : request) (w : Writer) (vars : list string) : answers :=
  bound w "key" (BindStyledUUID "key" (PathValue vars 0)) (λ key,
  strict_UpdateAPIKey r w key).
(** [src/schemas/admin/gen/admin.gen.go:1111-1135] ServerInterfaceWrapper.GetRequest *)
Definition wrapper_GetRequest (r : request) (w : Writer) (vars : list string) : answers :=
  bound w "decision_id" (BindStyledString "decision_id" (PathValue vars 0)) (λ decisionId,
  strict_GetRequest r w decisionId).
(** [src/schemas/admin/gen/admin.gen.go:1137-1181] ServerInterfaceWrapper.ListTenants *)
Definition wrapper_ListTenants (r : request) (w : Writer) : answers :=
  bound_query w "include_disabled" (BindQueryBool false "include_disabled" (rq_Query r)) (λ includeDisabled,
  bound_query w "limit" (BindQueryInt false "limit" (rq_Query r)) (λ limit,
  strict_ListTenants r w includeDisabled limit)).
(** [src/schemas/admin/gen/admin.gen.go:1183-1195] ServerInterfaceWrapper.CreateTenant *)
Definition wrapper_CreateTenant (r : request) (w : Writer) : answers :=
  strict_CreateTenant r w.
(** [src/schemas/admin/gen/admin.gen.go:1197-1221] ServerInterfaceWrapper.DisableTenant *)
Definition wrapper_DisableTenant (r : request) (w : Writer) (vars : list string) : answers :=
  bound w "tenant" (BindStyledString "tenant" (PathValue vars 0)) (λ tenant,
  strict_DisableTenant r w tenant).
(** [src/schemas/admin/gen/admin.gen.go:1223-1247] ServerInterfaceWrapper.GetTenant *)
Definition wrapper_GetTenant (r : request) (w : Writer) (vars : list string) : answers :=
  bound w "tenant" (BindStyledString "tenant" (PathValue vars 0)) (λ tenant,
  strict_GetTenant r w tenant).
(** [src/schemas/admin/gen/admin.gen.go:1249-1273] ServerInterfaceWrapper.UpdateTenant *)
Definition wrapper_UpdateTenant (r : request) (w : Writer) (vars : list string) : answers :=
  bound w "tenant" (BindStyledString "tenant" (PathValue vars 0)) (λ tenant,
  strict_UpdateTenant r w tenant).
(** [src/schemas/admin/gen/admin.gen.go:1275-1354] ServerInterfaceWrapper.ListAudit *)
Definition wrapper_ListAudit (r : request) (w : Writer) (vars : list string) : answers :=
  bound w "tenant" (BindStyledString "tenant" (PathValue vars 0)) (λ tenant,
  bound_query w "since" (BindQueryTime true "since" (rq_Query r)) (λ since,
  bound_query w "until" (BindQueryTime false "until" (rq_Query r)) (λ until,
  bound_query w "cursor" (BindQueryString false "cursor" (rq_Query r)) (λ cursor,
  bound_query w "limit" (BindQueryInt false "limit" (rq_Query r)) (λ limit,
  strict_ListAudit r w tenant (mkListAuditParams (default zero_time since) until (lit <$> cursor) limit)))))).
(** [src/schemas/admin/gen/admin.gen.go:1356-1380] ServerInterfaceWrapper.EnableTenant *)
Definition wrapper_EnableTenant (r : request) (w : Writer) (vars : list string) : answers :=
  bound w "tenant" (BindStyledString "tenant" (PathValue vars 0)) (λ tenant,
  strict_EnableTenant r w tenant).
(** [src/schemas/admin/gen/admin.gen.go:1382-1406] ServerInterfaceWrapper.ListAPIKeys *)
Definition wrapper_ListAPIKeys (r : request) (w : Writer) (vars : list string) : answers :=
  bound w "tenant" (BindStyledString "tenant" (PathValue vars 0)) (λ tenant,
  strict_ListAPIKeys r w tenant).
(** [src/schemas/admin/gen/admin.gen.go:1408-1432] ServerInterfaceWrapper.CreateAPIKey *)
Definition wrapper_CreateAPIKey (r : request) (w : Writer) (vars : list string) : answers :=
  bound w "tenant" (BindStyledString "tenant" (PathValue vars 0)) (λ tenant,
  strict_CreateAPIKey r w tenant).
(** [src/schemas/admin/gen/admin.gen.go:1434-1458] ServerInterfaceWrapper.ListQuotas *)
Definition wrapper_ListQuotas (r : request) (w : Writer) (vars : list string) : answers :=
  bound w "tenant" (BindStyledString "tenant" (PathValue vars 0)) (λ tenant,
  strict_ListQuotas r w tenant).
(** [src/schemas/admin/gen/admin.gen.go:1460-1484] ServerInterfaceWrapper.ReplaceQuotas *)
Definition wrapper_ReplaceQuotas (r : request) (w : Writer) (vars : list string) : answers :=
  bound w "tenant" (BindStyledString "tenant" (PathValue vars 0)) (λ tenant,
  strict_ReplaceQuotas r w tenant).
(** [src/schemas/admin/gen/admin.gen.go:1486-1519] ServerInterfaceWrapper.DeleteQuota *)
Definition wrapper_DeleteQuota (r : request) (w : Writer) (vars : list string) : answers :=
  bound w "tenant" (BindStyledString "tenant" (PathValue vars 0)) (λ tenant,
  bound w "window" (BindStyledString "window" (PathValue vars 1)) (λ window,
  strict_DeleteQuota r w tenant window)).
(** [src/schemas/admin/gen/admin.gen.go:1521-1554] ServerInterfaceWrapper.GetQuota *)
Definition wrapper_GetQuota (r : request) (w : Writer) (vars : list string) : answers :=
  bound w "tenant" (BindStyledString "tenant" (PathValue vars 0)) (λ tenant,
  bound w "window" (BindStyledString "window" (PathValue vars 1)) (λ window,
  strict_GetQuota r w tenant window)).
(** [src/schemas/admin/gen/admin.gen.go:1556-1589] ServerInterfaceWrapper.PutQuota *)
Definition wrapper_PutQuota (r : request) (w : Writer) (vars : list string) : answers :=
  bound w "tenant" (BindStyledString "tenant" (PathValue vars 0)) (λ tenant,
  bound w "window" (BindStyledString "window" (PathValue vars 1)) (λ window,
  strict_PutQuota r w tenant window)).
(** [src/schemas/admin/gen/admin.gen.go:1591-1683] ServerInterfaceWrapper.GetUsage *)
Definition wrapper_GetUsage (r : request) (w : Writer) (vars : list string) : answers :=
  bound w "tenant" (BindStyledString "tenant" (PathValue vars 0)) (λ tenant,
  bound_query w "since" (BindQueryTime true "since" (rq_Query r)) (λ since,
  bound_query w "until" (BindQueryTime false "until" (rq_Query r)) (λ until,
  bound_query w "group_by" (BindQueryString false "group_by" (rq_Query r)) (λ groupBy,
  bound_query w "meta_key" (BindQueryString false "meta_key" (rq_Query r)) (λ metaKey,
  bound_query w "limit" (BindQueryInt false "limit" (rq_Query r)) (λ limit,
  strict_GetUsage r w tenant (mkGetUsageParams (default zero_time since) until groupBy metaKey limit))))))).

(** The handler each route is registered with.

    [src/schemas/admin/gen/admin.gen.go:1786-1830] HandlerWithOptions *)
Definition HandlerWithOptions (op : operation) (vars : list string) (r : request) (w : Writer) : answers :=
  match op with
  | OpLogin => wrapper_Login r w
  | OpLogout => wrapper_Logout r w
  | OpWhoami => wrapper_Whoami r w
  | OpRefreshSession => wrapper_RefreshSession r w
  | OpRevokeAPIKey => wrapper_RevokeAPIKey r w vars
  | OpGetAPIKey => wrapper_GetAPIKey r w vars
  | OpUpdateAPIKey => wrapper_UpdateAPIKey r w vars
  | OpGetRequest => wrapper_GetRequest r w vars
  | OpListTenants => wrapper_ListTenants r w
  | OpCreateTenant => wrapper_CreateTenant r w
  | OpDisableTenant => wrapper_DisableTenant r w vars
  | OpGetTenant => wrapper_GetTenant r w vars
  | OpUpdateTenant => wrapper_UpdateTenant r w vars
  | OpListAudit => wrapper_ListAudit r w vars
  | OpEnableTenant => wrapper_EnableTenant r w vars
  | OpListAPIKeys => wrapper_ListAPIKeys r w vars
  | OpCreateAPIKey => wrapper_CreateAPIKey r w vars
  | OpListQuotas => wrapper_ListQuotas r w vars
  | OpReplaceQuotas => wrapper_ReplaceQuotas r w vars
  | OpDeleteQuota => wrapper_DeleteQuota r w vars
  | OpGetQuota => wrapper_GetQuota r w vars
  | OpPutQuota => wrapper_PutQuota r w vars
  | OpGetUsage => wrapper_GetUsage r w vars
  end.

(** ** The whole server *)

(** What becomes of a request, through to the answer. *)
Definition respond (s : served) : answers :=
  match s with
  | Wrote w => Ret w
  | Called op vars r w => HandlerWithOptions op vars r w
  end.
Definition under_admin (r : request) : bool :=
  match rq_Segments r with s :: _ :: _ => String.eqb s "admin" | _ => false end.
Definition healthz (r : request) : bool := bool_decide (rq_Segments r = ["healthz"]).

(** The root of the listener, for a path that [net/http] does not redirect.

    [src/internal/adapters/inbound/adminapi/server.go:63-67] NewServer *)
Definition root (srv : Server) (r : request) (w : Writer) : answers :=
  if under_admin r then respond (sv_served (srv_Handler srv r w))
  else if healthz r then
    if takes_method "GET" (rq_Method r) then Ret (WriteHeader w 200)
    else Ret (http_Error (set_header w "Allow" "GET, HEAD") 405 "Method Not Allowed")
  else Ret (http_Error w 404 "404 page not found").
End Server.
