(* ===== verification/AdminServerProps.v ===== *)
(** The admin server from the request's bytes to the answer's: what a caller may do with
    whatever it sends, that it is always answered, and that what is read can be sent back. *)
From Stdlib Require Import Ascii.
From stdpp Require Import gmap.
From S2P Require Import Prelude Sorting Errors Env Calendar Bytes Utf8 Json JsonText Config Money Quota Records Accounts Tokens Users Programs AdminDb AccountStore Redis Counters Flusher Enforcer EnforcerProps Pricing UsageCounters Service ServiceWorld ServiceProps ServiceKeys ServiceQuotas UsageReport AuditPage Respond AdminGate AdminGateProps AdminWire AdminHandlers AdminApi Clitime Display AdminCodec AdminServer.

(** Membership of a list of numbers. *)
Ltac listed := apply (bool_decide_unpack _); done.

Section Server.
Context `{Jwt} `{Runtime} (render : text → string) (token_String : token → string) (loc : Location) (ctxErr : bool).
Local Notation answers := (prog api_call Writer).
Local Notation body_doc := (body_doc render token_String Email_MarshalJSON loc).
Local Notation answer_with := (answer_with render token_String loc ctxErr).
Local Notation finish := (finish render token_String loc ctxErr).
Local Notation HandlerWithOptions := (HandlerWithOptions render token_String loc ctxErr).
Local Notation badRequest := (badRequest render).

(** ** What a request comes to *)

(** An operation run on some input, or an answer that something cannot be read. *)
Inductive comes_to (op : operation) (r : request) (w : Writer) : answers → Prop :=
| to_operation i : input_op i = op → comes_to op r w (answer_with op w (handle r i))
| to_refusal err : comes_to op r w (Ret (badRequest w err)).

Lemma bound_comes_to {A} op r w name (res : result error A) k :
  (∀ v, comes_to op r w (k v)) → comes_to op r w (bound render w name res k).
Proof. intros Hk. destruct res; [apply Hk|apply to_refusal]. Qed.
Lemma bound_query_comes_to {A} op r w name (res : result bind_error A) k :
  (∀ v, comes_to op r w (k v)) → comes_to op r w (bound_query render w name res k).
Proof. intros Hk. destruct res as [|[]]; [apply Hk|apply to_refusal..]. Qed.
Lemma body_comes_to {A} op r w (d : decoder A) zero k :
  (∀ v, comes_to op r w (k v)) → comes_to op r w (with_json_body render d zero r w k).
Proof. intros Hk. unfold with_json_body. destruct (Decode _ _ _); [apply Hk|apply to_refusal]. Qed.

Ltac comes :=
  repeat match goal with
  | |- comes_to _ _ _ (bound _ _ _ _ _) => apply bound_comes_to; intros ?
  | |- comes_to _ _ _ (bound_query _ _ _ _ _) => apply bound_query_comes_to; intros ?
  | |- comes_to _ _ _ (with_json_body _ _ _ _ _ _) => apply body_comes_to; intros ?
  end.

(** The generated code passes a request on to the operation it is routed to, or refuses it. *)
Lemma routed op vars r w : comes_to op r w (HandlerWithOptions op vars r w).
Proof.
  destruct op; cbn [AdminServer.HandlerWithOptions].
  - unfold wrapper_Login, strict_Login. comes. by apply (to_operation OpLogin r w (ILogin _ _)).
  - unfold wrapper_RefreshSession, strict_RefreshSession. comes. by apply (to_operation OpRefreshSession r w (IRefreshSession _)).
  - unfold wrapper_Logout, strict_Logout. comes. by apply (to_operation OpLogout r w (ILogout _)).
  - by apply (to_operation OpWhoami r w IWhoami).
  - unfold wrapper_ListTenants, strict_ListTenants. comes. by apply (to_operation OpListTenants r w (IListTenants _ _)).
  - unfold wrapper_CreateTenant, strict_CreateTenant. comes. by apply (to_operation OpCreateTenant r w (ICreateTenant _ _ _)).
  - unfold wrapper_DisableTenant, strict_DisableTenant. comes. by apply (to_operation OpDisableTenant r w (IDisableTenant _)).
  - unfold wrapper_GetTenant, strict_GetTenant. comes. by apply (to_operation OpGetTenant r w (IGetTenant _)).
  - unfold wrapper_UpdateTenant, strict_UpdateTenant. comes. by apply (to_operation OpUpdateTenant r w (IUpdateTenant _ _ _)).
  - unfold wrapper_EnableTenant, strict_EnableTenant. comes. by apply (to_operation OpEnableTenant r w (IEnableTenant _)).
  - unfold wrapper_ListAPIKeys, strict_ListAPIKeys. comes. by apply (to_operation OpListAPIKeys r w (IListAPIKeys _)).
  - unfold wrapper_CreateAPIKey, strict_CreateAPIKey. comes. destruct (Decode _ _ _) as [b|e].
    + by apply (to_operation OpCreateAPIKey r w (ICreateAPIKey _ _)).
    + destruct (Is e io_EOF); [by apply (to_operation OpCreateAPIKey r w (ICreateAPIKey _ _))|apply to_refusal].
  - unfold wrapper_RevokeAPIKey, strict_RevokeAPIKey. comes. by apply (to_operation OpRevokeAPIKey r w (IRevokeAPIKey _)).
  - unfold wrapper_GetAPIKey, strict_GetAPIKey. comes. by apply (to_operation OpGetAPIKey r w (IGetAPIKey _)).
  - unfold wrapper_UpdateAPIKey, strict_UpdateAPIKey. comes. by apply (to_operation OpUpdateAPIKey r w (IUpdateAPIKey _ _)).
  - unfold wrapper_ListQuotas, strict_ListQuotas. comes. by apply (to_operation OpListQuotas r w (IListQuotas _)).
  - unfold wrapper_ReplaceQuotas, strict_ReplaceQuotas. comes. by apply (to_operation OpReplaceQuotas r w (IReplaceQuotas _ _)).
  - unfold wrapper_DeleteQuota, strict_DeleteQuota. comes. by apply (to_operation OpDeleteQuota r w (IDeleteQuota _ _)).
  - unfold wrapper_GetQuota, strict_GetQuota. comes. by apply (to_operation OpGetQuota r w (IGetQuota _ _)).
  - unfold wrapper_PutQuota, strict_PutQuota. comes. by apply (to_operation OpPutQuota r w (IPutQuota _ _ _)).
  - unfold wrapper_GetUsage, strict_GetUsage. comes. by apply (to_operation OpGetUsage r w (IGetUsage _ _)).
  - unfold wrapper_ListAudit, strict_ListAudit. comes. by apply (to_operation OpListAudit r w (IListAudit _ _)).
  - unfold wrapper_GetRequest, strict_GetRequest. comes. by apply (to_operation OpGetRequest r w (IGetRequest _)).
Qed.

(** ** The answers an operation gives are of the types made for it *)

Definition typed (op : operation) (res : result error response) : Prop :=
  match res with
  | Ok rsp => is_Some (List.find (of_type rsp) (responses_of op)) ∧ re_Status rsp ∈ [200; 201; 204; 401]
  | Err _ => True
  end.

Ltac all_typed :=
  repeat match goal with
  | |- returns _ (Ret (Err _)) => exact I
  | |- returns _ (Ret (Ok (mkResponse (if ?b then _ else _) _ _))) => destruct b
  | |- returns _ (Ret (Ok _)) => split; [eexists; reflexivity|listed]
  | |- returns _ (Ret (answer_ok _)) => split; [eexists; reflexivity|listed]
  | |- returns _ (and_then _ _) => apply and_then_returns; [intros ?; exact I|intros ?]
  | |- returns _ (bind _ _) => apply returns_bind_any; intros ?
  | |- returns _ (let _ := _ in _) => cbv zeta
  | |- returns _ (Ret (match ?x with _ => _ end)) => destruct x
  | |- returns _ (Ret (if ?x then _ else _)) => destruct x
  | |- returns _ (match ?x with _ => _ end) => destruct x
  end.

Lemma handle_typed r i : returns (typed (input_op i)) (handle r i).
Proof.
  destruct i; cbn [handle input_op];
    unfold Handler_Login, Handler_RefreshSession, Handler_Logout, Handler_Whoami, Handler_ListTenants,
      Handler_CreateTenant, Handler_DisableTenant, Handler_GetTenant, Handler_EnableTenant, Handler_UpdateTenant,
      Handler_ListAPIKeys, Handler_CreateAPIKey, Handler_RevokeAPIKey, Handler_GetAPIKey, Handler_UpdateAPIKey,
      Handler_ListQuotas, Handler_ReplaceQuotas, Handler_DeleteQuota, Handler_GetQuota, Handler_PutQuota,
      Handler_GetUsage, Handler_ListAudit, Handler_GetRequest, tenant_answer, key_answer, admin_unauthorized;
    all_typed.
Qed.
(** ** Every request is answered *)


(** Nothing is sent yet. *)
Definition fresh (w : Writer) : Prop := w_sent w = None.
(** What the connection takes of an answer: all of it, or nothing once it is broken. *)
Definition taken (w : Writer) (b : bytes) : bytes := if Nat.eqb (w_credit w) 0 then [] else b.

Lemma Write_fresh w status b : fresh w →
  Write (WriteHeader w status) b =
    (mkWriter (w_Header w) (Some (status, w_Header w)) (w_body w ++ taken w b) (pred (w_credit w)),
     if Nat.eqb (w_credit w) 0 then Some broken_pipe else None).
Proof.
  intros Hs. destruct w as [hd sent body credit]. unfold fresh in Hs. cbn in *. subst sent. unfold Write, WriteHeader, taken. cbn.
  destruct credit; cbn; by rewrite ?app_nil_r.
Qed.
(** A refusal on a broken connection that was answered already changes nothing there. *)
Lemma fail_sent ctx w err : w_sent w ≠ None → w_credit w = 0%nat →
  w_sent (fail_with render ctx w err) = w_sent w ∧ w_body (fail_with render ctx w err) = w_body w.
Proof.
  intros Hs Hc. destruct w as [hd [sent|] body credit]; [|done]. cbn in Hc. subst credit.
  unfold fail_with, admin_writeError. by destruct (Is err ErrInvalid), (Is err ErrNotFound), (Is err ErrConflict), (Is err context_DeadlineExceeded || ctx).
Qed.
Lemma set_header_fresh w k v : fresh w → fresh (set_header w k v).
Proof. done. Qed.


(** Nothing is written with a 204, and only with that. *)
Lemma typed_empty op rsp t : List.find (of_type rsp) (responses_of op) = Some t →
  re_Status rsp = t.1 ∧ (t.2 = KEmpty ↔ t.1 = 204).
Proof.
  intros Hf. apply List.find_some in Hf as [Hin Ht].
  assert (Hall : forallb (λ t : response_type,
      match t.2 with KEmpty => t.1 =? 204 | _ => negb (t.1 =? 204) end) (responses_of op) = true) by by destruct op.
  rewrite forallb_forall in Hall. specialize (Hall t Hin).
  unfold of_type in Ht. apply andb_true_iff in Ht as [Hs%Z.eqb_eq _]. split; [done|].
  destruct t.2; (split; [done || by (intros ?; apply Z.eqb_eq) |]); intros E; rewrite E in Hall; done.
Qed.

Lemma finish_document op w rsp t d : fresh w → List.find (of_type rsp) (responses_of op) = Some t → t.2 ≠ KEmpty →
  body_doc (re_Body rsp) = Ok d →
  (∃ h, w_sent (finish op w (Ok rsp)) = Some (re_Status rsp, h)) ∧
  w_body (finish op w (Ok rsp)) = w_body w ++ taken w (print d ++ [LF]).
Proof.
  intros Hw Hf Hk Hd. cbn [AdminServer.finish]. rewrite Hf. unfold Visit. destruct t.2 as [s| |]; [..|done];
    rewrite Hd; cbv zeta;
    (destruct (re_WWWAuthenticate rsp); rewrite Write_fresh by (by repeat apply set_header_fresh));
    cbn [w_credit set_header]; (destruct (Nat.eqb_spec (w_credit w) 0) as [E|]; [|split; [eexists; reflexivity|done]]);
    (match goal with |- context [fail_with render ctxErr ?w' ?e] =>
       destruct (fail_sent ctxErr w' e) as [-> ->]; [done|cbn; by rewrite E|] end);
    (split; [eexists; reflexivity|done]).
Qed.


(** *** Through the gate *)

Context (sha256 : bytes → bytes) (read_token : bytes → token).




(** ** Who may change what *)

(** C35. Whatever is sent to the admin server, byte for byte, and whatever the use cases answer: a
    call that changes a tenant, a key or a quota is made only on behalf of someone whose token
    was live, whose role in the store is the administrator's at that moment, and it is made in
    that person's or credential's name, which is the name it is audited under. No path, query
    or body gets round it. *)
Theorem only_admins_write a creds users spec d srv r w :
  NewServer render sha256 read_token a creds users (Ok spec) d = Ok srv → rq_identity r = None →
  only (λ c, ∀ actor, writes_as c = Some actor →
          ∃ id, entitled sha256 read_token a r id ∧ id_Role id = RoleAdmin ∧ actor = id_Actor id)
    (root render token_String loc ctxErr srv r w).
Proof.
  intros Hs Hid. unfold root. destruct (under_admin r); [|by destruct (healthz r); [destruct (takes_method _ _)|]].
  destruct (sv_served (srv_Handler srv r w)) as [w'|op vars r' w'] eqn:Ec; [done|]. cbn [respond].
  destruct (routed op vars r' w') as [i Hi|err]; [|done].
  apply only_bind; [|done]. by eapply called_by_admin.
Qed.
End Server.

(** ** From the bytes sent to what is stored *)

Section Stored.
Context `{Jwt} `{Runtime} (render : text → string) (token_String : token → string) (loc : Location) (ctxErr : bool).
Context (sha256 : bytes → bytes) (jsonb : string → option string).
Local Notation body_doc := (body_doc render token_String Email_MarshalJSON loc).

(** What a body says a key's allowlist should be: the last of the members so named, in any
    letter case, of the object it starts with, all of them null or lists of names. A null in a
    list is the empty name. *)
Definition alias_of (v : node) : option string :=
  match node_value v with JString s => Some (str s) | JNull => Some "" | _ => None end.
Definition allowlist_of (v : node) : option (nullable (list string)) :=
  match node_value v with JNull => Some Null | JArray l => Value <$> mapM alias_of l | _ => None end.
Definition says_allowlist (m : bytes * node) : bool :=
  bool_decide (fold_name m.1 = fold_name (lit "model_allowlist")).
Definition sent_allowlist (b : bytes) : option (nullable (list string)) :=
  n ← decodeJSON b;
  match node_value n with
  | JObject ms => vs ← mapM (allowlist_of ∘ snd) (filter says_allowlist ms); last vs
  | _ => None
  end.

Example allowlists_sent :
  map (λ s, sent_allowlist (quoted s))
    ["{'model_allowlist':null}"; "{'model_allowlist':[]}"; "{'note':1,'Model_Allowlist':['a','b']} "; "{}"; "null"; "[]";
     "{'model_allowlist':'a'}"; "{'model_allowlist':[1]}"; "{'model_allowlist':['a'],'model_allowlist':['b']}"] =
  [Some Null; Some (Value []); Some (Value ["a"; "b"]); None; None; None; None; None; Some (Value ["b"])].
Proof. by vm_compute. Qed.

Lemma alias_decoded v : match into_text "" v with Ok a => alias_of v = Some a | Err _ => alias_of v = None end.
Proof. unfold into_text, into_string, alias_of. by destruct (node_value v). Qed.
Lemma aliases_decoded l :
  match decode_all "" into_text l with Ok r => mapM alias_of l = Some r | Err _ => mapM alias_of l = None end.
Proof.
  induction l as [|v l IH]; [done|]. cbn [decode_all mapM]. pose proof (alias_decoded v) as Hv.
  destruct (into_text "" v) as [a|e]; rewrite Hv; simpl; [|done]. by destruct (decode_all _ _ l) as [r|e]; simpl; rewrite IH.
Qed.
Lemma allowlist_decoded old v :
  match into_allowlist old v with Ok r => allowlist_of v = Some r | Err _ => allowlist_of v = None end.
Proof.
  unfold into_allowlist, into_nullable, into_slice, allowlist_of. destruct (node_value v) as [| | | |l|] eqn:E; try done.
  pose proof (aliases_decoded l) as Hl. destruct (decode_all _ _ l); simpl; by rewrite Hl.
Qed.

(** The patch that is decoded is what the body says. *)
Lemma patch_decoded ms acc :
  match decode_members [("model_allowlist", field gap_ModelAllowlist (λ v _, mkGenAPIKeyPatch v) into_allowlist)] acc ms with
  | Ok patch => ∃ vs, mapM (allowlist_of ∘ snd) (filter says_allowlist ms) = Some vs ∧
      gap_ModelAllowlist patch = default (gap_ModelAllowlist acc) (last vs)
  | Err _ => mapM (allowlist_of ∘ snd) (filter says_allowlist ms) = None
  end.
Proof.
  revert acc. induction ms as [|[key v] ms IH]; intros acc; [by exists []|]. cbn [decode_members].
  assert (E : field_of [("model_allowlist", field gap_ModelAllowlist (λ v _, mkGenAPIKeyPatch v) into_allowlist)] key =
    if says_allowlist (key, v) then Some (field gap_ModelAllowlist (λ v _, mkGenAPIKeyPatch v) into_allowlist) else None).
  { unfold field_of, says_allowlist. cbn [List.find fst snd]. destruct (decide (lit "model_allowlist" = key)) as [<-|Hk].
    - by rewrite !bool_decide_true.
    - rewrite (bool_decide_false (lit "model_allowlist" = key)) by done.
      destruct (decide (fold_name (lit "model_allowlist") = fold_name key)) as [Hf|Hf];
        [by rewrite !bool_decide_true|].
      rewrite bool_decide_false by done. rewrite bool_decide_false by (by intros ?). done. }
  rewrite E. rewrite filter_cons. destruct (says_allowlist (key, v)) eqn:Es; cbn [mapM].
  - rewrite decide_True by done. cbn [mapM compose snd]. unfold field at 1. cbv beta.
    pose proof (allowlist_decoded (gap_ModelAllowlist acc) v) as Hv.
    destruct (into_allowlist _ v) as [r|e]; rewrite Hv; cbn; [|done].
    specialize (IH (mkGenAPIKeyPatch r)). destruct (decode_members _ _ ms) as [patch|e]; [|by rewrite IH].
    destruct IH as (vs & Hvs & Hl). exists (r :: vs). rewrite Hvs. split; [done|]. rewrite Hl, last_cons. by destruct (last vs).
  - rewrite decide_False by (intros Ht; cbn in Ht; done). apply IH.
Qed.

Lemma sent_decoded b :
  match Decode into_APIKeyPatch (mkGenAPIKeyPatch Unspecified) b with
  | Ok patch => gap_ModelAllowlist patch = default Unspecified (sent_allowlist b)
  | Err _ => sent_allowlist b = None
  end.
Proof.
  unfold Decode, sent_allowlist, decodeJSON. destruct (skip_ws b) as [|c r] eqn:Eb.
  { by destruct (2 * length b)%nat. }
  destruct (scan_value _ _ _) as [[n rest]|]; [|done]. simpl. unfold into_APIKeyPatch, into_struct.
  destruct (node_value n) as [| | | | |ms]; try done.
  pose proof (patch_decoded ms (mkGenAPIKeyPatch Unspecified)) as Hp. destruct (decode_members _ _ ms).
  - destruct Hp as (vs & -> & ->). done.
  - by rewrite Hp.
Qed.

Lemma fail_refuses w err : fresh w → ∃ status h, w_sent (fail_with render ctxErr w err) = Some (status, h) ∧ 400 ≤ status.
Proof.
  intros Hw. unfold fail_with, admin_writeError.
  destruct (Is err ErrInvalid), (Is err ErrNotFound), (Is err ErrConflict), (Is err context_DeadlineExceeded || ctxErr);
    rewrite Write_fresh by done; (eexists _, _; split; [done|lia]).
Qed.

(** A success is what the operation said, in full or, on a broken connection, not at all. *)
Lemma finish_success op w res status h : fresh w → typed op res →
  w_sent (finish render token_String loc ctxErr op w res) = Some (status, h) → status ∈ [200; 201] →
  ∃ rsp d, res = Ok rsp ∧ re_Status rsp = status ∧ body_doc (re_Body rsp) = Ok d ∧
    w_body (finish render token_String loc ctxErr op w res) = w_body w ++ taken w (print d ++ [LF]).
Proof.
  intros Hw Ht Hs Hst.
  assert (Hfail : ∀ err, w_sent (fail_with render ctxErr w err) = Some (status, h) → False).
  { intros err He. destruct (fail_refuses w err Hw) as (st & h' & E & ?). rewrite E in He. injection He as -> ->. set_solver by lia. }
  destruct res as [rsp|err]; [|by destruct (Hfail err)]. cbn [finish] in *.
  destruct (List.find _ _) as [t|] eqn:Ef; [|by destruct (Hfail _ Hs)].
  destruct (typed_empty _ _ _ Ef) as [Hrs He]. assert (t.2 = KEmpty ∨ t.2 ≠ KEmpty) as [Hk|Hk] by (destruct t.2; auto).
  { unfold Visit in Hs. rewrite Hk in Hs. cbn in Hs. unfold WriteHeader in Hs. rewrite Hw in Hs. injection Hs as Hs _.
    rewrite Hrs, (proj1 He Hk) in Hs. subst status. set_solver. }
  destruct (body_doc (re_Body rsp)) as [d|err] eqn:Ed.
  - destruct (finish_document render token_String loc ctxErr op _ _ _ _ Hw Ef Hk Ed) as [[h' Hh] Hb]. cbn [finish] in Hh, Hb.
    rewrite Ef in Hh, Hb. rewrite Hs in Hh. injection Hh as -> ->. by exists rsp, d.
  - unfold Visit in Hs. rewrite Ed in Hs. destruct t.2; try done; by destruct (Hfail err).
Qed.

Lemma each_text l : each text_doc l = Ok (map (DStr ∘ lit) l).
Proof. induction l as [|a l IH]; [done|]. cbn [each map]. by rewrite IH. Qed.

(** A key as text names itself and its allowlist, once each. *)
Lemma key_shown k d n : body_doc (BKey k) = Ok d → gk_ModelAllowlist k = n → n ≠ Unspecified →
  ∃ ms, d = DObj ms ∧ NoDup ms.*1 ∧ ("id", DStr (lit (uuid_String (gk_Id k)))) ∈ ms ∧
    ("model_allowlist", match n with Value l => DArr (map (DStr ∘ lit) l) | _ => DNull end) ∈ ms.
Proof.
  intros Hd <- Hn. cbn [AdminCodec.body_doc] in Hd. unfold key_doc, key_members, object in Hd. cbn [app written] in Hd.
  apply result_bind_ok in Hd as (ms & Hms & [= <-]).
  repeat match type of Hms with (let! _ := _ in _) = _ => apply result_bind_ok in Hms as (? & ? & Hms) end.
  repeat match goal with Hw : (let! _ := _ in _) = Ok _ |- _ => apply result_bind_ok in Hw as (? & ? & Hw) end.
  simplify_eq/=.
  eexists. split; [reflexivity|]. split; [apply (bool_decide_unpack (NoDup _)); vm_compute; exact I|].
  rewrite !elem_of_cons. split.
  - match goal with He : uuid_doc (gk_Id k) = Ok _ |- _ => injection He as <- end. by right; left.
  - match goal with He : nullable_doc _ _ (gk_ModelAllowlist k) = Ok ?x |- _ =>
      assert (E : x = match gk_ModelAllowlist k with Value l => DArr (map (DStr ∘ lit) l) | _ => DNull end) end.
    { destruct (gk_ModelAllowlist k) as [| |l]; [done|by simplify_eq/=|].
      cbn [nullable_doc] in *. unfold allowlist_doc, array in *. rewrite each_text in *. by simplify_eq/=. }
    rewrite E. by do 4 right; left.
Qed.

(** C36. The allowlist sent to a key is the one its holder is held to, from the bytes of the PATCH
    to the authentication of a request: when it is answered with 200 the answer is an object
    with the id asked for and, as its allowlist, what the body says, and whoever authenticates with
    that key from then on may use every alias if the body says null, none for an empty list, and
    exactly those named otherwise. A body that is not a JSON object, names no such member, or gives
    it anything but null or a list of names, is refused with a 400 and changes nothing: what is
    left out never reads as everything. *)
Theorem sent_allowlist_is_enforced chs r w vars id s s' w' tr :
  accounts_wf (sw_db s) → fresh w → BindStyledUUID "key" (PathValue vars 0) = Ok id →
  run (admin_api_perform sha256 jsonb) chs (HandlerWithOptions render token_String loc ctxErr OpUpdateAPIKey vars r w) s =
    Some (s', w', tr) →
  match sent_allowlist (rq_Body r) with
  | None => (∃ h, w_sent w' = Some (400, h)) ∧ s' = s ∧ tr = []
  | Some n =>
      ∀ h, w_sent w' = Some (200, h) →
        (∃ ms, w_body w' = w_body w ++ taken w (print (DObj ms) ++ [LF]) ∧ NoDup ms.*1 ∧
           ("id", DStr (lit (uuid_String id))) ∈ ms ∧
           ("model_allowlist", match n with Value l => DArr (map (DStr ∘ lit) l) | _ => DNull end) ∈ ms) ∧
        ∀ hash fault presented i alias,
          AccountStore.Authenticate hash (sw_db s') fault presented = Ok i → id_KeyID i = id →
          AllowsModel i alias = match n with Value l => existsb (String.eqb alias) l | _ => true end
  end.
Proof.
  intros Hwf Hw Hid Hr. cbn [HandlerWithOptions] in Hr. unfold wrapper_UpdateAPIKey, bound, strict_UpdateAPIKey, with_json_body in Hr.
  rewrite Hid in Hr. pose proof (sent_decoded (rq_Body r)) as Hsent.
  destruct (Decode _ _ _) as [[n]|err]; cbn [gap_ModelAllowlist] in *; cycle 1.
  { rewrite Hsent. injection Hr as <- <- <-. split_and!; [|done|done]. unfold badRequest, admin_writeError. rewrite Write_fresh by done. eauto. }
  apply run_and_return in Hr as (res & Hr & ->).
  pose proof (run_returns _ _ _ _ _ _ _ _ (handle_typed r (IUpdateAPIKey id n)) Hr) as Ht.
  pose proof (sent_allowlist_held sha256 jsonb _ _ _ _ _ _ _ _ Hwf Hr) as Hheld.
  destruct (sent_allowlist (rq_Body r)) as [n'|] eqn:En; simpl in Hsent; subst n.
  - intros h Hs. destruct (finish_success _ _ _ _ _ Hw Ht Hs ltac:(listed)) as (rsp & d & -> & _ & Hd & Hb).
    destruct Hheld as (Hspec & (k & Hk & <- & Hl) & Hen). rewrite Hk in Hd. split; [|done].
    destruct (key_shown k d n' Hd Hl) as (ms & -> & ? & ? & ?); [by intros ->|]. by exists ms.
  - destruct res as [rsp|e]; [by destruct Hheld|].
    destruct (Hheld eq_refl) as (-> & -> & He). split_and!; [|done|done]. cbn [finish]. unfold fail_with.
    rewrite He. unfold admin_writeError. rewrite Write_fresh by done. eauto.
Qed.
(** What a PUT of quotas that is answered with 200 was, in the operations behind it. *)
Lemma put_runs chs r w vars tenant elsewhere set d t s s' w' tr h :
  fresh w → BindStyledString "tenant" (PathValue vars 0) = Ok tenant →
  quota_set_doc elsewhere set = Ok d → (∀ q, q ∈ set → sendable q) → forallb is_space t = true → rq_Body r = print d ++ t →
  run (admin_api_perform sha256 jsonb) chs (HandlerWithOptions render token_String loc ctxErr OpReplaceQuotas vars r w) s =
    Some (s', w', tr) →
  w_sent w' = Some (200, h) →
  ∃ who ch kept d',
    mutate_prepared jsonb uuid_String ch.1 ch.2 (ReplaceQuotas uuid_Parse who tenant (map fromQuota set)) s = Some (s', Ok kept) ∧
    body_doc (BQuotas (toQuotas kept)) = Ok d' ∧ w_body w' = w_body w ++ taken w (print d' ++ [LF]).
Proof.
  intros Hw Hten Hdoc Hsend Ht Hbody Hr Hs. cbn [HandlerWithOptions] in Hr.
  unfold wrapper_ReplaceQuotas, bound, strict_ReplaceQuotas, with_json_body in Hr. rewrite Hten, Hbody in Hr.
  rewrite (quota_set_decoded elsewhere set d t Hsend Hdoc Ht) in Hr. cbn [gqs_Quotas] in Hr.
  apply run_and_return in Hr as (res & Hr & ->).
  pose proof (run_returns _ _ _ _ _ _ _ _ (handle_typed r (IReplaceQuotas tenant (Some set))) Hr) as Hty.
  destruct (finish_success _ _ _ _ _ Hw Hty Hs ltac:(listed)) as (rsp & d' & -> & _ & Hd' & Hb).
  unfold Handler_ReplaceQuotas, and_then in Hr. destruct chs as [|ch chs]; [done|]. cbn [call bind run admin_api_perform] in Hr.
  destruct (transact _ _ _ s) as [s1 [kept|e]] eqn:Et; cbn [bind run] in Hr; unfold answer_ok in Hr; simplify_eq.
  unfold transact in Et. destruct (mutate_prepared _ _ _ _ _ s) as [o|] eqn:Em; [|done]. subst o.
  eexists _, ch, kept, d'. by split_and!.
Qed.

(** A quota as it was sent and as a row holds it: what to do is to block if it was not said, and
    the bounds are the instants sent, as they are or in whole microseconds; null is none, as is
    what was left out. *)
Definition bound_kept (sent : nullable time) (bound : option time) : Prop :=
  match sent with Value t => bound = Some t ∨ bound = Some (pg_time t) | _ => bound = None end.
Definition stored_as (i : gen_QuotaInput) (q : Quota) : Prop :=
  gqi_WindowKind i = Some (q_WindowKind q) ∧ q_MaxCost q = gqi_MaxCostNanos i ∧
  q_OnExceed q = match gqi_OnExceed i with None | Some "" => "block" | Some action => action end ∧
  bound_kept (gqi_PeriodStart i) (q_PeriodStart q) ∧ bound_kept (gqi_PeriodEnd i) (q_PeriodEnd q).

(** A row as the answer tells it. *)
Definition instant_text (o : option time) : doc :=
  match o with Some t => DStr (FormatRFC3339Nano (loc t) t) | None => DNull end.
Definition quota_text (q : Quota) : doc :=
  DObj [("max_cost_nanos", DInt (q_MaxCost q)); ("on_exceed", DStr (lit (q_OnExceed q)));
        ("period_end", instant_text (q_PeriodEnd q)); ("period_start", instant_text (q_PeriodStart q));
        ("updated_at", instant_text (Some (q_UpdatedAt q))); ("window_kind", DStr (lit (q_WindowKind q)))].

Lemma held_stored_as i a q : normal (fromQuota i) a → held q a → stored_as i q.
Proof.
  intros (Hk & Hs & He & Hm & Ho & Hv) Hh. cbn in Hk, Hs, He, Hm, Ho.
  assert (Hkind : gqi_WindowKind i = Some (q_WindowKind a)).
  { rewrite Hk in Hv |- *. by destruct (gqi_WindowKind i). }
  assert (Hon : q_OnExceed a = match gqi_OnExceed i with None | Some "" => "block" | Some action => action end).
  { rewrite Ho. destruct (gqi_OnExceed i) as [[|c r]|]; done. }
  assert (Hb : ∀ n (b : option time), b = pointerOf n → bound_kept n b ∧ bound_kept n (pg_time <$> b)).
  { intros n b ->. destruct n; cbn; auto. }
  destruct (Hb _ _ Hs) as [Hs1 Hs2], (Hb _ _ He) as [He1 He2].
  destruct Hh as [Hsl|[now ->]]; [|by unfold stored_as, stored_quota; split_and!].
  unfold stored_as. apply SameLimits_fields in Hsl as (-> & -> & -> & -> & ->). by split_and!.
Qed.

Lemma quotas_text kept d : body_doc (BQuotas (toQuotas kept)) = Ok d → d = DObj [("quotas", DArr (map quota_text kept))].
Proof.
  intros Hd. cbn [AdminCodec.body_doc] in Hd. unfold quotas_doc, object in Hd. cbn [written] in Hd.
  apply result_bind_ok in Hd as (ms & Hms & [= <-]). apply result_bind_ok in Hms as (x & Hx & [= <-]).
  unfold array in Hx. apply result_bind_ok in Hx as (ds & Hds & [= <-]). do 4 f_equal.
  revert ds Hds. unfold toQuotas. induction kept as [|q kept IH]; intros ds Hds; cbn [map each] in Hds; [by injection Hds as <-|].
  apply result_bind_ok in Hds as (d & Hd & Hds). apply result_bind_ok in Hds as (ds' & Hds' & [= <-]).
  cbn [map]. rewrite <- (IH _ Hds'). f_equal. clear - Hd.
  assert (Ht : ∀ t d, time_doc loc t = Ok d → d = DStr (FormatRFC3339Nano (loc t) t)).
  { intros t d'. unfold time_doc. by repeat case_match; simplify_eq; intros [= <-]. }
  assert (Hn : ∀ o d, nullable_time loc (nullableOf o) = Ok d → d = instant_text o).
  { intros [t|] d' H'; cbn in H'; [by apply Ht|by injection H' as <-]. }
  unfold quota_doc, toQuota, object in Hd. cbn [written gq_MaxCostNanos gq_OnExceed gq_PeriodEnd gq_PeriodStart gq_UpdatedAt gq_WindowKind] in Hd.
  apply result_bind_ok in Hd as (ms & Hms & [= <-]). unfold quota_text.
  repeat match goal with Hw : (let! _ := _ in _) = Ok _ |- _ => apply result_bind_ok in Hw as (? & ? & Hw) end.
  cbn [instant_text]. repeat match goal with
    | He : nullable_time loc (nullableOf _) = Ok _ |- _ => apply Hn in He as ->
    | He : time_doc loc _ = Ok _ |- _ => apply Ht in He as -> end.
  by unfold int_doc, text_doc in *; simplify_eq/=.
Qed.

(** C28. A quota set put over the API as text is the set the proxy holds the tenant to. When the PUT
    is answered with 200, the tenant's rows are one for each quota the text was written from, with
    its kind, limit, action and bounds, whatever the time zone it was written in; every other
    tenant's rows are as they were; and the answer lists those rows, field by field. And every
    enforcer that reads the table, once the limits it has cached are no longer fresh, finds those
    rows and, while its counters answer, lets a request of the tenant that it can price through
    exactly when the worst case fits each of them that applies at that moment and does not say
    to let it through: spent and asked together are no more than the limit. *)
Theorem quotas_put_are_enforced {C} `{QuotaCountersSpec C} pricing chs r w vars tenant elsewhere set d t s s' w' tr h :
  accounts_wf (sw_db s) → fresh w → BindStyledString "tenant" (PathValue vars 0) = Ok tenant →
  quota_set_doc elsewhere set = Ok d → (∀ q, q ∈ set → sendable q) → forallb is_space t = true → rq_Body r = print d ++ t →
  run (admin_api_perform sha256 jsonb) chs (HandlerWithOptions render token_String loc ctxErr OpReplaceQuotas vars r w) s =
    Some (s', w', tr) →
  w_sent w' = Some (200, h) →
  ∃ account rows listed,
    names uuid_Parse (sw_db s) tenant account ∧ t_tenants (sw_db s') = t_tenants (sw_db s) ∧
    others_keep (sw_db s) (sw_db s') (ta_ID account) ∧
    rows ≡ₚ Sql_ListQuotas (sw_db s') (ta_ID account) ∧ Forall2 stored_as set rows ∧
    listed ≡ₚ rows ∧
    w_body w' = w_body w ++ taken w (print (DObj [("quotas", DArr (map quota_text listed))]) ++ [LF]) ∧
    held_to (C := C) pricing (sw_db s') account rows.
Proof.
  intros Hwf Hw Hten Hdoc Hsend Ht Hbody Hr Hs.
  destruct (put_runs _ _ _ _ _ _ _ _ _ _ _ _ _ _ Hw Hten Hdoc Hsend Ht Hbody Hr Hs) as (who & ch & kept & d' & Hm & Hd' & Hb).
  destruct (ReplaceQuotas_exact _ _ _ _ _ _ _ _ _ _ _ Hwf Hm)
    as (asked & account & Hv & Hn & (t' & Hn' & Htt & Hoth & _) & Hkept & Hacc & rows & Hrows & Hheld).
  pose proof (names_unique _ _ _ _ _ Hn' Hn) as ->.
  destruct (validQuotaSet_normal _ _ Hv) as (l & Hl & Hnorm).
  destruct (Permutation_Forall2 (Permutation_sym Hl) (proj2 (Forall2_flip held rows asked) Hheld)) as (rows' & Hp & Hheld').
  exists account, rows', kept. split_and!; [done|done|done|by rewrite <- Hp| | | |].
  - change (Forall2 normal (fromQuota <$> set) l) in Hnorm. rewrite Forall2_fmap_l in Hnorm.
    clear - Hnorm Hheld'. revert rows' Hheld'. induction Hnorm as [|i a set1 l Hi _ IH]; intros rows' Hh; inversion_clear Hh as [|? q ? rows2 Hq Hqs]; constructor;
      [by eapply held_stored_as|by apply IH].
  - by rewrite Hkept, <- Hp.
  - by rewrite Hb, (quotas_text _ _ Hd').
  - apply stored_held_to; [done|]. by rewrite <- Hp.
Qed.
End Stored.

(** ** Examples *)

#[local] Instance ex_runtime : Runtime := {
  Email_MarshalJSON s := text_doc s;
  Email_UnmarshalJSON := into_text;
  BindStyledString _ v := Ok v;
  BindStyledUUID _ v := @uuid_Parse toy_Jwt v;
  BindQueryString _ name q := Ok (q !! name ≫= head);
  BindQueryBool _ name q := Ok ((λ l, bool_decide (l = ["true"])) <$> q !! name);
  BindQueryInt _ _ _ := Ok None;
  BindQueryTime required _ _ := if required then Err RequiredParameterError else Ok None;
}.
Definition ex_token_text (_ : @token toy_Jwt) : string := "token".
Definition ex_root (r : request) : prog api_call Writer := root ex_text ex_token_text UTC false ex_ops_server r ex_w.
Definition first_call (p : prog api_call Writer) : option api_call := match p with Act a _ => Some a | Ret _ => None end.
Lemma only_first kind p c : only kind p → first_call p = Some c → kind c.
Proof. destruct p; [done|]. intros [Hk _] [= <-]. exact Hk. Qed.

Lemma only_admins_write_witness :
  ∃ id, entitled ex_sha ex_tok ex_ops_gate ex_ops_request id ∧ id_Role id = RoleAdmin ∧ "admin:ops" = id_Actor id.
Proof.
  pose proof (only_admins_write ex_text ex_token_text UTC false ex_sha ex_tok ex_ops_gate true true (λ _, None) (10 * Second)
                ex_ops_server ex_ops_request ex_w eq_refl eq_refl) as Honly.
  assert (Hcall : first_call (ex_root ex_ops_request) = Some (CCreateAPIKey (mkWrite "admin:ops") "acme" (mkNewAPIKey None))) by by vm_compute.
  exact (only_first _ _ _ Honly Hcall "admin:ops" eq_refl).
Defined.


(** The text of a patch that allows no alias at all. *)
Definition ex_patch : request :=
  mkRequest "PATCH" ["admin"; "v1"; "keys"; "1"] ∅ ∅ "10.0.0.1:5000" (quoted "{'model_allowlist':[]}") None
    (Some (machineIdentity ex_ops)) None None.
Definition ex_key_vars : list string := [@uuid_String toy_Jwt ex_key_id].
Definition ex_handled (op : operation) (vars : list string) (r : request) : option (svc_world * Writer * list api_call) :=
  run (admin_api_perform ex_sha ex_jsonb) [(Fine, ex_chs 50)] (HandlerWithOptions ex_text ex_token_text UTC false op vars r ex_w) ex_keyed.
Definition after_ran (o : option (svc_world * Writer * list api_call)) : svc_world * Writer * list api_call :=
  default (ex_keyed, ex_w, []) o.
Definition ex_narrowed := after_ran (ex_handled OpUpdateAPIKey ex_key_vars ex_patch).
Lemma ex_narrow_ran :
  ex_handled OpUpdateAPIKey ex_key_vars ex_patch = Some (ex_narrowed.1.1, ex_narrowed.1.2, ex_narrowed.2).
Proof. by vm_compute. Qed.
Definition sent_header (w : Writer) : Provider.Header := match w_sent w with Some (_, h) => h | None => ∅ end.
Lemma ex_narrow_sent : w_sent ex_narrowed.1.2 = Some (200, sent_header ex_narrowed.1.2).
Proof. by vm_compute. Qed.
Lemma ex_narrow_still_in :
  AccountStore.Authenticate ex_sha (sw_db ex_narrowed.1.1) None ex_secret = Ok (mkIdentity "acme" ex_key_id (Some [])).
Proof. by vm_compute. Qed.

Lemma sent_allowlist_is_enforced_witness :
  AllowsModel (mkIdentity "acme" ex_key_id (Some ["fast"])) "fast" = true ∧
  AllowsModel (mkIdentity "acme" ex_key_id (Some [])) "fast" = false.
Proof.
  split; [done|].
  pose proof (sent_allowlist_is_enforced ex_text ex_token_text UTC false ex_sha ex_jsonb [(Fine, ex_chs 50)] ex_patch ex_w
                ex_key_vars ex_key_id ex_keyed ex_narrowed.1.1 ex_narrowed.1.2 ex_narrowed.2 ex_keyed_wf ltac:(by split)
                eq_refl ex_narrow_ran) as Hen.
  assert (E : sent_allowlist (rq_Body ex_patch) = Some (Value [])) by by vm_compute.
  rewrite E in Hen. destruct (Hen _ ex_narrow_sent) as [_ Hall]. exact (Hall ex_sha None ex_secret _ "fast" ex_narrow_still_in eq_refl).
Defined.

(** A day's limit and one for a period, written down an hour east of where they are read. *)
Definition ex_east : Location := λ _, 60.
Definition ex_inputs : list gen_QuotaInput :=
  [mkGenQuotaInput 1000 None Unspecified Null (Some "day");
   mkGenQuotaInput 500 (Some "allow") (Value (86400 * Second)) (Value Second) (Some "period")].
Definition ex_set_doc : doc := match quota_set_doc ex_east ex_inputs with Ok d => d | Err _ => DNull end.
Definition ex_put : request :=
  mkRequest "PUT" ["admin"; "v1"; "tenants"; "acme"; "quotas"] ∅ ∅ "10.0.0.1:5000" (print ex_set_doc ++ [LF]) None
    (Some (machineIdentity ex_ops)) None None.
Definition ex_put_done := after_ran (ex_handled OpReplaceQuotas ["acme"] ex_put).
Lemma ex_put_ran :
  run (admin_api_perform ex_sha ex_jsonb) [(Fine, ex_chs 50)]
    (HandlerWithOptions ex_text ex_token_text UTC false OpReplaceQuotas ["acme"] ex_put ex_w) ex_keyed =
  Some (ex_put_done.1.1, ex_put_done.1.2, ex_put_done.2).
Proof. by vm_compute. Qed.
Lemma ex_put_sent : w_sent ex_put_done.1.2 = Some (200, sent_header ex_put_done.1.2).
Proof. by vm_compute. Qed.
Lemma ex_inputs_sendable q : q ∈ ex_inputs → sendable q.
Proof.
  intros Hq. repeat (apply elem_of_cons in Hq as [->|Hq]; [split_and!; [by vm_compute|by intros ? [= <-] || done|by intros ? [= <-]]|]).
  by apply elem_of_nil in Hq.
Qed.

Lemma ex_inputs_written : quota_set_doc ex_east ex_inputs = Ok ex_set_doc.
Proof. by vm_compute. Qed.
Lemma ex_put_body : rq_Body ex_put = print ex_set_doc ++ [LF].
Proof. unfold ex_put, rq_Body. reflexivity. Qed.

(** A proxy started on the tables as the PUT left them, and a request of the tenant. *)
Definition ex_proxy_on (db : AccountDb) : Enforcer (redis_client map_redis) postgres_world :=
  NewEnforcer (ex_redis []) (mkPg db ∅ []) (ex_config FailClosed).
Definition ex_proxy := ex_proxy_on (sw_db ex_put_done.1.1).
Lemma ex_proxy_fresh db : pg_accounts (e_store (ex_proxy_on db)) = db ∧ (∀ now tenant, due (ex_proxy_on db) now tenant) ∧
  Forall (eq Fine) (take 2 (pg_faults (e_store (ex_proxy_on db)))).
Proof. split_and!; [done|by intros now tenant c|by apply Forall_nil]. Qed.
Definition ex_account : TenantAccount := mkTenantAccount 1%N "acme" "Acme" "{}" (2 * Second) None.
Lemma ex_account_named t : names (@uuid_Parse toy_Jwt) (sw_db ex_keyed) "acme" t → t = ex_account.
Proof. vm_compute. by intros [= <-]. Qed.

Definition ex_loaded := get_tenantLimits ex_proxy ex_now "acme".
Definition ex_found : tenantLimits := match ex_loaded.2 with Ok tl => tl | Err _ => zero_tenantLimits end.
Lemma ex_limits_loaded : get_tenantLimits ex_proxy ex_now (qr_Tenant (ex_request 1000)) = (ex_loaded.1, Ok ex_found).
Proof. by vm_compute. Qed.

Lemma found_inj {A B} (a a' : A) (b b' : B) : (a, @Ok error B b) = (a', Ok b') → a = a' ∧ b = b'.
Proof. by intros [= <- <-]. Qed.

Definition ex_found_limits : list WindowLimit := ApplicableLimits (tl_quotas ex_found) ex_now.
Definition ex_worst : QuotaUsage := mkQuotaUsage 1 1104 10260000.
Definition ex_seeds : list WindowUsage := map (λ l, mkWindowUsage 1%N (wl_Window l) zero_QuotaUsage) ex_found_limits.
Definition ex_seeded : redis_client map_redis := (qc_Seed (ex_redis []) ex_seeds).1.
Lemma ex_found_are : ex_found_limits =
  [mkWindowLimit (mkWindow WindowDay 0 DayLen) 1000 true; mkWindowLimit (mkWindow WindowPeriod Second DayLen) 500 false].
Proof. by vm_compute. Qed.
Lemma ex_counters_answer : counters_answer ex_loaded.1 1%N ex_found_limits ex_worst ex_seeded.
Proof.
  eapply (answer_after_seed _ _ _ _ (ex_redis []) (mkCounterReservation (map wl_Window ex_found_limits) None [])
            (e_store ex_loaded.1) ex_seeds ex_seeded).
  - rewrite ex_found_are. ready_to_reserve.
  - by vm_compute.
  - rewrite ex_found_are. discriminate.
  - by vm_compute.
  - unfold ex_seeds. rewrite ex_found_are. ready_to_seed.
  - by vm_compute.
  - rewrite ex_found_are. ready_to_reserve.
  - by vm_compute.
Qed.

(** The day's limit is a millionth of a dollar: the request is refused. *)
Lemma quotas_put_are_enforced_witness :
  is_ok (Reserve (Some ex_table) ex_proxy ex_now (ex_request 1000)).2 = false.
Proof.
  destruct (quotas_put_are_enforced ex_text ex_token_text UTC false ex_sha ex_jsonb (C := redis_client map_redis)
              (Some ex_table) [(Fine, ex_chs 50)] ex_put ex_w ["acme"] "acme"
              ex_east ex_inputs ex_set_doc [LF] ex_keyed ex_put_done.1.1 ex_put_done.1.2 ex_put_done.2
              (sent_header ex_put_done.1.2) ex_keyed_wf ltac:(by split) eq_refl ex_inputs_written ex_inputs_sendable eq_refl
              ex_put_body ex_put_ran ex_put_sent)
    as (account & rows & listed & ->%ex_account_named & _ & _ & _ & Hrows & _ & _ & Hheld).
  destruct (ex_proxy_fresh (sw_db ex_put_done.1.1)) as (Hdb & Hdue & Hfine).
  destruct (Hheld ex_proxy ex_now (ex_request 1000) Hdb eq_refl (Hdue _ _) Hfine) as (e1 & tl & Hget & _ & _ & Hiff).
  rewrite ex_limits_loaded in Hget. apply found_inj in Hget as [<- <-].
  apply not_true_is_false. intros Hfits%(Hiff ex_worst ex_seeded ltac:(by vm_compute) ex_counters_answer).
  inversion_clear Hrows as [|? q ? rows' Hq _]. destruct Hq as (Hk & Hm & Ho & Hs & He). destruct q as [kind ps pe cost on up].
  cbn in Hk, Hm, Ho, Hs, He. injection Hk as <-. subst.
  destruct (Hfits _ (mkWindow WindowDay 0 DayLen) (list_elem_of_here _ _) ltac:(done) ltac:(by vm_compute)) as (u & Hu & Hle).
  clear - Hu Hle. vm_compute in Hu. injection Hu as <-. vm_compute in Hle. by apply Hle.
Defined.
