(* ===== verification/Csv.v ===== *)
(** [encoding/csv.Writer] over [bufio.Writer] over a device that may fill up, as
    [printReportCSV] of [src/cmd/go-route/report.go] stacks them, and a reader that
    says what the text means: fields as RFC 4180 has them, records ended by the bare line feed
    that Go writes.

    The device takes bytes while it has room and fails the write it has no room for. *)
From Stdlib Require Import Ascii.
From S2P Require Import Prelude Bytes Utf8.

(** ** A buffered writer *)

(** The file written to: what it took, and what it has room for where that is limited. *)
Record device := mkDevice { dv_bytes : bytes; dv_room : option nat }.

(** [os.File.Write]: the number of bytes taken is less than all of them only with an error. *)
Definition dev_write (d : device) (s : bytes) : device * nat * bool :=
  match dv_room d with
  | None => (mkDevice (dv_bytes d ++ s) None, length s, true)
  | Some room =>
      let n := Nat.min room (length s) in
      (mkDevice (dv_bytes d ++ take n s) (Some (room - n)%nat), n, Nat.eqb n (length s))
  end.

Definition buf_size : nat := 4096.

Record bufio := mkBufio { bw_buf : bytes; bw_failed : bool; bw_dev : device }.
Definition NewWriter (d : device) : bufio := mkBufio [] false d.

(** [bufio.Writer.Flush] *)
Definition bw_Flush (b : bufio) : bufio :=
  if bw_failed b || bool_decide (bw_buf b = []) then b
  else let '(d, n, ok) := dev_write (bw_dev b) (bw_buf b) in
       if ok : bool then mkBufio [] false d else mkBufio (drop n (bw_buf b)) true d.

(** A text at least the buffer's size, on an empty buffer, goes straight to the file. *)
Definition bw_direct (b : bufio) (s : bytes) : bufio :=
  let '(d, _, ok) := dev_write (bw_dev b) s in mkBufio (bw_buf b) (negb ok) d.

(** [bufio.Writer.WriteString]; [WriteByte] is this on one byte. *)
Definition bw_write (b : bufio) (s : bytes) : bufio :=
  let avail := (buf_size - length (bw_buf b))%nat in
  if bw_failed b then b
  else if Nat.leb (length s) avail then mkBufio (bw_buf b ++ s) false (bw_dev b)
  else if bool_decide (bw_buf b = []) then bw_direct b s
  else
    let b := bw_Flush (mkBufio (bw_buf b ++ take avail s) false (bw_dev b)) in
    if bw_failed b then b
    else let s := drop avail s in
         if Nat.leb (length s) buf_size then mkBufio s false (bw_dev b) else bw_direct b s.

(** ** The CSV writer *)

Definition COMMA : ascii := ",".
Definition QUOTE : ascii := "034"%char.

(** [fieldNeedsQuotes] *)
Definition fieldNeedsQuotes (f : bytes) : bool :=
  if bool_decide (f = []) then false
  else if bool_decide (f = lit "\.") then true
  else existsb (λ c, bool_decide (c ∈ [LF; CR; QUOTE; COMMA])) f || bool_decide (is_Some (space_width f)).

(** A quoted field, cut where the code writes: the text up to a quote or a line end, then that. *)
Fixpoint quoted_pieces (cur f : bytes) : list bytes :=
  match f with
  | [] => [cur]
  | c :: f =>
      if Ascii.eqb c QUOTE then cur :: [QUOTE; QUOTE] :: quoted_pieces [] f
      else if Ascii.eqb c CR || Ascii.eqb c LF then cur :: [c] :: quoted_pieces [] f
      else quoted_pieces (cur ++ [c]) f
  end.
Definition field_pieces (f : bytes) : list bytes :=
  if fieldNeedsQuotes f then [QUOTE] :: quoted_pieces [] f ++ [[QUOTE]] else [f].

Fixpoint record_pieces (first : bool) (r : list bytes) : list bytes :=
  match r with
  | [] => [[LF]]
  | f :: r => (if first then [] else [[COMMA]]) ++ field_pieces f ++ record_pieces false r
  end.

(** [csv.Writer.Write]: the pieces in turn; the first write that fails ends it with an error, and
    those after it would do nothing. [Some b] is the writer with no error so far. *)
Definition csv_Write (b : bufio) (r : list bytes) : bufio * bool :=
  let b := fold_left bw_write (record_pieces true r) b in (b, negb (bw_failed b)).

(** ** Reading *)

Inductive position := FieldStart | Plain | Quoted | QuoteSeen.

(** A record ends with a line feed; a field in quotes holds anything, a quote in it doubled.
    [cur] and [rec] are what has been read of the field and of the record. *)
Fixpoint csv_read_from (p : position) (cur : bytes) (rec : list bytes) (b : bytes) : option (list (list bytes)) :=
  match b with
  | [] => match p, rec with FieldStart, [] => Some [] | _, _ => None end
  | c :: b =>
      let comma := csv_read_from FieldStart [] (rec ++ [cur]) b in
      let line := (rec ++ [cur] ::.) <$> csv_read_from FieldStart [] [] b in
      match p with
      | FieldStart | Plain =>
          if Ascii.eqb c COMMA then comma
          else if Ascii.eqb c LF then line
          else if Ascii.eqb c QUOTE
          then match p with FieldStart => csv_read_from Quoted [] rec b | _ => None end
          else csv_read_from Plain (cur ++ [c]) rec b
      | Quoted => if Ascii.eqb c QUOTE then csv_read_from QuoteSeen cur rec b else csv_read_from Quoted (cur ++ [c]) rec b
      | QuoteSeen =>
          if Ascii.eqb c QUOTE then csv_read_from Quoted (cur ++ [c]) rec b
          else if Ascii.eqb c COMMA then comma
          else if Ascii.eqb c LF then line
          else None
      end
  end.
Definition csv_read (b : bytes) : option (list (list bytes)) := csv_read_from FieldStart [] [] b.

(** ** What a writer that has not failed holds

    The bytes the device took and those still buffered, in the order they were written. *)
Definition stream (b : bufio) : bytes := dv_bytes (bw_dev b) ++ bw_buf b.

(** A device with room for whatever is written. *)
Definition roomy (b : bufio) : Prop :=
  dv_room (bw_dev b) = None ∧ bw_failed b = false ∧ (length (bw_buf b) ≤ buf_size)%nat.

Lemma bw_Flush_roomy b : roomy b →
  roomy (bw_Flush b) ∧ stream (bw_Flush b) = stream b ∧ bw_buf (bw_Flush b) = [].
Proof.
  destruct b as [buf failed [out room]]. intros (Hr & Hf & Hl). simpl in Hr, Hf. subst room failed.
  unfold bw_Flush. cbn [bw_failed bw_buf orb]. case_bool_decide as E.
  - subst buf. done.
  - unfold dev_write, roomy, stream. cbn. rewrite app_nil_r.
    split_and!; first [done|apply Nat.le_0_l].
Qed.

Lemma bw_direct_roomy b s : roomy b → bw_buf b = [] →
  roomy (bw_direct b s) ∧ stream (bw_direct b s) = stream b ++ s.
Proof.
  destruct b as [buf failed [out room]]. intros (Hr & Hf & Hl) E. simpl in Hr, Hf, E. subst room failed buf.
  unfold bw_direct, dev_write, roomy, stream. cbn. rewrite !app_nil_r.
  split_and!; first [done|apply Nat.le_0_l].
Qed.

Lemma bw_write_roomy b s : roomy b → roomy (bw_write b s) ∧ stream (bw_write b s) = stream b ++ s.
Proof.
  intros Hb. pose proof Hb as (Hr & Hf & Hl). unfold bw_write. rewrite Hf. cbv zeta.
  destruct (Nat.leb_spec (length s) (buf_size - length (bw_buf b))) as [Hs|Hs].
  { unfold roomy, stream. cbn [bw_dev bw_failed bw_buf]. rewrite length_app, app_assoc. split_and!; [done..|lia|done]. }
  case_bool_decide as E; [by apply bw_direct_roomy|].
  set (k := (buf_size - length (bw_buf b))%nat) in *.
  set (c := mkBufio (bw_buf b ++ take k s) false (bw_dev b)).
  assert (Hc : roomy c).
  { unfold roomy, c. cbn [bw_dev bw_failed bw_buf]. rewrite length_app, length_take. split_and!; [done..|lia]. }
  destruct (bw_Flush_roomy c Hc) as (Hf' & Es & Eb). pose proof Hf' as (Hr2 & Hf2 & _). rewrite Hf2.
  assert (Est : stream b ++ s = stream (bw_Flush c) ++ drop k s).
  { rewrite Es. unfold stream, c. cbn. by rewrite <- !app_assoc, take_drop. }
  rewrite Est. destruct (Nat.leb_spec (length (drop k s)) buf_size) as [Hd|Hd].
  - unfold roomy, stream. cbn. rewrite Eb, app_nil_r. done.
  - by apply bw_direct_roomy.
Qed.

Lemma bw_writes_roomy ps : ∀ b, roomy b →
  roomy (fold_left bw_write ps b) ∧ stream (fold_left bw_write ps b) = stream b ++ concat ps.
Proof.
  induction ps as [|p ps IH]; intros b Hb; [by rewrite app_nil_r|]. cbn [fold_left concat].
  destruct (bw_write_roomy b p Hb) as [Hp Ep]. destruct (IH _ Hp) as [Hps Eps].
  split; [done|]. by rewrite Eps, Ep, app_assoc.
Qed.

(** What fits the buffer stays in it, whatever the device would do. *)
Lemma bw_writes_buffered ps : ∀ b, bw_failed b = false →
  (length (bw_buf b) + length (concat ps) ≤ buf_size)%nat →
  fold_left bw_write ps b = mkBufio (bw_buf b ++ concat ps) false (bw_dev b).
Proof.
  induction ps as [|p ps IH]; intros b Hf Hl.
  { destruct b. cbn in *. subst. by rewrite app_nil_r. }
  cbn [fold_left concat] in *. rewrite length_app in Hl.
  assert (E : bw_write b p = mkBufio (bw_buf b ++ p) false (bw_dev b)).
  { unfold bw_write. rewrite Hf. cbv zeta. by rewrite (proj2 (Nat.leb_le _ _)) by lia. }
  rewrite E, IH; cbn [bw_buf bw_failed bw_dev]; [by rewrite <- app_assoc|done|rewrite length_app; lia].
Qed.

(** ** What is written reads back *)

Definition record_bytes (r : list bytes) : bytes := concat (record_pieces true r).

Lemma read_plain f : ∀ cur rec b, existsb (λ c, bool_decide (c ∈ [LF; CR; QUOTE; COMMA])) f = false →
  csv_read_from Plain cur rec (f ++ b) = csv_read_from Plain (cur ++ f) rec b.
Proof.
  induction f as [|c f IH]; intros cur rec b Hf; [by rewrite app_nil_r|].
  cbn [existsb] in Hf. apply orb_false_iff in Hf as [Hc Hf]. apply bool_decide_eq_false in Hc.
  cbn [app csv_read_from].
  rewrite !(proj2 (Ascii.eqb_neq _ _)) by (intros ->; apply Hc; set_solver).
  rewrite IH by done. by rewrite <- app_assoc.
Qed.

Lemma read_in_quotes cur : ∀ acc rec b, QUOTE ∉ cur →
  csv_read_from Quoted acc rec (cur ++ b) = csv_read_from Quoted (acc ++ cur) rec b.
Proof.
  induction cur as [|c cur IH]; intros acc rec b Hc; [by rewrite app_nil_r|].
  apply not_elem_of_cons in Hc as [Hc Hr]. cbn [app csv_read_from].
  rewrite (proj2 (Ascii.eqb_neq c QUOTE)) by (by intros ->). rewrite IH by done. by rewrite <- app_assoc.
Qed.

Lemma read_quoted f : ∀ cur acc rec b, QUOTE ∉ cur →
  csv_read_from Quoted acc rec (concat (quoted_pieces cur f) ++ b) = csv_read_from Quoted (acc ++ cur ++ f) rec b.
Proof.
  induction f as [|c f IH]; intros cur acc rec b Hc; cbn [quoted_pieces].
  { cbn [concat]. rewrite !app_nil_r. by apply read_in_quotes. }
  destruct (Ascii.eqb_spec c QUOTE) as [->|Hq]; [|destruct (Ascii.eqb c CR || Ascii.eqb c LF)].
  - cbn [concat]. rewrite <- !app_assoc, read_in_quotes by done. cbn [app csv_read_from].
    change (Ascii.eqb QUOTE QUOTE) with true. cbn match. rewrite IH by set_solver. by rewrite <- !app_assoc.
  - cbn [concat]. rewrite <- !app_assoc, read_in_quotes by done. cbn [app csv_read_from].
    rewrite (proj2 (Ascii.eqb_neq c QUOTE)) by done. rewrite IH by set_solver. by rewrite <- !app_assoc.
  - rewrite IH by set_solver. by rewrite <- !app_assoc.
Qed.

(** A field, before the comma or the line feed that ends it. *)
Lemma read_field f sep rec b : sep = COMMA ∨ sep = LF →
  csv_read_from FieldStart [] rec (concat (field_pieces f) ++ sep :: b) =
  if Ascii.eqb sep COMMA then csv_read_from FieldStart [] (rec ++ [f]) b
  else (rec ++ [f] ::.) <$> csv_read_from FieldStart [] [] b.
Proof.
  intros Hs. assert (Hse : sep ≠ QUOTE) by (by destruct Hs as [-> | ->]).
  unfold field_pieces. destruct (fieldNeedsQuotes f) eqn:En.
  - cbn [concat]. rewrite concat_app. change (concat [[QUOTE]]) with [QUOTE]. rewrite <- !app_assoc.
    cbn [app csv_read_from]. change (Ascii.eqb QUOTE COMMA) with false. change (Ascii.eqb QUOTE LF) with false.
    change (Ascii.eqb QUOTE QUOTE) with true. cbn match.
    rewrite read_quoted by set_solver. cbn [app csv_read_from]. change (Ascii.eqb QUOTE QUOTE) with true. cbn match.
    rewrite (proj2 (Ascii.eqb_neq sep QUOTE)) by done. by destruct Hs as [-> | ->].
  - cbn [concat]. rewrite app_nil_r. unfold fieldNeedsQuotes in En.
    case_bool_decide as E1; [subst f; by destruct Hs as [-> | ->]|].
    case_bool_decide as E2; [done|]. apply orb_false_iff in En as [En _].
    destruct f as [|c f]; [done|]. cbn [existsb] in En. apply orb_false_iff in En as [Hc Hf].
    apply bool_decide_eq_false in Hc. cbn [app csv_read_from].
    rewrite !(proj2 (Ascii.eqb_neq c _)) by (intros ->; apply Hc; set_solver).
    rewrite read_plain by done. cbn [app csv_read_from]. by destruct Hs as [-> | ->].
Qed.

Lemma read_tail r : ∀ f rec b,
  csv_read_from FieldStart [] rec (concat (field_pieces f) ++ concat (record_pieces false r) ++ b) =
  (rec ++ f :: r ::.) <$> csv_read_from FieldStart [] [] b.
Proof.
  induction r as [|g r IH]; intros f rec b.
  - change (concat (record_pieces false []) ++ b) with (LF :: b). rewrite read_field by auto. done.
  - cbn [record_pieces]. rewrite !concat_app. change (concat [[COMMA]]) with [COMMA]. rewrite <- !app_assoc.
    cbn [app]. rewrite read_field by auto.
    change (Ascii.eqb COMMA COMMA) with true. cbn match. rewrite IH. by rewrite <- app_assoc.
Qed.

Lemma read_record r b : r ≠ [] → csv_read (record_bytes r ++ b) = (r ::.) <$> csv_read b.
Proof.
  intros Hr. destruct r as [|f r]; [done|]. unfold csv_read, record_bytes. cbn [record_pieces].
  rewrite app_nil_l, concat_app, <- app_assoc, read_tail. done.
Qed.

(** Any fields, whatever bytes they hold. *)
Theorem csv_roundtrip rs : Forall (λ r, r ≠ []) rs → csv_read (concat (map record_bytes rs)) = Some rs.
Proof.
  induction 1 as [|r rs Hr _ IH]; [done|]. cbn [map concat]. by rewrite read_record, IH by done.
Qed.
