(* ===== verification/ProxyCmd.v ===== *)
(** The commands of [src/cmd/go-route] that read what was recorded: [report], the period and grouping
    asked for and the report as a table and as CSV, and [explain], one decision as it is printed.

    What goes to standard output is the list of its lines; the cells of a table are parted by tabs,
    as they are handed to the tab writer, which aligns them. CSV goes through the buffers of [Csv]. *)
From Stdlib Require Import Ascii.
From S2P Require Import Prelude Sorting Errors Bytes Money Records Config Csv TenantIds UsageReport Clitime Display.

(** ** Asking *)

(** [src/cmd/go-route/report.go:71-110] buildSpec *)
Definition buildSpec (now : time) (since until groupBy tenant : string) (limit : Z) : result error ReportSpec :=
  match ParseWhen since now with
  | Err e => Err (Errorf "--since: %w" [AWrap e])
  | Ok sinceT =>
      match (if String.eqb until "" then Ok now
             else match ParseWhen until now with
                  | Err e => Err (Errorf "--until: %w" [AWrap e])
                  | Ok t => Ok t
                  end) with
      | Err e => Err e
      | Ok untilT =>
          let '(group, key) :=
            if String.eqb groupBy "" then (GroupByNone, "")
            else if String.eqb groupBy "model" then (GroupByModel, "")
            else if String.eqb groupBy "target" then (GroupByTarget, "")
            else if String.eqb groupBy "status" then (GroupByStatus, "")
            else if String.eqb groupBy "day" then (GroupByDay, "")
            else (GroupByMetadata, groupBy) in
          let spec := mkReportSpec tenant sinceT untilT group key limit in
          match ReportSpec_Validate spec with Some e => Err e | None => Ok spec end
      end
  end.

(** ** The table *)

(** A line, or the lines one tab writer aligns. *)
Inductive output := Line (s : string) | Table (rows : list string).

Definition TAB : string := String "009" "".
Definition cells_line (cells : list string) : string := "  " +:+ join TAB cells.

(** [src/cmd/go-route/report.go:282-295] comparisonTargets *)
Definition comparisonTargets (rows : list ReportRow) : list string :=
  sort_strings (elements (⋃ (map (λ row, dom (row_Comparisons row)) rows) : gset string)).

(** [src/cmd/go-route/report.go:297-305] groupLabel *)
Definition groupLabel (spec : ReportSpec) : string :=
  if String.eqb (rs_GroupBy spec) GroupByMetadata then rs_MetaKey spec
  else if String.eqb (rs_GroupBy spec) GroupByNone then ""
  else rs_GroupBy spec.

(** [src/cmd/go-route/report.go:307-315] formatCost *)
Definition formatCost (row : ReportRow) : string :=
  USD_Auto (row_Cost row) +:+ (if 0 <? row_Unpriced row then "†" else "").

Definition grouped (spec : ReportSpec) : bool := negb (String.eqb (rs_GroupBy spec) GroupByNone).

(** [src/cmd/go-route/report.go:183-199] header *)
Definition header (spec : ReportSpec) (targets : list string) : list string :=
  (if grouped spec then [groupLabel spec] else []) ++ ["requests"; "cost"] ++
  map (λ t, "vs " +:+ t) targets ++ ["p95 ttft"; "ok"; "fail"].

(** [src/cmd/go-route/report.go:201-229] printReportRow *)
Definition printReportRow (spec : ReportSpec) (targets : list string) (row : ReportRow) : list string :=
  (if grouped spec then [orDash (row_Key row)] else []) ++
  [humanCount (row_Requests row); formatCost row] ++
  map (λ t, match row_Comparisons row !! t with
            | None => "—"
            | Some c => if IsPartial c (row_Requests row) then USD_Auto (cmp_Cost c) +:+ "*" else USD_Auto (cmp_Cost c)
            end) targets ++
  [pretty (row_P95TTFTMs row) +:+ "ms"; pct (row_OK row) (row_Requests row);
   pct (wrap64 (row_Failed row + row_Truncated row)) (row_Requests row)].

(** [src/cmd/go-route/report.go:231-249] printTotalRow *)
Definition printTotalRow (spec : ReportSpec) (targets : list string) (total : ReportRow) : list string :=
  (if grouped spec then ["total"] else []) ++
  [humanCount (row_Requests total); formatCost total] ++
  map (λ t, match row_Comparisons total !! t with Some c => USD_Auto (cmp_Cost c) | None => "—" end) targets ++
  [""; ""; ""].

(** [src/cmd/go-route/report.go:317-323] rule *)
Definition rule (cols : nat) : list string := repeat "────────" cols.

(** [src/cmd/go-route/report.go:251-280] printFootnotes *)
Definition printFootnotes (r : Report) (targets : list string) : list output :=
  let total := rep_Total r in
  let partial := omap (λ t,
    match row_Comparisons total !! t with
    | Some c => if IsPartial c (row_Requests total)
                then Some (t +:+ " covers " +:+ pct (cmp_Requests c) (row_Requests total) +:+ " of requests")
                else None
    | None => None
    end) targets in
  [Line ""] ++
  (if Nat.ltb 0 (length targets)
   then [Line "  Comparisons are estimates: actual token counts repriced against";
         Line "  the alternative's rates. A different model produces different output."]
   else []) ++
  (if 0 <? row_Unpriced total
   then [Line ("  " +:+ pct (row_Unpriced total) (row_Requests total) +:+
               " of requests could not be priced and are excluded from cost.")]
   else []) ++
  (if Nat.ltb 0 (length partial) then [Line ("  * partial comparison: " +:+ join "; " partial +:+ ".")] else []) ++
  (if 0 <? rep_TruncatedGroups r
   then [Line ("  " +:+ pretty (rep_TruncatedGroups r) +:+ " further group(s) omitted by --limit.")] else []).

(** [src/cmd/go-route/report.go:149-181] printReportTable *)
Definition printReportTable (r : Report) (spec : ReportSpec) : list output :=
  let range := rep_Spec r in
  [Line ""; Line ("  " +:+ range_Tenant range +:+ " · " +:+ FormatMinute (range_Since range) +:+
                  " to " +:+ FormatMinute (range_Until range)); Line ""] ++
  if row_Requests (rep_Total r) =? 0 then [Line "  No requests in this period."; Line ""]
  else
    let targets := comparisonTargets (rep_Rows r) in
    let cols := header spec targets in
    [Table (map cells_line
       (cols :: map (printReportRow spec targets) (rep_Rows r) ++
        (if grouped spec && Nat.ltb 1 (length (rep_Rows r))
         then [rule (length cols); printTotalRow spec targets (rep_Total r)] else [])))] ++
    printFootnotes r targets ++ [Line ""].

(** ** CSV *)

(** [src/cmd/go-route/report.go:326-335] printReportCSV *)
Definition csv_head (spec : ReportSpec) (targets : list string) : list string :=
  [groupLabel spec; "requests"; "cost_usd"; "unpriced"] ++
  concat (map (λ t, ["vs_" +:+ t; "vs_" +:+ t +:+ "_coverage"]) targets) ++
  ["input_tokens"; "cached_tokens"; "output_tokens"; "p50_ttft_ms"; "p95_ttft_ms";
   "ok"; "failed"; "truncated"; "disconnected"].

(** [src/cmd/go-route/report.go:341-364] printReportCSV *)
Definition csv_record (targets : list string) (row : ReportRow) : list string :=
  [row_Key row; pretty (row_Requests row); FormatFloat 6 (Dollars (row_Cost row)); pretty (row_Unpriced row)] ++
  concat (map (λ t,
    let c := default (mkComparison 0 0) (row_Comparisons row !! t) in
    [FormatFloat 6 (Dollars (cmp_Cost c)); pretty (cmp_Requests c)]) targets) ++
  [pretty (Input (row_Usage row)); pretty (CacheRead (row_Usage row)); pretty (Output (row_Usage row));
   pretty (row_P50TTFTMs row); pretty (row_P95TTFTMs row); pretty (row_OK row); pretty (row_Failed row);
   pretty (row_Truncated row); pretty (row_Disconnected row)].

(** The records in turn, until a write fails. *)
Fixpoint write_records (b : bufio) (rs : list (list bytes)) : bufio * bool :=
  match rs with
  | [] => (b, negb (bw_failed b))
  | r :: rs => let '(b, ok) := csv_Write b r in if ok : bool then write_records b rs else (b, false)
  end.

Definition csv_records (r : Report) (spec : ReportSpec) : list (list bytes) :=
  let targets := comparisonTargets (rep_Rows r) in
  map (map lit) (csv_head spec targets :: map (csv_record targets) (rep_Rows r)).

(** Whether it returned no error, which is decided before the deferred [Flush].

    [src/cmd/go-route/report.go:325-369] printReportCSV *)
Definition printReportCSV (r : Report) (spec : ReportSpec) (stdout : device) : device * bool :=
  let '(b, ok) := write_records (NewWriter stdout) (csv_records r spec) in
  (bw_dev (bw_Flush b), ok).

(** ** The command *)

(** [src/cmd/go-route/main.go:44-53] storeDSN *)
Definition storeDSN (dsnFlag cfgPath : string) (cfg : Config) : result error string :=
  if negb (String.eqb dsnFlag "") then Ok dsnFlag
  else if String.eqb (sink_DSN (c_Sink cfg)) ""
  then Err (Errorf "no decision store configured: set sink.dsn in %s, or pass --dsn" [AStr cfgPath])
  else Ok (sink_DSN (c_Sink cfg)).

(** What is printed of a report; the encoder of JSON is not modelled. *)
Inductive printed := PrintedJSON (r : Report) | PrintedCSV (stdout : device) (ok : bool) | PrintedTable (lines : list output).

(** [load] is what reading the configuration came to, and [open] what opening the store and asking it does.

    [src/cmd/go-route/report.go:112-147] runReport *)
Definition runReport (dsnFlag cfgPath : string) (load : result error Config)
    (open : string → result error (ReportSpec → result error Report)) (stdout : device) (spec : ReportSpec)
    (format : string) : result error printed :=
  let! cfg := load in
  let! dsn := storeDSN dsnFlag cfgPath cfg in
  let! aggregate := open dsn in
  let! report := aggregate spec in
  if String.eqb format "json" then Ok (PrintedJSON report)
  else if String.eqb format "csv" then let '(d, ok) := printReportCSV report spec stdout in Ok (PrintedCSV d ok)
  else if String.eqb format "table" then Ok (PrintedTable (printReportTable report spec))
  else Err (Errorf "unknown --format %q: use table, json, or csv" [AStr format]).

(** ** Explaining a decision *)

(** [src/cmd/go-route/explain.go:203-205] row *)
Definition row (label value : string) : string := "    " +:+ label +:+ TAB +:+ value.

(** [src/cmd/go-route/explain.go:195-201] section *)
Definition section (title : string) (rows : list string) : list output := [Line ("  " +:+ title); Table rows; Line ""].

Section Explain.
(** How a failure's message reads, [strconv.Quote], and [UUID.String]. *)
Context (render : text → string) (Quote : string → string) (uuid_string : uuid → string).

(** The attempts are numbered from one.

    [src/cmd/go-route/explain.go:138-157] printAttempts *)
Definition printAttempts (attempts : list Attempt) : list output :=
  if bool_decide (attempts = []) then []
  else
    [Line "  Attempts";
     Table (imap (λ i a,
       let '(outcome, detail) := match at_Failure a with
                                 | Some f => (af_Kind f, TAB +:+ render (af_Message f))
                                 | None => ("ok", "")
                                 end in
       "    " +:+ pretty (Z.of_nat i + 1) +:+ TAB +:+ at_Target a +:+ TAB +:+ outcome +:+ TAB +:+
       pretty (at_DurationMs a) +:+ "ms" +:+ detail) attempts);
     Line ""].

(** [src/cmd/go-route/explain.go:159-193] printCost *)
Definition printCost (d : RoutingDecision) : list output :=
  Line "  Cost" ::
  match d_Cost d with
  | None =>
      let reason := if String.eqb (ChosenTarget (d_Outcome d)) "" then "nothing was served"
                    else "no rates configured for this target" in
      [Table ["    actual" +:+ TAB +:+ "unpriced"; "    " +:+ TAB +:+ reason]; Line ""]
  | Some c =>
      [Table
        (["    actual" +:+ TAB +:+ USD_String (Actual c) +:+ TAB +:+ "(price table " +:+ PriceTableVersion c +:+ ")"] ++
         map (λ cf, "    vs " +:+ cf_Target cf +:+ TAB +:+ USD_String (cf_Cost cf) +:+ TAB +:+
                    signed (wrap64 (Actual c - cf_Cost cf))) (Counterfactuals c) ++
         (if Nat.ltb 0 (length (UnpricedComparisons c))
          then ["    not compared" +:+ TAB +:+ join ", " (UnpricedComparisons c)] else []))] ++
      (if Nat.ltb 0 (length (Counterfactuals c))
       then [Line "                    estimated: actual token counts repriced"] else []) ++
      [Line ""]
  end.

(** [src/cmd/go-route/explain.go:81-136] printExplain *)
Definition printExplain (d : RoutingDecision) : list output :=
  let o := d_Outcome d in
  let u := out_Usage o in
  let chosen := ChosenTarget o in
  [Line ""; Line ("  " +:+ DecisionID_String uuid_string (d_ID d));
   Line ("  " +:+ FormatSecond (d_OccurredAt d) +:+ " · tenant " +:+ d_Tenant d); Line ""] ++
  section "Request"
    ([row "model" (rs_RequestedModel (d_Request d)); row "stream" (yesNo (rs_Stream (d_Request d)))] ++
     (if Nat.ltb 0 (size (rs_Metadata (d_Request d)))
      then [row "metadata" (formatMetadata (rs_Metadata (d_Request d)))] else [])) ++
  section "Decision"
    [row "reason" (formatReason Quote (ladder_Reason (d_Ladder d)));
     row "ladder" (formatLadder (ladder_Targets (d_Ladder d)));
     row "chose" (if String.eqb chosen "" then "nothing — every target failed" else chosen);
     row "status" (out_Status o)] ++
  printAttempts (out_Attempts o) ++
  (if bool_decide (u = zero_TokenUsage) then []
   else section "Usage"
     [row "input" (pretty (Input u) +:+
        (if 0 <? CacheRead u then TAB +:+ "(" +:+ pretty (CacheRead u) +:+ " cached)" else ""));
      row "output" (pretty (Output u) +:+
        (if 0 <? Reasoning u then TAB +:+ "(" +:+ pretty (Reasoning u) +:+ " reasoning)" else ""))]) ++
  printCost d ++
  section "Timing"
    ((if 0 <? out_TTFTMs o then [row "first token" (pretty (out_TTFTMs o) +:+ "ms")] else []) ++
     [row "total" (pretty (out_TotalMs o) +:+ "ms")]) ++
  [Line ""].

(** What is printed of a decision; the encoder of JSON is not modelled. *)
Inductive explained := ExplainedJSON (d : RoutingDecision) | ExplainedText (lines : list output).

(** [src/cmd/go-route/explain.go:42-79] runExplain *)
Definition runExplain (uuid_parse : string → result error uuid) (dsnFlag cfgPath : string) (load : result error Config)
    (open : string → result error (DecisionID → result error RoutingDecision)) (rawID : string) (jsonOut : bool)
    : result error explained :=
  let! id := ParseDecisionID uuid_parse rawID in
  let! cfg := load in
  let! dsn := storeDSN dsnFlag cfgPath cfg in
  let! get := open dsn in
  match get id with
  | Err e => Err (if Is e ErrDecisionNotFound
                  then Errorf "no decision %s; it may have aged out of retention" [AStr rawID] else e)
  | Ok d => Ok (if jsonOut then ExplainedJSON d else ExplainedText (printExplain d))
  end.
End Explain.

(** ** The period *)

(** A specification the command goes on with is of a period that is not empty, and groups by what
    was asked: a word that is no grouping is a metadata key. *)
Lemma buildSpec_ok now since until groupBy tenant limit s :
  buildSpec now since until groupBy tenant limit = Ok s →
  rs_Since s < rs_Until s ∧ rs_Tenant s = tenant ∧ rs_Limit s = limit ∧ 0 ≤ limit ≤ MaxReportLimit ∧
  (until = "" → rs_Until s = now) ∧
  (rs_GroupBy s = GroupByMetadata ∧ rs_MetaKey s = groupBy ∨
   rs_GroupBy s = (if String.eqb groupBy "" then GroupByNone else groupBy) ∧ rs_MetaKey s = "").
Proof.
  unfold buildSpec. destruct (ParseWhen since now) as [a|e]; [|done].
  destruct (if String.eqb until "" then _ else _) as [b|e] eqn:Eu; [|done].
  set (gk := if String.eqb groupBy "" then _ else _).
  assert (Hg : gk.1 = GroupByMetadata ∧ gk.2 = groupBy ∨
               gk.1 = (if String.eqb groupBy "" then GroupByNone else groupBy) ∧ gk.2 = "").
  { unfold gk. repeat match goal with |- context [String.eqb groupBy ?x] => destruct (String.eqb_spec groupBy x) end;
      subst; auto. }
  destruct gk as [g k]. cbn [fst snd] in Hg. cbv zeta. destruct (ReportSpec_Validate _) as [e|] eqn:Ev; [done|].
  intros [= <-]. cbn [rs_Since rs_Until rs_Tenant rs_Limit rs_GroupBy rs_MetaKey].
  unfold ReportSpec_Validate in Ev. cbn [rs_Since rs_Until rs_Tenant rs_Limit rs_GroupBy rs_MetaKey] in Ev.
  unfold Before in Ev. repeat (case_match; [done|]). bool_prop.
  split_and!; try done; try lia. intros ->. by simplify_eq/=.
Qed.

(** ** The comparisons shown *)

(** Every target some row is compared with has its column, once, in order. *)
Lemma comparisonTargets_columns rows :
  StronglySorted (not_after string_lt) (comparisonTargets rows) ∧ NoDup (comparisonTargets rows) ∧
  ∀ t, t ∈ comparisonTargets rows ↔ ∃ row, row ∈ rows ∧ is_Some (row_Comparisons row !! t).
Proof.
  unfold comparisonTargets, sort_strings. split_and!.
  - apply sort_slice_sorted. apply _.
  - rewrite sort_slice_perm. apply NoDup_elements.
  - intros t. rewrite sort_slice_elem, elem_of_elements, elem_of_union_list. setoid_rewrite list_elem_of_fmap.
    split.
    + intros (X & (row & -> & Hr) & Ht). exists row. by rewrite <- elem_of_dom.
    + intros (row & Hr & Ht). exists (dom (row_Comparisons row)). rewrite elem_of_dom. eauto.
Qed.

(** A row of the table, and the total under it, has a cell for each column. *)
Lemma table_widths spec targets row total :
  length (printReportRow spec targets row) = length (header spec targets) ∧
  length (printTotalRow spec targets total) = length (header spec targets).
Proof.
  unfold printReportRow, printTotalRow, header. rewrite !length_app, !length_map. by destruct (grouped spec).
Qed.

(** ** CSV *)

Lemma length_concat_pairs {A B} (f : A → list B) l :
  (∀ x, length (f x) = 2%nat) → length (concat (map f l)) = (2 * length l)%nat.
Proof. intros Hf. induction l as [|x l IH]; [done|]. cbn [map concat]. rewrite length_app, Hf, IH. cbn. lia. Qed.

Lemma csv_record_width spec targets row : length (csv_record targets row) = length (csv_head spec targets).
Proof.
  unfold csv_record, csv_head. rewrite !length_app, !length_concat_pairs by done. done.
Qed.

Lemma write_records_roomy rs : ∀ b, roomy b →
  ∃ b', write_records b rs = (b', true) ∧ roomy b' ∧ stream b' = stream b ++ concat (map record_bytes rs).
Proof.
  induction rs as [|r rs IH]; intros b Hb.
  - exists b. pose proof Hb as (_ & Hf & _). cbn [write_records map concat]. rewrite Hf, app_nil_r. done.
  - cbn [write_records map concat]. unfold csv_Write. cbv zeta.
    destruct (bw_writes_roomy (record_pieces true r) b Hb) as [Hr Er]. pose proof Hr as (_ & Hf & _). rewrite Hf.
    destruct (IH _ Hr) as (b' & Ew & Hb' & Es). exists b'. rewrite Es, Er, <- app_assoc. done.
Qed.

(** What the command hands to a file with room for it. *)
Lemma printReportCSV_bytes r spec :
  printReportCSV r spec (mkDevice [] None) = (mkDevice (concat (map record_bytes (csv_records r spec))) None, true).
Proof.
  unfold printReportCSV.
  destruct (write_records_roomy (csv_records r spec) (NewWriter (mkDevice [] None))) as (b & Ew & Hb & Es).
  { unfold roomy, NewWriter. cbn. split_and!; first [done|apply Nat.le_0_l]. }
  rewrite Ew. destruct (bw_Flush_roomy b Hb) as ((Hr & _ & _) & Ef & Eb). f_equal.
  unfold stream in *. rewrite Eb, Es, app_nil_r in Ef.
  destruct (bw_dev (bw_Flush b)) as [out room]. cbn in *. by subst.
Qed.

(** C39. The CSV report: a file with room takes all of it without an error, and reading it, with
    fields quoted as in RFC 4180 and records ended by a line feed, gives back the heading and a record
    for each row, in order, cell for cell, whatever bytes the group keys and the names of targets hold.
    Every record is as wide as the heading. *)
Theorem report_csv_reads_back r spec :
  let targets := comparisonTargets (rep_Rows r) in
  ∃ text, printReportCSV r spec (mkDevice [] None) = (mkDevice text None, true) ∧
    csv_read text = Some (map (map lit) (csv_head spec targets :: map (csv_record targets) (rep_Rows r))) ∧
    ∀ row, row ∈ rep_Rows r → length (csv_record targets row) = length (csv_head spec targets).
Proof.
  cbv zeta. eexists. split; [apply printReportCSV_bytes|]. split.
  - apply csv_roundtrip. unfold csv_records. rewrite Forall_map, Forall_forall. intros rec [-> |Hr]%elem_of_cons.
    + done.
    + apply list_elem_of_fmap in Hr as (row & -> & _). done.
  - intros row _. apply csv_record_width.
Qed.

(** *** A failure the command does not report

    A report that fits the writer's buffer is written to the file only by the deferred [Flush],
    after the error it returns was taken: a full disk loses all of it, and the command succeeds. *)
Lemma write_records_buffered rs : ∀ b, bw_failed b = false →
  (length (bw_buf b) + length (concat (map record_bytes rs)) ≤ buf_size)%nat →
  write_records b rs = (mkBufio (bw_buf b ++ concat (map record_bytes rs)) false (bw_dev b), true).
Proof.
  induction rs as [|r rs IH]; intros b Hf Hl; cbn [write_records map concat] in *.
  - rewrite Hf, app_nil_r. by destruct b; cbn in *; subst.
  - rewrite length_app in Hl. unfold csv_Write. cbv zeta. rewrite bw_writes_buffered by (done || (unfold record_bytes in Hl; lia)).
    cbn [bw_failed negb]. rewrite IH; cbn [bw_failed bw_buf bw_dev]; [|done|rewrite length_app; unfold record_bytes in *; lia].
    by rewrite <- app_assoc.
Qed.

Theorem report_csv_failure_hidden r spec room :
  (length (concat (map record_bytes (csv_records r spec))) ≤ buf_size)%nat →
  (printReportCSV r spec (mkDevice [] (Some room))).2 = true.
Proof.
  intros Hl. unfold printReportCSV. by rewrite write_records_buffered.
Qed.

(** ** An example: a group key with a comma and a quote in it *)

Definition ex_csv_row (key : string) (cmps : gmap string Comparison) : ReportRow :=
  mkReportRow key 1200 4200000 1 (mkTokenUsage 10 20 0 5 0) cmps 1199 1 0 0 120 480 900.
Definition ex_csv_key : string := "chat, " +:+ str [QUOTE] +:+ "beta" +:+ str [QUOTE; LF].
Definition ex_csv_report : Report :=
  mkReport (mkReportRange "default" 0 1)
    [ex_csv_row ex_csv_key {["small" := mkComparison 1000000 1200]}; ex_csv_row "" ∅] (ex_csv_row "" ∅) 0.
Definition ex_csv_spec : ReportSpec := mkReportSpec "default" 0 1 GroupByMetadata "feature" 100.

Lemma report_csv_reads_back_witness :
  ∃ text, printReportCSV ex_csv_report ex_csv_spec (mkDevice [] None) = (mkDevice text None, true) ∧
    csv_read text = Some (map (map lit)
      [csv_head ex_csv_spec ["small"]; csv_record ["small"] (ex_csv_row ex_csv_key {["small" := mkComparison 1000000 1200]});
       csv_record ["small"] (ex_csv_row "" ∅)]).
Proof.
  destruct (report_csv_reads_back ex_csv_report ex_csv_spec) as (text & Hp & Hr & _).
  exists text. split; [exact Hp|]. etrans; [exact Hr|by vm_compute].
Defined.

(** A full device: nothing is written and no error is returned. *)
Example ex_full_disk :
  printReportCSV ex_csv_report ex_csv_spec (mkDevice [] (Some 0%nat)) = (mkDevice [] (Some 0%nat), true).
Proof. by vm_compute. Qed.
