(* ===== verification/AdminCmd.v ===== *)
(** The commands of [src/cmd/go-route-admin]: what their flags are turned into, who they act as, and
    what they print.

    The database is opened and the record partitions ensured before a command runs; what the commands
    call is [Service] and [Users]. [create-token] is modelled through to the credential it leaves. *)
From Stdlib Require Import Ascii.
From S2P Require Import Prelude Sorting Errors Env Bytes Utf8 Accounts Tokens Programs AdminDb AccountStore Users Service ServiceWorld ServiceProps ServiceKeys Provider Respond AdminGate AdminGateProps AdminCredentials Config Clitime Display ProxyCmd Password.

(** ** [time.Duration] as text *)

(** The digits of a fraction of [width] places, without the zeros at its end. *)
Definition fraction (width z : Z) : string :=
  let ds := reverse (lit (zero_padded width z)) in
  let ds := reverse ((fix go (b : bytes) := match b with c :: r => if Ascii.eqb c "0" then go r else b | [] => [] end) ds) in
  if bool_decide (ds = []) then "" else "." +:+ str ds.

(** [time.Duration.String] *)
Definition duration_String (d : duration) : string :=
  let u := Z.abs d in
  (if d <? 0 then "-" else "") +:+
  (if u =? 0 then "0s"
   else if u <? Microsecond then pretty u +:+ "ns"
   else if u <? Millisecond then pretty (u / Microsecond) +:+ fraction 3 (u mod Microsecond) +:+ "µs"
   else if u <? Second then pretty (u / Millisecond) +:+ fraction 6 (u mod Millisecond) +:+ "ms"
   else
     let secs := u / Second in
     (if secs <? 60 then ""
      else (if secs <? 3600 then "" else pretty (secs / 3600) +:+ "h") +:+ pretty (secs / 60 mod 60) +:+ "m") +:+
     pretty (secs mod 60) +:+ fraction 9 (u mod Second) +:+ "s").

Example durations_shown :
  map duration_String [0; 1; 1500; 2000000; 90 * Second; 2 * Minute; 24 * Hour; 1500 * Millisecond; - Hour] =
  ["0s"; "1ns"; "1.5µs"; "2ms"; "1m30s"; "2m0s"; "24h0m0s"; "1.5s"; "-1h0m0s"].
Proof. by vm_compute. Qed.

(** ** Settings *)

(** [src/internal/bootstrap/admin.go:15-21] DefaultAdminListen, DefaultAdminRequestTimeout, MaxAdminRequestTimeout, DefaultAccessTokenTTL, AccessTokenIssuer *)
Definition DefaultAdminListen : string := "127.0.0.1:4001".
Definition DefaultAdminRequestTimeout : duration := 10 * Second.
Definition MaxAdminRequestTimeout : duration := 2 * Minute.
Definition DefaultAccessTokenTTL : duration := 15 * Minute.
Definition AccessTokenIssuer : string := "go-route-admin".

(** [src/internal/bootstrap/admin.go:23-31] AdminOptions *)
Record AdminOptions := mkAdminOptions {
  ao_DSN : string;
  ao_Listen : string;
  ao_RequestTimeout : duration;
  ao_JWTSecret : bytes;
  ao_AccessTokenTTL : duration;
}.

Section Settings.
(** [os.Getenv], and the [--dsn] flag. *)
Context (Getenv : string → string) (dsnFlag : string).

(** [src/cmd/go-route-admin/main.go:48-57] resolveDSN *)
Definition resolveDSN : result string string :=
  if negb (String.eqb dsnFlag "") then Ok dsnFlag
  else if negb (String.eqb (Getenv "DATABASE_URL") "") then Ok (Getenv "DATABASE_URL")
  else Err "admin: no database configured: pass --dsn, or set DATABASE_URL".

(** [src/cmd/go-route-admin/serve.go:165-170] resolveJWTSecret *)
Definition resolveJWTSecret (flag : string) : string :=
  if negb (String.eqb flag "") then flag else Getenv "GO_ROUTE_JWT_SECRET".

Definition LINE_ITEM : string := String "010" "  - ".

(** Everything that is wrong, sorted.

    [src/cmd/go-route-admin/serve.go:119-163] serveOptions *)
Definition serveOptions (listen : string) (requestTimeout : duration) (jwtSecret : string) (accessTokenTTL : duration)
    : result string AdminOptions :=
  let secret := resolveJWTSecret jwtSecret in
  let errs :=
    (match resolveDSN with Err e => [TrimPrefix e "admin: "] | Ok _ => [] end) ++
    (if String.eqb listen "" then ["--listen is required"] else []) ++
    (if (requestTimeout <=? 0) || (MaxAdminRequestTimeout <? requestTimeout)
     then ["--request-timeout must be above 0s and at most " +:+ duration_String MaxAdminRequestTimeout +:+
           ", got " +:+ duration_String requestTimeout] else []) ++
    (if String.eqb secret "" then ["no signing secret configured: pass --jwt-secret, or set GO_ROUTE_JWT_SECRET"]
     else if blen (lit secret) <? MinSecretBytes
     then ["--jwt-secret must be at least " +:+ pretty MinSecretBytes +:+ " bytes, got " +:+ pretty (blen (lit secret))]
     else []) ++
    (if (accessTokenTTL <? MinAccessTTL) || (MaxAccessTTL <? accessTokenTTL)
     then ["--access-token-ttl must be between " +:+ duration_String MinAccessTTL +:+ " and " +:+
           duration_String MaxAccessTTL +:+ ", got " +:+ duration_String accessTokenTTL] else []) in
  if Nat.ltb 0 (length errs) then Err ("admin: invalid:" +:+ LINE_ITEM +:+ join LINE_ITEM (sort_strings errs))
  else Ok (mkAdminOptions (match resolveDSN with Ok dsn => dsn | Err _ => "" end) listen requestTimeout (lit secret)
             accessTokenTTL).
End Settings.

(** ** Who a command acts as *)

(** [src/cmd/go-route-admin/tokens.go:196-198] actorSafe *)
Definition actor_char (c : ascii) : bool :=
  between 65 90 c || between 97 122 c || is_digit c || bool_decide (c ∈ lit "._@+-").

(** [ReplaceAllString]: each rune that is not safe, and each byte of what is no rune, is one
    underscore. Every rune takes a byte at least. *)
Fixpoint fold_unsafe (fuel : nat) (b : bytes) : bytes :=
  match fuel, b with
  | S fuel, c :: _ =>
      (if actor_char c then c else "_"%char) :: fold_unsafe fuel (drop (default 1%nat (rune_width b)) b)
  | _, _ => []
  end.

(** [src/cmd/go-route-admin/tokens.go:189-194] osUserActor *)
Definition osUserActor (username : string) : string :=
  if String.eqb username "" then "cli"
  else "cli:" +:+ str (fold_unsafe (String.length username) (lit username)).

(** [src/cmd/go-route-admin/tokens.go:179-187] cliActor *)
Definition cliActor (current : result error string) : string :=
  match current with Err _ => "cli" | Ok username => osUserActor username end.

(** ** create-token *)

(** [src/cmd/go-route-admin/tokens.go:75-97] credentialSpec *)
Definition credentialSpec (name role expiresIn : string) (now : time) : result error NewAdminCredential :=
  if negb (Role_Valid role) then Err (Errorf "--role: %q is neither admin nor readonly" [AStr role])
  else if String.eqb expiresIn "" then Ok (mkNewAdminCredential name role None)
  else match ParseDuration expiresIn with
       | Err e => Err (Errorf "--expires-in: %w" [AWrap e])
       | Ok d =>
           if d <=? 0
           then Err (Errorf "--expires-in: %s is not a lifetime; leave the flag off for a credential that never expires"
                       [AStr (duration_String d)])
           else Ok (mkNewAdminCredential name role (Some (Add now d)))
       end.

(** [src/cmd/go-route-admin/tokens.go:51-64] createTokenCmd *)
Definition create_token (sha256 : bytes → bytes) (current : result error string) (name role expiresIn : string)
    (now : time) : svc (result error IssuedAdminCredential) :=
  match credentialSpec name role expiresIn now with
  | Err e => Ret (Err e)
  | Ok spec => Credentials_Create sha256 (mkWrite (cliActor current)) spec
  end.

(** ** What is printed *)

(** A pool opened for one command. *)
Inductive pool_event := CommandPoolOpened | CommandPoolClosed.

(** [src/cmd/go-route-admin/tokens.go:233-238] roleSummary *)
Definition roleSummary (r : Role) : string :=
  if String.eqb r RoleReadonly then "reads only; any change is refused with 403" else "the whole API".

(** [src/cmd/go-route-admin/tokens.go:240-245] expiryPhrase *)
Definition expiryPhrase (at_ : option time) : string :=
  match at_ with None => "never" | Some t => FormatMinute t +:+ " UTC" end.

(** [src/cmd/go-route-admin/tokens.go:265-270] whenOrNever *)
Definition whenOrNever (t : option time) : string := match t with None => "—" | Some t => FormatMinute t end.

(** [src/cmd/go-route-admin/tokens.go:247-255] expiryCell *)
Definition expiryCell (c : AdminCredential) (now : time) : string :=
  whenOrNever (ac_ExpiresAt c) +:+ (if AdminCredential_Expired c now then " (expired)" else "").

(** [src/cmd/go-route-admin/tokens.go:261-263] display *)
Definition display (prefix : string) : string := prefix +:+ "…".

(** [src/cmd/go-route-admin/tokens.go:257-259] revokedLine *)
Definition revokedLine (c : AdminCredential) : string :=
  "revoked " +:+ ac_Name c +:+ " (" +:+ display (ac_Prefix c) +:+ "), last used " +:+ whenOrNever (ac_LastUsedAt c).

(** [src/cmd/go-route-admin/tokens.go:216-231] printCredentials *)
Definition printCredentials (creds : list AdminCredential) (now : time) : list output :=
  if bool_decide (creds = [])
  then [Line "no admin credentials; mint one with: go-route-admin create-token --name <name>"]
  else [Table (map (join TAB)
    (["NAME"; "TOKEN"; "ROLE"; "CREATED"; "LAST USED"; "EXPIRES"; "REVOKED"] ::
     map (λ c, [ac_Name c; display (ac_Prefix c); ac_Role c; FormatDate (ac_CreatedAt c);
                whenOrNever (ac_LastUsedAt c); expiryCell c now; whenOrNever (ac_RevokedAt c)]) creds))].

(** [src/cmd/go-route-admin/users.go:202-217] printUsers *)
Definition printUsers (users : list AdminUser) : list output :=
  if bool_decide (users = [])
  then [Line "no admin users; create one with: go-route-admin create-user --email <email>"]
  else [Table (map (join TAB)
    (["EMAIL"; "ROLE"; "CREATED"; "LAST LOGIN"; "PASSWORD SET"; "DISABLED"] ::
     map (λ u, [au_Email u; au_Role u; FormatDate (au_CreatedAt u); whenOrNever (au_LastLoginAt u);
                FormatDate (au_PasswordChangedAt u); whenOrNever (au_DisabledAt u)]) users))].

Section Printing.
Context (uuid_String : uuid → string).

(** [src/cmd/go-route-admin/tokens.go:200-214] printIssuedCredential *)
Definition printIssuedCredential (issued : IssuedAdminCredential) : list output :=
  let cred := ic_Credential issued in
  [Line ""; Line ("  " +:+ ac_Name cred);
   Line ("  id " +:+ uuid_String (ac_ID cred));
   Line ("  role " +:+ ac_Role cred +:+ " (" +:+ roleSummary (ac_Role cred) +:+ ")");
   Line ("  expires " +:+ expiryPhrase (ac_ExpiresAt cred)); Line "";
   Line ("  " +:+ ic_Secret issued); Line "";
   Line "  This token is shown once and cannot be shown again: only its";
   Line "  SHA-256 is stored. Lose it and you revoke this credential and";
   Line "  mint another."; Line "";
   Line "  Use it as:  Authorization: Bearer <token>"; Line ""].

(** [src/cmd/go-route-admin/users.go:185-200] printCreatedUser *)
Definition printCreatedUser (created : CreatedAdminUser) : list output :=
  let user := cu_User created in
  [Line ""; Line ("  " +:+ au_Email user);
   Line ("  id " +:+ uuid_String (au_ID user));
   Line ("  role " +:+ au_Role user +:+ " (" +:+ roleSummary (au_Role user) +:+ ")"); Line ""] ++
  if String.eqb (cu_Password created) "" then [Line "  Password set to the one you supplied; it is not echoed here."; Line ""]
  else
    [Line ("  " +:+ cu_Password created); Line "";
     Line "  This password is shown once and cannot be shown again: only an";
     Line "  argon2id hash of it is stored. Lose it and set another with";
     Line "  set-password."; Line "";
     Line "  Log in at:  POST /admin/v1/auth/login"; Line ""].
End Printing.

(** ** The commands *)

(** A pool for the one command, and a partition for the audit row it writes; [k] is the use case.

    [src/cmd/go-route-admin/users.go:158-183] withUsers *)
Definition withUsers {A} (dsn : result string string) (connect ensure : option error) (refuse : error → A) (k : A)
    : list pool_event * A :=
  match dsn, connect, ensure with
  | Err msg, _, _ => ([], refuse (Sentinel msg))
  | _, Some e, _ => ([], refuse e)
  | _, _, Some e => ([CommandPoolOpened; CommandPoolClosed], refuse e)
  | _, _, _ => ([CommandPoolOpened; CommandPoolClosed], k)
  end.

(** [src/cmd/go-route-admin/tokens.go:153-177] withCredentials *)
Definition withCredentials {A} (dsn : result string string) (connect ensure : option error) (refuse : error → A) (k : A)
    : list pool_event * A := withUsers dsn connect ensure refuse k.

Section Commands.
Context `{Jwt} (sha256 : bytes → bytes) (uuid_String : uuid → string) (current : result error string).

(** No issuer: nothing here starts a session. *)
Definition command_users : Users := NewUsers None 0.

(** [src/cmd/go-route-admin/users.go:46-60] createUserCmd *)
Definition create_user (email role plain : string) : uprog (result error (list output)) :=
  if negb (Role_Valid role) then Ret (Err (Errorf "--role: %q is neither admin nor readonly" [AStr role]))
  else try created <- Create sha256 command_users (mkWrite (cliActor current)) (mkNewAdminUser email role plain);
       Ret (Ok (printCreatedUser uuid_String created)).

(** [src/cmd/go-route-admin/users.go:81-93] listUsersCmd *)
Definition list_users (jsonOut : bool) : uprog (result error (list AdminUser + list output)) :=
  try users <- List_users;
  Ret (Ok (if jsonOut then inl users else inr (printUsers users))).

(** [src/cmd/go-route-admin/users.go:111-121] disableUserCmd *)
Definition disable_user (email : string) : uprog (result error (list output)) :=
  try user <- Disable (mkWrite (cliActor current)) email;
  Ret (Ok [Line ("disabled " +:+ au_Email user +:+ " (" +:+ au_Role user +:+ "), last login " +:+
                 whenOrNever (au_LastLoginAt user))]).

(** [src/cmd/go-route-admin/users.go:139-148] setPasswordCmd *)
Definition set_password (email plain : string) : uprog (result error (list output)) :=
  try changed <- SetPassword sha256 (mkWrite (cliActor current)) email plain;
  Ret (Ok (printCreatedUser uuid_String changed)).

(** [src/cmd/go-route-admin/tokens.go:111-123] listTokensCmd *)
Definition list_tokens (jsonOut : bool) (now : time) : svc (result error (list AdminCredential + list output)) :=
  try creds <- Credentials_List;
  Ret (Ok (if jsonOut then inl creds else inr (printCredentials creds now))).

(** [src/cmd/go-route-admin/tokens.go:140-149] revokeTokenCmd *)
Definition revoke_token (ref : string) : svc (result error (list output)) :=
  try cred <- Credentials_Revoke (mkWrite (cliActor current)) ref;
  Ret (Ok [Line (revokedLine cred)]).
End Commands.

(** ** Assembling the service *)

Inductive build_event := PoolOpened | MaintenanceStarted | MaintenanceStopped | PoolClosed.

Section Build.
Context (sha256 : bytes → bytes) `{Jwt} (render : text → string) (read_token : bytes → token).

(** What connecting and ensuring the partitions come to, and the specification compiled in; with
    what was opened and closed on the way.

    [src/internal/bootstrap/admin.go:40-92] BuildAdmin *)
Definition BuildAdmin (connect ensure : option error) (a : Authenticators)
    (spec : result error (request → option validation_refusal)) (opts : AdminOptions)
    : list build_event * result error Server :=
  match connect with
  | Some e => ([], Err e)
  | None =>
      match ensure with
      | Some e => ([PoolOpened; PoolClosed], Err e)
      | None =>
          let undo := [PoolOpened; MaintenanceStarted; MaintenanceStopped; PoolClosed] in
          match NewIssuer (ao_JWTSecret opts) AccessTokenIssuer (ao_AccessTokenTTL opts) with
          | Err e => (undo, Err e)
          | Ok issuer =>
              let a := mkAuthenticators (at_creds a) (at_creds_fault a) (at_users a) (at_users_fault a) (Some issuer)
                         (at_now a) in
              match NewServer render sha256 read_token a true true spec (ao_RequestTimeout opts) with
              | Err e => (undo, Err e)
              | Ok server => ([PoolOpened; MaintenanceStarted], Ok server)
              end
          end
      end
  end.

(** The settings the command goes on with. *)
Lemma serveOptions_Ok Getenv dsnFlag listen requestTimeout jwtSecret ttl o :
  serveOptions Getenv dsnFlag listen requestTimeout jwtSecret ttl = Ok o →
  resolveDSN Getenv dsnFlag = Ok (ao_DSN o) ∧ ao_Listen o = listen ∧ listen ≠ "" ∧
  ao_RequestTimeout o = requestTimeout ∧ 0 < requestTimeout ≤ MaxAdminRequestTimeout ∧
  ao_JWTSecret o = lit (resolveJWTSecret Getenv jwtSecret) ∧ MinSecretBytes ≤ blen (ao_JWTSecret o) ∧
  ao_AccessTokenTTL o = ttl ∧ MinAccessTTL ≤ ttl ≤ MaxAccessTTL.
Proof.
  unfold serveOptions. set (secret := resolveJWTSecret Getenv jwtSecret). cbv zeta.
  destruct (resolveDSN Getenv dsnFlag) as [dsn|e]; [|done].
  destruct (String.eqb_spec listen "") as [?|Hl]; [done|].
  destruct ((requestTimeout <=? 0) || _) eqn:Et; [done|]. destruct (String.eqb secret ""); [done|].
  destruct (blen (lit secret) <? MinSecretBytes) eqn:Es; [done|].
  destruct ((ttl <? MinAccessTTL) || _) eqn:Ea; [done|]. cbn [app length Nat.ltb Nat.leb].
  intros [= <-]. bool_prop. cbn. split_and!; done || lia.
Qed.

(** Every way out of [BuildAdmin] but the last closes what it opened, the maintenance loop before the
    pool it uses. *)
Lemma BuildAdmin_undoes connect ensure a spec opts evs e :
  BuildAdmin connect ensure a spec opts = (evs, Err e) →
  evs ∈ [[]; [PoolOpened; PoolClosed]; [PoolOpened; MaintenanceStarted; MaintenanceStopped; PoolClosed]].
Proof. unfold BuildAdmin. repeat (case_match; simplify_eq/=; intros; simplify_eq/=; try set_solver). Qed.

(** Settings that pass the command's own checks are never refused later: with the database there and
    the specification sound, the service is built, and its write deadline outlasts a request's. *)
Theorem accepted_settings_build Getenv dsnFlag listen requestTimeout jwtSecret ttl o a vspec :
  serveOptions Getenv dsnFlag listen requestTimeout jwtSecret ttl = Ok o →
  ∃ srv, BuildAdmin None None a (Ok vspec) o = ([PoolOpened; MaintenanceStarted], Ok srv) ∧
         requestTimeout < srv_WriteTimeout srv.
Proof.
  intros (_ & _ & _ & Et & Ht & _ & Hs & Ea & Ha)%serveOptions_Ok. unfold BuildAdmin, NewIssuer, NewServer.
  rewrite (proj2 (Z.ltb_ge _ MinSecretBytes)), Ea, Et by done. cbn [String.eqb].
  rewrite (proj2 (Z.ltb_ge ttl _)), (proj2 (Z.ltb_ge _ ttl)), (proj2 (Z.leb_gt _ 0)) by lia.
  change (String.eqb AccessTokenIssuer "") with false. cbn [orb negb at_verifier].
  rewrite bool_decide_eq_false_2 by done. eexists. split; [done|]. cbn [srv_WriteTimeout].
  unfold writeGrace, Second. lia.
Qed.
End Build.

(** ** Who a command acts as *)

Lemma fold_unsafe_safe fuel : ∀ b, forallb actor_char (fold_unsafe fuel b) = true.
Proof.
  induction fuel as [|fuel IH]; intros b; [done|]. destruct b as [|c b]; [done|]. cbn [fold_unsafe forallb].
  rewrite IH, andb_true_r. by destruct (actor_char c) eqn:E; [|vm_compute].
Qed.

(** Whatever the login is called, the audit log does not take a command for a credential or a person. *)
Lemma osUserActor_safe username :
  ∃ s, osUserActor username = "cli" +:+ s ∧ forallb (λ c, actor_char c || Ascii.eqb c ":") (lit s) = true ∧
  ∀ c u, osUserActor username ≠ AdminCredential_Actor c ∧ osUserActor username ≠ AdminUser_Actor u.
Proof.
  unfold osUserActor. case_match.
  { exists "". split_and!; done. }
  set (f := fold_unsafe _ _). exists (":" +:+ str f). split_and!; [done| |done].
  change (lit (":" +:+ str f)) with (":"%char :: lit (str f)). rewrite lit_str. cbn [forallb].
  apply andb_true_iff. split; [done|]. pose proof (fold_unsafe_safe (String.length username) (lit username)) as Hs. fold f in Hs.
  rewrite forallb_forall in *. intros c Hc. by rewrite (Hs c Hc).
Qed.

(** ** A token made by the command *)

Lemma credentialSpec_Ok name role expiresIn now spec :
  credentialSpec name role expiresIn now = Ok spec →
  nc_Name spec = name ∧ nc_Role spec = role ∧ Role_Valid role = true ∧
  match nc_ExpiresAt spec with
  | None => expiresIn = ""
  | Some e => ∃ d, ParseDuration expiresIn = Ok d ∧ 0 < d ∧ e = now + d
  end.
Proof.
  unfold credentialSpec. destruct (Role_Valid role); [|done]. cbn [negb].
  destruct (String.eqb_spec expiresIn "") as [->|_]; [by intros [= <-]|].
  destruct (ParseDuration expiresIn) as [d|]; [|done]. destruct (d <=? 0) eqn:Ed; [done|]. bool_prop.
  intros [= <-]. cbn. split_and!; try done. by exists d.
Qed.

Lemma credentialSpec_days name role n now :
  1 ≤ n ≤ 106751 → Role_Valid role = true →
  credentialSpec name role (pretty n +:+ "d") now = Ok (mkNewAdminCredential name role (Some (now + n * (24 * Hour)))).
Proof.
  intros Hn Hr. unfold credentialSpec. rewrite Hr. cbn [negb].
  destruct (ParseDuration_days n ltac:(lia)) as [-> Hw]. rewrite Hw by lia.
  destruct (String.eqb_spec (pretty n +:+ "d") "") as [E|_].
  { apply (f_equal lit) in E. rewrite lit_append in E. by destruct (lit (pretty n)). }
  rewrite (proj2 (Z.leb_gt _ 0)) by (unfold Hour, Minute, Second; lia). done.
Qed.

Section Made.
Context (sha256 : bytes → bytes) (uuid_String : uuid → string) (jsonb : string → option string).
Context `{Jwt} (read_token : bytes → token).

(** An issued credential presented: taken until it expires, refused from then on. *)
Lemma issued_presented spec issued a r :
  issued_as sha256 spec issued (at_creds a) → at_creds_fault a = None →
  rq_Header r !! CanonicalHeaderKey "Authorization" = Some ("Bearer " +:+ ic_Secret issued) →
  authenticate sha256 read_token a r =
    if match nc_ExpiresAt spec with Some e => at_now a <? pg_time e | None => true end
    then Some (machineIdentity (ic_Credential issued), Some (ac_ID (ic_Credential issued), at_now a)) else None.
Proof.
  intros (Hne & Hplain & Hk & _ & _ & Hr & He) Hf Hh. unfold authenticate.
  rewrite (bearer_presented _ _ Hh Hne Hplain), bool_decide_false, plain_no_dots by done. simpl Nat.eqb. cbn match.
  unfold authenticateMachine. rewrite Hf, Hk. unfold AdminCredential_Revoked, AdminCredential_Expired. rewrite Hr, He.
  destruct (nc_ExpiresAt spec) as [e|]; [|done]. cbn [fmap option_fmap option_map]. unfold Before.
  by destruct (at_now a <? pg_time e).
Qed.

Lemma created_as chs current name role expiresIn now s s' issued tr :
  run (svc_perform jsonb uuid_String) chs (create_token sha256 current name role expiresIn now) s = Some (s', Ok issued, tr) →
  ∃ spec, credentialSpec name role expiresIn now = Ok spec ∧ issued_as sha256 spec issued (sw_db s').
Proof.
  unfold create_token. destruct (credentialSpec name role expiresIn now) as [spec|e]; intros Hrun.
  - exists spec. split; [done|].
    exact (wp_run _ _ _ _ _ _ _ _ _ (Forall_true _ _ (λ _, I)) (Credentials_Create_wp sha256 uuid_String jsonb _ spec s)
             Hrun issued eq_refl).
  - destruct chs; discriminate Hrun.
Qed.

(** C40. A token [go-route-admin create-token --expires-in <n>d] printed, for [n] from 1 to the 106751
    days a Go duration holds (more wrap around: [long_lifetimes_wrap]): presented to the admin API,
    with the credentials as the command left them, so not revoked, and the lookup answering, it is
    taken as the credential with the role asked for until [n] days after the command ran, to the
    microsecond, and refused from then on. *)
Theorem created_token_lifetime chs current name role n now s s' issued tr a r :
  1 ≤ n ≤ 106751 →
  run (svc_perform jsonb uuid_String) chs (create_token sha256 current name role (pretty n +:+ "d") now) s
    = Some (s', Ok issued, tr) →
  at_creds a = sw_db s' → at_creds_fault a = None →
  rq_Header r !! CanonicalHeaderKey "Authorization" = Some ("Bearer " +:+ ic_Secret issued) →
  ac_Role (ic_Credential issued) = role ∧
  authenticate sha256 read_token a r =
    if at_now a <? pg_time (now + n * (24 * Hour))
    then Some (machineIdentity (ic_Credential issued), Some (ac_ID (ic_Credential issued), at_now a)) else None.
Proof.
  intros Hn Hrun Hdb Hf Hh. apply created_as in Hrun as (spec & Hs & Hi).
  assert (Hv : Role_Valid role = true) by by apply credentialSpec_Ok in Hs as (_ & _ & ? & _).
  rewrite credentialSpec_days in Hs by done. injection Hs as <-. rewrite <- Hdb in Hi. split; [apply Hi|].
  by rewrite (issued_presented _ _ _ _ Hi Hf Hh).
Qed.
End Made.

(** ** An example: a token for ninety days *)

Definition ex_made := run (svc_perform ex_jsonb ex_show) (ex_chs 1)
  (create_token ex_sha (Ok "CORP\jane") "audit" RoleReadonly "90d" (3 * Second)) ex_before.
Definition ex_made_issued : IssuedAdminCredential :=
  match ex_made with Some (_, Ok i, _) => i | _ => no_credential end.
Definition ex_made_world : svc_world := match ex_made with Some (s, _, _) => s | None => ex_before end.
Definition ex_made_gate (now : time) : Authenticators :=
  mkAuthenticators (sw_db ex_made_world) None empty_db None (Some ex_issuer) now.
Definition ex_made_request : request :=
  mkRequest "GET" ["admin"; "v1"; "tenants"] ∅ {["Authorization" := "Bearer " +:+ ic_Secret ex_made_issued]}
    "10.0.0.1:5000" [] None None None None.

Lemma ex_made_ok : ∃ tr, ex_made = Some (ex_made_world, Ok ex_made_issued, tr).
Proof. eexists. by vm_compute. Qed.

Lemma created_token_lifetime_witness :
  ac_Role (ic_Credential ex_made_issued) = RoleReadonly ∧
  authenticate ex_sha ex_read_token (ex_made_gate (3 * Second + 90 * (24 * Hour))) ex_made_request = None.
Proof.
  destruct ex_made_ok as [tr Hm].
  refine (created_token_lifetime ex_sha ex_show ex_jsonb ex_read_token (ex_chs 1) (Ok "CORP\jane") "audit" RoleReadonly 90
            (3 * Second) ex_before ex_made_world ex_made_issued tr (ex_made_gate (3 * Second + 90 * (24 * Hour)))
            ex_made_request _ Hm _ _ _).
  - lia.
  - done.
  - done.
  - by vm_compute.
Defined.

Example ex_made_actor : osUserActor "CORP\jane" = "cli:CORP_jane" ∧ osUserActor "josé" = "cli:jos_".
Proof. by vm_compute. Qed.

(** A lifetime of 213504 days is one of twenty-five minutes. *)
Lemma long_token_short_lived :
  (λ spec, (λ e, e - 3 * Second) <$> nc_ExpiresAt spec) <$>
    match credentialSpec "audit" RoleReadonly "213504d" (3 * Second) with Ok s => Some s | Err _ => None end =
  Some (Some 1526290448384).
Proof. by vm_compute. Qed.
