(* ===== verification/ConfigLoad.v ===== *)
(** Reading the configuration: [Load] and [expandEnv] of [src/internal/config/config.go].

    A reference to an environment variable is found by the expression the code compiles; decoding YAML
    is the yaml package's, and a parameter. *)
From Stdlib Require Import Ascii.
From S2P Require Import Prelude Sorting Errors Bytes Config Display.

(** ** References *)

Definition DOLLAR : ascii := "$".
Definition name_start (c : ascii) : bool := between 65 90 c || between 97 122 c || Ascii.eqb c "_".
Definition name_char (c : ascii) : bool := name_start c || is_digit c.

Fixpoint span_name (b : bytes) : bytes * bytes :=
  match b with
  | c :: r => if name_char c then let '(n, r) := span_name r in (c :: n, r) else ([], b)
  | [] => ([], [])
  end.

(** A reference at the start of a text: its name and what follows it. No shorter match would do, since
    a brace is no character of a name.

    [src/internal/config/config.go:113-113] envRef *)
Definition match_ref (b : bytes) : option (bytes * bytes) :=
  match CutPrefix (lit "${") b with
  | None => None
  | Some r =>
      match span_name r with
      | (c :: n, "}"%char :: r) => if name_start c then Some (c :: n, r) else None
      | _ => None
      end
  end.

(** [ReplaceAllFunc]: references from the left, the text put in not looked at again. Every step takes a
    byte at least. *)
Fixpoint replace_refs (lookup : bytes → option bytes) (fuel : nat) (b : bytes) : bytes * list bytes :=
  match fuel, b with
  | S fuel, c :: r =>
      match match_ref b with
      | Some (name, rest) =>
          let '(out, missing) := replace_refs lookup fuel rest in
          match lookup name with
          | Some v => (v ++ out, missing)
          | None => (out, name :: missing)
          end
      | None => let '(out, missing) := replace_refs lookup fuel r in (c :: out, missing)
      end
  | _, _ => ([], [])
  end.

(** [src/internal/config/config.go:144-163] expandEnv *)
Definition expandEnv (lookup : bytes → option bytes) (raw : bytes) : result error bytes :=
  let '(out, missing) := replace_refs lookup (length raw) raw in
  if Nat.ltb 0 (length missing)
  then Err (Errorf "config: unset environment variables: %s" [AStr (join ", " (sort_strings (map str missing)))])
  else Ok out.

(** [cfg.Listen] where none is given. *)
Definition with_listen (c : Config) : Config :=
  if String.eqb (c_Listen c) ""
  then mkConfig ":4000" (c_Providers c) (c_Targets c) (c_Models c) (c_Sink c) (c_Pricing c) (c_Redis c) (c_Quota c)
  else c.

(** [read] is what reading the file came to, [decode] the strict YAML decoder.

    [src/internal/config/config.go:115-142] Load *)
Definition Load (read : result error bytes) (decode : bytes → result error Config) (lookup : bytes → option bytes)
    (path : string) : result error Config :=
  match read with
  | Err e => Err (Errorf "config: read %s: %w" [AStr path; AWrap e])
  | Ok raw =>
      let! expanded := expandEnv lookup raw in
      match decode expanded with
      | Err e => Err (Errorf "config: parse %s: %w" [AStr path; AWrap e])
      | Ok cfg =>
          let cfg := applyQuotaDefaults (with_listen cfg) in
          match validate cfg with Some e => Err e | None => Ok cfg end
      end
  end.

(** ** What the text means *)

(** A configuration file as its author sees it: plain text, and names of variables. *)
Inductive piece := Plain (b : bytes) | Ref (name : bytes).

Definition written (p : piece) : bytes :=
  match p with Plain b => b | Ref n => lit "${" ++ n ++ lit "}" end.
Definition meant (lookup : bytes → option bytes) (p : piece) : bytes :=
  match p with Plain b => b | Ref n => default [] (lookup n) end.
Definition unset (lookup : bytes → option bytes) (p : piece) : list bytes :=
  match p with Ref n => match lookup n with None => [n] | Some _ => [] end | Plain _ => [] end.

Definition good_name (n : bytes) : Prop := ∃ c r, n = c :: r ∧ name_start c = true ∧ forallb name_char r = true.
Definition good_piece (p : piece) : Prop :=
  match p with Plain b => DOLLAR ∉ b | Ref n => good_name n end.

Lemma span_name_all n b : forallb name_char n = true → (∀ c r, b = c :: r → name_char c = false) →
  span_name (n ++ b) = (n, b).
Proof.
  intros Hn Hb. induction n as [|c n IH]; cbn [app span_name].
  - destruct b as [|c b]; [done|]. cbn [span_name]. by rewrite (Hb c b eq_refl).
  - cbn [forallb] in Hn. apply andb_true_iff in Hn as [Hc Hn]. by rewrite Hc, IH.
Qed.

Lemma match_ref_written n b : good_name n → match_ref (lit "${" ++ n ++ lit "}" ++ b) = Some (n, b).
Proof.
  intros (c & r & -> & Hc & Hr). unfold match_ref. rewrite CutPrefix_app, span_name_all.
  - cbn [app]. by rewrite Hc.
  - cbn [forallb]. unfold name_char at 1. by rewrite Hc, Hr.
  - by intros ? ? [= <- <-].
Qed.

Lemma match_ref_plain c b : c ≠ DOLLAR → match_ref (c :: b) = None.
Proof. intros Hc. unfold match_ref, CutPrefix, lit. cbn. by rewrite decide_False by (intros E; by apply Hc). Qed.

(** Enough fuel is as good as any. *)
Lemma replace_refs_pieces lookup ps : ∀ fuel, Forall good_piece ps → (length (concat (map written ps)) ≤ fuel)%nat →
  replace_refs lookup fuel (concat (map written ps)) = (concat (map (meant lookup) ps), concat (map (unset lookup) ps)).
Proof.
  induction ps as [|p ps IH]; intros fuel Hps Hf.
  { by destruct fuel. }
  apply Forall_cons_1 in Hps as [Hp Hps]. cbn [map concat] in *. rewrite length_app in Hf.
  destruct p as [b|n]; cbn [written meant unset] in *.
  - revert fuel Hf. induction b as [|c b IHb]; intros fuel Hf; [cbn [app length] in *; by apply IH|].
    apply not_elem_of_cons in Hp as [Hc Hb]. destruct fuel as [|fuel]; [cbn [length] in Hf; lia|].
    cbn [app replace_refs]. rewrite match_ref_plain by congruence.
    rewrite (IHb Hb fuel) by (cbn [length] in Hf; lia). done.
  - rewrite <- !app_assoc. destruct fuel as [|fuel]; [rewrite !length_app in Hf; cbn in Hf; lia|].
    change (lit "${" ++ n ++ lit "}" ++ concat (map written ps)) with
      (DOLLAR :: lit "{" ++ n ++ lit "}" ++ concat (map written ps)).
    cbn [replace_refs].
    change (DOLLAR :: lit "{" ++ n ++ lit "}" ++ concat (map written ps)) with
      (lit "${" ++ n ++ lit "}" ++ concat (map written ps)).
    rewrite match_ref_written, IH by (done || (rewrite !length_app in Hf; cbn in Hf; lia)).
    by destruct (lookup n).
Qed.

(** Each reference becomes the variable's value, which is not looked at again, and the rest of the text
    stays as it is; where a variable is not set, all that are not are named, in order, and nothing is
    read. *)
Theorem expandEnv_pieces lookup ps : Forall good_piece ps →
  expandEnv lookup (concat (map written ps)) =
    match concat (map (unset lookup) ps) with
    | [] => Ok (concat (map (meant lookup) ps))
    | missing => Err (Errorf "config: unset environment variables: %s"
                        [AStr (join ", " (sort_strings (map str missing)))])
    end.
Proof.
  intros Hps. unfold expandEnv. rewrite replace_refs_pieces by done. by destruct (concat (map (unset lookup) ps)).
Qed.

(** A configuration that is loaded has passed validation, with its defaults filled in. *)
Lemma Load_valid read decode lookup path c : Load read decode lookup path = Ok c →
  validate c = None ∧ c_Listen c ≠ "" ∧
  ∃ raw text c0, read = Ok raw ∧ expandEnv lookup raw = Ok text ∧ decode text = Ok c0 ∧
                 c = applyQuotaDefaults (with_listen c0).
Proof.
  unfold Load. destruct read as [raw|e]; [|done]. destruct (expandEnv lookup raw) as [text|e] eqn:Ex; [|done].
  cbn [result_bind]. destruct (decode text) as [c0|e] eqn:Ed; [|done]. cbv zeta.
  destruct (validate _) as [e|] eqn:Ev; [done|]. intros [= <-]. split; [done|]. split; [|by exists raw, text, c0].
  unfold applyQuotaDefaults, with_listen. cbn [c_Listen]. by destruct (String.eqb_spec (c_Listen c0) "").
Qed.

Example expand_examples :
  let env n := if String.eqb (str n) "KEY" then Some (lit "sk-${HOME}") else None in
  expandEnv env (lit "api_key: ${KEY} # costs $5, ${}") = Ok (lit "api_key: sk-${HOME} # costs $5, ${}") ∧
  expandEnv env (lit "# ${UNUSED} ${B} ${A}") =
    Err (Errorf "config: unset environment variables: %s" [AStr "A, B, UNUSED"]).
Proof. by vm_compute. Qed.
