(* ===== verification/Shutdown.v ===== *)
(** The life of the proxy's process: [runServe] of [src/cmd/go-route/serve.go] over the sink of [Sink].

    The handlers of the requests in flight, the sink's loop and the command interleave. A signal stops
    the listener; the command waits for the handlers for as long as it drains, cuts those that are left,
    flushes the sink and closes what it opened. Cutting a request cancels it; its handler then records
    what happened and returns in its own time. The administration service's process, [runServe] of
    [src/cmd/go-route-admin/serve.go], is the same without a sink. *)
From S2P Require Import Prelude Channel Errors Records Sink.

(** ** Closing what was opened *)

Inductive close_event := EnforcerClosed | ClientClosed | PartitionsStopped | PoolReleased.

Definition first_error (a b : option error) : option error := match a with Some _ => a | None => b end.

(** What closing the quota comes to; without a Redis there is nothing to close.

    [src/internal/bootstrap/quota.go:72-81] buildQuota *)
Definition closeQuota (enabled : bool) (enforcer client : option error) : list close_event * option error :=
  if enabled then ([EnforcerClosed; ClientClosed], first_error enforcer client) else ([], None).

(** [src/internal/bootstrap/boostrap.go:64-71] Build *)
Definition App_Close (enabled : bool) (enforcer client partitions : option error) : list close_event * option error :=
  let '(evs, err) := closeQuota enabled enforcer client in
  (evs ++ [PartitionsStopped; PoolReleased], first_error err partitions).

(** [src/internal/bootstrap/admin.go:86-90] BuildAdmin *)
Definition AdminApp_Close (partitions : option error) : list close_event * option error :=
  ([PartitionsStopped; PoolReleased], partitions).

(** Nothing is left open for an error met on the way, the pool goes last, after those that write through
    it, and the error returned is the first. *)
Lemma App_Close_complete enabled enforcer client partitions :
  (∃ evs, (App_Close enabled enforcer client partitions).1 = evs ++ [PartitionsStopped; PoolReleased] ∧
          (enabled = true → EnforcerClosed ∈ evs ∧ ClientClosed ∈ evs)) ∧
  (App_Close enabled enforcer client partitions).2 =
    if enabled then head (omap id [enforcer; client; partitions]) else partitions.
Proof.
  split; [|by destruct enabled, enforcer, client, partitions].
  exists (closeQuota enabled enforcer client).1. destruct enabled; split; try done. intros _. set_solver.
Qed.

(** A handler: at work on its request, recording the decision, or back. *)
Inductive handler_pc := Working | Recording (p : sink_pc) | Answered.

(** Where the command is. [Flushing] is inside [Sink.Flush]; [Closing] holds what it returned. *)
Inductive serve_pc :=
| Serving | Draining | Flushing (p : sink_pc) | Closing (flush : option error) | Exited (err : option error).

(** [sv_cut] says whether the drain window ran out. *)
Record process (W : Type) := mkProcess {
  sv_pc : serve_pc;
  sv_cut : bool;
  sv_handlers : list handler_pc;
  sv_sink : Buffered W;
}.
Arguments mkProcess {W} _ _ _ _.
Arguments sv_pc {W} _.
Arguments sv_cut {W} _.
Arguments sv_handlers {W} _.
Arguments sv_sink {W} _.

Definition after_record (p : sink_pc) : handler_pc :=
  match p with Sink_returned _ => Answered | _ => Recording p end.
Definition after_flush (p : sink_pc) : serve_pc :=
  match p with Sink_returned e => Closing e | _ => Flushing p end.

(** The process ends with the command: what other goroutines had left to do is not done. *)
Definition alive (pc : serve_pc) : Prop := match pc with Exited _ => False | _ => True end.

(** Whether a handler may start: a connection accepted just before the signal may still bring its
    request while the command drains, which the drain waits for, or after the drain window ran out. *)
Definition accepting (pc : serve_pc) (cut : bool) : Prop :=
  match pc with Serving | Draining => True | Exited _ => False | _ => cut = true end.

Section Process.
Context {W : Type} `{RecordWriter W}.
Implicit Types (s : process W) (b : Buffered W).

(** [net/http]'s [Shutdown] returns without an error once no handler is running, and with the
    deadline's when the drain window runs out first.

    [src/cmd/go-route/serve.go:34-98] runServe *)
Inductive serve_step : process W → process W → Prop :=
| serve_accept pc cut hs b :
    accepting pc cut → serve_step (mkProcess pc cut hs b) (mkProcess pc cut (hs ++ [Working]) b)
| serve_refused pc cut hs b i :
    alive pc → hs !! i = Some Working → serve_step (mkProcess pc cut hs b) (mkProcess pc cut (<[i := Answered]> hs) b)
| serve_record pc cut hs b i d :
    alive pc → hs !! i = Some Working → serve_step (mkProcess pc cut hs b) (mkProcess pc cut (<[i := Recording (Record_load d)]> hs) b)
| serve_recording pc cut hs b i p b' p' :
    alive pc → hs !! i = Some (Recording p) → Record_step b p = Sink_goes b' p' →
    serve_step (mkProcess pc cut hs b) (mkProcess pc cut (<[i := after_record p']> hs) b')
| serve_loop pc cut hs b b' :
    alive pc → sink_loop b b' → serve_step (mkProcess pc cut hs b) (mkProcess pc cut hs b')
| serve_listen_failed cut hs b e :
    serve_step (mkProcess Serving cut hs b) (mkProcess (Exited (Some e)) cut hs b)
| serve_signal cut hs b :
    serve_step (mkProcess Serving cut hs b) (mkProcess Draining cut hs b)
| serve_drained cut hs b :
    Forall (λ h, h = Answered) hs →
    serve_step (mkProcess Draining cut hs b) (mkProcess (Flushing Flush_once) cut hs b)
| serve_expired cut hs b :
    serve_step (mkProcess Draining cut hs b) (mkProcess (Flushing Flush_once) true hs b)
| serve_flush cut hs b ctx p b' p' :
    Flush_step b ctx p = Sink_goes b' p' →
    serve_step (mkProcess (Flushing p) cut hs b) (mkProcess (after_flush p') cut hs b')
| serve_closed cut hs b flush :
    serve_step (mkProcess (Closing flush) cut hs b) (mkProcess (Exited None) cut hs b).

Definition serve_initial (w : W) (cfg : SinkConfig) : process W := mkProcess Serving false [] (NewBuffered w cfg).

(** A send on the closed channel, in a handler or in [Flush]. *)
Definition serve_panics s : Prop :=
  (∃ i p, sv_handlers s !! i = Some (Recording p) ∧ Record_step (sv_sink s) p = Sink_panics) ∨
  (∃ ctx p, sv_pc s = Flushing p ∧ Flush_step (sv_sink s) ctx p = Sink_panics).

(** ** The invariant *)

(** The sink is as open as the command's place in its life says. *)
Definition stage (pc : serve_pc) b : Prop :=
  match pc with
  | Serving | Draining | Flushing Flush_once => b_stopOnce b = OnceNew ∧ b_closed b = false ∧ ch_closed (b_ch b) = false
  | Flushing Flush_store => b_stopOnce b = OnceRunning ∧ b_closed b = false ∧ ch_closed (b_ch b) = false
  | Flushing Flush_close => b_stopOnce b = OnceRunning ∧ ch_closed (b_ch b) = false
  | Flushing Flush_wait | Closing _ => ch_closed (b_ch b) = true
  | Flushing _ => False
  | Exited (Some _) => ch_closed (b_ch b) = false
  | Exited None => ch_closed (b_ch b) = true
  end.

Record serve_inv s : Prop := {
  sv_fifo : sink_inv (sv_sink s);
  sv_stage : stage (sv_pc s) (sv_sink s);
  sv_quiet : sv_cut s = false →
    match sv_pc s with Flushing _ | Closing _ | Exited None => Forall (λ h, h = Answered) (sv_handlers s) | _ => True end;
  sv_flushed : sv_pc s = Closing None → b_done (sv_sink s) = true;
}.

(** The other goroutines leave the sink's stage as it is. *)
Lemma Record_step_stage pc b p b' p' : Record_step b p = Sink_goes b' p' → stage pc b → stage pc b' ∧ b_done b' = b_done b.
Proof.
  intros Hs Hg. assert (E : b_stopOnce b' = b_stopOnce b ∧ b_closed b' = b_closed b ∧ ch_closed (b_ch b') = ch_closed (b_ch b) ∧
                           b_done b' = b_done b).
  { destruct p; cbn [Record_step] in Hs; try done.
    - destruct (b_closed b) eqn:Ec; simplify_eq; by rewrite ?Ec.
    - destruct (try_send (b_ch b) d) as [c| |] eqn:Es; simplify_eq; [|done].
      unfold try_send in Es. by repeat case_match; simplify_eq/=. }
  destruct E as (E1 & E2 & E3 & E4). split; [|done]. destruct pc as [| |[]| |[]]; cbn [stage] in *; by rewrite ?E1, ?E2, ?E3.
Qed.

Lemma sink_loop_stage pc b b' : sink_loop b b' → stage pc b → stage pc b' ∧ (b_done b = true → b_done b' = true).
Proof.
  intros Hl Hg.
  assert (E : b_stopOnce b' = b_stopOnce b ∧ b_closed b' = b_closed b ∧ ch_closed (b_ch b') = ch_closed (b_ch b) ∧
              (b_done b = true → b_done b' = true)).
  { assert (Hw : ∀ c l, b_stopOnce (b_write c l) = b_stopOnce c ∧ b_closed (b_write c l) = b_closed c ∧
                        b_ch (b_write c l) = b_ch c ∧ b_done (b_write c l) = b_done c).
    { intros c l. unfold b_write. case_match; [done|]. by destruct (Writer_Write _ _) as [w [e|]]. }
    destruct Hl as [d c Hn Hr bt|Hn Hr|Hn].
    - apply receive_fifo in Hr as (_ & _ & Hc). destruct (Hw bt (b_batch bt)) as (W1 & W2 & W3 & _).
      split_and!; [..|congruence]; case_match; unfold bt in *; cbn in *; congruence.
    - destruct (Hw b (b_batch b)) as (W1 & W2 & W3 & _). split_and!; [..|done]; cbn in *; congruence.
    - destruct (Hw b (b_batch b)) as (W1 & W2 & W3 & _). split_and!; [..|congruence]; case_match; cbn in *; congruence. }
  destruct E as (E1 & E2 & E3 & E4). split; [|done]. destruct pc as [| |[]| |[]]; cbn [stage] in *; by rewrite ?E1, ?E2, ?E3.
Qed.

(** The steps of the sink are steps of [Sink]'s system, so its invariant holds here too. *)
Lemma Record_step_fifo b p b' p' : Record_step b p = Sink_goes b' p' → sink_inv b → sink_inv b'.
Proof.
  intros Hs Hi. refine (sink_inv_step (mkSinkSystem b [p]) (mkSinkSystem b' [p']) _ Hi).
  apply (sink_thread b [p] 0 p None b' p'); [done|]. by destruct p.
Qed.

Lemma Flush_step_fifo b ctx p b' p' : Flush_step b ctx p = Sink_goes b' p' → sink_inv b → sink_inv b'.
Proof.
  intros Hs Hi. refine (sink_inv_step (mkSinkSystem b [p]) (mkSinkSystem b' [p']) _ Hi).
  apply (sink_thread b [p] 0 p ctx b' p'); [done|]. by destruct p.
Qed.

Lemma Flush_step_stage b ctx p b' p' : Flush_step b ctx p = Sink_goes b' p' → stage (Flushing p) b →
  stage (after_flush p') b' ∧ (after_flush p' = Closing None → b_done b' = true).
Proof.
  destruct p as [| | | | | |]; cbn [Flush_step stage]; try done.
  - intros Hs (E1 & E2 & E3). rewrite E1 in Hs. by simplify_eq/=.
  - intros Hs (E1 & E2 & E3). by simplify_eq/=.
  - intros Hs (E1 & E3). unfold close_chan in Hs. rewrite E3 in Hs. by simplify_eq/=.
  - intros Hs E3. destruct ctx as [e|]; [by simplify_eq/=|]. destruct (b_done b) eqn:Ed; by simplify_eq/=.
Qed.

Lemma all_answered hs i h : Forall (λ h, h = Answered) hs → hs !! i = Some h → h = Answered.
Proof. intros Hf Hi. by apply (Forall_lookup_1 _ _ _ _ Hf Hi). Qed.

Lemma answered_stays hs i h h' : Forall (λ h, h = Answered) hs → hs !! i = Some h → h ≠ Answered → Forall (λ h, h = Answered) (<[i := h']> hs).
Proof. intros Hf Hi []. by apply (all_answered hs i). Qed.

(** A handler that is still at work means nobody counts on silence. *)
Lemma quiet_kept pc cut hs i h h' :
  hs !! i = Some h → h ≠ Answered →
  (cut = false → match pc with Flushing _ | Closing _ | Exited None => Forall (λ h, h = Answered) hs | _ => True end) →
  cut = false → match pc with Flushing _ | Closing _ | Exited None => Forall (λ h, h = Answered) (<[i := h']> hs) | _ => True end.
Proof.
  intros Hi Hn Hq Hc. specialize (Hq Hc). destruct pc as [| | | |[]]; try done; by eapply answered_stays.
Qed.

Lemma serve_inv_step s s' : serve_step s s' → serve_inv s → serve_inv s'.
Proof.
  intros Hs [Hf Hg Hq Hd].
  destruct Hs as [pc cut hs b Hac|pc cut hs b i Hal Hi|pc cut hs b i d Hal Hi|pc cut hs b i p b' p' Hal Hi Hr|pc cut hs b b' Hal Hl
    |cut hs b e|cut hs b|cut hs b Hall|cut hs b|cut hs b ctx p b' p' Hfl|cut hs b flush]; cbn [sv_pc sv_cut sv_handlers sv_sink] in *.
  - split; try done. cbn. intros ->. by destruct pc as [| | | |[]].
  - split; try done. by apply (quiet_kept _ _ _ _ Working).
  - split; try done. by apply (quiet_kept _ _ _ _ Working).
  - destruct (Record_step_stage pc _ _ _ _ Hr Hg) as [Hg' Ed]. split; cbn [sv_pc sv_cut sv_handlers sv_sink]; [|done| |].
    + by eapply Record_step_fifo.
    + by apply (quiet_kept _ _ _ _ (Recording p)).
    + intros E. rewrite Ed. by apply Hd.
  - destruct (sink_loop_stage pc _ _ Hl Hg) as [Hg' Ed]. split; cbn [sv_pc sv_cut sv_handlers sv_sink]; [|done..|].
    + by eapply sink_loop_inv.
    + intros E. by apply Ed, Hd.
  - split; try done. apply Hg.
  - by split.
  - by split.
  - by split.
  - destruct (Flush_step_stage _ _ _ _ _ Hfl Hg) as [Hg' Ed]. split; cbn [sv_pc sv_cut sv_handlers sv_sink]; [|done| |done].
    + by eapply Flush_step_fifo.
    + intros Hc. specialize (Hq Hc). by destruct p'.
  - by split.
Qed.

Lemma serve_initial_inv w cfg : serve_inv (serve_initial w cfg).
Proof. split; try done. apply initial_sink_inv. Qed.

Lemma serve_reachable_inv w cfg s : rtc serve_step (serve_initial w cfg) s → serve_inv s.
Proof.
  intros Hr. pose proof (serve_initial_inv w cfg) as Hi. revert Hi.
  induction Hr as [|s1 s2 s3 Hs _ IH]; [done|]. intros Hi. by eapply IH, serve_inv_step.
Qed.

(** C38. A shutdown that drains in time: however the handlers, the sink's loop and the command
    interleave, unless the drain window ran out nothing panics. And whenever [Flush] returned without
    an error, even after requests were cut, every decision the sink accepted was handed to the writer,
    in the order it was recorded, before anything it is written with is closed. *)
Theorem shutdown_keeps_records w cfg s :
  rtc serve_step (serve_initial w cfg) s →
  (sv_cut s = false → ¬ serve_panics s) ∧
  (sv_pc s = Closing None → b_accepted (sv_sink s) = concat (b_batches (sv_sink s)).*1).
Proof.
  intros Hr%serve_reachable_inv. destruct Hr as [Hf Hg Hq Hd]. destruct s as [pc cut hs b]. cbn [sv_pc sv_cut sv_handlers sv_sink] in *.
  split.
  - intros -> [(i & p & Hi & Hp)|(ctx & p & E & Hp)]; cbn [sv_pc sv_handlers sv_sink] in *.
    + specialize (Hq eq_refl). destruct p as [d|d| | | | |]; cbn [Record_step] in Hp; try (by case_match).
      assert (Hc : ch_closed (b_ch b) = true) by (apply (try_send_panic _ d); by case_match).
      destruct pc as [| |p| |[]]; cbn [stage] in Hg; first [discriminate (all_answered _ _ _ Hq Hi)|congruence|destruct Hg as (_ & _ & Ho); congruence].
    + subst pc. destruct p as [d|d| | | | |]; cbn [Flush_step stage] in *; try done; try (by repeat case_match).
      destruct Hg as [_ Ho]. unfold close_chan in Hp. by rewrite Ho in Hp.
  - intros ->. destruct (si_done _ Hf (Hd eq_refl)) as (Eb & Ec & _). rewrite (si_fifo _ Hf), Eb, Ec. by rewrite app_nil_r.
Qed.
End Process.

(** *** Cutting streams

    When the drain window runs out the handlers that were cut are not waited for: one that has seen the
    sink open and is about to send when [Flush] closes the channel panics the process. *)
Lemma cut_streams_panic :
  ∃ s : process unit, rtc serve_step (serve_initial tt ex_sink_cfg) s ∧ serve_panics s.
Proof.
  set (b0 := NewBuffered tt ex_sink_cfg).
  exists (mkProcess (Flushing Flush_wait) true [Recording (Record_send ex_decision)]
            (b_stop (b_stop (b_stop b0 OnceRunning false (b_ch b0)) OnceRunning true (b_ch b0)) OnceDone true (mkChan [] 2 true))).
  split.
  - eapply rtc_l; [by apply (serve_accept Serving false [] b0)|]. cbn [app].
    eapply rtc_l; [by apply (serve_record _ _ _ _ 0 ex_decision)|]. cbn [insert list_insert].
    eapply rtc_l; [by apply (serve_recording _ _ _ b0 0 (Record_load ex_decision) b0 (Record_send ex_decision))|].
    eapply rtc_l; [apply serve_signal|]. eapply rtc_l; [apply serve_expired|].
    eapply rtc_l; [by eapply (serve_flush _ _ _ None)|]. eapply rtc_l; [by eapply (serve_flush _ _ _ None)|].
    eapply rtc_l; [by eapply (serve_flush _ _ _ None)|]. apply rtc_refl.
  - left. exists 0%nat, (Record_send ex_decision). done.
Qed.

(** *** A listener that fails

    That way out closes the application without flushing its sink: what is still queued is lost. *)
Definition ex_queued : Buffered unit :=
  b_enqueue (NewBuffered tt ex_sink_cfg) ex_decision (mkChan [ex_decision] 2 false).

Lemma ex_recorded : rtc serve_step (serve_initial tt ex_sink_cfg) (mkProcess Serving false [Answered] ex_queued).
Proof.
  set (b0 := NewBuffered tt ex_sink_cfg).
  eapply rtc_l; [by apply (serve_accept Serving false [] b0)|]. cbn [app].
  eapply rtc_l; [by apply (serve_record _ _ _ _ 0 ex_decision)|].
  eapply rtc_l; [by apply (serve_recording _ _ _ b0 0 (Record_load ex_decision) b0 (Record_send ex_decision))|].
  eapply rtc_l; [by apply (serve_recording _ _ _ b0 0 (Record_send ex_decision) ex_queued (Sink_returned None))|].
  apply rtc_refl.
Qed.

Lemma listen_failure_loses_records e :
  rtc serve_step (serve_initial tt ex_sink_cfg) (mkProcess (Exited (Some e)) false [Answered] ex_queued) ∧
  b_accepted ex_queued = [ex_decision] ∧ b_batches ex_queued = [].
Proof. split; [|done]. eapply rtc_r; [apply ex_recorded|apply serve_listen_failed]. Qed.

(** ** An example: one request, a signal, an orderly end *)

Definition ex_taken : Buffered unit := b_take ex_queued (mkChan [] 2 false) [ex_decision].
Definition ex_written : Buffered unit := b_clear (b_write ex_taken [ex_decision]).
Definition ex_stopping : Buffered unit := b_stop ex_written OnceRunning false (mkChan [] 2 false).
Definition ex_stopped : Buffered unit :=
  b_stop (b_stop ex_stopping OnceRunning true (mkChan [] 2 false)) OnceDone true (mkChan [] 2 true).
Definition ex_drained : Buffered unit := b_finish (b_clear (b_write ex_stopped [])).

Lemma ex_shutdown : rtc serve_step (serve_initial tt ex_sink_cfg) (mkProcess (Closing None) false [Answered] ex_drained).
Proof.
  etrans; [apply ex_recorded|].
  eapply rtc_l; [apply serve_loop; [done|by apply (sink_receive ex_queued ex_decision (mkChan [] 2 false))]|].
  eapply rtc_l; [apply serve_signal|].
  eapply rtc_l; [apply serve_drained; by repeat constructor|].
  eapply rtc_l; [by eapply (serve_flush _ _ ex_written None Flush_once ex_stopping Flush_store)|]. cbn [after_flush].
  eapply rtc_l; [by eapply (serve_flush _ _ _ None)|]. eapply rtc_l; [by eapply (serve_flush _ _ _ None)|].
  eapply rtc_l; [apply serve_loop; [done|by apply (sink_drained ex_stopped)]|].
  eapply rtc_l; [by eapply (serve_flush _ _ _ None)|]. apply rtc_refl.
Qed.

Lemma shutdown_keeps_records_witness :
  ¬ serve_panics (mkProcess (Closing None) false [Answered] ex_drained) ∧
  b_accepted ex_drained = concat (b_batches ex_drained).*1 ∧ b_batches ex_drained = [([ex_decision], true)].
Proof.
  destruct (shutdown_keeps_records tt ex_sink_cfg _ ex_shutdown) as [Hp Hb].
  split; [by apply Hp|]. split; [by apply Hb|done].
Defined.

(** ** The administration API's process

    A request of the administration API is between calls of the store or inside one, holding a
    connection of the pool. Closing the pool refuses connections from then on and, as [pgxpool]
    documents, waits for those handed out to come back. *)
Inductive admin_handler := Between | InStore | Replied.

(** [Stopping] waits for the partitions' loop and [Releasing] for the pool. *)
Inductive admin_pc :=
| AdminServing | AdminDraining | AdminStopping (err : option error) | AdminReleasing (err : option error)
| AdminExited (err : option error).

Definition admin_accepting (pc : admin_pc) (cut : bool) : Prop :=
  match pc with
  | AdminServing | AdminDraining => True
  | AdminStopping err | AdminReleasing err => cut = true ∨ err ≠ None
  | AdminExited _ => False
  end.

Record admin_process := mkAdminProcess { ap_pc : admin_pc; ap_cut : bool; ap_handlers : list admin_handler }.

Definition admin_alive (pc : admin_pc) : Prop := match pc with AdminExited _ => False | _ => True end.
(** Whether the pool still hands out connections. *)
Definition pool_open (pc : admin_pc) : bool :=
  match pc with AdminReleasing _ | AdminExited _ => false | _ => true end.

(** [src/cmd/go-route-admin/serve.go:68-117] runServe *)
Inductive admin_step : admin_process → admin_process → Prop :=
| admin_accept pc cut hs :
    admin_accepting pc cut → admin_step (mkAdminProcess pc cut hs) (mkAdminProcess pc cut (hs ++ [Between]))
| admin_acquire pc cut hs i :
    pool_open pc = true → hs !! i = Some Between →
    admin_step (mkAdminProcess pc cut hs) (mkAdminProcess pc cut (<[i := InStore]> hs))
| admin_release pc cut hs i :
    admin_alive pc → hs !! i = Some InStore →
    admin_step (mkAdminProcess pc cut hs) (mkAdminProcess pc cut (<[i := Between]> hs))
| admin_reply pc cut hs i :
    admin_alive pc → hs !! i = Some Between →
    admin_step (mkAdminProcess pc cut hs) (mkAdminProcess pc cut (<[i := Replied]> hs))
| admin_listen_failed cut hs e :
    admin_step (mkAdminProcess AdminServing cut hs) (mkAdminProcess (AdminStopping (Some e)) cut hs)
| admin_signal cut hs :
    admin_step (mkAdminProcess AdminServing cut hs) (mkAdminProcess AdminDraining cut hs)
| admin_drained cut hs :
    Forall (λ h, h = Replied) hs →
    admin_step (mkAdminProcess AdminDraining cut hs) (mkAdminProcess (AdminStopping None) cut hs)
| admin_expired cut hs :
    admin_step (mkAdminProcess AdminDraining cut hs) (mkAdminProcess (AdminStopping None) true hs)
| admin_partitions_stopped err cut hs :
    admin_step (mkAdminProcess (AdminStopping err) cut hs) (mkAdminProcess (AdminReleasing err) cut hs)
| admin_pool_released err cut hs :
    Forall (λ h, h ≠ InStore) hs →
    admin_step (mkAdminProcess (AdminReleasing err) cut hs) (mkAdminProcess (AdminExited err) cut hs).

Definition admin_initial : admin_process := mkAdminProcess AdminServing false [].

(** Nobody is waited for who has already been answered. *)
Definition admin_inv (s : admin_process) : Prop :=
  match ap_pc s with
  | AdminStopping None | AdminReleasing None => ap_cut s = false → Forall (λ h, h = Replied) (ap_handlers s)
  | AdminExited err =>
      Forall (λ h, h ≠ InStore) (ap_handlers s) ∧
      (err = None → ap_cut s = false → Forall (λ h, h = Replied) (ap_handlers s))
  | _ => True
  end.

Lemma replied_only hs i h : Forall (λ h, h = Replied) hs → hs !! i = Some h → h = Replied.
Proof. intros Hf Hi. by apply (Forall_lookup_1 _ _ _ _ Hf Hi). Qed.

(** While somebody is still at work nothing has been promised about everybody. *)
Lemma admin_inv_busy pc cut hs i h h' :
  admin_alive pc → hs !! i = Some h → h ≠ Replied → admin_inv (mkAdminProcess pc cut hs) →
  admin_inv (mkAdminProcess pc cut (<[i := h']> hs)).
Proof.
  intros Ha Hi Hn Hinv.
  destruct pc as [| |[e|]|[e|]|e]; unfold admin_inv in *; cbn [ap_pc ap_cut ap_handlers admin_alive] in *; try done;
    intros Hc; destruct Hn; by eapply replied_only; [apply Hinv|].
Qed.

Lemma admin_inv_step s s' : admin_step s s' → admin_inv s → admin_inv s'.
Proof.
  intros Hs Hi. destruct Hs as [pc cut hs Hac|pc cut hs i Ho Hh|pc cut hs i Ha Hh|pc cut hs i Ha Hh|cut hs e|cut hs|cut hs Hall|cut hs
    |err cut hs|err cut hs Hall].
  - destruct pc as [| |[e|]|[e|]|e]; try done; cbn in *; intros Hc; destruct Hac; congruence.
  - eapply admin_inv_busy; [by destruct pc|done..].
  - by eapply admin_inv_busy.
  - by eapply admin_inv_busy.
  - done.
  - done.
  - by intros _.
  - done.
  - by destruct err.
  - split; [done|]. intros ->. exact Hi.
Qed.

(** The administration API's process never ends inside a call of the store, not even when its
    listener failed or requests outlived the drain window; and after a signal and a drain in time
    every request it accepted was answered. *)
Theorem admin_shutdown_orderly s err :
  rtc admin_step admin_initial s → ap_pc s = AdminExited err →
  Forall (λ h, h ≠ InStore) (ap_handlers s) ∧
  (err = None → ap_cut s = false → Forall (λ h, h = Replied) (ap_handlers s)).
Proof.
  intros Hr. assert (Hi : admin_inv s).
  { assert (H0 : admin_inv admin_initial) by done. revert H0.
    induction Hr as [|s1 s2 s3 Hs _ IH]; [done|]. intros H1. by eapply IH, admin_inv_step. }
  intros Hp. unfold admin_inv in Hi. by rewrite Hp in Hi.
Qed.

(** A request that outlives the drain window: the store call is waited for, the reply is not. *)
Lemma admin_shutdown_orderly_witness :
  ∃ s, rtc admin_step admin_initial s ∧ ap_pc s = AdminExited None ∧ ap_handlers s = [Between] ∧
       Forall (λ h, h ≠ InStore) (ap_handlers s).
Proof.
  assert (Hr : rtc admin_step admin_initial (mkAdminProcess (AdminExited None) true [Between])).
  { eapply rtc_l; [by apply (admin_accept AdminServing false [])|]. cbn [app].
    eapply rtc_l; [by apply (admin_acquire _ _ _ 0)|]. cbn [insert list_insert].
    eapply rtc_l; [apply admin_signal|]. eapply rtc_l; [apply admin_expired|].
    eapply rtc_l; [apply admin_partitions_stopped|].
    eapply rtc_l; [by apply (admin_release _ _ _ 0)|]. cbn [insert list_insert].
    eapply rtc_l; [apply admin_pool_released; by repeat constructor|]. apply rtc_refl. }
  eexists. split; [exact Hr|]. split; [done|]. split; [done|].
  by destruct (admin_shutdown_orderly _ None Hr eq_refl).
Defined.
